(* ===== verification/_CoqProject ===== *)
-Q . S2P
Prelude.v
GoStrings.v
StringFacts.v
Url.v
Base64.v
Model.v
MemoryStore.v
MemoryStoreFacts.v
MemoryStoreProps.v
FileSystem.v
Blob.v
BlobFacts.v
BlobProps.v
DirWalk.v
Listing.v
ListingProps.v
Http.v
Calendar.v
Rfc3339.v
Duration.v
Config.v
LifecycleRules.v
AwsChunked.v
Sse.v
Heavy.v
Credentials.v
SigV4.v
SigV4Facts.v
SigV4Props.v
PersonalTokens.v
Observability.v
Protector.v
Policy.v
S3State.v
S3Events.v
S3Bucket.v
S3Object.v
S3ObjectOps.v
S3Multipart.v
S3Router.v
NetHttp.v
Website.v
S3Facts.v
S3Frames.v
S3Reading.v
S3Examples.v
WebsiteProps.v
WebForms.v
Gate.v
GateProps.v
GateScenarios.v
WebUI.v
WebActions.v
WebPages.v
WebProps.v
WebLinks.v
WebScenarios.v
Lifecycle.v
LifecycleProps.v
LifecycleWork.v
LifecycleStores.v
DebugPages.v
Server.v
Sql.v
SqlStore.v
SqlFacts.v
SqlQueries.v
SqlProps.v
Backend.v
Recovery.v
Importer.v
Ctl.v
Startup.v
SqlText.v
Migrations.v
Persisters.v
S3Props.v
S3Versions.v
S3MultipartProps.v
S3Scenarios.v
