(* ===== verification/Prelude.v ===== *)
(** * s000: an S3-compatible object server, modelled and proved

    s000 is a server in Go that speaks the S3 protocol over a metadata store and a
    directory of blobs, with a web interface, anonymous bucket websites, a lifecycle
    worker and a command for operators.  This library models its packages under
    src/internal/ and src/cmd/ as functions on explicit state, and proves what makes
    them correct.  Names follow the Go sources; where Go has a method of the same name
    on several types, the type is put before it ([blob_DeleteObject], [tx_DeleteObject]).

    ** The program and how its parts meet

    A request enters [NewHandler] (Gate.v): it gets an id, passes the authentication gate
    (signature, token, public bucket or a path without a guard), the bound on requests in
    flight, and the multiplexer, which leads to the health checks, the web interface, the
    metrics and debug pages, a bucket's website, or the S3 API.  A handler of the S3 API
    is an action on [s3_state]: it calls the metadata store, the blob store and the random
    source, writes a response, and emits events (audit, notifications, replication).  The
    metadata store is either a state in memory that is saved whole through the interface
    [StatePersister] (a file, a row, a key of Valkey), or tables of a database, reached by
    statements.  The blob store works on a file system whose calls may fail or stop the
    process at any point.  The lifecycle worker uses both stores through the interfaces
    [LifecycleMetadata] and [LifecycleBlobs] of Lifecycle.v.  The process that serves is
    put together by [startup] (Startup.v) from the settings of Config.v; s000ctl (Ctl.v)
    prints URLs and tokens that this server accepts, and makes and checks backups.

    ** Files and sources

    Foundations.  Prelude: errors, the state-and-error monad [M] with its notation, lists,
    maps, sorting.  GoStrings, StringFacts: strings, strconv.  Url, NetHttp: net/url,
    redirects and the multiplexer of net/http.  Base64, Http (headers, requests,
    responses), Calendar, Rfc3339, Duration: the packages of these names.  FileSystem:
    package os, with a schedule of faults and crashes.  DirWalk: filepath.WalkDir.

    Metadata (internal/metadata).  Model: model.go.  MemoryStore, MemoryStoreFacts,
    MemoryStoreProps: store.go, the state, every operation, transactions, snapshot,
    validation, repair.  Persisters: persister.go.  Sql, SqlStore, SqlFacts, SqlQueries,
    SqlProps: sqlite_store.go, rows, every method as a sequence of statements, and the
    proof that it follows the memory-backed store.  SqlText: the texts of schema and
    statements.  Migrations: migrations.go, upgrade.go.  Backend: backend.go,
    connections.go, [NewStore].

    Blobs (internal/blob).  Blob, BlobFacts, BlobProps: store.go.

    Server (internal/server).  S3State, S3Events, S3Bucket, S3Object, S3ObjectOps,
    S3Multipart, S3Router: s3_api.go, notification.go, replication.go, object_lock.go and
    the router of handler.go.  Listing, ListingProps: the listings of s3_api.go and
    sqlite_store.go.  AwsChunked: aws_chunked.go.  Sse: sse.go.  Heavy: heavy.go.
    Website, WebsiteProps: website_handler.go.  Policy: the policies of middleware.go.
    Protector: security.go.  Gate, GateProps, GateScenarios: middleware.go, handler.go.
    WebForms, WebUI, WebActions, WebPages, WebLinks, WebProps, WebScenarios: web_ui.go.
    DebugPages: debug.go.  Server: [NewHandler] with all its pages.  S3Facts, S3Frames,
    S3Reading: what handlers answer, touch and read.  S3Examples: a concrete server.
    S3Props, S3Versions, S3MultipartProps, S3Scenarios: what the S3 API promises.

    The rest.  Credentials, SigV4, SigV4Facts, SigV4Props, PersonalTokens: internal/auth.
    LifecycleRules, Lifecycle, LifecycleProps, LifecycleWork, LifecycleStores:
    internal/lifecycle.  Observability: internal/observability.  Config: internal/config.
    Recovery: internal/recovery.  Importer: internal/bootstrap.  Ctl: cmd/s000ctl.
    Startup: cmd/s000 and http_server.go.

    ** State and operations

    Structs are records, maps keyed by strings are [gmap], slices are lists in Go's order.
    A time is its nanoseconds since 1970, an int64 is a [Z] with its wrap-around written
    out where the program can reach it ([wrap64], [saturate64]).  The order in which Go
    ranges over a map, and the order sort.Slice leaves among equals, are a parameter
    ([GoRuntime]): theorems hold for every order.  A method that holds a lock from entry to
    return is one step; Heavy.v models the channels of the limiter one operation at a time.
    Code that is not the program's own is a class of parameters with laws that state its
    documented behaviour, each with a concrete instance that the witnesses evaluate:
    [Hashes], [BlockCipher], [JsonCodec], [JsonSyntax], [RequestCodecs] (XML),
    [Randomness], [TempNames], [MimeTypes], [Drivers] (database/sql, Valkey),
    [FormParser], [WebTemplates], [FloatFormat], [UrlAuthority].

    ** What the theorems show

    - Objects: every request of the S3 API is answered; a PUT is read back by GET whole
      and in ranges, in plain and encrypted form; a write touches one version; a completed
      upload is its parts in order; a delete marker hides and reveals; locked versions are
      kept by the requests that look at the lock.
    - Stores: the state stays well-formed over all operations; transactions are all or
      nothing; the state a restart finds is that of the last operation that succeeded, for
      every persister and every schedule of faults; repair restores consistency; the SQL
      store refines the memory-backed store, and a failed call leaves the tables alone;
      statements and schema of every dialect agree, and upgrades end in the same tables.
    - Blobs: a write is atomic under every schedule of faults and crashes; recovery clears
      what crashed writes leave; a backup that succeeds is complete; an import leaves no
      file behind, overwrites nothing, and is idempotent.
    - Access: a signed request binds what was signed; a presigned URL is accepted exactly
      while it is fresh, and one printed by s000ctl reaches its object on a started server;
      no page changes anything without credentials or a session with its CSRF token; a
      denial overrides an allowance; a website serves public buckets only; tokens verify
      until they expire or are revoked; repeated failures are blocked.
    - Listings: pages follow one another without loss or repetition, the SQL page is the
      page of the handler, and paging ends.
    - Work in the background: a lifecycle run deletes what is due, all of it when its
      stores work, and nothing else; the limiter never exceeds its bounds under any
      interleaving, and all its requests finish.
    - Texts: aws-chunked bodies, tokens, rules, dates, durations, URLs, base64 and links
      are read back as they were written.
    - Scenarios (S3Scenarios.v, GateScenarios.v, WebScenarios.v, LifecycleStores.v, and the
      examples of Recovery.v, Importer.v, Ctl.v and Startup.v) run the model to states that
      its documentation or its own checks do not lead one to expect.

    ** Fuel

    Loops of Go that are not structural run on fuel.  Splitting and parsing of texts use
    the length of the text, which every round shortens.  The removal of empty directories
    uses the length of the path.  The walk of a directory uses a number above the length
    of every path ([walk_fuel_enough]), and more fuel makes no difference
    ([walkDir_fuel]); a walk into its own copy, which has no end, is the one that runs
    out.  The pages of a listing end after as many pages as there are entries
    ([list_pages_complete]).  Retries of the worker are bounded by their setting.

    ** Not modelled

    Encoding and decoding of XML, JSON and HTML templates, AES and the digests, drivers,
    HTTP clients and the scheduler are not the program's.  The request log, spans of a
    tracer that does nothing and the redaction of log lines write logs only; recovery from
    panics has nothing to recover from, since a model's step does not panic.  Listening,
    signals and the ticks of workers are input and output of the process.  Symbolic links
    and special files are not in FileSystem.v.  The S3 API and the web interface are proved
    over the memory-backed store; that they run alike over the SQL store rests on the
    refinement in SqlProps.v within its conditions [op_ok]. *)
From Stdlib Require Export ZArith Lia Ascii String.
From stdpp Require Export sorting strings.
From stdpp Require Export base tactics option numbers list gmap sets.

(** ** Scope *)
Declare Scope s000_scope.
Delimit Scope s000_scope with s000.
#[global] Open Scope s000_scope.
#[global] Open Scope string_scope.
#[global] Open Scope Z_scope.
#[global] Open Scope list_scope.

(** ** Errors

    A Go [error] of the program is one of the sentinel values ([errors.New] at
    package level, compared by identity), a fresh error with a format and its
    arguments ([fmt.Errorf] without %w, or [errors.New] inside a function), or an
    error that wraps another one ([fmt.Errorf] with %w). *)
Inductive error : Type :=
  | ErrSentinel (name : string)
  | Errorf (format : string) (args : list string)
  | ErrWrap (format : string) (args : list string) (cause : error).

#[global] Instance error_eq_dec : EqDecision error.
Proof.
  intros x y. unfold Decision. revert y.
  induction x as [n|f a|f a c IH]; intros [n'|f' a'|f' a' c']; try (right; congruence).
  - destruct (decide (n = n')); [left | right]; congruence.
  - destruct (decide (f = f')), (decide (a = a')); first [left; congruence | right; congruence].
  - destruct (decide (f = f')), (decide (a = a')), (IH c');
      first [left; congruence | right; congruence].
Defined.

(** [errors.Is e target] for a sentinel target: walk the chain of causes. *)
Fixpoint errors_Is (e target : error) : bool :=
  match e, target with
  | ErrSentinel n, ErrSentinel m => String.eqb n m
  | ErrWrap _ _ c, _ => errors_Is c target
  | _, _ => false
  end.

(** ** Results and the state-and-error monad

    A Go function returning [(A, error)] is a [result A]; a method that changes
    the receiver is an action of [M S A].  An error does not undo the changes
    already made: the state is returned in both cases. *)
Inductive result (A : Type) : Type :=
  | Ok (a : A)
  | Err (e : error).
Arguments Ok {_} _.
Arguments Err {_} _.

#[global] Instance result_eq_dec `{EqDecision A} : EqDecision (result A).
Proof. solve_decision. Defined.

#[global] Instance result_ret : MRet result := @Ok.
#[global] Instance result_bind : MBind result :=
  λ A B f m, match m with Ok a => f a | Err e => Err e end.
#[global] Instance result_fmap : FMap result :=
  λ A B f m, match m with Ok a => Ok (f a) | Err e => Err e end.

Definition is_ok {A} (r : result A) : bool :=
  match r with Ok _ => true | Err _ => false end.

Definition result_to_option {A} (r : result A) : option A :=
  match r with Ok a => Some a | Err _ => None end.

Definition M (S A : Type) : Type := S → S * result A.

#[global] Instance M_ret {S} : MRet (M S) := λ A a s, (s, Ok a).
#[global] Instance M_bind {S} : MBind (M S) :=
  λ A B f m s, match m s with
               | (s', Ok a) => f a s'
               | (s', Err e) => (s', Err e)
               end.

Section state_monad.
Context {S : Type}.

Definition get : M S S := λ s, (s, Ok s).
Definition put (s : S) : M S unit := λ _, (s, Ok tt).
Definition modify (f : S → S) : M S unit := λ s, (f s, Ok tt).
Definition throw {A} (e : error) : M S A := λ s, (s, Err e).
(** [try m] runs [m] and hands its error to the caller, as Go code that
    inspects [err] does. *)
Definition try {A} (m : M S A) : M S (result A) :=
  λ s, let '(s', r) := m s in (s', Ok r).
Definition lift {A} (r : result A) : M S A := λ s, (s, r).
(** A read of the state that may fail. *)
Definition gets {A} (f : S → result A) : M S A := λ s, (s, f s).
(** [_ = m]: the error is discarded. *)
Definition ignore {A} (m : M S A) : M S unit := λ s, ((m s).1, Ok tt).
End state_monad.
#[global] Arguments get {S} /.
#[global] Arguments put {S} s /.
#[global] Arguments modify {S} f /.
#[global] Arguments throw {S A} e /.
#[global] Arguments lift {S A} r /.
#[global] Arguments gets {S A} f /.

(** [for x in l { body x }] with an early return on error. *)
Fixpoint forM {S A} (l : list A) (body : A → M S unit) : M S unit :=
  match l with
  | [] => mret tt
  | x :: l => mbind (λ _, forM l body) (body x)
  end.

(** The final state and the value of an action. *)
Definition exec {S A} (m : M S A) (s : S) : S := (m s).1.
Definition eval {S A} (m : M S A) (s : S) : result A := (m s).2.

Lemma M_bind_Ok {S A B} (m : M S A) (f : A → M S B) s s' a :
  m s = (s', Ok a) → (mbind f m) s = f a s'.
Proof. unfold mbind, M_bind. by intros ->. Qed.

Lemma M_bind_Err {S A B} (m : M S A) (f : A → M S B) s s' e :
  m s = (s', Err e) → (mbind f m) s = (s', Err e).
Proof. unfold mbind, M_bind. by intros ->. Qed.

Lemma M_bind_inv {S A B} (m : M S A) (f : A → M S B) s s'' b :
  (mbind f m) s = (s'', Ok b) →
  ∃ s' a, m s = (s', Ok a) ∧ f a s' = (s'', Ok b).
Proof.
  unfold mbind, M_bind. destruct (m s) as [s' [a|e]]; intros H; [eauto | discriminate].
Qed.

(** A predicate on the state is kept by every run of the action, successful
    or not. *)
Definition preserves {S A} (I : S → Prop) (m : M S A) : Prop :=
  ∀ s, I s → I (exec m s).

Lemma preserves_ret {S A} (I : S → Prop) (a : A) : preserves I (mret a).
Proof. by intros s Hs. Qed.

Lemma preserves_bind {S A B} (I : S → Prop) (m : M S A) (f : A → M S B) :
  preserves I m → (∀ a, preserves I (f a)) → preserves I (mbind f m).
Proof.
  intros Hm Hf s Hs. unfold exec, mbind, M_bind.
  specialize (Hm s Hs). unfold exec in Hm.
  destruct (m s) as [s' [a|e]]; [by apply Hf | done].
Qed.

Lemma preserves_try {S A} (I : S → Prop) (m : M S A) :
  preserves I m → preserves I (try m).
Proof.
  intros Hm s Hs. specialize (Hm s Hs). unfold exec, try in *. by destruct (m s).
Qed.

Lemma preserves_ignore {S A} (I : S → Prop) (m : M S A) :
  preserves I m → preserves I (ignore m).
Proof. by intros Hm s Hs; specialize (Hm s Hs). Qed.

Lemma preserves_gets {S A} (I : S → Prop) (f : S → result A) : preserves I (gets f).
Proof. by intros s Hs. Qed.

Lemma preserves_throw {S A} (I : S → Prop) e : preserves I (throw e : M S A).
Proof. by intros s Hs. Qed.

Lemma preserves_forM {S A} (I : S → Prop) (l : list A) body :
  (∀ x, preserves I (body x)) → preserves I (forM l body).
Proof.
  intros Hb. induction l as [|x l IH]; [by apply preserves_ret|].
  by apply preserves_bind.
Qed.

Create HintDb s000.
Create Rewrite HintDb s000_rw.
#[export] Hint Resolve preserves_ret preserves_bind preserves_try preserves_ignore
  preserves_gets preserves_throw preserves_forM : s000.

(** ** Machine integers

    Go's [int] and [int64] are 64-bit two's complement: addition, subtraction,
    multiplication and negation wrap around. *)
Definition int64_min : Z := -9223372036854775808.
Definition int64_max : Z := 9223372036854775807.
Definition in_int64 (z : Z) : Prop := int64_min ≤ z ≤ int64_max.
Definition in_int64b (z : Z) : bool := (int64_min <=? z) && (z <=? int64_max).

Definition wrap64 (z : Z) : Z :=
  (z + 9223372036854775808) mod 18446744073709551616 - 9223372036854775808.

Lemma wrap64_range z : in_int64 (wrap64 z).
Proof.
  unfold in_int64, wrap64, int64_min, int64_max.
  pose proof (Z.mod_pos_bound (z + 9223372036854775808) 18446744073709551616 ltac:(lia)).
  lia.
Qed.

Lemma wrap64_id z : in_int64 z → wrap64 z = z.
Proof.
  unfold in_int64, wrap64, int64_min, int64_max. intros H.
  rewrite Z.mod_small by lia. lia.
Qed.

Lemma in_int64b_spec z : in_int64b z = true ↔ in_int64 z.
Proof. unfold in_int64b, in_int64. rewrite andb_true_iff, !Z.leb_le. done. Qed.

#[global] Instance in_int64_dec z : Decision (in_int64 z).
Proof. unfold in_int64. apply _. Defined.

(** [time.Time.Sub]: the difference of two instants, saturated to the range of
    [time.Duration]. *)
Definition saturate64 (z : Z) : Z := Z.max int64_min (Z.min int64_max z).

Lemma saturate64_range z : in_int64 (saturate64 z).
Proof. unfold saturate64, in_int64, int64_min, int64_max. lia. Qed.

(** [uint8] and [uint16] wrap-around. *)
Definition wrap_u8 (z : Z) : Z := z mod 256.

(** ** Orders given by a Go [less] function *)
Section less.
Context {A : Type}.

(** [x] may precede [y] in a slice sorted by [less]. *)
Definition not_after (less : A → A → bool) (x y : A) : Prop := less y x = false.

(** The conditions [sort.Slice] asks of its argument (a strict weak order). *)
Record StrictWeak (less : A → A → bool) : Prop := {
  less_asym x y : less x y = true → less y x = false;
  less_negtrans x y z : less x y = false → less y z = false → less x z = false;
}.

#[global] Instance not_after_dec less : RelDecision (not_after less).
Proof. intros x y. unfold not_after. apply _. Defined.

Lemma not_after_total less : StrictWeak less → Total (not_after less).
Proof.
  intros Hw x y. unfold not_after. destruct (less y x) eqn:E; [|by left].
  right. by apply less_asym.
Qed.

Lemma not_after_trans less : StrictWeak less → Transitive (not_after less).
Proof. intros Hw x y z Hxy Hyz. by eapply less_negtrans. Qed.
End less.

(** The lexicographic combination [if k1 x == k1 y { less2 x y } else { k1 x < k1 y }]
    used by the sort functions of the program. *)
Definition less_by {A} (key : A → string) (less2 : A → A → bool) (x y : A) : bool :=
  if String.eqb (key x) (key y) then less2 x y else String.ltb (key x) (key y).

Lemma string_ltb_leb a b : String.ltb a b = negb (String.leb b a).
Proof.
  unfold String.ltb, String.leb. rewrite (String.compare_antisym b a).
  by destruct (String.compare a b).
Qed.

Lemma string_ltb_irrefl a : String.ltb a a = false.
Proof.
  rewrite string_ltb_leb. apply negb_false_iff, Is_true_true.
  apply (reflexivity (R := String.le)).
Qed.

Lemma string_leb_trans a b c :
  String.leb a b = true → String.leb b c = true → String.leb a c = true.
Proof.
  rewrite <-!Is_true_true. intros H1 H2.
  apply (transitivity (R := String.le)) with b; done.
Qed.

Lemma string_leb_total a b : String.leb a b = true ∨ String.leb b a = true.
Proof. apply String.leb_total. Qed.

Lemma string_ltb_trans a b c :
  String.ltb a b = true → String.ltb b c = true → String.ltb a c = true.
Proof.
  rewrite !string_ltb_leb, !negb_true_iff. intros H1 H2.
  destruct (String.leb c a) eqn:E; [|done].
  destruct (string_leb_total b c) as [Hbc|Hcb]; [|congruence].
  pose proof (string_leb_trans _ _ _ Hbc E). congruence.
Qed.

Lemma string_ltb_asym a b : String.ltb a b = true → String.ltb b a = false.
Proof.
  intros H. destruct (String.ltb b a) eqn:E; [|done].
  pose proof (string_ltb_trans _ _ _ H E) as H'. by rewrite string_ltb_irrefl in H'.
Qed.

Lemma string_ltb_eq a b : String.ltb a b = false → String.ltb b a = false → a = b.
Proof.
  rewrite !string_ltb_leb, !negb_false_iff. intros.
  by apply String.leb_antisym.
Qed.

Lemma string_ltb_negtrans a b c :
  String.ltb a b = false → String.ltb b c = false → String.ltb a c = false.
Proof.
  rewrite !string_ltb_leb, !negb_false_iff. intros H1 H2.
  by eapply string_leb_trans.
Qed.

Lemma string_ltb_lt_le_trans a b c :
  String.ltb a b = true → String.ltb c b = false → String.ltb a c = true.
Proof.
  intros H1 H2. destruct (String.ltb a c) eqn:E; [done|].
  by rewrite (string_ltb_negtrans a c b) in H1.
Qed.

Lemma string_ltb_le_lt_trans a b c :
  String.ltb b a = false → String.ltb b c = true → String.ltb a c = true.
Proof.
  intros H1 H2. destruct (String.ltb a c) eqn:E; [done|].
  by rewrite (string_ltb_negtrans b a c) in H2.
Qed.

Lemma string_ltb_neq a b : String.ltb a b = true → a ≠ b.
Proof. intros H ->. by rewrite string_ltb_irrefl in H. Qed.

Lemma string_strict_weak : StrictWeak String.ltb.
Proof. split; [apply string_ltb_asym | apply string_ltb_negtrans]. Qed.

Lemma less_by_strict_weak {A} (key : A → string) less2 :
  StrictWeak less2 → StrictWeak (less_by key less2).
Proof.
  intros Hw. split; unfold less_by.
  - intros x y. destruct (String.eqb_spec (key x) (key y)) as [->|Hne].
    + rewrite String.eqb_refl. apply (less_asym _ Hw).
    + destruct (String.eqb_spec (key y) (key x)); [congruence|]. apply string_ltb_asym.
  - intros x y z. destruct (String.eqb_spec (key x) (key y)) as [Exy|Nxy];
      destruct (String.eqb_spec (key y) (key z)) as [Eyz|Nyz].
    + destruct (String.eqb_spec (key x) (key z)); [|congruence].
      apply (less_negtrans _ Hw).
    + rewrite Exy. destruct (String.eqb_spec (key y) (key z)); [congruence|]. done.
    + rewrite <-Eyz. destruct (String.eqb_spec (key x) (key y)); [congruence|]. done.
    + intros H1 H2. pose proof (string_ltb_negtrans _ _ _ H1 H2) as H3.
      destruct (String.eqb_spec (key x) (key z)) as [Exz|]; [|done].
      exfalso. apply Nxy. rewrite <-Exz in H2. by apply string_ltb_eq.
Qed.

(** ** What the Go runtime leaves open

    The iteration order of a map and the order of equal elements in
    [sort.Slice] are not specified; a function that depends on them takes them
    from this class, whose laws are what the language and the library document.
    [Sprintf] stands for the message texts. *)
Class GoRuntime := {
  range_order : ∀ {A : Type}, list A → list A;
  range_order_perm : ∀ {A : Type} (l : list A), range_order l ≡ₚ l;
  sort_slice : ∀ {A : Type}, (A → A → bool) → list A → list A;
  sort_slice_perm : ∀ {A : Type} less (l : list A), sort_slice less l ≡ₚ l;
  sort_slice_sorted : ∀ {A : Type} less (l : list A),
    StrictWeak less → StronglySorted (not_after less) (sort_slice less l);
  Sprintf : string → list string → string;
}.

Definition sort_slice_ref {A} (less : A → A → bool) (l : list A) : list A :=
  merge_sort (not_after less) l.

Lemma sort_slice_ref_sorted {A} less (l : list A) :
  StrictWeak less → StronglySorted (not_after less) (sort_slice_ref less l).
Proof.
  intros Hw. pose proof (not_after_total less Hw). pose proof (not_after_trans less Hw).
  apply Sorted_StronglySorted, Sorted_merge_sort; done.
Qed.

(** [err.Error()] *)
Fixpoint error_text `{!GoRuntime} (e : error) : string :=
  match e with
  | ErrSentinel name => name
  | Errorf format args => Sprintf format args
  | ErrWrap format args cause => Sprintf format (args ++ [error_text cause])
  end.

(** A concrete runtime, for evaluation: maps iterate in the order of their
    tree, sorting is a stable merge sort, a message is its format followed by
    its arguments. *)
Definition go_runtime_ref : GoRuntime := {|
  range_order A l := l;
  range_order_perm A l := reflexivity l;
  sort_slice A := sort_slice_ref;
  sort_slice_perm A less l := merge_sort_Permutation (not_after less) l;
  sort_slice_sorted A := sort_slice_ref_sorted;
  Sprintf fmt args := fold_left (λ acc a, (acc +:+ "|" +:+ a)%stdpp) args fmt;
|}.

Section runtime.
Context `{!GoRuntime}.

(** [for k, v := range m]: the entries of the map in some order. *)
Definition range_map `{Countable K} {A} (m : gmap K A) : list (K * A) :=
  range_order (map_to_list m).

Lemma elem_of_range_map `{Countable K} {A} (m : gmap K A) k a :
  (k, a) ∈ range_map m ↔ m !! k = Some a.
Proof. unfold range_map. by rewrite range_order_perm, elem_of_map_to_list. Qed.

Lemma NoDup_fst_range_map `{Countable K} {A} (m : gmap K A) :
  NoDup (range_map m).*1.
Proof. unfold range_map. rewrite range_order_perm. apply NoDup_fst_map_to_list. Qed.

Lemma length_range_map `{Countable K} {A} (m : gmap K A) :
  length (range_map m) = size m.
Proof. unfold range_map. by rewrite range_order_perm, length_map_to_list. Qed.

Lemma elem_of_sort_slice {A} less (l : list A) x : x ∈ sort_slice less l ↔ x ∈ l.
Proof. by rewrite sort_slice_perm. Qed.

Lemma sort_slice_nil {A} (less : A → A → bool) : sort_slice less [] = [].
Proof. apply Permutation_nil_r, sort_slice_perm. Qed.

(** Two sorts of the same elements agree when [less] decides between any two
    different ones: the unspecified order of ties does not show. *)
Lemma sort_slice_unique {A} less (l l' : list A) :
  StrictWeak less → l ≡ₚ l' →
  (∀ x y, x ∈ l → y ∈ l → less x y = false → less y x = false → x = y) →
  StronglySorted (not_after less) l' → sort_slice less l = l'.
Proof.
  intros Hw Hp Hu Hs.
  apply (StronglySorted_unique_strong (not_after less)); [|by apply sort_slice_sorted|done|].
  - intros x y Hx Hy H1 H2. rewrite sort_slice_perm in Hx. rewrite <-Hp in Hy.
    by apply Hu.
  - by rewrite sort_slice_perm.
Qed.
End runtime.

#[export] Hint Resolve string_strict_weak less_by_strict_weak : s000.
#[export] Hint Rewrite String.eqb_refl string_ltb_irrefl : s000_rw.

(** ** Automation *)

(** Case analysis on every [if] and [match] of the hypotheses and the goal. *)
Ltac case_match_all := repeat (case_match; simplify_eq/=).

(** Unfolding of the state monad on a goal about a run. *)
Ltac run_m := unfold exec, eval, mbind, M_bind, mret, M_ret, get, put, modify, throw,
  lift, gets, try, ignore in *; simpl in *.

(** ** Maps built by a loop *)
Lemma fold_left_insert {A K V} `{Countable K} (f : A → K) (g : A → V) (l : list A)
    (m : gmap K V) :
  fold_left (λ out x, <[f x := g x]> out) l m =
  list_to_map ((λ x, (f x, g x)) <$> reverse l) ∪ m.
Proof.
  revert m. induction l as [|x l IH]; intros m; simpl.
  - by rewrite (left_id_L ∅ (∪)).
  - rewrite IH, reverse_cons, fmap_app, list_to_map_app; simpl.
    rewrite <-(assoc_L (∪)). f_equal.
    by rewrite insert_empty, <-insert_union_singleton_l.
Qed.

Lemma fold_left_insert_list_to_map {A K V} `{Countable K} (f : A → K) (g : A → V)
    (l : list A) (m : gmap K V) :
  map_to_list m ≡ₚ (λ x, (f x, g x)) <$> l →
  fold_left (λ out x, <[f x := g x]> out) l ∅ = m.
Proof.
  intros Hl. rewrite fold_left_insert, (right_id_L ∅ (∪)).
  symmetry. apply list_to_map_flip. by rewrite Hl, reverse_Permutation.
Qed.

Lemma list_fmap_id_pair {A B} (l : list (A * B)) : (λ x, (x.1, x.2)) <$> l = l.
Proof. induction l as [|[a b] l IH]; csimpl; by rewrite ?IH. Qed.

Lemma StronglySorted_weaken {A} (R1 R2 : A → A → Prop) l :
  (∀ x y, R1 x y → R2 x y) → StronglySorted R1 l → StronglySorted R2 l.
Proof.
  intros HR. induction 1 as [|x l Hl IH Hx]; constructor; [done|].
  eapply Forall_impl; [exact Hx|]. auto.
Qed.

Lemma run_ok_unit {S} (m : M S unit) s : is_ok (eval m s) = true → m s = (exec m s, Ok tt).
Proof. unfold eval, exec. destruct (m s) as [s' [[]|e]]; simpl; [done|discriminate]. Qed.
