(* ===== verification/GoStrings.v ===== *)
(** * The functions of Go's strings, strconv and unicode the program uses

    A Go string is its bytes ([string] with one [ascii] per byte).  The case
    conversions are those of ASCII: the program applies them to header names,
    methods, algorithm names and hexadecimal digits. *)
From S2P Require Import Prelude.

Fixpoint str_drop (n : nat) (s : string) : string :=
  match n, s with
  | O, _ => s
  | S _, "" => ""
  | S n, String _ s => str_drop n s
  end.

Fixpoint str_take (n : nat) (s : string) : string :=
  match n, s with
  | O, _ => ""
  | S _, "" => ""
  | S n, String c s => String c (str_take n s)
  end.

(** [strings.HasPrefix(s, p)], [strings.HasSuffix(s, p)] *)
Definition HasPrefix (s p : string) : bool := String.prefix p s.
Definition HasSuffix (s p : string) : bool :=
  (String.length p <=? String.length s)%nat &&
  String.eqb (str_drop (String.length s - String.length p) s) p.

Definition TrimPrefix (s p : string) : string :=
  if HasPrefix s p then str_drop (String.length p) s else s.
Definition TrimSuffix (s p : string) : string :=
  if HasSuffix s p then str_take (String.length s - String.length p) s else s.

(** [strings.Index(s, sub)], None for -1. *)
Fixpoint Index (s sub : string) : option nat :=
  if HasPrefix s sub then Some 0%nat
  else match s with
       | "" => None
       | String _ s => S <$> Index s sub
       end.

Definition Contains (s sub : string) : bool :=
  match Index s sub with Some _ => true | None => false end.

(** [strings.Cut(s, sep)] *)
Definition Cut (s sep : string) : string * string * bool :=
  match Index s sep with
  | Some i => (str_take i s, str_drop (i + String.length sep) s, true)
  | None => (s, "", false)
  end.

(** [strings.SplitN(s, sep, n)] for a non-empty [sep]: [n] pieces at most; with
    [n] above the length of [s] it is [strings.Split]. *)
Fixpoint split_n (n : nat) (s sep : string) : list string :=
  match n with
  | O => []
  | S O => [s]
  | S n' => match Index s sep with
            | None => [s]
            | Some i => str_take i s :: split_n n' (str_drop (i + String.length sep) s) sep
            end
  end.

Definition SplitN (s sep : string) (n : nat) : list string := split_n n s sep.
Definition Split (s sep : string) : list string := split_n (S (String.length s)) s sep.

(** [strings.Join] *)
Fixpoint Join (l : list string) (sep : string) : string :=
  match l with
  | [] => ""
  | [x] => x
  | x :: l => x +:+ sep +:+ Join l sep
  end.

(** Every byte of a text satisfies a predicate. *)
Fixpoint str_forall (p : ascii → bool) (s : string) : bool :=
  match s with
  | "" => true
  | String c s => p c && str_forall p s
  end.

(** [strings.ToLower], [strings.ToUpper] on ASCII. *)
Definition in_range (lo hi : ascii) (c : ascii) : bool :=
  (N_of_ascii lo <=? N_of_ascii c)%N && (N_of_ascii c <=? N_of_ascii hi)%N.

Definition lower_ascii (c : ascii) : ascii :=
  if in_range "A" "Z" c then ascii_of_N (N_of_ascii c + 32) else c.
Definition upper_ascii (c : ascii) : ascii :=
  if in_range "a" "z" c then ascii_of_N (N_of_ascii c - 32) else c.

Fixpoint str_map (f : ascii → ascii) (s : string) : string :=
  match s with
  | "" => ""
  | String c s => String (f c) (str_map f s)
  end.

Definition ToLower (s : string) : string := str_map lower_ascii s.
Definition ToUpper (s : string) : string := str_map upper_ascii s.
Definition EqualFold (s t : string) : bool := String.eqb (ToLower s) (ToLower t).

(** [strings.TrimSpace]: the white space of Unicode at both ends, in UTF-8:
    the ASCII spaces, U+0085, U+00A0, U+1680, U+2000 to U+200A, U+2028, U+2029,
    U+202F, U+205F and U+3000. *)
Definition is_ascii_space (c : ascii) : bool :=
  let n := N_of_ascii c in ((9 <=? n) && (n <=? 13))%N || (n =? 32)%N.

(** The length in bytes of the space [s] starts with, 0 if it starts with none. *)
Definition leading_space (s : string) : nat :=
  match s with
  | "" => 0
  | String c s1 =>
    if is_ascii_space c then 1
    else match s1 with
    | "" => 0
    | String c2 s2 =>
      let n1 := N_of_ascii c in let n2 := N_of_ascii c2 in
      if ((n1 =? 194) && ((n2 =? 133) || (n2 =? 160)))%N then 2
      else match s2 with
      | "" => 0
      | String c3 _ =>
        let n3 := N_of_ascii c3 in
        if ((n1 =? 225) && (n2 =? 154) && (n3 =? 128))%N
           || ((n1 =? 226) && (n2 =? 128) &&
               (((128 <=? n3) && (n3 <=? 138)) || (n3 =? 168) || (n3 =? 169) || (n3 =? 175)))%N
           || ((n1 =? 226) && (n2 =? 129) && (n3 =? 159))%N
           || ((n1 =? 227) && (n2 =? 128) && (n3 =? 128))%N
        then 3 else 0
      end
    end
  end%nat.

Fixpoint trim_left (fuel : nat) (s : string) : string :=
  match fuel with
  | O => s
  | S fuel => match leading_space s with
              | O => s
              | n => trim_left fuel (str_drop n s)
              end
  end.

(** The length of the shortest space [s] ends with. *)
Definition trailing_space (s : string) : nat :=
  let len := String.length s in
  let ends n := ((n <=? len) && (leading_space (str_drop (len - n) s) =? n))%nat in
  if ends 1%nat then 1%nat else if ends 2%nat then 2%nat else if ends 3%nat then 3%nat else 0%nat.

Fixpoint trim_right (fuel : nat) (s : string) : string :=
  match fuel with
  | O => s
  | S fuel => match trailing_space s with
              | O => s
              | n => trim_right fuel (str_take (String.length s - n) s)
              end
  end.

Definition TrimSpace (s : string) : string :=
  let l := trim_left (String.length s) s in trim_right (String.length l) l.

(** [strings.Trim(s, c)] for a one-byte cutset. *)
Fixpoint trim_left_char (c : ascii) (s : string) : string :=
  match s with
  | "" => ""
  | String d s' => if Ascii.eqb c d then trim_left_char c s' else s
  end.
Definition trim_right_char (c : ascii) (s : string) : string :=
  String.rev (trim_left_char c (String.rev s)).
Definition Trim (s : string) (c : ascii) : string := trim_right_char c (trim_left_char c s).

(** [strconv.ParseInt(s, 10, 64)] and [strconv.Atoi]: an optional sign and
    decimal digits, within 64 bits. *)
Definition digit_of (c : ascii) : option Z :=
  if in_range "0" "9" c then Some (Z.of_N (N_of_ascii c) - 48) else None.

Fixpoint parse_digits (acc : Z) (s : string) : option Z :=
  match s with
  | "" => Some acc
  | String c s => match digit_of c with
                  | Some d => parse_digits (acc * 10 + d) s
                  | None => None
                  end
  end.

Definition parse_uint (s : string) : option Z :=
  match s with "" => None | _ => parse_digits 0 s end.

Definition ParseInt (s : string) : option Z :=
  let r := match s with
           | String "-" t => Z.opp <$> parse_uint t
           | String "+" t => parse_uint t
           | _ => parse_uint s
           end in
  match r with
  | Some z => if in_int64b z then Some z else None
  | None => None
  end.

Definition Atoi (s : string) : option Z := ParseInt s.

(** [strconv.FormatInt(z, 10)], [strconv.Itoa], %d *)
Definition digit_char (d : Z) : ascii := ascii_of_N (Z.to_N (d + 48)).

Fixpoint format_digits (fuel : nat) (z : Z) (acc : string) : string :=
  match fuel with
  | O => acc
  | S fuel => let acc := String (digit_char (z mod 10)) acc in
              if z / 10 =? 0 then acc else format_digits fuel (z / 10) acc
  end.

(** One digit more than the binary logarithm is always enough. *)
Definition format_uint (z : Z) : string := format_digits (S (Z.to_nat (Z.log2 z))) z "".

Definition FormatInt (z : Z) : string :=
  if z <? 0 then String "-" (format_uint (- z)) else format_uint z.

(** [hex.EncodeToString] *)
Definition hex_digit (n : N) : ascii :=
  if (n <? 10)%N then ascii_of_N (n + 48) else ascii_of_N (n + 87).

Fixpoint hex_encode (s : string) : string :=
  match s with
  | "" => ""
  | String c s => let n := N_of_ascii c in
                  String (hex_digit (n / 16)) (String (hex_digit (n mod 16)) (hex_encode s))
  end.

(** [hex.DecodeString] *)
Definition hex_value (c : ascii) : option N :=
  if in_range "0" "9" c then Some (N_of_ascii c - 48)%N
  else if in_range "a" "f" c then Some (N_of_ascii c - 87)%N
  else if in_range "A" "F" c then Some (N_of_ascii c - 55)%N
  else None.

Fixpoint hex_decode (s : string) : option string :=
  match s with
  | "" => Some ""
  | String c (String d s) =>
    match hex_value c, hex_value d, hex_decode s with
    | Some x, Some y, Some t => Some (String (ascii_of_N (x * 16 + y)) t)
    | _, _, _ => None
    end
  | _ => None
  end.

(** [strings.ReplaceAll(s, old, new)] for a non-empty [old]: [skip] bytes of an
    occurrence are still to be passed over. *)
Fixpoint replace_all (skip : nat) (s old new : string) : string :=
  match s with
  | "" => ""
  | String c s' =>
    match skip with
    | S skip => replace_all skip s' old new
    | O => if HasPrefix s old then new +:+ replace_all (String.length old - 1) s' old new
           else String c (replace_all 0 s' old new)
    end
  end.
Definition ReplaceAll (s old new : string) : string := replace_all 0 s old new.

(** [strings.Fields]: the maximal runs without white space; [word] is the run
    being read. *)
Fixpoint fields (fuel : nat) (word s : string) : list string :=
  let ended := if String.eqb word "" then [] else [word] in
  match fuel, s with
  | O, _ | _, "" => ended
  | S fuel, String c s' =>
    match leading_space s with
    | O => fields fuel (word +:+ String c "") s'
    | n => ended ++ fields fuel "" (str_drop n s)
    end
  end.
Definition Fields (s : string) : list string := fields (String.length s) "" s.

(** [sort.Strings]: the order of the result does not depend on the algorithm. *)
Definition str_le (x y : string) : Prop := String.leb x y = true.
#[export] Instance str_le_decision x y : Decision (str_le x y) := decide (_ = true).
Definition sort_strings (l : list string) : list string := merge_sort str_le l.

Example fields_ex : Fields "  a b   cd " = ["a"; "b"; "cd"] ∧ Fields "" = [].
Proof. vm_compute. done. Qed.
Example replace_ex : ReplaceAll "a+b++c" "+" "%20" = "a%20b%20%20c".
Proof. vm_compute. done. Qed.

Example split_ex : Split "a,b,,c" "," = ["a"; "b"; ""; "c"].
Proof. reflexivity. Qed.
Example trim_ex : TrimSpace (" x y" +:+ String "010" "") = "x y".
Proof. reflexivity. Qed.
Example parse_ex : ParseInt "-120" = Some (-120) ∧ ParseInt "12a" = None ∧
  ParseInt "9223372036854775808" = None ∧ FormatInt 1234567 = "1234567" ∧ FormatInt 0 = "0".
Proof. vm_compute. done. Qed.
Example hex_ex : hex_decode (hex_encode "s000") = Some "s000".
Proof. reflexivity. Qed.
