(* ===== verification/StringFacts.v ===== *)
(** * Facts on texts

    Prefixes, first occurrences and the byte order of strings; decimal texts read back as
    the number they were written from, and the texts of printable bytes that trimming
    leaves alone; the words of [strings.Fields] have no space in them, and words joined
    with single spaces are read back. *)
From S2P Require Import Prelude GoStrings.

Lemma str_app_cons c s t : (String c s +:+ t) = String c (s +:+ t).
Proof. reflexivity. Qed.

Lemma str_app_nil_l s : "" +:+ s = s.
Proof. reflexivity. Qed.

Lemma str_app_nil_r s : s +:+ "" = s.
Proof. induction s as [|c s IH]; [done|]. by rewrite str_app_cons, IH. Qed.

Lemma str_app_assoc s t u : (s +:+ t) +:+ u = s +:+ (t +:+ u).
Proof. induction s as [|c s IH]; [done|]. by rewrite !str_app_cons, IH. Qed.

Lemma length_str_app s t : String.length (s +:+ t) = (String.length s + String.length t)%nat.
Proof. induction s as [|c s IH]; [done|]. rewrite str_app_cons. simpl. by rewrite IH. Qed.

Lemma str_app_eq_nil s t : s +:+ t = "" → s = "" ∧ t = "".
Proof. destruct s; [by rewrite str_app_nil_l|]. by rewrite str_app_cons. Qed.

Lemma length_zero_str s : String.length s = 0%nat → s = "".
Proof. by destruct s. Qed.

(** ** Prefixes *)
Lemma HasPrefix_nil s : HasPrefix s "" = true.
Proof. by destruct s. Qed.

Lemma HasPrefix_cons c s d p :
  HasPrefix (String c s) (String d p) = Ascii.eqb d c && HasPrefix s p.
Proof.
  unfold HasPrefix. simpl. destruct (ascii_dec d c) as [->|Hne].
  - by rewrite Ascii.eqb_refl.
  - by apply Ascii.eqb_neq in Hne as ->.
Qed.

Lemma HasPrefix_spec s p : HasPrefix s p = true ↔ ∃ t, s = p +:+ t.
Proof.
  revert s. induction p as [|d p IH]; intros s.
  - rewrite HasPrefix_nil. split; [|done]. intros _. by exists s.
  - destruct s as [|c s]; [split; [done|by intros [t ?]]|].
    rewrite HasPrefix_cons, andb_true_iff, IH, Ascii.eqb_eq. split.
    + intros [-> [t ->]]. by exists t.
    + intros [t Ht]. rewrite str_app_cons in Ht. simplify_eq. eauto.
Qed.

Lemma HasPrefix_app p t : HasPrefix (p +:+ t) p = true.
Proof. apply HasPrefix_spec. eauto. Qed.

Lemma HasPrefix_refl p : HasPrefix p p = true.
Proof. apply HasPrefix_spec. exists "". by rewrite str_app_nil_r. Qed.

Lemma HasPrefix_app_same p s q : HasPrefix (p +:+ s) (p +:+ q) = HasPrefix s q.
Proof.
  induction p as [|c p IH]; [done|]. by rewrite !str_app_cons, HasPrefix_cons, Ascii.eqb_refl, IH.
Qed.

Lemma HasPrefix_trans s p q : HasPrefix s p = true → HasPrefix p q = true → HasPrefix s q = true.
Proof.
  rewrite !HasPrefix_spec. intros [t ->] [u ->]. exists (u +:+ t). apply str_app_assoc.
Qed.

Lemma str_drop_app p t : str_drop (String.length p) (p +:+ t) = t.
Proof. induction p as [|c p IH]; [done|]. by rewrite str_app_cons. Qed.

Lemma str_take_app p t : str_take (String.length p) (p +:+ t) = p.
Proof. induction p as [|c p IH]; [by destruct t|]. rewrite str_app_cons. simpl. by rewrite IH. Qed.

Lemma str_take_app_add p t n :
  str_take (String.length p + n) (p +:+ t) = p +:+ str_take n t.
Proof. induction p as [|c p IH]; [done|]. rewrite str_app_cons. simpl. by rewrite IH. Qed.

Lemma take_drop_str n s : str_take n s +:+ str_drop n s = s.
Proof.
  revert s. induction n as [|n IH]; intros [|c s]; simpl; rewrite ?str_app_nil_l; try done.
  by rewrite str_app_cons, IH.
Qed.

Lemma str_take_all n s : (String.length s ≤ n)%nat → str_take n s = s.
Proof.
  revert s. induction n as [|n IH]; intros [|c s] Hn; simpl in *; try done; [lia|].
  f_equal. apply IH. lia.
Qed.

Lemma TrimPrefix_app p t : TrimPrefix (p +:+ t) p = t.
Proof. unfold TrimPrefix. by rewrite HasPrefix_app, str_drop_app. Qed.

Lemma HasSuffix_spec s p : HasSuffix s p = true ↔ ∃ t, s = t +:+ p.
Proof.
  unfold HasSuffix. rewrite andb_true_iff, Nat.leb_le, String.eqb_eq. split.
  - intros [Hlen Heq]. exists (str_take (String.length s - String.length p) s).
    rewrite <-Heq at 2. by rewrite take_drop_str.
  - intros [t ->]. rewrite length_str_app. split; [lia|].
    replace (_ + _ - _)%nat with (String.length t) by lia. apply str_drop_app.
Qed.

(** ** First occurrences *)
Lemma Index_unfold c s d :
  Index (String c s) d = if HasPrefix (String c s) d then Some 0%nat else S <$> Index s d.
Proof. done. Qed.

Lemma Index_nil d : Index "" d = if String.eqb d "" then Some 0%nat else None.
Proof. by destruct d. Qed.

Lemma Index_Some s d i :
  Index s d = Some i → s = str_take i s +:+ d +:+ str_drop (i + String.length d) s ∧
  (i + String.length d ≤ String.length s)%nat.
Proof.
  revert i. induction s as [|c s IH]; intros i.
  - rewrite Index_nil. destruct (String.eqb_spec d "") as [->|]; [|done]. by intros [= <-].
  - rewrite Index_unfold. destruct (HasPrefix (String c s) d) eqn:E.
    + intros [= <-]. apply HasPrefix_spec in E as [t ->]. simpl.
      rewrite str_drop_app, length_str_app. split; [|lia].
      by rewrite str_app_nil_l.
    + destruct (Index s d) as [j|] eqn:Ei; [|done]. intros [= <-].
      destruct (IH j eq_refl) as [Hs Hl]. split; [|simpl; lia].
      simpl. rewrite str_app_cons. f_equal. exact Hs.
Qed.

(** A piece that holds an occurrence keeps its first one when it is extended. *)
Lemma Index_app s d i t : Index s d = Some i → Index (s +:+ t) d = Some i.
Proof.
  revert i. induction s as [|c s IH]; intros i.
  - rewrite Index_nil. destruct (String.eqb_spec d "") as [->|]; [|done]. intros [= <-].
    by destruct t.
  - rewrite str_app_cons, !Index_unfold. destruct (HasPrefix (String c s) d) eqn:E.
    + intros [= <-]. assert (HasPrefix (String c (s +:+ t)) d = true) as ->; [|done].
      rewrite <-str_app_cons. eapply HasPrefix_trans; [apply HasPrefix_app | done].
    + destruct (Index s d) as [j|] eqn:Ei; [|done]. intros [= <-].
      rewrite (IH j eq_refl). destruct (HasPrefix (String c (s +:+ t)) d) eqn:E2; [|done].
      exfalso. apply Index_Some in Ei as [Hs Hl].
      apply HasPrefix_spec in E2 as [u Hu].
      assert (HasPrefix (String c s) d = true); [|congruence].
      apply HasPrefix_spec. exists (str_drop (String.length d) (String c s)).
      rewrite <-(take_drop_str (String.length d) (String c s)) at 1. f_equal.
      assert (str_take (String.length d) (String c (s +:+ t)) = d) as Hd.
      { rewrite Hu. apply str_take_app. }
      rewrite <-Hd at 2. clear -Hl. rewrite <-str_app_cons.
      remember (String c s) as z. assert (String.length d ≤ String.length z)%nat as Hz.
      { subst z. simpl. lia. }
      clear -Hz. revert Hz. generalize (String.length d). induction z as [|a z IH]; intros n Hn.
      { simpl in Hn. by replace n with 0%nat by lia. }
      destruct n; [done|]. rewrite str_app_cons. simpl in *. f_equal. apply IH. lia.
Qed.

(** The occurrence found is inside the piece that ends where it ends. *)
Lemma Index_take s d i :
  Index s d = Some i → Index (str_take (i + String.length d) s) d = Some i.
Proof.
  revert i. induction s as [|c s IH]; intros i.
  - rewrite Index_nil. destruct (String.eqb_spec d "") as [->|]; [|done]. by intros [= <-].
  - rewrite Index_unfold. destruct (HasPrefix (String c s) d) eqn:E.
    + intros [= <-]. apply HasPrefix_spec in E as [t ->]. simpl. rewrite str_take_app.
      destruct d; [done|]. rewrite Index_unfold, HasPrefix_refl. done.
    + destruct (Index s d) as [j|] eqn:Ei; [|done]. intros [= <-].
      cbn [Nat.add str_take]. rewrite Index_unfold.
      destruct (HasPrefix (String c (str_take (j + String.length d) s)) d) eqn:E2.
      * assert (HasPrefix (String c s) d = true); [|congruence].
        eapply HasPrefix_trans; [|exact E2]. apply HasPrefix_spec.
        exists (str_drop (j + String.length d) s). by rewrite str_app_cons, take_drop_str.
      * by rewrite (IH j eq_refl).
Qed.

(** ** The byte order *)
Lemma ltb_cons a s b t :
  String.ltb (String a s) (String b t) =
  ((N_of_ascii a <? N_of_ascii b)%N || (Ascii.eqb a b && String.ltb s t)).
Proof.
  unfold String.ltb. simpl. unfold Ascii.compare.
  destruct (N.compare_spec (N_of_ascii a) (N_of_ascii b)) as [E|E|E].
  - assert (a = b) as -> by (rewrite <-(ascii_N_embedding a), E; apply ascii_N_embedding).
    by rewrite N.ltb_irrefl, Ascii.eqb_refl.
  - apply N.ltb_lt in E as ->. done.
  - assert ((N_of_ascii a <? N_of_ascii b)%N = false) as -> by (apply N.ltb_ge; lia).
    assert (Ascii.eqb a b = false) as ->; [|done].
    apply Ascii.eqb_neq. intros ->. lia.
Qed.

Lemma ltb_nil_r s : String.ltb s "" = false.
Proof. by destruct s. Qed.

Lemma ltb_nil_l s : String.ltb "" s = negb (String.eqb s "").
Proof. by destruct s. Qed.

Lemma prefix_not_after p t : String.ltb (p +:+ t) p = false.
Proof.
  induction p as [|c p IH]; [by rewrite str_app_nil_l, ltb_nil_r|].
  by rewrite str_app_cons, ltb_cons, IH, N.ltb_irrefl, andb_false_r.
Qed.

(** What lies between a prefix and one of its extensions extends it too. *)
Lemma between_prefix p t x :
  String.ltb x p = false → String.ltb x (p +:+ t) = true → HasPrefix x p = true.
Proof.
  revert x. induction p as [|c p IH]; intros x.
  { by rewrite HasPrefix_nil. }
  destruct x as [|d x]; [done|]. rewrite str_app_cons, !ltb_cons, HasPrefix_cons.
  destruct (N.ltb_spec (N_of_ascii d) (N_of_ascii c)); simpl; [done|].
  destruct (Ascii.eqb_spec d c) as [->|]; simpl; [|done].
  rewrite Ascii.eqb_refl. simpl. apply IH.
Qed.

(** ** Reversal *)
Lemma rev_app_spec s t : String.rev_app s t = String.rev s +:+ t.
Proof.
  unfold String.rev. revert t. induction s as [|c s IH]; intros t; simpl; [done|].
  rewrite IH, (IH (String c "")), str_app_assoc. done.
Qed.

Lemma str_rev_cons c s : String.rev (String c s) = String.rev s +:+ String c "".
Proof. unfold String.rev at 1. simpl. apply rev_app_spec. Qed.

Lemma str_rev_snoc s c : String.rev (s +:+ String c "") = String c (String.rev s).
Proof.
  induction s as [|d s IH]; [done|]. by rewrite str_app_cons, !str_rev_cons, IH.
Qed.

Lemma length_str_rev s : String.length (String.rev s) = String.length s.
Proof.
  induction s as [|c s IH]; [done|]. rewrite str_rev_cons, length_str_app, IH. simpl. lia.
Qed.

Lemma str_rev_app s t : String.rev (s +:+ t) = String.rev t +:+ String.rev s.
Proof.
  induction s as [|c s IH]; [by rewrite str_app_nil_l, str_app_nil_r|].
  by rewrite str_app_cons, !str_rev_cons, IH, str_app_assoc.
Qed.

Lemma str_rev_involutive s : String.rev (String.rev s) = s.
Proof. induction s as [|c s IH]; [done|]. by rewrite str_rev_cons, str_rev_snoc, IH. Qed.

(** ** A byte that separates *)
Lemma Contains_byte_cons c d s :
  Contains (String c s) (String d "") = false → c ≠ d ∧ Contains s (String d "") = false.
Proof.
  unfold Contains. rewrite Index_unfold, HasPrefix_cons, HasPrefix_nil, andb_true_r.
  destruct (Ascii.eqb_spec d c) as [->|Hne]; [done|]. intros Hc. split; [congruence|].
  by destruct (Index s (String d "")).
Qed.

(** Texts without a byte are determined by what stands before its first
    occurrence. *)
Lemma split_at_byte d b1 b2 k1 k2 :
  Contains b1 (String d "") = false → Contains b2 (String d "") = false →
  b1 +:+ String d k1 = b2 +:+ String d k2 → b1 = b2 ∧ k1 = k2.
Proof.
  revert b2. induction b1 as [|c b1 IH]; intros [|e b2] H1 H2; rewrite ?str_app_nil_l, ?str_app_cons.
  - by intros [= ->].
  - apply Contains_byte_cons in H2 as [H2 _]. congruence.
  - apply Contains_byte_cons in H1 as [H1 _]. congruence.
  - apply Contains_byte_cons in H1 as [_ H1]. apply Contains_byte_cons in H2 as [_ H2].
    intros [= -> E]. by destruct (IH b2 H1 H2 E) as [-> ->].
Qed.

Lemma Join_cons_nil x l : Join (x :: l) "" = x +:+ Join l "".
Proof. destruct l; simpl; [by rewrite str_app_nil_r|done]. Qed.

Lemma str_drop_drop n m s : str_drop n (str_drop m s) = str_drop (m + n) s.
Proof.
  revert s. induction m as [|m IH]; intros [|c s]; simpl; try done. by destruct n.
Qed.

Lemma str_drop_take n m s : str_drop n (str_take m s) = str_take (m - n) (str_drop n s).
Proof.
  revert m s. induction n as [|n IH]; intros m s; simpl; [by rewrite Nat.sub_0_r|].
  destruct m as [|m]; simpl; [by destruct s|]. destruct s as [|c s]; simpl; [by destruct (m - n)%nat|]. apply IH.
Qed.

(** ** Splitting at a byte *)
Lemma Contains_byte c d s :
  Contains (String c s) (String d "") = Ascii.eqb d c || Contains s (String d "").
Proof.
  unfold Contains. rewrite Index_unfold, HasPrefix_cons, HasPrefix_nil, andb_true_r.
  destruct (Ascii.eqb d c); [done|]. by destruct (Index s (String d "")).
Qed.

Lemma Contains_byte_app d s t :
  Contains (s +:+ t) (String d "") = Contains s (String d "") || Contains t (String d "").
Proof.
  induction s as [|c s IH]; [done|]. by rewrite str_app_cons, !Contains_byte, IH, orb_assoc.
Qed.

Lemma Contains_byte_forall p d s : str_forall p s = true → p d = false → Contains s (String d "") = false.
Proof.
  intros Hs Hd. induction s as [|c s IH]; [done|]. simpl in Hs. apply andb_prop in Hs as [Hc Hs].
  rewrite Contains_byte, IH by done. destruct (Ascii.eqb_spec d c) as [->|]; [congruence|done].
Qed.

Lemma str_forall_app p s t : str_forall p (s +:+ t) = str_forall p s && str_forall p t.
Proof. induction s as [|c s IH]; [done|]. rewrite str_app_cons. simpl. by rewrite IH, andb_assoc. Qed.

Lemma str_forall_impl (p q : ascii → bool) s :
  (∀ c, p c = true → q c = true) → str_forall p s = true → str_forall q s = true.
Proof.
  intros Hpq. induction s as [|c s IH]; [done|]. simpl. rewrite !andb_true_iff. intros [Hc Hs]. auto.
Qed.

Lemma str_forall_drop p n s : str_forall p s = true → str_forall p (str_drop n s) = true.
Proof.
  revert n. induction s as [|c s IH]; intros [|n]; simpl; try done.
  intros Hs. apply IH. by apply andb_prop in Hs as [_ Hs].
Qed.

Lemma Index_byte_None d s : Contains s (String d "") = false → Index s (String d "") = None.
Proof. unfold Contains. by destruct (Index s (String d "")). Qed.

Lemma Index_byte_app d s t :
  Contains s (String d "") = false → Index (s +:+ String d t) (String d "") = Some (String.length s).
Proof.
  intros Hs. induction s as [|c s IH].
  - rewrite str_app_nil_l, Index_unfold, HasPrefix_cons, HasPrefix_nil, Ascii.eqb_refl. done.
  - rewrite Contains_byte in Hs. apply orb_false_iff in Hs as [Hc Hs].
    rewrite str_app_cons, Index_unfold, HasPrefix_cons, HasPrefix_nil, Hc, IH by done. done.
Qed.

Lemma str_drop_le n s : (String.length (str_drop n s) ≤ String.length s - n)%nat.
Proof. revert s. induction n as [|n IH]; intros [|c s]; simpl; try lia. apply IH. Qed.

Lemma split_n_S k s sep : split_n (S k) s sep =
  match k with
  | O => [s]
  | _ => match Index s sep with
         | None => [s]
         | Some i => str_take i s :: split_n k (str_drop (i + String.length sep) s) sep
         end
  end.
Proof. by destruct k. Qed.

Lemma split_n_fuel d n m s : (String.length s < n)%nat → (String.length s < m)%nat →
  split_n n s (String d "") = split_n m s (String d "").
Proof.
  revert m s. induction n as [|n IH]; intros m s Hn Hm; [lia|]. destruct m as [|m]; [lia|].
  destruct s as [|c s]; [by destruct n, m|]. rewrite !split_n_S. simpl in Hn, Hm.
  destruct n as [|n]; [lia|]. destruct m as [|m]; [lia|].
  destruct (Index _ _) as [i|]; [|done]. f_equal.
  pose proof (str_drop_le (i + String.length (String d "")) (String c s)) as Hl.
  simpl String.length in *. apply IH; lia.
Qed.

Lemma Split_unfold d s : Split s (String d "") =
  match Index s (String d "") with
  | None => [s]
  | Some i => str_take i s :: Split (str_drop (S i) s) (String d "")
  end.
Proof.
  unfold Split. rewrite split_n_S. destruct s as [|c s]; [done|]. change (String.length (String c s)) with (S (String.length s)).
  destruct (Index _ _) as [i|]; [|done]. f_equal.
  change (i + String.length (String d ""))%nat with (i + 1)%nat. rewrite Nat.add_1_r.
  pose proof (str_drop_le (S i) (String c s)) as Hl. simpl String.length in Hl at 2.
  apply split_n_fuel; lia.
Qed.

Lemma Split_single d s : Contains s (String d "") = false → Split s (String d "") = [s].
Proof. intros Hs%Index_byte_None. by rewrite Split_unfold, Hs. Qed.

Lemma Split_app d s t :
  Contains s (String d "") = false →
  Split (s +:+ String d t) (String d "") = s :: Split t (String d "").
Proof.
  intros Hs. rewrite Split_unfold, Index_byte_app, str_take_app by done. f_equal.
  by rewrite <- Nat.add_1_r, <- str_drop_drop, str_drop_app.
Qed.

(** Splitting undoes joining. *)
Lemma Split_Join d l :
  l ≠ [] → Forall (λ x, Contains x (String d "") = false) l →
  Split (Join l (String d "")) (String d "") = l.
Proof.
  intros Hl Hall. induction Hall as [|x l Hx Hall IH]; [done|].
  destruct l as [|y l]; [by apply Split_single|].
  change (Join (x :: y :: l) (String d "")) with (x +:+ String d "" +:+ Join (y :: l) (String d "")).
  rewrite str_app_cons, str_app_nil_l, Split_app by done. f_equal. by apply IH.
Qed.

(** ** Numbers as text *)
(** ** Plain texts: printable ASCII without spaces *)
Definition plain_char (c : ascii) : bool :=
  let n := N_of_ascii c in ((33 <=? n) && (n <=? 126))%N.

Fixpoint plain (s : string) : bool :=
  match s with
  | "" => true
  | String c s => plain_char c && plain s
  end.

Lemma plain_app s t : plain (s +:+ t) = plain s && plain t.
Proof. induction s as [|c s IH]; [done|]. rewrite str_app_cons. simpl. by rewrite IH, andb_assoc. Qed.

Lemma plain_drop n s : plain s = true → plain (str_drop n s) = true.
Proof.
  revert s. induction n as [|n IH]; intros [|c s]; simpl; try done.
  intros [_ Hs]%andb_true_iff. by apply IH.
Qed.

Lemma plain_leading s : plain s = true → leading_space s = 0%nat.
Proof.
  destruct s as [|c s]; [done|]. simpl. unfold plain_char, is_ascii_space.
  rewrite !andb_true_iff, !N.leb_le. intros [[Hlo Hhi] _].
  assert (∀ k, (127 ≤ k)%N → (N_of_ascii c =? k)%N = false) as Hk by (intros; apply N.eqb_neq; lia).
  rewrite (Hk 194%N), (Hk 225%N), (Hk 226%N), (Hk 227%N) by lia. destruct (N.leb_spec 9 (N_of_ascii c)); destruct (N.leb_spec (N_of_ascii c) 13);
    destruct (N.eqb_spec (N_of_ascii c) 32); simpl; try lia; by repeat case_match.
Qed.

Lemma plain_trailing s : plain s = true → trailing_space s = 0%nat.
Proof.
  intros Hs. unfold trailing_space. rewrite !plain_leading by by apply plain_drop.
  by rewrite !andb_false_r.
Qed.

Lemma TrimSpace_plain s : plain s = true → TrimSpace s = s.
Proof.
  intros Hs. unfold TrimSpace.
  assert (trim_left (String.length s) s = s) as ->.
  { destruct (String.length s); simpl; [done|]. by rewrite plain_leading. }
  destruct (String.length s); simpl; [done|]. by rewrite plain_trailing.
Qed.

(** ** Decimal digits *)
Lemma digit_cases (Q : Z → Prop) : Forall Q [0; 1; 2; 3; 4; 5; 6; 7; 8; 9] → ∀ d, 0 ≤ d < 10 → Q d.
Proof.
  rewrite !Forall_cons, Forall_nil. intros Ha d Hd.
  assert (d = 0 ∨ d = 1 ∨ d = 2 ∨ d = 3 ∨ d = 4 ∨ d = 5 ∨ d = 6 ∨ d = 7 ∨ d = 8 ∨ d = 9) as Hc by lia.
  naive_solver.
Qed.

Lemma digit_of_char d : 0 ≤ d < 10 → digit_of (digit_char d) = Some d ∧ plain_char (digit_char d) = true.
Proof. revert d. apply digit_cases. by repeat constructor. Qed.

Lemma parse_digits_app s t a :
  parse_digits a (s +:+ t) = a' ← parse_digits a s; parse_digits a' t.
Proof.
  revert a. induction s as [|c s IH]; intros a; [done|]. rewrite str_app_cons. simpl.
  destruct (digit_of c); [apply IH|done].
Qed.

(** The digits put before [acc]. *)
Lemma format_digits_spec fuel z acc :
  0 ≤ z → (Z.log2 z < Z.of_nat fuel)%Z →
  ∃ c s, format_digits fuel z acc = String c s +:+ acc ∧ plain (String c s) = true ∧ is_Some (digit_of c) ∧
    ∀ a, ∃ k, parse_digits a (String c s) = Some (a * k + z).
Proof.
  revert z acc. induction fuel as [|fuel IH]; intros z acc Hz Hf.
  { pose proof (Z.log2_nonneg z). lia. }
  simpl. pose proof (Z.mod_pos_bound z 10 ltac:(lia)) as Hm.
  destruct (digit_of_char (z mod 10) Hm) as [Hd Hp].
  pose proof (Z.div_mod z 10 ltac:(lia)) as Hdm.
  destruct (Z.eqb_spec (z / 10) 0) as [E|Hne].
  - exists (digit_char (z mod 10)), "". split_and!; [done|simpl; by rewrite Hp|by rewrite Hd|].
    intros a. exists 10. simpl. rewrite Hd. f_equal. lia.
  - assert (0 < z / 10) by (pose proof (Z.div_pos z 10); lia).
    destruct (IH (z / 10) (String (digit_char (z mod 10)) acc)) as (c & s & -> & Hps & Hc & Hparse);
      [lia| |].
    { assert (Z.log2 (z / 10) < Z.log2 z); [|lia]. apply Z.log2_lt_pow2; [lia|].
      pose proof (Z.log2_spec z ltac:(lia)) as [_ Hs].
      rewrite Z.pow_succ_r in Hs by apply Z.log2_nonneg. lia. }
    exists c, (s +:+ String (digit_char (z mod 10)) ""). split_and!; [| |done|].
    + by rewrite !str_app_cons, str_app_assoc.
    + change (plain (String c s +:+ String (digit_char (z mod 10)) "") = true).
      rewrite plain_app, Hps. simpl. by rewrite Hp.
    + intros a. set (t := String (digit_char (z mod 10)) "").
      change (∃ k, parse_digits a (String c s +:+ t) = Some (a * k + z)). rewrite parse_digits_app. unfold t. destruct (Hparse a) as [k ->].
      exists (k * 10). simpl. rewrite Hd. f_equal. lia.
Qed.

Lemma format_uint_spec z : 0 ≤ z →
  ∃ c s, format_uint z = String c s ∧ plain (String c s) = true ∧ is_Some (digit_of c) ∧
    parse_uint (String c s) = Some z.
Proof.
  intros Hz. pose proof (Z.log2_nonneg z).
  destruct (format_digits_spec (S (Z.to_nat (Z.log2 z))) z "" Hz) as (c & s & E & Hp & Hc & Hparse); [lia|].
  exists c, s. unfold format_uint. rewrite E, str_app_nil_r. split_and!; [done..|].
  destruct (Hparse 0) as [k Hk]. unfold parse_uint. rewrite Hk. done.
Qed.

(** A text that starts with a digit has no sign. *)
Lemma ParseInt_unsigned c s : is_Some (digit_of c) →
  ParseInt (String c s) =
  match parse_uint (String c s) with
  | Some z => if in_int64b z then Some z else None
  | None => None
  end.
Proof.
  intros [d Hd]. unfold ParseInt.
  destruct c as [[] [] [] [] [] [] [] []]; try reflexivity; by vm_compute in Hd.
Qed.

Theorem ParseInt_FormatInt z : in_int64 z → ParseInt (FormatInt z) = Some z.
Proof.
  intros Hi. assert (in_int64b z = true) as Hb by by apply in_int64b_spec.
  unfold FormatInt. destruct (Z.ltb_spec z 0).
  - destruct (format_uint_spec (- z) ltac:(lia)) as (c & s & -> & _ & _ & Hp).
    unfold ParseInt. rewrite Hp. simpl. by rewrite Z.opp_involutive, Hb.
  - destruct (format_uint_spec z ltac:(lia)) as (c & s & -> & _ & Hc & Hp).
    by rewrite ParseInt_unsigned, Hp, Hb.
Qed.

Lemma plain_FormatInt z : plain (FormatInt z) = true.
Proof.
  unfold FormatInt. destruct (Z.ltb_spec z 0).
  - destruct (format_uint_spec (- z) ltac:(lia)) as (c & s & -> & Hp & _). done.
  - by destruct (format_uint_spec z ltac:(lia)) as (c & s & -> & Hp & _).
Qed.

(** The text does not go on with a digit. *)
Definition no_digit (s : string) : Prop := match s with "" => True | String c _ => digit_of c = None end.

(** ** Words *)
Lemma leading_space_tail w t u : w ≠ "" →
  leading_space (w +:+ t) = 0%nat → leading_space (w +:+ String " " u) = 0%nat.
Proof.
  destruct w as [|a [|b [|c w]]]; [done|..]; intros _; rewrite ?str_app_cons, ?str_app_nil_l; try done.
  - simpl. destruct (is_ascii_space a); [done|]. intros _.
    rewrite !andb_false_r. destruct u; simpl; rewrite ?andb_false_r; done.
  - simpl. destruct (is_ascii_space a); [done|]. destruct (_ && (_ || _))%N; [done|]. intros _.
    by rewrite !andb_false_r.
Qed.

Lemma leading_space_end w t : w ≠ "" → leading_space (w +:+ t) = 0%nat → leading_space w = 0%nat.
Proof.
  destruct w as [|a [|b [|c w]]]; [done|..]; intros _; rewrite ?str_app_cons, ?str_app_nil_l; try done.
  - simpl. by destruct (is_ascii_space a).
  - simpl. destruct (is_ascii_space a); [done|]. by destruct (_ && (_ || _))%N.
Qed.

(** No space starts inside [w] when [t] follows it. *)
Fixpoint solid (w t : string) : Prop :=
  match w with
  | "" => True
  | String _ w' => leading_space (w +:+ t) = 0%nat ∧ solid w' t
  end.

Lemma solid_snoc w c s : solid w (String c s) → leading_space (String c s) = 0%nat → solid (w +:+ String c "") s.
Proof.
  induction w as [|a w IH]; intros Hw Hc; [done|].
  destruct Hw as [Ha Hw]. rewrite str_app_cons. split; [|by apply IH].
  by rewrite <- str_app_cons, str_app_assoc.
Qed.

Lemma solid_tail w t u : solid w t → solid w (String " " u).
Proof.
  induction w as [|a w IH]; [done|]. intros [Ha Hw]. split; [by apply (leading_space_tail (String a w) t)|auto].
Qed.

Lemma solid_end w t : solid w t → solid w "".
Proof.
  induction w as [|a w IH]; [done|]. intros [Ha Hw]. split; [|auto].
  rewrite str_app_nil_r. by apply leading_space_end with t.
Qed.

Definition is_word (w : string) : Prop := w ≠ "" ∧ solid w " ".

Lemma fields_words fuel word s : solid word s → Forall is_word (fields fuel word s).
Proof.
  assert (∀ w t, solid w t → Forall is_word (if String.eqb w "" then [] else [w])) as Hended.
  { intros w t Hw. destruct (String.eqb_spec w ""); constructor; [|done].
    split; [done|]. by apply solid_tail with t. }
  revert word s. induction fuel as [|fuel IH]; intros word s Hw; simpl; [by apply Hended with s|].
  destruct s as [|c s]; [by apply Hended with ""|].
  destruct (leading_space (String c s)) as [|n] eqn:Hn.
  - apply IH. by apply solid_snoc.
  - apply Forall_app. split; [by apply Hended with (String c s)|]. by apply IH.
Qed.

Lemma Fields_words s : Forall is_word (Fields s).
Proof. by apply fields_words. Qed.

Lemma fields_skip fuel acc w t : solid w t →
  fields (String.length w + fuel) acc (w +:+ t) = fields fuel (acc +:+ w) t.
Proof.
  revert acc. induction w as [|c w IH]; intros acc Hw; [by rewrite str_app_nil_r|].
  destruct Hw as [Hc Hw]. rewrite str_app_cons. simpl String.length. rewrite Nat.add_succ_l.
  change (fields (S (String.length w + fuel)) acc (String c (w +:+ t))) with
    (match leading_space (String c (w +:+ t)) with
     | O => fields (String.length w + fuel) (acc +:+ String c "") (w +:+ t)
     | n => (if String.eqb acc "" then [] else [acc]) ++ fields (String.length w + fuel) "" (str_drop n (String c (w +:+ t)))
     end).
  rewrite str_app_cons in Hc. rewrite Hc, IH by done. by rewrite str_app_assoc.
Qed.

Lemma fields_Join fuel l : Forall is_word l →
  fields (String.length (Join l " ") + fuel) "" (Join l " ") = l.
Proof.
  intros Hl. revert fuel. induction Hl as [|w l [Hne Hw] Hl IH]; intros fuel; [by destruct fuel|].
  destruct l as [|w' l].
  - simpl Join. pose proof (fields_skip fuel "" w "" (solid_end _ _ Hw)) as E.
    rewrite str_app_nil_r, str_app_nil_l in E. rewrite E.
    apply String.eqb_neq in Hne. destruct fuel; simpl; by rewrite Hne.
  - change (Join (w :: w' :: l) " ") with (w +:+ " " +:+ Join (w' :: l) " ").
    set (rest := Join (w' :: l) " ") in *. rewrite str_app_cons, str_app_nil_l.
    rewrite length_str_app. simpl String.length. rewrite <- Nat.add_assoc, fields_skip by (by apply solid_tail with " ").
    rewrite str_app_nil_l. simpl. apply String.eqb_neq in Hne. rewrite Hne. simpl. by rewrite IH.
Qed.

Lemma Fields_Join l : Forall is_word l → Fields (Join l " ") = l.
Proof. intros Hl. unfold Fields. rewrite <- (Nat.add_0_r (String.length _)). by apply fields_Join. Qed.

(** A word has no line break. *)
Lemma solid_lacks d w t : is_ascii_space d = true → solid w t → Contains w (String d "") = false.
Proof.
  intros Hd. induction w as [|c w IH]; [done|]. intros [Hc Hw]. rewrite Contains_byte, IH by done.
  destruct (Ascii.eqb_spec d c) as [<-|]; [|done]. rewrite str_app_cons in Hc. simpl in Hc. by rewrite Hd in Hc.
Qed.

Lemma Join_lacks d sep l : Contains sep (String d "") = false →
  Forall (λ x, Contains x (String d "") = false) l → Contains (Join l sep) (String d "") = false.
Proof.
  intros Hsep. induction 1 as [|x l Hx Hl IH]; [done|]. destruct l as [|y l]; [done|].
  change (Join (x :: y :: l) sep) with (x +:+ sep +:+ Join (y :: l) sep).
  by rewrite !Contains_byte_app, Hx, Hsep, IH.
Qed.

(** ** Trimming twice is trimming once *)
Lemma length_str_take_le n s : (String.length (str_take n s) ≤ n)%nat.
Proof. revert s. induction n as [|n IH]; intros [|c s]; simpl; try lia. specialize (IH s). lia. Qed.

Lemma leading_space_nil_fuel s : String.length s = 0%nat → leading_space s = 0%nat.
Proof. by intros ->%length_zero_str. Qed.

Lemma trim_left_done fuel s : (String.length s ≤ fuel)%nat → leading_space (trim_left fuel s) = 0%nat.
Proof.
  revert s. induction fuel as [|fuel IH]; intros s Hs; simpl; [apply leading_space_nil_fuel; lia|].
  destruct (leading_space s) as [|n] eqn:E; [done|]. apply IH.
  pose proof (str_drop_le (S n) s). destruct s; [done|]. simpl in *. lia.
Qed.

Lemma trim_right_done fuel s : (String.length s ≤ fuel)%nat → trailing_space (trim_right fuel s) = 0%nat.
Proof.
  revert s. induction fuel as [|fuel IH]; intros s Hs; simpl.
  { assert (s = "") as -> by (apply length_zero_str; lia). done. }
  destruct (trailing_space s) as [|n] eqn:E; [done|]. apply IH.
  pose proof (length_str_take_le (String.length s - S n) s). destruct s; [done|]. simpl in *. lia.
Qed.

Lemma trim_right_prefix fuel s : ∃ t, s = trim_right fuel s +:+ t.
Proof.
  revert s. induction fuel as [|fuel IH]; intros s; simpl; [exists ""; by rewrite str_app_nil_r|].
  destruct (trailing_space s) as [|n]; [exists ""; by rewrite str_app_nil_r|].
  destruct (IH (str_take (String.length s - S n) s)) as [t Ht].
  exists (t +:+ str_drop (String.length s - S n) s). by rewrite <- str_app_assoc, <- Ht, take_drop_str.
Qed.

Lemma TrimSpace_ends s : leading_space (TrimSpace s) = 0%nat ∧ trailing_space (TrimSpace s) = 0%nat.
Proof.
  unfold TrimSpace. set (l := trim_left _ s). split; [|by apply trim_right_done].
  destruct (trim_right_prefix (String.length l) l) as [t Ht].
  destruct (String.eqb_spec (trim_right (String.length l) l) "") as [->|Hne]; [done|].
  apply leading_space_end with t; [done|]. rewrite <- Ht. by apply trim_left_done.
Qed.

Lemma TrimSpace_idem s : TrimSpace (TrimSpace s) = TrimSpace s.
Proof.
  destruct (TrimSpace_ends s) as [Hl Hr]. set (t := TrimSpace s) in *. clearbody t. unfold TrimSpace.
  assert (∀ fuel, trim_left fuel t = t) as -> by (intros []; simpl; [done|by rewrite Hl]).
  destruct (String.length t); simpl; [done|by rewrite Hr].
Qed.

(** Something that does not start with a space has something left. *)
Lemma trim_right_nonempty fuel s : s ≠ "" → leading_space s = 0%nat → trim_right fuel s ≠ "".
Proof.
  revert s. induction fuel as [|fuel IH]; intros s Hne Hs; simpl; [done|].
  destruct (trailing_space s) as [|n] eqn:E; [done|].
  destruct (String.eqb_spec (str_take (String.length s - S n) s) "") as [Ht|Ht].
  - exfalso. assert (String.length s - S n = 0)%nat as Hlen.
    { destruct (String.length s - S n)%nat eqn:El; [done|]. by destruct s. }
    assert (trailing_space s = 0%nat); [|congruence]. unfold trailing_space in *.
    destruct (String.length s) eqn:Els; [by apply length_zero_str in Els|].
    rewrite <- Els in *.
    repeat match goal with |- context [if ?b then _ else _] => destruct b eqn:? end; simplify_eq; try done.
    all: match goal with Hb : (_ && _) = true |- _ => apply andb_true_iff in Hb as [_ Hb] end.
    all: rewrite Hlen in *; simpl in *; rewrite Hs in *; done.
  - apply IH; [done|]. apply leading_space_end with (str_drop (String.length s - S n) s); [done|].
    by rewrite take_drop_str.
Qed.

Lemma TrimSpace_nonempty s : s ≠ "" → leading_space s = 0%nat → TrimSpace s ≠ "".
Proof.
  intros Hne Hs. unfold TrimSpace. destruct (String.length s) eqn:E; simpl.
  - by apply length_zero_str in E.
  - rewrite Hs. by apply trim_right_nonempty.
Qed.
