(* ===== verification/Url.v ===== *)
(** * Queries of URLs (package net/url)

    The escaping of query components, the values of a query and its text, with the
    round trip between the two. *)
From S2P Require Import Prelude GoStrings StringFacts.

(** ** Escaping *)
Definition unreserved (c : ascii) : bool :=
  in_range "a" "z" c || in_range "A" "Z" c || in_range "0" "9" c ||
  Ascii.eqb c "-" || Ascii.eqb c "_" || Ascii.eqb c "." || Ascii.eqb c "~".

Definition upper_hex_digit (n : N) : ascii :=
  if (n <? 10)%N then ascii_of_N (n + 48) else ascii_of_N (n + 55).

Definition percent (c : ascii) : string :=
  let n := N_of_ascii c in
  String "%" (String (upper_hex_digit (n / 16)) (String (upper_hex_digit (n mod 16)) "")).

Definition escape_byte (c : ascii) : string :=
  if unreserved c then String c "" else if Ascii.eqb c " " then "+" else percent c.

Fixpoint QueryEscape (s : string) : string :=
  match s with
  | "" => ""
  | String c s => escape_byte c +:+ QueryEscape s
  end.

Fixpoint QueryUnescape (s : string) : option string :=
  match s with
  | "" => Some ""
  | String c s =>
    if Ascii.eqb c "%" then
      match s with
      | String a (String b s) =>
        match hex_value a, hex_value b, QueryUnescape s with
        | Some x, Some y, Some t => Some (String (ascii_of_N (x * 16 + y)) t)
        | _, _, _ => None
        end
      | _ => None
      end
    else String (if Ascii.eqb c "+" then " "%char else c) <$> QueryUnescape s
  end.

(** ** Values

    [ParseQuery] drops the pieces it cannot read, as [URL.Query] does. *)
Abbreviation url_values := (gmap string (list string)).

Definition add_value (k x : string) (v : url_values) : url_values :=
  <[k := default [] (v !! k) ++ [x]]> v.

Definition parse_piece (v : url_values) (piece : string) : url_values :=
  if Contains piece ";" || String.eqb piece "" then v
  else let '(k, x, _) := Cut piece "=" in
       match QueryUnescape k, QueryUnescape x with
       | Some k, Some x => add_value k x v
       | _, _ => v
       end.

Definition ParseQuery (q : string) : url_values := fold_left parse_piece (Split q "&") ∅.

(** [v.Encode()]: sorted by key. *)
Definition key_le (x y : string * list string) : Prop := String.leb x.1 y.1 = true.
#[export] Instance key_le_decision x y : Decision (key_le x y) := decide (_ = true).

Definition sorted_values (v : url_values) : list (string * list string) :=
  merge_sort key_le (map_to_list v).

Definition encode_pair (k x : string) : string := QueryEscape k +:+ "=" +:+ QueryEscape x.

Definition entry_pairs (e : string * list string) : list (string * string) := pair e.1 <$> e.2.

Definition Values_Encode (v : url_values) : string :=
  Join ((λ e, encode_pair e.1 e.2) <$> (sorted_values v ≫= entry_pairs)) "&".

Definition values_set (k x : string) (v : url_values) : url_values := <[k := [x]]> v.

Example encode_ex : Values_Encode (<["b" := ["x y"; "&"]]> (<["a" := ["1"]]> ∅)) = "a=1&b=x+y&b=%26" ∧
  ParseQuery "b=1&a=%41;&c=%zz&a=x+y&d" = <["b" := ["1"]]> (<["a" := ["x y"]]> (<["d" := [""]]> ∅)).
Proof. vm_compute. done. Qed.

(** ** Facts *)
Lemma bytes_check (f : ascii → bool) :
  forallb f (ascii_of_N <$> (N.of_nat <$> seq 0 256)) = true → ∀ c, f c = true.
Proof.
  intros Hall c. rewrite forallb_forall in Hall. apply Hall. apply list_elem_of_In.
  apply list_elem_of_fmap. exists (N_of_ascii c). rewrite ascii_N_embedding. split; [done|].
  apply list_elem_of_fmap. exists (N.to_nat (N_of_ascii c)). rewrite N2Nat.id. split; [done|].
  apply elem_of_seq. pose proof (N_ascii_bounded c). lia.
Qed.

(** The bytes of an escaped component. *)
Definition component_char (c : ascii) : bool := unreserved c || Ascii.eqb c "+" || Ascii.eqb c "%".

Lemma escape_byte_chars c : str_forall component_char (escape_byte c) = true.
Proof. revert c. apply bytes_check. vm_compute. done. Qed.

Lemma QueryEscape_chars s : str_forall component_char (QueryEscape s) = true.
Proof. induction s as [|c s IH]; [done|]. simpl. by rewrite str_forall_app, escape_byte_chars, IH. Qed.

Lemma QueryEscape_lacks d s : component_char d = false → Contains (QueryEscape s) (String d "") = false.
Proof. apply Contains_byte_forall, QueryEscape_chars. Qed.

(** What the first bytes of an escaped text read back as. *)
Definition reads_back (c : ascii) : bool :=
  match escape_byte c with
  | String p "" => negb (Ascii.eqb p "%") && Ascii.eqb (if Ascii.eqb p "+" then " "%char else p) c
  | String p (String a (String b "")) =>
    Ascii.eqb p "%" &&
    match hex_value a, hex_value b with
    | Some x, Some y => Ascii.eqb (ascii_of_N (x * 16 + y)) c
    | _, _ => false
    end
  | _ => false
  end.

Lemma escape_reads_back c : reads_back c = true.
Proof. revert c. apply bytes_check. vm_compute. done. Qed.

Lemma QueryUnescape_Escape s : QueryUnescape (QueryEscape s) = Some s.
Proof.
  induction s as [|c s IH]; [done|]. simpl QueryEscape.
  pose proof (escape_reads_back c) as Hc. unfold reads_back in Hc.
  destruct (escape_byte c) as [|p [|a [|b [|? ?]]]]; try done.
  - apply andb_prop in Hc as [Hp Hc%Ascii.eqb_eq]. rewrite str_app_cons, str_app_nil_l. simpl.
    apply negb_true_iff in Hp. by rewrite Hp, IH, Hc.
  - apply andb_prop in Hc as [Hp Hc]. rewrite !str_app_cons, str_app_nil_l. simpl. rewrite Hp, IH.
    destruct (hex_value a), (hex_value b); try done. by apply Ascii.eqb_eq in Hc as ->.
Qed.

Lemma QueryEscape_inj s t : QueryEscape s = QueryEscape t → s = t.
Proof. intros E. pose proof (QueryUnescape_Escape s) as H. rewrite E, QueryUnescape_Escape in H. congruence. Qed.

Lemma parse_encode_pair v k x : parse_piece v (encode_pair k x) = add_value k x v.
Proof.
  unfold parse_piece, encode_pair.
  assert (Contains (QueryEscape k +:+ "=" +:+ QueryEscape x) ";" = false) as ->.
  { rewrite str_app_cons, str_app_nil_l, Contains_byte_app, Contains_byte.
    by rewrite !QueryEscape_lacks. }
  rewrite str_app_cons, str_app_nil_l.
  destruct (String.eqb_spec (QueryEscape k +:+ String "=" (QueryEscape x)) "") as [E|_].
  { by apply str_app_eq_nil in E as [_ ?]. }
  simpl. unfold Cut. rewrite Index_byte_app by (by apply QueryEscape_lacks).
  rewrite str_take_app, <- str_drop_drop, str_drop_app. simpl.
  by rewrite !QueryUnescape_Escape.
Qed.

Lemma encode_pair_lacks d k x : component_char d = false → d ≠ "="%char →
  Contains (encode_pair k x) (String d "") = false.
Proof.
  intros Hd Hne. unfold encode_pair. rewrite str_app_cons, str_app_nil_l, Contains_byte_app, Contains_byte.
  rewrite !QueryEscape_lacks by done. by destruct (Ascii.eqb_spec d "=").
Qed.

Lemma encode_pair_nonempty k x : encode_pair k x ≠ "".
Proof. intros [_ [=]]%str_app_eq_nil. Qed.

Lemma fold_parse_pairs ps v :
  fold_left parse_piece ((λ e, encode_pair e.1 e.2) <$> ps) v =
  fold_left (λ v e, add_value e.1 e.2 v) ps v.
Proof.
  revert v. induction ps as [|[k x] ps IH]; intros v; [done|]. simpl. rewrite parse_encode_pair. apply IH.
Qed.

Lemma fold_add_query_entry k xs ys v :
  v !! k = Some xs → fold_left (λ v e, add_value e.1 e.2 v) (pair k <$> ys) v = <[k := xs ++ ys]> v.
Proof.
  revert xs v. induction ys as [|y ys IH]; intros xs v Hk; simpl.
  - by rewrite app_nil_r, insert_id.
  - rewrite (IH (xs ++ [y])) by (unfold add_value; by rewrite Hk, lookup_insert_eq).
    unfold add_value. by rewrite insert_insert_eq, <-app_assoc.
Qed.

Lemma fold_add_new k ys v :
  v !! k = None → ys ≠ [] → fold_left (λ v e, add_value e.1 e.2 v) (pair k <$> ys) v = <[k := ys]> v.
Proof.
  intros Hk Hys. destruct ys as [|y ys]; [done|]. simpl.
  rewrite (fold_add_query_entry k [y]) by (unfold add_value; by rewrite Hk, lookup_insert_eq).
  unfold add_value. by rewrite Hk, insert_insert_eq.
Qed.

Lemma fold_add_entries l v :
  NoDup l.*1 → (∀ k ys, (k, ys) ∈ l → v !! k = None ∧ ys ≠ []) →
  fold_left (λ v e, add_value e.1 e.2 v) (l ≫= entry_pairs) v = list_to_map l ∪ v.
Proof.
  revert v. induction l as [|[k ys] l IH]; intros v Hnd Hl; simpl; [by rewrite map_empty_union|].
  inversion_clear Hnd as [|? ? Hk Hnd']. destruct (Hl k ys) as [Hv Hys]; [by left|].
  rewrite fold_left_app. unfold entry_pairs at 2. simpl. rewrite fold_add_new by done.
  rewrite IH; [|done|].
  - rewrite <- insert_union_l, <- insert_union_r; [done|].
    by apply not_elem_of_list_to_map_1.
  - intros k' ys' Hin. destruct (Hl k' ys') as [Hv' Hys']; [by right|]. split; [|done].
    rewrite lookup_insert_ne; [done|]. intros <-. apply Hk. apply list_elem_of_fmap. by exists (k, ys').
Qed.

#[export] Instance key_le_total : Total key_le.
Proof. intros x y. unfold key_le. apply string_leb_total. Qed.
#[export] Instance key_le_trans : Transitive key_le.
Proof. intros x y z. unfold key_le. apply string_leb_trans. Qed.

Lemma sorted_values_perm v : sorted_values v ≡ₚ map_to_list v.
Proof. apply merge_sort_Permutation. Qed.

(** Parsing undoes encoding. *)
Lemma ParseQuery_Encode v : map_Forall (λ _ xs, xs ≠ []) v → ParseQuery (Values_Encode v) = v.
Proof.
  intros Hv. unfold ParseQuery, Values_Encode.
  assert (fold_left (λ v e, add_value e.1 e.2 v) (sorted_values v ≫= entry_pairs) ∅ = v) as Hfold.
  { rewrite fold_add_entries.
    - rewrite map_union_empty, (list_to_map_proper _ (map_to_list v)), list_to_map_to_list; [done|..].
      + rewrite sorted_values_perm. apply NoDup_fst_map_to_list.
      + apply sorted_values_perm.
    - rewrite sorted_values_perm. apply NoDup_fst_map_to_list.
    - intros k ys Hin. rewrite sorted_values_perm, elem_of_map_to_list in Hin.
      split; [apply lookup_empty|]. by apply (Hv k ys). }
  destruct (sorted_values v ≫= entry_pairs) as [|p ps] eqn:Ep; [by rewrite <- Hfold|].
  rewrite Split_Join, fold_parse_pairs; [done|done|].
  apply Forall_fmap, Forall_true. intros e. by apply encode_pair_lacks.
Qed.

(** [url.PathUnescape]: a plus sign stays. *)
Fixpoint PathUnescape (s : string) : option string :=
  match s with
  | "" => Some ""
  | String c s =>
    if Ascii.eqb c "%" then
      match s with
      | String a (String b s) =>
        match hex_value a, hex_value b, PathUnescape s with
        | Some x, Some y, Some t => Some (String (ascii_of_N (x * 16 + y)) t)
        | _, _, _ => None
        end
      | _ => None
      end
    else String c <$> PathUnescape s
  end.
