(* ===== verification/Base64.v ===== *)
(** * Base64 (encoding/base64: [StdEncoding] and [RawURLEncoding])

    Continuation tokens are unpadded URL base64, checksum headers are padded
    standard base64.  As in Go, decoding skips CR and LF and does not look at
    the unused bits of the last digit. *)
From S2P Require Import Prelude GoStrings.

Inductive base64_encoding := StdEncoding | RawURLEncoding.

Definition b64_char (enc : base64_encoding) (n : N) : ascii :=
  if (n <? 26)%N then ascii_of_N (n + 65)
  else if (n <? 52)%N then ascii_of_N (n + 71)
  else if (n <? 62)%N then ascii_of_N (n - 4)
  else match enc with
       | StdEncoding => if (n =? 62)%N then "+"%char else "/"%char
       | RawURLEncoding => if (n =? 62)%N then "-"%char else "_"%char
       end.

Definition b64_value (enc : base64_encoding) (c : ascii) : option N :=
  if in_range "A" "Z" c then Some (N_of_ascii c - 65)%N
  else if in_range "a" "z" c then Some (N_of_ascii c - 71)%N
  else if in_range "0" "9" c then Some (N_of_ascii c + 4)%N
  else match enc with
       | StdEncoding => if Ascii.eqb c "+" then Some 62%N
                        else if Ascii.eqb c "/" then Some 63%N else None
       | RawURLEncoding => if Ascii.eqb c "-" then Some 62%N
                           else if Ascii.eqb c "_" then Some 63%N else None
       end.

Definition pad (enc : base64_encoding) (n : nat) : string :=
  match enc, n with
  | StdEncoding, 1%nat => "="
  | StdEncoding, 2%nat => "=="
  | _, _ => ""
  end.

Fixpoint b64_encode (enc : base64_encoding) (s : string) : string :=
  match s with
  | "" => ""
  | String a "" =>
    let n := (N_of_ascii a * 16)%N in
    String (b64_char enc (n / 64)) (String (b64_char enc (n mod 64)) (pad enc 2))
  | String a (String b "") =>
    let n := ((N_of_ascii a * 256 + N_of_ascii b) * 4)%N in
    String (b64_char enc (n / 4096)) (String (b64_char enc (n / 64 mod 64))
      (String (b64_char enc (n mod 64)) (pad enc 1)))
  | String a (String b (String c s)) =>
    let n := (N_of_ascii a * 65536 + N_of_ascii b * 256 + N_of_ascii c)%N in
    String (b64_char enc (n / 262144)) (String (b64_char enc (n / 4096 mod 64))
      (String (b64_char enc (n / 64 mod 64)) (String (b64_char enc (n mod 64))
        (b64_encode enc s))))
  end.

(** The text without CR and LF. *)
Fixpoint strip_newlines (s : string) : string :=
  match s with
  | "" => ""
  | String c s => if (N_of_ascii c =? 10)%N || (N_of_ascii c =? 13)%N then strip_newlines s
                  else String c (strip_newlines s)
  end.

Definition byte_of (n : N) : ascii := ascii_of_N (n mod 256).

(** The digits of the last, incomplete quantum must be followed by the padding
    of the encoding and nothing else. *)
Fixpoint b64_decode_stripped (enc : base64_encoding) (s : string) : option string :=
  match s with
  | "" => Some ""
  | String a (String b s2) =>
    match b64_value enc a, b64_value enc b with
    | Some x, Some y =>
      if String.eqb s2 (pad enc 2) then Some (String (byte_of ((x * 64 + y) / 16)) "")
      else match s2 with
      | String c s3 =>
        match b64_value enc c with
        | Some z =>
          let n3 := ((x * 64 + y) * 64 + z)%N in
          if String.eqb s3 (pad enc 1)
          then Some (String (byte_of (n3 / 1024)) (String (byte_of (n3 / 4)) ""))
          else match s3 with
          | String d s4 =>
            match b64_value enc d with
            | Some w =>
              let n := (n3 * 64 + w)%N in
              match b64_decode_stripped enc s4 with
              | Some t => Some (String (byte_of (n / 65536)) (String (byte_of (n / 256))
                            (String (byte_of n) t)))
              | None => None
              end
            | None => None
            end
          | "" => None
          end
        | None => None
        end
      | "" => None
      end
    | _, _ => None
    end
  | _ => None
  end.

Definition b64_decode (enc : base64_encoding) (s : string) : option string :=
  b64_decode_stripped enc (strip_newlines s).

(** ** Round trip *)
Definition check_digit (enc : base64_encoding) (n : N) : bool :=
  match b64_value enc (b64_char enc n) with
  | Some m => (m =? n)%N && negb ((N_of_ascii (b64_char enc n) =? 10)%N) &&
              negb ((N_of_ascii (b64_char enc n) =? 13)%N)
              && negb (Ascii.eqb (b64_char enc n) "=")
  | None => false
  end.

Lemma check_all_digits enc :
  List.forallb (λ n, check_digit enc (N.of_nat n)) (List.seq 0 64) = true.
Proof. destruct enc; vm_compute; reflexivity. Qed.

Lemma check_digit_ok enc n : (n < 64)%N → check_digit enc n = true.
Proof.
  intros Hn. pose proof (check_all_digits enc) as Ha. rewrite List.forallb_forall in Ha.
  specialize (Ha (N.to_nat n)). rewrite N2Nat.id in Ha. apply Ha, in_seq. lia.
Qed.

Lemma b64_value_char enc n : (n < 64)%N → b64_value enc (b64_char enc n) = Some n.
Proof.
  intros Hn. pose proof (check_digit_ok enc n Hn) as Hc. unfold check_digit in Hc.
  destruct (b64_value _ _) as [m|]; [|done].
  rewrite !andb_true_iff, N.eqb_eq in Hc. destruct Hc as [[[-> _] _] _]. done.
Qed.

Lemma strip_char enc n s : (n < 64)%N →
  strip_newlines (String (b64_char enc n) s) = String (b64_char enc n) (strip_newlines s).
Proof.
  intros Hn. pose proof (check_digit_ok enc n Hn) as Hc. unfold check_digit in Hc.
  destruct (b64_value _ _) as [m|]; [|done].
  rewrite !andb_true_iff, !negb_true_iff in Hc. destruct Hc as [[[_ H10] H13] _].
  cbn [strip_newlines]. by rewrite H10, H13.
Qed.

Lemma b64_char_not_pad enc n : (n < 64)%N → Ascii.eqb (b64_char enc n) "=" = false.
Proof.
  intros Hn. pose proof (check_digit_ok enc n Hn) as Hc. unfold check_digit in Hc.
  destruct (b64_value _ _) as [m|]; [|done].
  rewrite !andb_true_iff, !negb_true_iff in Hc. by destruct Hc as [_ Hc].
Qed.

Lemma not_pad enc n k s : (n < 64)%N → String.eqb (String (b64_char enc n) s) (pad enc k) = false.
Proof.
  intros Hn. pose proof (b64_char_not_pad enc n Hn) as Hp.
  destruct enc, k as [|[|[|k]]]; simpl; try done; by rewrite Hp.
Qed.

Lemma N_of_ascii_lt c : (N_of_ascii c < 256)%N.
Proof. apply N_ascii_bounded. Qed.

Lemma byte_of_ascii c : byte_of (N_of_ascii c) = c.
Proof. unfold byte_of. rewrite N.mod_small by apply N_of_ascii_lt. apply ascii_N_embedding. Qed.

Lemma mod64_lt n : (n mod 64 < 64)%N.
Proof. apply N.mod_lt. lia. Qed.

Lemma strip_pad enc n : strip_newlines (pad enc n) = pad enc n.
Proof. by destruct enc, n as [|[|[|n]]]. Qed.

(** The digits of one to three bytes give the bytes back. *)
Lemma digits2 n : (n / 64 * 64 + n mod 64 = n)%N.
Proof. pose proof (N.div_mod n 64). lia. Qed.

Lemma digits3 n : ((n / 4096 * 64 + n / 64 mod 64) * 64 + n mod 64 = n)%N.
Proof.
  pose proof (N.div_mod n 64). pose proof (N.div_mod (n / 64) 64).
  rewrite N.Div0.div_div in *. change (64 * 64)%N with 4096%N in *. lia.
Qed.

Lemma digits4 n :
  (((n / 262144 * 64 + n / 4096 mod 64) * 64 + n / 64 mod 64) * 64 + n mod 64 = n)%N.
Proof.
  pose proof (N.div_mod n 64). pose proof (N.div_mod (n / 64) 64).
  pose proof (N.div_mod (n / 64 / 64) 64). rewrite !N.Div0.div_div in *.
  change (64 * 64 * 64)%N with 262144%N in *. change (64 * (64 * 64))%N with 262144%N in *.
  change (64 * 64)%N with 4096%N in *. lia.
Qed.

Lemma byte_of_mod n m : byte_of (m * 256 + n) = byte_of n.
Proof. unfold byte_of. by rewrite N.add_comm, N.Div0.mod_add. Qed.

Lemma div_shift a b k : (0 < k → b < k → (a * k + b) / k = a)%N.
Proof. intros. rewrite N.div_add_l by lia. rewrite N.div_small by lia. lia. Qed.

Lemma b64_decode_encode_stripped enc s :
  b64_decode_stripped enc (b64_encode enc s) = Some s.
Proof.
  remember (String.length s) as len eqn:Hlen. revert s Hlen.
  induction (lt_wf len) as [len _ IH]. intros s ->.
  destruct s as [|a [|b [|c s]]]; [done| | |].
  - pose proof (N_of_ascii_lt a). cbn [b64_encode]. set (n := (N_of_ascii a * 16)%N).
    assert (n / 64 < 64)%N by (apply N.Div0.div_lt_upper_bound; lia).
    cbn [b64_decode_stripped]. rewrite !b64_value_char by (done || apply mod64_lt).
    rewrite String.eqb_refl. rewrite digits2. unfold n.
    by rewrite N.div_mul, byte_of_ascii by lia.
  - pose proof (N_of_ascii_lt a). pose proof (N_of_ascii_lt b). cbn [b64_encode].
    set (n := ((N_of_ascii a * 256 + N_of_ascii b) * 4)%N).
    assert (n / 4096 < 64)%N by (apply N.Div0.div_lt_upper_bound; lia).
    cbn [b64_decode_stripped]. rewrite !b64_value_char by (done || apply mod64_lt).
    rewrite not_pad by apply mod64_lt. rewrite String.eqb_refl, digits3.
    replace (n / 1024)%N with (N_of_ascii a).
    2:{ unfold n. change 1024%N with (4 * 256)%N. rewrite <-N.Div0.div_div, N.div_mul by lia.
        symmetry. by apply div_shift. }
    unfold n. rewrite N.div_mul, byte_of_mod, !byte_of_ascii by lia. done.
  - pose proof (N_of_ascii_lt a). pose proof (N_of_ascii_lt b). pose proof (N_of_ascii_lt c).
    cbn [b64_encode]. set (n := (N_of_ascii a * 65536 + N_of_ascii b * 256 + N_of_ascii c)%N).
    assert (n / 262144 < 64)%N by (apply N.Div0.div_lt_upper_bound; lia).
    cbn [b64_decode_stripped]. rewrite !b64_value_char by (done || apply mod64_lt).
    rewrite !not_pad by apply mod64_lt. rewrite digits4.
    rewrite (IH (String.length s)) by (simpl; lia || done).
    replace (n / 65536)%N with (N_of_ascii a).
    2:{ unfold n. rewrite <-N.add_assoc. symmetry. apply div_shift; lia. }
    replace (n / 256)%N with (N_of_ascii a * 256 + N_of_ascii b)%N.
    2:{ unfold n. change 65536%N with (256 * 256)%N. rewrite N.mul_assoc, <-N.mul_add_distr_r.
        symmetry. apply div_shift; lia. }
    replace n with ((N_of_ascii a * 256 + N_of_ascii b) * 256 + N_of_ascii c)%N by (unfold n; lia).
    by rewrite !byte_of_mod, !byte_of_ascii.
Qed.

Lemma strip_encode enc s : strip_newlines (b64_encode enc s) = b64_encode enc s.
Proof.
  remember (String.length s) as len eqn:Hlen. revert s Hlen.
  induction (lt_wf len) as [len _ IH]. intros s ->.
  destruct s as [|a [|b [|c s]]]; [done| | |]; cbn [b64_encode].
  - pose proof (N_of_ascii_lt a).
    rewrite !strip_char by (apply mod64_lt || (apply N.Div0.div_lt_upper_bound; lia)).
    by rewrite strip_pad.
  - pose proof (N_of_ascii_lt a). pose proof (N_of_ascii_lt b).
    rewrite !strip_char by (apply mod64_lt || (apply N.Div0.div_lt_upper_bound; lia)).
    by rewrite strip_pad.
  - pose proof (N_of_ascii_lt a). pose proof (N_of_ascii_lt b). pose proof (N_of_ascii_lt c).
    rewrite !strip_char by (apply mod64_lt || (apply N.Div0.div_lt_upper_bound; lia)).
    rewrite (IH (String.length s)); [done | simpl; lia | done].
Qed.

(** Decoding is the inverse of encoding, for every byte string. *)
Lemma b64_round_trip enc s : b64_decode enc (b64_encode enc s) = Some s.
Proof. unfold b64_decode. rewrite strip_encode. apply b64_decode_encode_stripped. Qed.

Example b64_ex : b64_encode StdEncoding "s000!" = "czAwMCE=" ∧
  b64_decode StdEncoding "czAwMCE=" = Some "s000!" ∧
  b64_encode RawURLEncoding "a" = "YQ" ∧ b64_decode RawURLEncoding "YQ=" = None.
Proof. vm_compute. done. Qed.

Lemma b64_encode_nil enc s : b64_encode enc s = "" → s = "".
Proof. by destruct s as [|a [|b [|c s]]]. Qed.
