(* ===== verification/Model.v ===== *)
(** * The metadata model (src/internal/metadata/model.go)

    One record per struct.  A [time.Time] is the number of nanoseconds since the
    Unix epoch ([Z]); an [int64] or [int] is a [Z]; a [map[string]string] is a
    [gmap string string], with the nil map read as the empty one (the program
    only ranges over, copies and reads these maps). *)
From S2P Require Import Prelude.

(** The zero [time.Time]: January 1, year 1, 00:00:00 UTC. *)
Definition zero_time : Z := -62135596800000000000.

Record Bucket := mkBucket {
  b_Name : string;
  b_CreatedAt : Z;
  b_Region : string;
  b_VersioningStatus : string;
}.

Record ObjectVersion := mkObjectVersion {
  ov_Bucket : string;
  ov_Key : string;
  ov_VersionID : string;
  ov_Size : Z;
  ov_ETag : string;
  ov_ChecksumSHA256 : string;
  ov_ChecksumSHA1 : string;
  ov_ChecksumCRC32 : string;
  ov_ChecksumCRC32C : string;
  ov_StoragePath : string;
  ov_Metadata : gmap string string;
  ov_DeleteMarker : bool;
  ov_CreatedAt : Z;
}.

Record ListObjectsV2Options := mkListObjectsV2Options {
  lo_Prefix : string;
  lo_Delimiter : string;
  lo_StartAfter : string;
  lo_MaxKeys : Z;
}.

Record ListObjectsV2Entry := mkListObjectsV2Entry {
  le_Value : string;
  le_Object : option ObjectVersion;
}.

Record ListObjectsV2Result := mkListObjectsV2Result {
  lr_Entries : list ListObjectsV2Entry;
  lr_IsTruncated : bool;
  lr_NextAfter : string;
}.

Record MultipartUpload := mkMultipartUpload {
  mu_UploadID : string;
  mu_Bucket : string;
  mu_Key : string;
  mu_SSEAlgorithm : string;
  mu_InitiatedAt : Z;
}.

Record MultipartPart := mkMultipartPart {
  mp_UploadID : string;
  mp_PartNumber : Z;
  mp_ETag : string;
  mp_Size : Z;
  mp_ChecksumSHA256 : string;
  mp_ChecksumSHA1 : string;
  mp_ChecksumCRC32 : string;
  mp_ChecksumCRC32C : string;
  mp_StoragePath : string;
  mp_CreatedAt : Z;
}.

Record CredentialRecord := mkCredentialRecord {
  cr_AccessKeyID : string;
  cr_SecretHash : string;
  cr_Status : string;
  cr_CreatedAt : Z;
  cr_RotatedAt : Z;
}.

Record BucketWebsiteRoutingCondition := mkRoutingCondition {
  rc_KeyPrefixEquals : string;
  rc_HttpErrorCodeReturnedEquals : string;
}.

Record BucketWebsiteRedirect := mkWebsiteRedirect {
  wr_HostName : string;
  wr_Protocol : string;
  wr_ReplaceKeyPrefixWith : string;
  wr_ReplaceKeyWith : string;
  wr_HTTPRedirectCode : string;
}.

Record BucketWebsiteRoutingRule := mkRoutingRule {
  rr_Condition : BucketWebsiteRoutingCondition;
  rr_Redirect : BucketWebsiteRedirect;
}.

Record BucketWebsiteConfig := mkBucketWebsiteConfig {
  bw_Bucket : string;
  bw_IndexDocument : string;
  bw_ErrorDocument : string;
  bw_RedirectAllHost : string;
  bw_RedirectAllProtocol : string;
  bw_RoutingRules : list BucketWebsiteRoutingRule;
  bw_Enabled : bool;
  bw_PublicRead : bool;
}.

Record BucketCORSConfig := mkBucketCORSConfig {
  bc_Bucket : string;
  bc_AllowedOrigins : string;
  bc_AllowedMethods : string;
  bc_AllowedHeaders : string;
  bc_ExposeHeaders : string;
  bc_MaxAgeSeconds : Z;
  bc_Enabled : bool;
}.

Record BucketPolicy := mkBucketPolicy {
  bp_Bucket : string;
  bp_Document : string;
  bp_Enabled : bool;
}.

Record BucketPublicAccessBlock := mkBucketPublicAccessBlock {
  pab_Bucket : string;
  pab_BlockPublicACLs : bool;
  pab_IgnorePublicACLs : bool;
  pab_BlockPublicPolicy : bool;
  pab_RestrictPublicBuckets : bool;
}.

Record BucketLifecycle := mkBucketLifecycle {
  bl_Bucket : string;
  bl_Document : string;
  bl_Enabled : bool;
}.

Record BucketNotification := mkBucketNotification {
  bn_Bucket : string;
  bn_Document : string;
  bn_Enabled : bool;
}.

Record BucketReplication := mkBucketReplication {
  br_Bucket : string;
  br_Document : string;
  br_Enabled : bool;
}.

Record ObjectTagging := mkObjectTagging {
  ot_Bucket : string;
  ot_Key : string;
  ot_VersionID : string;
  ot_Document : string;
}.

Record ConsistencyIssue := mkConsistencyIssue {
  ci_Code : string;
  ci_Message : string;
}.

Record Migration := mkMigration {
  mg_Version : Z;
  mg_Name : string;
  mg_UpSQL : string;
}.

#[global] Instance Bucket_eq_dec : EqDecision Bucket.
Proof. solve_decision. Defined.
#[global] Instance ObjectVersion_eq_dec : EqDecision ObjectVersion.
Proof. solve_decision. Defined.
#[global] Instance ListObjectsV2Entry_eq_dec : EqDecision ListObjectsV2Entry.
Proof. solve_decision. Defined.
#[global] Instance ListObjectsV2Result_eq_dec : EqDecision ListObjectsV2Result.
Proof. solve_decision. Defined.
#[global] Instance MultipartUpload_eq_dec : EqDecision MultipartUpload.
Proof. solve_decision. Defined.
#[global] Instance MultipartPart_eq_dec : EqDecision MultipartPart.
Proof. solve_decision. Defined.
#[global] Instance CredentialRecord_eq_dec : EqDecision CredentialRecord.
Proof. solve_decision. Defined.

(** The zero value of the struct, for the composite literals that name some of
    the fields only. *)
Definition zero_ObjectVersion : ObjectVersion :=
  mkObjectVersion "" "" "" 0 "" "" "" "" "" "" ∅ false zero_time.

(** [v.Metadata = m] *)
Definition set_ov_Metadata (m : gmap string string) (v : ObjectVersion) : ObjectVersion :=
  mkObjectVersion (ov_Bucket v) (ov_Key v) (ov_VersionID v) (ov_Size v) (ov_ETag v)
    (ov_ChecksumSHA256 v) (ov_ChecksumSHA1 v) (ov_ChecksumCRC32 v) (ov_ChecksumCRC32C v)
    (ov_StoragePath v) m (ov_DeleteMarker v) (ov_CreatedAt v).

(** [b.VersioningStatus = s] *)
Definition set_b_VersioningStatus (s : string) (b : Bucket) : Bucket :=
  mkBucket (b_Name b) (b_CreatedAt b) (b_Region b) s.

(** The delete marker that [DeleteObject] stores. *)
Definition delete_marker (bucket key versionID : string) (at_ : Z) : ObjectVersion :=
  mkObjectVersion bucket key versionID 0 "" "" "" "" "" "" ∅ true at_.

(** The sentinel errors of the package. *)
Definition ErrNotFound : error := ErrSentinel "metadata not found".
Definition ErrConflict : error := ErrSentinel "metadata conflict".
