(* ===== verification/MemoryStore.v ===== *)
(** * The memory-backed metadata store (src/internal/metadata/store.go)

    The state of [memoryBackedStore], its operations as state transformers, the
    transaction surface [memoryTx], the snapshot that is persisted, and the
    validation and repair of the state.  Every method of the Go type holds the
    store's mutex from entry to return, so a call is one step of the model.

    A slice of versions is a list, oldest first; a missing map entry reads as the
    nil slice, i.e. []. *)
From S2P Require Import Prelude Model.

(** [objectKey] *)
Record objectKey := mkObjectKey {
  ok_bucket : string;
  ok_key : string;
}.

#[global] Instance objectKey_eq_dec : EqDecision objectKey.
Proof. solve_decision. Defined.

#[global] Program Instance objectKey_countable : Countable objectKey :=
  inj_countable' (λ k, (ok_bucket k, ok_key k)) (λ p, mkObjectKey p.1 p.2) _.
Next Obligation. by intros []. Qed.

Record memoryState := mkMemoryState {
  st_buckets : gmap string Bucket;
  st_objects : gmap objectKey (list ObjectVersion);
  st_multipart : gmap string MultipartUpload;
  st_parts : gmap string (gmap Z MultipartPart);
  st_credentials : gmap string CredentialRecord;
  st_websites : gmap string BucketWebsiteConfig;
  st_cors : gmap string BucketCORSConfig;
  st_policies : gmap string BucketPolicy;
  st_publicAccess : gmap string BucketPublicAccessBlock;
  st_lifecycles : gmap string BucketLifecycle;
  st_notifications : gmap string BucketNotification;
  st_replications : gmap string BucketReplication;
  st_taggings : gmap objectKey ObjectTagging;
  st_backendLabel : string;
}.

(** Assignments to one field of the state. *)
Definition set_buckets v st := mkMemoryState v (st_objects st) (st_multipart st)
  (st_parts st) (st_credentials st) (st_websites st) (st_cors st) (st_policies st)
  (st_publicAccess st) (st_lifecycles st) (st_notifications st) (st_replications st)
  (st_taggings st) (st_backendLabel st).
Definition set_objects v st := mkMemoryState (st_buckets st) v (st_multipart st)
  (st_parts st) (st_credentials st) (st_websites st) (st_cors st) (st_policies st)
  (st_publicAccess st) (st_lifecycles st) (st_notifications st) (st_replications st)
  (st_taggings st) (st_backendLabel st).
Definition set_multipart v st := mkMemoryState (st_buckets st) (st_objects st) v
  (st_parts st) (st_credentials st) (st_websites st) (st_cors st) (st_policies st)
  (st_publicAccess st) (st_lifecycles st) (st_notifications st) (st_replications st)
  (st_taggings st) (st_backendLabel st).
Definition set_parts v st := mkMemoryState (st_buckets st) (st_objects st)
  (st_multipart st) v (st_credentials st) (st_websites st) (st_cors st) (st_policies st)
  (st_publicAccess st) (st_lifecycles st) (st_notifications st) (st_replications st)
  (st_taggings st) (st_backendLabel st).
Definition set_credentials v st := mkMemoryState (st_buckets st) (st_objects st)
  (st_multipart st) (st_parts st) v (st_websites st) (st_cors st) (st_policies st)
  (st_publicAccess st) (st_lifecycles st) (st_notifications st) (st_replications st)
  (st_taggings st) (st_backendLabel st).
Definition set_websites v st := mkMemoryState (st_buckets st) (st_objects st)
  (st_multipart st) (st_parts st) (st_credentials st) v (st_cors st) (st_policies st)
  (st_publicAccess st) (st_lifecycles st) (st_notifications st) (st_replications st)
  (st_taggings st) (st_backendLabel st).
Definition set_cors v st := mkMemoryState (st_buckets st) (st_objects st)
  (st_multipart st) (st_parts st) (st_credentials st) (st_websites st) v (st_policies st)
  (st_publicAccess st) (st_lifecycles st) (st_notifications st) (st_replications st)
  (st_taggings st) (st_backendLabel st).
Definition set_policies v st := mkMemoryState (st_buckets st) (st_objects st)
  (st_multipart st) (st_parts st) (st_credentials st) (st_websites st) (st_cors st) v
  (st_publicAccess st) (st_lifecycles st) (st_notifications st) (st_replications st)
  (st_taggings st) (st_backendLabel st).
Definition set_publicAccess v st := mkMemoryState (st_buckets st) (st_objects st)
  (st_multipart st) (st_parts st) (st_credentials st) (st_websites st) (st_cors st)
  (st_policies st) v (st_lifecycles st) (st_notifications st) (st_replications st)
  (st_taggings st) (st_backendLabel st).
Definition set_lifecycles v st := mkMemoryState (st_buckets st) (st_objects st)
  (st_multipart st) (st_parts st) (st_credentials st) (st_websites st) (st_cors st)
  (st_policies st) (st_publicAccess st) v (st_notifications st) (st_replications st)
  (st_taggings st) (st_backendLabel st).
Definition set_notifications v st := mkMemoryState (st_buckets st) (st_objects st)
  (st_multipart st) (st_parts st) (st_credentials st) (st_websites st) (st_cors st)
  (st_policies st) (st_publicAccess st) (st_lifecycles st) v (st_replications st)
  (st_taggings st) (st_backendLabel st).
Definition set_replications v st := mkMemoryState (st_buckets st) (st_objects st)
  (st_multipart st) (st_parts st) (st_credentials st) (st_websites st) (st_cors st)
  (st_policies st) (st_publicAccess st) (st_lifecycles st) (st_notifications st) v
  (st_taggings st) (st_backendLabel st).
Definition set_taggings v st := mkMemoryState (st_buckets st) (st_objects st)
  (st_multipart st) (st_parts st) (st_credentials st) (st_websites st) (st_cors st)
  (st_policies st) (st_publicAccess st) (st_lifecycles st) (st_notifications st)
  (st_replications st) v (st_backendLabel st).

Definition emptyState (backendLabel : string) : memoryState :=
  mkMemoryState ∅ ∅ ∅ ∅ ∅ ∅ ∅ ∅ ∅ ∅ ∅ ∅ ∅ backendLabel.

(** What is written to the persister.  The nil maps of the Go struct are read
    as empty ones. *)
Record persistedObject := mkPersistedObject {
  po_Bucket : string;
  po_Key : string;
  po_Versions : list ObjectVersion;
}.

Record persistedState := mkPersistedState {
  ps_Buckets : gmap string Bucket;
  ps_Objects : list persistedObject;
  ps_Multipart : gmap string MultipartUpload;
  ps_Parts : gmap string (gmap Z MultipartPart);
  ps_Credentials : gmap string CredentialRecord;
  ps_Websites : gmap string BucketWebsiteConfig;
  ps_CORS : gmap string BucketCORSConfig;
  ps_Policies : gmap string BucketPolicy;
  ps_PublicAccess : gmap string BucketPublicAccessBlock;
  ps_Lifecycles : gmap string BucketLifecycle;
  ps_Notifications : gmap string BucketNotification;
  ps_Replications : gmap string BucketReplication;
  ps_Taggings : list ObjectTagging;
  ps_BackendLabel : string;
}.

(** ** Operations on the state *)

(** [st.objects[k]], nil when absent. *)
Definition versions_of (st : memoryState) (k : objectKey) : list ObjectVersion :=
  default [] (st_objects st !! k).

(** [versions[len(versions)-1]] of a non-empty slice. *)
Definition latest_of (versions : list ObjectVersion) : option ObjectVersion := last versions.

(** The map key of the tagging of one version: [key + 0x00 + versionID]. *)
Definition nul : string := String (ascii_of_nat 0) EmptyString.
Definition taggingKey (bucket key versionID : string) : objectKey :=
  mkObjectKey bucket (key +:+ nul +:+ versionID).

Definition createBucket (bucket : Bucket) : M memoryState unit := λ st,
  if String.eqb (b_Name bucket) "" then (st, Err (Errorf "bucket name is required" []))
  else match st_buckets st !! b_Name bucket with
       | Some _ => (st, Err ErrConflict)
       | None => (set_buckets (<[b_Name bucket := bucket]> (st_buckets st)) st, Ok tt)
       end.

Definition filter_not_null (versions : list ObjectVersion) : list ObjectVersion :=
  List.filter (λ existing, negb (String.eqb (ov_VersionID existing) "null")) versions.

Definition putObjectVersion (version : ObjectVersion) (st : memoryState) : memoryState :=
  let k := mkObjectKey (ov_Bucket version) (ov_Key version) in
  let st1 :=
    if String.eqb (ov_VersionID version) "null"
    then set_objects (<[k := filter_not_null (versions_of st k)]> (st_objects st)) st
    else st in
  set_objects (<[k := versions_of st1 k ++ [version]]> (st_objects st1)) st1.

(** [for k, v := range in { out[k] = v }] *)
Definition clone_map `{!GoRuntime} `{Countable K} {A} (m : gmap K A) : gmap K A :=
  fold_left (λ out '(k, v), <[k := v]> out) (range_map m) ∅.

Definition copyStringMap `{!GoRuntime} (in_ : gmap string string) : gmap string string :=
  clone_map in_.

(** The operations of [memoryTx]; the locked methods of the store run the same
    code and then persist, apart from [DeleteBucket]. *)
Definition tx_CreateBucket (bucket : Bucket) : M memoryState unit := createBucket bucket.

Definition tx_DeleteBucket (bucket : string) : M memoryState unit := λ st,
  match st_buckets st !! bucket with
  | None => (st, Err ErrNotFound)
  | Some _ =>
    (set_lifecycles (delete bucket (st_lifecycles st))
      (set_publicAccess (delete bucket (st_publicAccess st))
        (set_policies (delete bucket (st_policies st))
          (set_cors (delete bucket (st_cors st))
            (set_websites (delete bucket (st_websites st))
              (set_buckets (delete bucket (st_buckets st)) st))))), Ok tt)
  end.

Definition tx_UpdateBucketVersioning (bucket status : string) : M memoryState unit := λ st,
  match st_buckets st !! bucket with
  | None => (st, Err ErrNotFound)
  | Some b =>
    (set_buckets (<[bucket := set_b_VersioningStatus status b]> (st_buckets st)) st, Ok tt)
  end.

Definition tx_PutObjectVersion (version : ObjectVersion) : M memoryState unit :=
  λ st, (putObjectVersion version st, Ok tt).

Definition tx_DeleteObject (bucket key versionID : string) (at_ : Z) : M memoryState unit :=
  tx_PutObjectVersion (delete_marker bucket key versionID at_).

Definition tx_CreateMultipartUpload (upload : MultipartUpload) : M memoryState unit := λ st,
  match st_multipart st !! mu_UploadID upload with
  | Some _ => (st, Err ErrConflict)
  | None => (set_multipart (<[mu_UploadID upload := upload]> (st_multipart st)) st, Ok tt)
  end.

Definition tx_DeleteMultipartUpload (uploadID : string) : M memoryState unit := λ st,
  match st_multipart st !! uploadID with
  | None => (st, Err ErrNotFound)
  | Some _ =>
    (set_parts (delete uploadID (st_parts st))
      (set_multipart (delete uploadID (st_multipart st)) st), Ok tt)
  end.

Definition tx_UpsertMultipartPart (part : MultipartPart) : M memoryState unit := λ st,
  match st_multipart st !! mp_UploadID part with
  | None => (st, Err ErrNotFound)
  | Some _ =>
    let partMap := default ∅ (st_parts st !! mp_UploadID part) in
    (set_parts (<[mp_UploadID part := <[mp_PartNumber part := part]> partMap]> (st_parts st)) st,
     Ok tt)
  end.

Definition tx_UpsertCredentialRecord (record : CredentialRecord) : M memoryState unit :=
  λ st, (set_credentials (<[cr_AccessKeyID record := record]> (st_credentials st)) st, Ok tt).

(** The configuration maps that are keyed by bucket name share one shape of
    put, get and delete; a table names the field and the key of its records. *)
Record config_table (A : Type) := mkConfigTable {
  ct_get : memoryState → gmap string A;
  ct_set : gmap string A → memoryState → memoryState;
  ct_bucket : A → string;
}.
Arguments ct_get {_} _ _.
Arguments ct_set {_} _ _ _.
Arguments ct_bucket {_} _ _.

Definition websites_table := mkConfigTable _ st_websites set_websites bw_Bucket.
Definition cors_table := mkConfigTable _ st_cors set_cors bc_Bucket.
Definition policies_table := mkConfigTable _ st_policies set_policies bp_Bucket.
Definition publicAccess_table := mkConfigTable _ st_publicAccess set_publicAccess pab_Bucket.
Definition lifecycles_table := mkConfigTable _ st_lifecycles set_lifecycles bl_Bucket.
Definition notifications_table := mkConfigTable _ st_notifications set_notifications bn_Bucket.
Definition replications_table := mkConfigTable _ st_replications set_replications br_Bucket.

Definition putConfig {A} (t : config_table A) (cfg : A) : M memoryState unit := λ st,
  match st_buckets st !! ct_bucket t cfg with
  | None => (st, Err ErrNotFound)
  | Some _ => (ct_set t (<[ct_bucket t cfg := cfg]> (ct_get t st)) st, Ok tt)
  end.

Definition getConfig {A} (t : config_table A) (bucket : string) (st : memoryState) : result A :=
  match ct_get t st !! bucket with
  | None => Err ErrNotFound
  | Some cfg => Ok cfg
  end.

Definition deleteConfig {A} (t : config_table A) (bucket : string) : M memoryState unit := λ st,
  match ct_get t st !! bucket with
  | None => (st, Err ErrNotFound)
  | Some _ => (ct_set t (delete bucket (ct_get t st)) st, Ok tt)
  end.

(** ** The snapshot that is persisted *)
Section snapshot.
Context `{!GoRuntime}.

Definition less_persistedObject : persistedObject → persistedObject → bool :=
  less_by po_Bucket (λ x y, String.ltb (po_Key x) (po_Key y)).

Definition snapshotState (st : memoryState) : persistedState :=
  let objects := sort_slice less_persistedObject
    ((λ '(k, versions), mkPersistedObject (ok_bucket k) (ok_key k) versions)
       <$> range_map (st_objects st)) in
  let taggings := snd <$> range_map (st_taggings st) in
  mkPersistedState (st_buckets st) objects (st_multipart st) (st_parts st)
    (st_credentials st) (st_websites st) (st_cors st) (st_policies st)
    (st_publicAccess st) (st_lifecycles st) (st_notifications st)
    (st_replications st) taggings (st_backendLabel st).
End snapshot.

Definition applyPersistedState (ps : persistedState) (old : memoryState) : memoryState :=
  let taggings := fold_left (λ m tagging,
      <[taggingKey (ot_Bucket tagging) (ot_Key tagging) (ot_VersionID tagging) := tagging]> m)
    (ps_Taggings ps) ∅ in
  let objects := fold_left (λ m po,
      <[mkObjectKey (po_Bucket po) (po_Key po) := po_Versions po]> m)
    (ps_Objects ps) ∅ in
  mkMemoryState (ps_Buckets ps) objects (ps_Multipart ps) (ps_Parts ps)
    (ps_Credentials ps) (ps_Websites ps) (ps_CORS ps) (ps_Policies ps)
    (ps_PublicAccess ps) (ps_Lifecycles ps) (ps_Notifications ps) (ps_Replications ps)
    taggings (st_backendLabel old).

(** [cloneState] copies every map entry by entry. *)
Section clone.
Context `{!GoRuntime}.

Definition cloneState (in_ : memoryState) : memoryState :=
  mkMemoryState (clone_map (st_buckets in_)) (clone_map (st_objects in_))
    (clone_map (st_multipart in_))
    (fold_left (λ out '(uploadID, partMap), <[uploadID := clone_map partMap]> out)
       (range_map (st_parts in_)) ∅)
    (clone_map (st_credentials in_)) (clone_map (st_websites in_))
    (clone_map (st_cors in_)) (clone_map (st_policies in_))
    (clone_map (st_publicAccess in_)) (clone_map (st_lifecycles in_))
    (clone_map (st_notifications in_)) (clone_map (st_replications in_))
    (clone_map (st_taggings in_)) (st_backendLabel in_).
End clone.

(** ** Validation and repair *)
Section consistency.
Context `{!GoRuntime}.

Definition bucket_missing (st : memoryState) (bucket : string) : bool :=
  bool_decide (st_buckets st !! bucket = None).

(** [for bucket := range configs { if missing { issues = append(...) } }] *)
Definition orphan_configs {A} (code message : string) (st : memoryState)
    (configs : gmap string A) : list ConsistencyIssue :=
  (λ bucket, mkConsistencyIssue code (Sprintf message [bucket])) <$>
    List.filter (bucket_missing st) (range_map configs).*1.

Definition validateState (st : memoryState) : list ConsistencyIssue :=
  ((λ key, mkConsistencyIssue "orphan_object_versions"
       (Sprintf "object versions exist for missing bucket %q" [ok_bucket key])) <$>
     List.filter (λ key, bucket_missing st (ok_bucket key)) (range_map (st_objects st)).*1) ++
  ((λ '(uploadID, upload), mkConsistencyIssue "orphan_multipart_upload"
       (Sprintf "multipart upload %q references missing bucket %q"
          [uploadID; mu_Bucket upload])) <$>
     List.filter (λ '(_, upload), bucket_missing st (mu_Bucket upload))
       (range_map (st_multipart st))) ++
  orphan_configs "orphan_website_config"
    "website configuration exists for missing bucket %q" st (st_websites st) ++
  orphan_configs "orphan_cors_config"
    "cors configuration exists for missing bucket %q" st (st_cors st) ++
  orphan_configs "orphan_bucket_policy"
    "bucket policy exists for missing bucket %q" st (st_policies st) ++
  orphan_configs "orphan_public_access_block"
    "public access block exists for missing bucket %q" st (st_publicAccess st).

(** [for k, v := range m { if missing(v) { delete(m, k); repaired++ } }]: the
    map without the orphans and the number of deletions. *)
Definition delete_orphans `{Countable K} {A} (orphan : K → A → bool)
    (m : gmap K A) : gmap K A * Z :=
  fold_left (λ '(m', n) '(k, v), if orphan k v then (delete k m', n + 1) else (m', n))
    (range_map m) (m, 0).

Definition repairState (st : memoryState) : memoryState * Z :=
  let '(objects, n1) := delete_orphans (λ key _, bucket_missing st (ok_bucket key))
    (st_objects st) in
  let '(multipart, parts, n2) :=
    fold_left (λ '(m', p', n) '(uploadID, upload),
        if bucket_missing st (mu_Bucket upload)
        then (delete uploadID m', delete uploadID p', n + 1) else (m', p', n))
      (range_map (st_multipart st)) (st_multipart st, st_parts st, 0) in
  let '(websites, n3) := delete_orphans (λ b _, bucket_missing st b) (st_websites st) in
  let '(cors, n4) := delete_orphans (λ b _, bucket_missing st b) (st_cors st) in
  let '(policies, n5) := delete_orphans (λ b _, bucket_missing st b) (st_policies st) in
  let '(publicAccess, n6) :=
    delete_orphans (λ b _, bucket_missing st b) (st_publicAccess st) in
  (set_publicAccess publicAccess (set_policies policies (set_cors cors
     (set_websites websites (set_parts parts (set_multipart multipart
        (set_objects objects st)))))),
   n1 + n2 + n3 + n4 + n5 + n6).
End consistency.

(** ** The store *)

(** The [statePersister] interface: [Load] gives the saved state if there is
    one; [Save] may fail. *)
Class StatePersister (P : Type) := {
  Load : P → result (option persistedState);
  Save : persistedState → P → P * option error;
}.

(** What a persister promises: a save that reports success is what the next load
    returns. *)
Class StatePersisterLaws (P : Type) `{!StatePersister P} := {
  Load_Save st p p' : Save st p = (p', None) → Load p' = Ok (Some st);
}.

Record memoryBackedStore (P : Type) := mkStore {
  ms_persister : option P;
  ms_st : memoryState;
}.
Arguments mkStore {P} _ _.
Arguments ms_persister {P} _.
Arguments ms_st {P} _.

Section store.
Context `{!GoRuntime} {P : Type} `{!StatePersister P}.
#[local] Abbreviation store := (memoryBackedStore P).

Definition newMemoryBackedStore (persister : option P) (backendLabel : string)
    : result store :=
  let fresh := mkStore persister (emptyState backendLabel) in
  match persister with
  | None => Ok fresh
  | Some p =>
    match Load p with
    | Err e => Err (ErrWrap "load persisted metadata state: %w" [] e)
    | Ok None => Ok fresh
    | Ok (Some state) => Ok (mkStore persister (applyPersistedState state (ms_st fresh)))
    end
  end.

Definition persistLocked : M store unit := λ s,
  match ms_persister s with
  | None => (s, Ok tt)
  | Some p =>
    let '(p', err) := Save (snapshotState (ms_st s)) p in
    (mkStore (Some p') (ms_st s), match err with None => Ok tt | Some e => Err e end)
  end.

(** A change of [s.st] under the lock. *)
Definition on_st {A} (m : M memoryState A) : M store A := λ s,
  let '(st', r) := m (ms_st s) in (mkStore (ms_persister s) st', r).

(** [if err := change(&s.st); err != nil { return err }; return s.persistLocked()] *)
Definition change_and_persist (m : M memoryState unit) : M store unit :=
  on_st m ;; persistLocked.

Definition CreateBucket (bucket : Bucket) : M store unit :=
  change_and_persist (createBucket bucket).

Definition UpdateBucketVersioning (bucket status : string) : M store unit :=
  change_and_persist (tx_UpdateBucketVersioning bucket status).

Definition locked_DeleteBucket (bucket : string) : M memoryState unit := λ st,
  match st_buckets st !! bucket with
  | None => (st, Err ErrNotFound)
  | Some _ =>
    (set_replications (delete bucket (st_replications st))
      (set_notifications (delete bucket (st_notifications st))
        (set_lifecycles (delete bucket (st_lifecycles st))
          (set_publicAccess (delete bucket (st_publicAccess st))
            (set_policies (delete bucket (st_policies st))
              (set_cors (delete bucket (st_cors st))
                (set_websites (delete bucket (st_websites st))
                  (set_buckets (delete bucket (st_buckets st)) st))))))), Ok tt)
  end.

Definition DeleteBucket (bucket : string) : M store unit :=
  change_and_persist (locked_DeleteBucket bucket).

Definition GetBucket (name : string) (s : store) : result Bucket :=
  match st_buckets (ms_st s) !! name with
  | None => Err ErrNotFound
  | Some b => Ok b
  end.

Definition ListBuckets (s : store) : result (list Bucket) :=
  Ok (range_map (st_buckets (ms_st s))).*2.

Definition PutBucketWebsite cfg : M store unit :=
  change_and_persist (putConfig websites_table cfg).
Definition GetBucketWebsite bucket (s : store) := getConfig websites_table bucket (ms_st s).
Definition DeleteBucketWebsite bucket : M store unit :=
  change_and_persist (deleteConfig websites_table bucket).

Definition PutBucketCORS cfg : M store unit :=
  change_and_persist (putConfig cors_table cfg).
Definition GetBucketCORS bucket (s : store) := getConfig cors_table bucket (ms_st s).
Definition DeleteBucketCORS bucket : M store unit :=
  change_and_persist (deleteConfig cors_table bucket).

Definition PutBucketPolicy cfg : M store unit :=
  change_and_persist (putConfig policies_table cfg).
Definition GetBucketPolicy bucket (s : store) := getConfig policies_table bucket (ms_st s).
Definition DeleteBucketPolicy bucket : M store unit :=
  change_and_persist (deleteConfig policies_table bucket).

Definition PutBucketPublicAccessBlock cfg : M store unit :=
  change_and_persist (putConfig publicAccess_table cfg).
Definition GetBucketPublicAccessBlock bucket (s : store) :=
  getConfig publicAccess_table bucket (ms_st s).
Definition DeleteBucketPublicAccessBlock bucket : M store unit :=
  change_and_persist (deleteConfig publicAccess_table bucket).

Definition PutBucketLifecycle cfg : M store unit :=
  change_and_persist (putConfig lifecycles_table cfg).
Definition GetBucketLifecycle bucket (s : store) :=
  getConfig lifecycles_table bucket (ms_st s).
Definition DeleteBucketLifecycle bucket : M store unit :=
  change_and_persist (deleteConfig lifecycles_table bucket).

Definition PutBucketNotification cfg : M store unit :=
  change_and_persist (putConfig notifications_table cfg).
Definition GetBucketNotification bucket (s : store) :=
  getConfig notifications_table bucket (ms_st s).
Definition DeleteBucketNotification bucket : M store unit :=
  change_and_persist (deleteConfig notifications_table bucket).

Definition PutBucketReplication cfg : M store unit :=
  change_and_persist (putConfig replications_table cfg).
Definition GetBucketReplication bucket (s : store) :=
  getConfig replications_table bucket (ms_st s).
Definition DeleteBucketReplication bucket : M store unit :=
  change_and_persist (deleteConfig replications_table bucket).

Definition locked_PutObjectTagging (cfg : ObjectTagging) : M memoryState unit := λ st,
  let k := taggingKey (ot_Bucket cfg) (ot_Key cfg) (ot_VersionID cfg) in
  (set_taggings (<[k := cfg]> (st_taggings st)) st, Ok tt).

Definition PutObjectTagging (cfg : ObjectTagging) : M store unit :=
  change_and_persist (locked_PutObjectTagging cfg).

Definition GetObjectTagging (bucket key versionID : string) (s : store)
    : result ObjectTagging :=
  match st_taggings (ms_st s) !! taggingKey bucket key versionID with
  | None => Err ErrNotFound
  | Some cfg => Ok cfg
  end.

Definition locked_DeleteObjectTagging (bucket key versionID : string)
    : M memoryState unit := λ st,
  let k := taggingKey bucket key versionID in
  match st_taggings st !! k with
  | None => (st, Err ErrNotFound)
  | Some _ => (set_taggings (delete k (st_taggings st)) st, Ok tt)
  end.

Definition DeleteObjectTagging (bucket key versionID : string) : M store unit :=
  change_and_persist (locked_DeleteObjectTagging bucket key versionID).

(** One round of the loop of [ListObjects]: what is appended for an entry. *)
Definition visible_latest (bucket : string) (entry : objectKey * list ObjectVersion)
    : option ObjectVersion :=
  let '(key, versions) := entry in
  if negb (String.eqb (ok_bucket key) bucket) then None
  else match latest_of versions with
       | None => None
       | Some latest => if ov_DeleteMarker latest then None else Some latest
       end.

Definition ListObjects (bucket : string) (s : store) : result (list ObjectVersion) :=
  Ok (omap (visible_latest bucket) (range_map (st_objects (ms_st s)))).

(** [CreatedAt] descending within a key, keys ascending. *)
Definition less_version : ObjectVersion → ObjectVersion → bool :=
  less_by ov_Key (λ x y, Z.ltb (ov_CreatedAt y) (ov_CreatedAt x)).

Definition ListObjectVersions (bucket : string) (s : store) : result (list ObjectVersion) :=
  match st_buckets (ms_st s) !! bucket with
  | None => Err ErrNotFound
  | Some _ => Ok (sort_slice less_version
      (concat (snd <$> List.filter (λ '(key, _), String.eqb (ok_bucket key) bucket)
                 (range_map (st_objects (ms_st s))))))
  end.

Definition PutObjectVersion (version : ObjectVersion) : M store unit :=
  change_and_persist (tx_PutObjectVersion version).

Definition GetLatestObjectVersion (bucket key : string) (s : store) : result ObjectVersion :=
  match latest_of (versions_of (ms_st s) (mkObjectKey bucket key)) with
  | None => Err ErrNotFound
  | Some v => Ok v
  end.

Definition is_version (versionID : string) (v : ObjectVersion) : bool :=
  String.eqb (ov_VersionID v) versionID.

Definition GetObjectVersion (bucket key versionID : string) (s : store)
    : result ObjectVersion :=
  if String.eqb versionID "" then GetLatestObjectVersion bucket key s
  else match List.find (is_version versionID)
               (versions_of (ms_st s) (mkObjectKey bucket key)) with
       | None => Err ErrNotFound
       | Some v => Ok v
       end.

(** [versions[i] = f(versions[i])] at the first index where the test holds. *)
Fixpoint update_first {A} (p : A → bool) (f : A → A) (l : list A) : option (list A) :=
  match l with
  | [] => None
  | x :: l => if p x then Some (f x :: l) else (x ::.) <$> update_first p f l
  end.

(** [append(versions[:i], versions[i+1:]...)] at the first index where the test
    holds, with the element removed. *)
Fixpoint remove_first {A} (p : A → bool) (l : list A) : option (A * list A) :=
  match l with
  | [] => None
  | x :: l => if p x then Some (x, l)
              else (λ '(removed, l'), (removed, x :: l')) <$> remove_first p l
  end.

Definition locked_UpdateObjectMetadata (bucket key versionID : string)
    (metadata : gmap string string) : M memoryState unit := λ st,
  let k := mkObjectKey bucket key in
  match update_first (is_version versionID) (set_ov_Metadata (copyStringMap metadata))
          (versions_of st k) with
  | None => (st, Err ErrNotFound)
  | Some versions => (set_objects (<[k := versions]> (st_objects st)) st, Ok tt)
  end.

Definition UpdateObjectMetadata (bucket key versionID : string)
    (metadata : gmap string string) : M store unit :=
  change_and_persist (locked_UpdateObjectMetadata bucket key versionID metadata).

Definition locked_DeleteObjectVersion (bucket key versionID : string)
    : M memoryState ObjectVersion := λ st,
  let k := mkObjectKey bucket key in
  match remove_first (is_version versionID) (versions_of st k) with
  | None => (st, Err ErrNotFound)
  | Some (removed, []) => (set_objects (delete k (st_objects st)) st, Ok removed)
  | Some (removed, versions) => (set_objects (<[k := versions]> (st_objects st)) st, Ok removed)
  end.

Definition DeleteObjectVersion (bucket key versionID : string) : M store ObjectVersion :=
  removed ← on_st (locked_DeleteObjectVersion bucket key versionID);
  persistLocked ;;
  mret removed.

Definition DeleteObject (bucket key versionID : string) (at_ : Z) : M store unit :=
  PutObjectVersion (delete_marker bucket key versionID at_).

Definition locked_DeleteAllObjectVersions (bucket key : string)
    : M memoryState (list ObjectVersion) := λ st,
  let k := mkObjectKey bucket key in
  match versions_of st k with
  | [] => (st, Err ErrNotFound)
  | versions => (set_objects (delete k (st_objects st)) st, Ok versions)
  end.

Definition DeleteAllObjectVersions (bucket key : string) : M store (list ObjectVersion) :=
  versions ← on_st (locked_DeleteAllObjectVersions bucket key);
  persistLocked ;;
  mret versions.

Definition CreateMultipartUpload (upload : MultipartUpload) : M store unit :=
  change_and_persist (tx_CreateMultipartUpload upload).

Definition DeleteMultipartUpload (uploadID : string) : M store unit :=
  change_and_persist (tx_DeleteMultipartUpload uploadID).

Definition UpsertMultipartPart (part : MultipartPart) : M store unit :=
  change_and_persist (tx_UpsertMultipartPart part).

Definition GetMultipartUpload (uploadID : string) (s : store)
    : result (MultipartUpload * list MultipartPart) :=
  match st_multipart (ms_st s) !! uploadID with
  | None => Err ErrNotFound
  | Some upload =>
    let partMap := default ∅ (st_parts (ms_st s) !! uploadID) in
    let partNumbers := sort_slice Z.ltb (range_map partMap).*1 in
    Ok (upload, omap (λ partNo, partMap !! partNo) partNumbers)
  end.

Definition less_upload : MultipartUpload → MultipartUpload → bool :=
  less_by mu_Key (λ x y, String.ltb (mu_UploadID x) (mu_UploadID y)).

Definition ListMultipartUploads (bucket prefix : string) (s : store)
    : result (list MultipartUpload) :=
  match st_buckets (ms_st s) !! bucket with
  | None => Err ErrNotFound
  | Some _ => Ok (sort_slice less_upload
      (List.filter (λ upload, String.eqb (mu_Bucket upload) bucket &&
          (String.eqb prefix "" || String.prefix prefix (mu_Key upload)))
        (range_map (st_multipart (ms_st s))).*2))
  end.

Definition UpsertCredentialRecord (record : CredentialRecord) : M store unit :=
  change_and_persist (tx_UpsertCredentialRecord record).

Definition GetCredentialRecord (accessKeyID : string) (s : store) : result CredentialRecord :=
  match st_credentials (ms_st s) !! accessKeyID with
  | None => Err ErrNotFound
  | Some rec => Ok rec
  end.

(** The function runs on a clone of the state, which replaces the state when it
    returns no error; the result is then what persisting returns. *)
Definition RunInTx (fn : M memoryState unit) : M store unit := λ s,
  match fn (cloneState (ms_st s)) with
  | (_, Err e) => (s, Err e)
  | (clone, Ok _) => persistLocked (mkStore (ms_persister s) clone)
  end.

Definition ValidateConsistency (s : store) : result (list ConsistencyIssue) :=
  Ok (validateState (ms_st s)).

Definition RepairConsistency : M store Z := λ s,
  let '(st', repaired) := repairState (ms_st s) in
  let s' := mkStore (ms_persister s) st' in
  if repaired =? 0 then (s', Ok 0)
  else match persistLocked s' with
       | (s'', Err e) => (s'', Err e)
       | (s'', Ok _) => (s'', Ok repaired)
       end.
End store.

(** ** Programs over the interfaces

    The transaction surface [TxStore] as data: a function passed to [RunInTx]
    calls its operations one after the other and sees their errors. *)
Inductive tx_op : Type :=
  | TxCreateBucket (bucket : Bucket)
  | TxDeleteBucket (bucket : string)
  | TxUpdateBucketVersioning (bucket status : string)
  | TxPutObjectVersion (version : ObjectVersion)
  | TxDeleteObject (bucket key versionID : string) (at_ : Z)
  | TxCreateMultipartUpload (upload : MultipartUpload)
  | TxDeleteMultipartUpload (uploadID : string)
  | TxUpsertMultipartPart (part : MultipartPart)
  | TxUpsertCredentialRecord (record : CredentialRecord).

Definition run_tx_op (o : tx_op) : M memoryState unit :=
  match o with
  | TxCreateBucket bucket => tx_CreateBucket bucket
  | TxDeleteBucket bucket => tx_DeleteBucket bucket
  | TxUpdateBucketVersioning bucket status => tx_UpdateBucketVersioning bucket status
  | TxPutObjectVersion version => tx_PutObjectVersion version
  | TxDeleteObject bucket key versionID at_ => tx_DeleteObject bucket key versionID at_
  | TxCreateMultipartUpload upload => tx_CreateMultipartUpload upload
  | TxDeleteMultipartUpload uploadID => tx_DeleteMultipartUpload uploadID
  | TxUpsertMultipartPart part => tx_UpsertMultipartPart part
  | TxUpsertCredentialRecord record => tx_UpsertCredentialRecord record
  end.

Inductive tx_prog : Type :=
  | TxReturn (r : result unit)
  | TxCall (o : tx_op) (k : result unit → tx_prog).

Fixpoint run_tx_prog (p : tx_prog) : M memoryState unit := λ st,
  match p with
  | TxReturn r => (st, r)
  | TxCall o k => let '(st', r) := run_tx_op o st in run_tx_prog (k r) st'
  end.

(** The mutating methods of [Store]. *)
Inductive store_op : Type :=
  | OpTx (o : tx_op)
  | OpPutWebsite (cfg : BucketWebsiteConfig) | OpDeleteWebsite (bucket : string)
  | OpPutCORS (cfg : BucketCORSConfig) | OpDeleteCORS (bucket : string)
  | OpPutPolicy (cfg : BucketPolicy) | OpDeletePolicy (bucket : string)
  | OpPutPublicAccessBlock (cfg : BucketPublicAccessBlock)
  | OpDeletePublicAccessBlock (bucket : string)
  | OpPutLifecycle (cfg : BucketLifecycle) | OpDeleteLifecycle (bucket : string)
  | OpPutNotification (cfg : BucketNotification) | OpDeleteNotification (bucket : string)
  | OpPutReplication (cfg : BucketReplication) | OpDeleteReplication (bucket : string)
  | OpPutTagging (cfg : ObjectTagging) | OpDeleteTagging (bucket key versionID : string)
  | OpUpdateObjectMetadata (bucket key versionID : string) (metadata : gmap string string)
  | OpDeleteObjectVersion (bucket key versionID : string)
  | OpDeleteAllObjectVersions (bucket key : string)
  | OpRunInTx (p : tx_prog)
  | OpRepair.

Section run_op.
Context `{!GoRuntime} {P : Type} `{!StatePersister P}.

Definition run_op (o : store_op) : M (memoryBackedStore P) unit :=
  match o with
  | OpTx (TxCreateBucket bucket) => CreateBucket bucket
  | OpTx (TxDeleteBucket bucket) => DeleteBucket bucket
  | OpTx (TxUpdateBucketVersioning bucket status) => UpdateBucketVersioning bucket status
  | OpTx (TxPutObjectVersion version) => PutObjectVersion version
  | OpTx (TxDeleteObject bucket key versionID at_) => DeleteObject bucket key versionID at_
  | OpTx (TxCreateMultipartUpload upload) => CreateMultipartUpload upload
  | OpTx (TxDeleteMultipartUpload uploadID) => DeleteMultipartUpload uploadID
  | OpTx (TxUpsertMultipartPart part) => UpsertMultipartPart part
  | OpTx (TxUpsertCredentialRecord record) => UpsertCredentialRecord record
  | OpPutWebsite cfg => PutBucketWebsite cfg
  | OpDeleteWebsite bucket => DeleteBucketWebsite bucket
  | OpPutCORS cfg => PutBucketCORS cfg
  | OpDeleteCORS bucket => DeleteBucketCORS bucket
  | OpPutPolicy cfg => PutBucketPolicy cfg
  | OpDeletePolicy bucket => DeleteBucketPolicy bucket
  | OpPutPublicAccessBlock cfg => PutBucketPublicAccessBlock cfg
  | OpDeletePublicAccessBlock bucket => DeleteBucketPublicAccessBlock bucket
  | OpPutLifecycle cfg => PutBucketLifecycle cfg
  | OpDeleteLifecycle bucket => DeleteBucketLifecycle bucket
  | OpPutNotification cfg => PutBucketNotification cfg
  | OpDeleteNotification bucket => DeleteBucketNotification bucket
  | OpPutReplication cfg => PutBucketReplication cfg
  | OpDeleteReplication bucket => DeleteBucketReplication bucket
  | OpPutTagging cfg => PutObjectTagging cfg
  | OpDeleteTagging bucket key versionID => DeleteObjectTagging bucket key versionID
  | OpUpdateObjectMetadata bucket key versionID metadata =>
      UpdateObjectMetadata bucket key versionID metadata
  | OpDeleteObjectVersion bucket key versionID =>
      DeleteObjectVersion bucket key versionID ;; mret tt
  | OpDeleteAllObjectVersions bucket key => DeleteAllObjectVersions bucket key ;; mret tt
  | OpRunInTx p => RunInTx (run_tx_prog p)
  | OpRepair => RepairConsistency ;; mret tt
  end.

(** The states a process reaches: it opens the store, then operations run one
    at a time; the process may stop and open the store again on what the
    persister holds. *)
Inductive reachable (label : string) : memoryBackedStore P → Prop :=
  | reach_new persister :
      (∀ p, persister = Some p → Load p = Ok None) →
      reachable label (mkStore persister (emptyState label))
  | reach_op s o : reachable label s → reachable label (exec (run_op o) s).
End run_op.

(** ** Well-formed states *)
Definition is_null_version (v : ObjectVersion) : bool := String.eqb (ov_VersionID v) "null".

Record wf_versions (k : objectKey) (versions : list ObjectVersion) : Prop := {
  wfv_nonempty : versions ≠ [];
  wfv_keyed : Forall (λ v, ov_Bucket v = ok_bucket k ∧ ov_Key v = ok_key k) versions;
  wfv_one_null : (length (List.filter is_null_version versions) ≤ 1)%nat;
}.

Record wf_state (st : memoryState) : Prop := {
  wf_buckets : map_Forall (λ name b, b_Name b = name ∧ name ≠ "") (st_buckets st);
  wf_objects : map_Forall wf_versions (st_objects st);
  wf_multipart : map_Forall (λ id u, mu_UploadID u = id) (st_multipart st);
  wf_parts : map_Forall (λ id ps, ps ≠ ∅ ∧
      map_Forall (λ n p, mp_UploadID p = id ∧ mp_PartNumber p = n) ps) (st_parts st);
  wf_parts_owned : dom (st_parts st) ⊆ dom (st_multipart st);
  wf_credentials : map_Forall (λ id r, cr_AccessKeyID r = id) (st_credentials st);
  wf_websites : map_Forall (λ b c, bw_Bucket c = b) (st_websites st);
  wf_cors : map_Forall (λ b c, bc_Bucket c = b) (st_cors st);
  wf_policies : map_Forall (λ b c, bp_Bucket c = b) (st_policies st);
  wf_publicAccess : map_Forall (λ b c, pab_Bucket c = b) (st_publicAccess st);
  wf_lifecycles : map_Forall (λ b c, bl_Bucket c = b) (st_lifecycles st);
  wf_notifications : map_Forall (λ b c, bn_Bucket c = b) (st_notifications st);
  wf_replications : map_Forall (λ b c, br_Bucket c = b) (st_replications st);
  wf_websites_owned : dom (st_websites st) ⊆ dom (st_buckets st);
  wf_cors_owned : dom (st_cors st) ⊆ dom (st_buckets st);
  wf_policies_owned : dom (st_policies st) ⊆ dom (st_buckets st);
  wf_publicAccess_owned : dom (st_publicAccess st) ⊆ dom (st_buckets st);
  wf_lifecycles_owned : dom (st_lifecycles st) ⊆ dom (st_buckets st);
  wf_taggings : map_Forall (λ k c,
      k = taggingKey (ot_Bucket c) (ot_Key c) (ot_VersionID c)) (st_taggings st);
}.
