(* ===== verification/MemoryStoreFacts.v ===== *)
(** * Properties of the memory-backed metadata store

    The invariant of the state and its preservation, transactions, the
    persisted snapshot, validation and repair, and the functional behaviour of
    the version lists and the listings. *)
From S2P Require Import Prelude Model MemoryStore.

(** ** Copies *)
Section clone_facts.
Context `{!GoRuntime}.

Lemma clone_map_id `{Countable K} {A} (m : gmap K A) : clone_map m = m.
Proof.
  unfold clone_map. transitivity (fold_left (λ (out : gmap K A) x, <[fst x := snd x]> out) (range_map m) ∅).
  - generalize (∅ : gmap K A). induction (range_map m) as [|[k v] l IH]; intros m'; simpl; auto.
  - apply fold_left_insert_list_to_map. rewrite list_fmap_id_pair.
    unfold range_map. by rewrite range_order_perm.
Qed.

Lemma fold_clone_parts (l : list (string * gmap Z MultipartPart))
    (m : gmap string (gmap Z MultipartPart)) :
  fold_left (λ out '(uploadID, partMap), <[uploadID := clone_map partMap]> out) l m =
  fold_left (λ out '(k, v), <[k := v]> out) l m.
Proof.
  revert m. induction l as [|[k v] l IH]; intros m; simpl; [done|].
  by rewrite clone_map_id, IH.
Qed.

Lemma cloneState_id st : cloneState st = st.
Proof.
  unfold cloneState. rewrite fold_clone_parts. fold (clone_map (st_parts st)).
  rewrite !clone_map_id. by destruct st.
Qed.

Lemma copyStringMap_id m : copyStringMap m = m.
Proof. apply clone_map_id. Qed.
End clone_facts.

(** ** Version lists *)
Lemma versions_of_set_objects_eq st k vs :
  versions_of (set_objects (<[k := vs]> (st_objects st)) st) k = vs.
Proof. unfold versions_of; simpl. by rewrite lookup_insert_eq. Qed.

Lemma versions_of_set_objects_ne st k k' vs :
  k ≠ k' → versions_of (set_objects (<[k := vs]> (st_objects st)) st) k' = versions_of st k'.
Proof. intros. unfold versions_of; simpl. by rewrite lookup_insert_ne. Qed.

(** What a put leaves of the older versions. *)
Definition kept_versions (version : ObjectVersion) (versions : list ObjectVersion) :=
  if is_null_version version then filter_not_null versions else versions.

Lemma putObjectVersion_eq version st :
  putObjectVersion version st =
  let k := mkObjectKey (ov_Bucket version) (ov_Key version) in
  set_objects (<[k := kept_versions version (versions_of st k) ++ [version]]>
                 (st_objects st)) st.
Proof.
  unfold putObjectVersion, kept_versions, is_null_version. simpl.
  destruct (String.eqb _ "null"); [|done].
  rewrite versions_of_set_objects_eq. unfold set_objects; simpl. by rewrite insert_insert_eq.
Qed.

Lemma filter_not_null_no_null vs : List.filter is_null_version (filter_not_null vs) = [].
Proof.
  induction vs as [|v vs IH]; simpl; [done|]. unfold is_null_version in *.
  destruct (String.eqb (ov_VersionID v) "null") eqn:E; simpl; [done|]. by rewrite E.
Qed.

Lemma Forall_List_filter {A} (Q : A → Prop) (p : A → bool) l :
  Forall Q l → Forall Q (List.filter p l).
Proof. induction 1; simpl; [done|]. case_match; auto. Qed.

Lemma wf_versions_put st version :
  wf_state st →
  let k := mkObjectKey (ov_Bucket version) (ov_Key version) in
  wf_versions k (kept_versions version (versions_of st k) ++ [version]).
Proof.
  intros Hwf k.
  assert (Forall (λ v, ov_Bucket v = ok_bucket k ∧ ov_Key v = ok_key k) (versions_of st k)
    ∧ (length (List.filter is_null_version (versions_of st k)) ≤ 1)%nat) as [Hk H1].
  { unfold versions_of. destruct (st_objects st !! k) as [vs|] eqn:E; simpl; [|auto with lia].
    destruct (wf_objects _ Hwf k vs E); done. }
  split.
  - by destruct (kept_versions _ _).
  - apply Forall_app. split; [|by repeat constructor].
    unfold kept_versions, filter_not_null. case_match; [by apply Forall_List_filter|done].
  - rewrite List.filter_app, length_app. unfold kept_versions. simpl.
    destruct (is_null_version version) eqn:E; simpl; [rewrite filter_not_null_no_null|]; simpl; lia.
Qed.

(** ** The invariant is kept by every operation on the state *)
Section dom_facts.
Context `{Countable K} {A B : Type}.
Implicit Types (x : gmap K A) (y : gmap K B).

Lemma dom_delete_both x y k : dom x ⊆ dom y → dom (delete k x) ⊆ dom (delete k y).
Proof. rewrite !dom_delete. set_solver. Qed.

Lemma dom_delete_left x y k : dom x ⊆ dom y → dom (delete k x) ⊆ dom y.
Proof. rewrite dom_delete. set_solver. Qed.

Lemma dom_insert_right x y k b : dom x ⊆ dom y → dom x ⊆ dom (<[k := b]> y).
Proof. rewrite dom_insert. set_solver. Qed.

Lemma dom_insert_left x y k a :
  is_Some (y !! k) → dom x ⊆ dom y → dom (<[k := a]> x) ⊆ dom y.
Proof. rewrite dom_insert, <-elem_of_dom. set_solver. Qed.
End dom_facts.

Create HintDb wf.

(** The fields an operation does not touch keep their part of the invariant; the
    others follow from the lemmas on insert and delete. *)
Ltac wf_field :=
  lazymatch goal with
  | |- map_Forall _ (<[_ := _]> _) => apply map_Forall_insert_2; [try done | done]
  | |- map_Forall _ (delete _ _) => apply map_Forall_delete; done
  | |- dom (delete _ _) ⊆ dom (delete _ _) => apply dom_delete_both; done
  | |- dom (delete _ _) ⊆ _ => apply dom_delete_left; done
  | |- dom (<[_ := _]> _) ⊆ _ => apply dom_insert_left; [eauto | done]
  | |- _ ⊆ dom (<[_ := _]> _) => apply dom_insert_right; done
  | |- _ => idtac
  end.
Ltac solve_wf Hwf := destruct Hwf; split; simpl; first [assumption | wf_field].

Lemma wf_emptyState label : wf_state (emptyState label).
Proof. split; simpl; first [by apply map_Forall_empty | set_solver]. Qed.

Lemma wf_createBucket bucket : preserves wf_state (createBucket bucket).
Proof.
  intros st Hwf. unfold exec, createBucket.
  destruct (String.eqb_spec (b_Name bucket) ""); [done|].
  case_match; [done|]. simpl. solve_wf Hwf.
Qed.

Lemma wf_tx_DeleteBucket bucket : preserves wf_state (tx_DeleteBucket bucket).
Proof.
  intros st Hwf. unfold exec, tx_DeleteBucket. case_match; [|done]. simpl. solve_wf Hwf.
Qed.

Lemma wf_tx_UpdateBucketVersioning bucket status :
  preserves wf_state (tx_UpdateBucketVersioning bucket status).
Proof.
  intros st Hwf. unfold exec, tx_UpdateBucketVersioning.
  destruct (st_buckets st !! bucket) as [b|] eqn:E; [|done]. simpl.
  pose proof (wf_buckets _ Hwf _ _ E). solve_wf Hwf.
Qed.

Lemma wf_set_objects_insert k vs st :
  wf_state st → wf_versions k vs → wf_state (set_objects (<[k := vs]> (st_objects st)) st).
Proof. intros Hwf ?. solve_wf Hwf. Qed.

Lemma wf_set_objects_delete k st :
  wf_state st → wf_state (set_objects (delete k (st_objects st)) st).
Proof. intros Hwf. solve_wf Hwf. Qed.

Lemma wf_putObjectVersion version st : wf_state st → wf_state (putObjectVersion version st).
Proof.
  intros Hwf. rewrite putObjectVersion_eq. simpl.
  by apply wf_set_objects_insert, (wf_versions_put st version).
Qed.

Lemma wf_tx_PutObjectVersion version : preserves wf_state (tx_PutObjectVersion version).
Proof. intros st. apply wf_putObjectVersion. Qed.

Lemma wf_tx_CreateMultipartUpload upload :
  preserves wf_state (tx_CreateMultipartUpload upload).
Proof.
  intros st Hwf. unfold exec, tx_CreateMultipartUpload. case_match; [done|]. simpl.
  solve_wf Hwf.
Qed.

Lemma wf_tx_DeleteMultipartUpload id : preserves wf_state (tx_DeleteMultipartUpload id).
Proof.
  intros st Hwf. unfold exec, tx_DeleteMultipartUpload. case_match; [|done]. simpl.
  solve_wf Hwf.
Qed.

Lemma wf_tx_UpsertMultipartPart part : preserves wf_state (tx_UpsertMultipartPart part).
Proof.
  intros st Hwf. unfold exec, tx_UpsertMultipartPart.
  destruct (st_multipart st !! _) as [u|] eqn:E; [|done]. simpl.
  assert (mp_UploadID part ∈ dom (st_multipart st)) by by eapply elem_of_dom_2.
  assert (map_Forall (λ n p, mp_UploadID p = mp_UploadID part ∧ mp_PartNumber p = n)
    (default ∅ (st_parts st !! mp_UploadID part))).
  { destruct (st_parts st !! _) as [ps|] eqn:Ep; simpl; [|apply map_Forall_empty].
    by apply (wf_parts _ Hwf) in Ep as []. }
  solve_wf Hwf. split; [apply insert_non_empty | by apply map_Forall_insert_2].
Qed.

Lemma wf_tx_UpsertCredentialRecord record :
  preserves wf_state (tx_UpsertCredentialRecord record).
Proof. intros st Hwf. unfold exec. simpl. solve_wf Hwf. Qed.

#[export] Hint Resolve wf_createBucket wf_tx_DeleteBucket wf_tx_UpdateBucketVersioning
  wf_tx_PutObjectVersion wf_tx_CreateMultipartUpload wf_tx_DeleteMultipartUpload
  wf_tx_UpsertMultipartPart wf_tx_UpsertCredentialRecord : wf.

Lemma wf_run_tx_op o : preserves wf_state (run_tx_op o).
Proof. destruct o; simpl; unfold tx_CreateBucket, tx_DeleteObject; auto with wf. Qed.

Lemma wf_run_tx_prog p : preserves wf_state (run_tx_prog p).
Proof.
  induction p as [r|o k IH]; intros st Hwf; [done|].
  unfold exec. simpl. pose proof (wf_run_tx_op o st Hwf) as Ho. unfold exec in Ho.
  destruct (run_tx_op o st) as [st' r]. by apply IH.
Qed.

(** ** Repair *)
Section repair_facts.
Context `{!GoRuntime}.

(** [foldl] over the entries with deletion of those that satisfy a test. *)
Lemma fold_delete_orphans `{Countable K} {A} (orphan : K → A → bool) l (m : gmap K A) n :
  fold_left (λ '(m', n) '(k, v), if orphan k v then (delete k m', n + 1) else (m', n))
    l (m, n) =
  (fold_left (λ m' '(k, v), if orphan k v then delete k m' else m') l m,
   n + Z.of_nat (length (List.filter (λ '(k, v), orphan k v) l))).
Proof.
  revert m n. induction l as [|[k v] l IH]; intros m n; simpl; [f_equal; lia|].
  destruct (orphan k v); rewrite IH; simpl; f_equal; lia.
Qed.

Lemma fold_delete_lookup `{Countable K} {A B} (orphan : K → B → bool) (l : list (K * B))
    (m : gmap K A) k :
  fold_left (λ m' '(k, v), if orphan k v then delete k m' else m') l m !! k =
  if decide (k ∈ (List.filter (λ '(k, v), orphan k v) l).*1) then None else m !! k.
Proof.
  revert m. induction l as [|[k' v] l IH]; intros m.
  { cbn [fold_left List.filter]. rewrite fmap_nil. case_decide as Hin; [|done].
    by apply not_elem_of_nil in Hin. }
  cbn [fold_left List.filter]. rewrite IH. destruct (orphan k' v); [|done].
  rewrite fmap_cons. destruct (decide (k = k')) as [->|Hne].
  - rewrite lookup_delete_eq. repeat case_decide; set_solver.
  - rewrite lookup_delete_ne by done. repeat case_decide; set_solver.
Qed.

Lemma elem_of_orphans `{Countable K} {A} (orphan : K → A → bool) (m : gmap K A) k :
  k ∈ (List.filter (λ '(k, v), orphan k v) (range_map m)).*1 ↔
  ∃ v, m !! k = Some v ∧ orphan k v = true.
Proof.
  rewrite list_elem_of_fmap. split.
  - intros ([k' v] & -> & Hf%list_elem_of_In%filter_In). exists v.
    rewrite <-list_elem_of_In, elem_of_range_map in Hf. done.
  - intros (v & Hv & Ho). exists (k, v). split; [done|].
    apply list_elem_of_In, filter_In. by rewrite <-list_elem_of_In, elem_of_range_map.
Qed.

Lemma delete_orphans_eq `{Countable K} {A} (orphan : K → A → bool) (m : gmap K A) :
  delete_orphans orphan m =
  (filter (λ '(k, v), orphan k v = false) m,
   Z.of_nat (length (List.filter (λ '(k, v), orphan k v) (range_map m)))).
Proof.
  unfold delete_orphans. rewrite fold_delete_orphans. f_equal.
  apply map_eq. intros k. rewrite fold_delete_lookup.
  apply option_eq. intros v. rewrite map_lookup_filter_Some.
  case_decide as Hd; rewrite elem_of_orphans in Hd.
  - destruct Hd as (v' & Hv' & Ho). split; [done|]. intros [Hv Ho']. congruence.
  - split; [|by intros []]. intros Hv. split; [done|].
    destruct (orphan k v) eqn:Ho; [|done]. destruct Hd. eauto.
Qed.

Lemma List_filter_nil {A} (p : A → bool) (l : list A) :
  (∀ x, x ∈ l → p x = false) → List.filter p l = [].
Proof.
  intros Hp. induction l as [|x l IH]; simpl; [done|].
  rewrite Hp by by left. apply IH. intros y Hy. apply Hp. by right.
Qed.

Lemma List_filter_length_le {A} (p : A → bool) (l : list A) :
  List.filter p l = [] → ∀ x, x ∈ l → p x = false.
Proof.
  intros Hf x Hx. destruct (p x) eqn:E; [|done].
  assert (In x (List.filter p l)) as Hin by by apply filter_In; rewrite <-list_elem_of_In.
  by rewrite Hf in Hin.
Qed.

(** The entries that survive [delete_orphans] are no orphans. *)
Lemma no_orphans_after `{Countable K} {A} (orphan : K → A → bool) (m : gmap K A) :
  List.filter (λ '(k, v), orphan k v)
    (range_map (filter (λ '(k, v), orphan k v = false) m)) = [].
Proof.
  apply List_filter_nil. intros [k v]. rewrite elem_of_range_map.
  by intros [? ?]%map_lookup_filter_Some.
Qed.

Lemma filter_fst {K A} (p : K → bool) (l : list (K * A)) :
  List.filter p l.*1 = (List.filter (λ '(k, _), p k) l).*1.
Proof. induction l as [|[k v] l IH]; csimpl; [done|]. destruct (p k); csimpl; by rewrite IH. Qed.

Definition upload_orphan (st : memoryState) (_ : string) (upload : MultipartUpload) : bool :=
  bucket_missing st (mu_Bucket upload).

Definition key_orphan {A} (st : memoryState) (b : string) (_ : A) : bool := bucket_missing st b.

Definition object_orphan {A} (st : memoryState) (k : objectKey) (_ : A) : bool :=
  bucket_missing st (ok_bucket k).

Lemma fold_repair_multipart st l m p n :
  fold_left (λ '(m', p', n) '(uploadID, upload),
      if bucket_missing st (mu_Bucket upload)
      then (delete uploadID m', delete uploadID p', n + 1) else (m', p', n)) l (m, p, n) =
  (fold_left (λ m' '(k, v), if upload_orphan st k v then delete k m' else m') l m,
   fold_left (λ m' '(k, v), if upload_orphan st k v then delete k m' else m') l p,
   n + Z.of_nat (length (List.filter (λ '(k, v), upload_orphan st k v) l)))
  :> gmap string MultipartUpload * gmap string (gmap Z MultipartPart) * Z.
Proof.
  revert m p n. induction l as [|[k v] l IH]; intros m p n; simpl; [f_equal; lia|].
  change (bucket_missing st (mu_Bucket v)) with (upload_orphan st k v).
  destruct (upload_orphan st k v); rewrite IH; simpl; [|done]. f_equal. lia.
Qed.

Lemma fold_delete_filter `{Countable K} {A} (orphan : K → A → bool) (m : gmap K A) :
  fold_left (λ m' '(k, v), if orphan k v then delete k m' else m') (range_map m) m =
  filter (λ '(k, v), orphan k v = false) m.
Proof.
  pose proof (delete_orphans_eq orphan m) as E. unfold delete_orphans in E.
  rewrite fold_delete_orphans in E. by injection E.
Qed.

(** The parts that stay: those of uploads that stay. *)
Definition repaired_parts (st : memoryState) : gmap string (gmap Z MultipartPart) :=
  fold_left (λ m' '(k, v), if upload_orphan st k v then delete k m' else m')
    (range_map (st_multipart st)) (st_parts st).

Definition count_orphans `{Countable K} {A} (orphan : K → A → bool) (m : gmap K A) : Z :=
  Z.of_nat (length (List.filter (λ '(k, v), orphan k v) (range_map m))).

Lemma repairState_eq st :
  repairState st =
  (mkMemoryState (st_buckets st)
     (filter (λ '(k, v), object_orphan st k v = false) (st_objects st))
     (filter (λ '(k, v), upload_orphan st k v = false) (st_multipart st))
     (repaired_parts st) (st_credentials st)
     (filter (λ '(k, v), key_orphan st k v = false) (st_websites st))
     (filter (λ '(k, v), key_orphan st k v = false) (st_cors st))
     (filter (λ '(k, v), key_orphan st k v = false) (st_policies st))
     (filter (λ '(k, v), key_orphan st k v = false) (st_publicAccess st))
     (st_lifecycles st) (st_notifications st) (st_replications st) (st_taggings st)
     (st_backendLabel st),
   count_orphans (object_orphan st) (st_objects st) +
   count_orphans (upload_orphan st) (st_multipart st) +
   count_orphans (key_orphan st) (st_websites st) +
   count_orphans (key_orphan st) (st_cors st) +
   count_orphans (key_orphan st) (st_policies st) +
   count_orphans (key_orphan st) (st_publicAccess st)).
Proof.
  unfold repairState. rewrite fold_repair_multipart, fold_delete_filter.
  fold (repaired_parts st). rewrite !delete_orphans_eq. done.
Qed.

Lemma length_orphan_configs {A} code msg st (m : gmap string A) :
  Z.of_nat (length (orphan_configs code msg st m)) = count_orphans (key_orphan st) m.
Proof. unfold orphan_configs. by rewrite length_fmap, filter_fst, length_fmap. Qed.

Lemma repair_count st : (repairState st).2 = Z.of_nat (length (validateState st)).
Proof.
  rewrite repairState_eq. unfold validateState. rewrite !length_app, !Nat2Z.inj_add.
  rewrite !length_orphan_configs, !length_fmap, filter_fst, length_fmap.
  unfold count_orphans, object_orphan, upload_orphan. simpl. lia.
Qed.

Lemma repaired_parts_lookup st id :
  repaired_parts st !! id =
  match st_multipart st !! id with
  | Some upload => if upload_orphan st id upload then None else st_parts st !! id
  | None => st_parts st !! id
  end.
Proof.
  unfold repaired_parts. rewrite fold_delete_lookup.
  case_decide as Hd; rewrite elem_of_orphans in Hd.
  - destruct Hd as (v & -> & ->). done.
  - destruct (st_multipart st !! id) as [v|] eqn:E; [|done].
    destruct (upload_orphan st id v) eqn:Ho; [|done]. destruct Hd. eauto.
Qed.

Lemma map_Forall_filter_keep `{Countable K} {A} (Q : K → A → Prop) (f : K * A → Prop)
    `{!∀ x, Decision (f x)} (m : gmap K A) :
  map_Forall Q m → map_Forall Q (filter f m).
Proof. intros Hm k v [Hv _]%map_lookup_filter_Some. by apply Hm. Qed.

Lemma wf_repair st : wf_state st → wf_state (repairState st).1.
Proof.
  rewrite repairState_eq. intros Hwf. destruct Hwf; split; simpl;
    first [assumption | by apply map_Forall_filter_keep | idtac].
  - intros id ps. rewrite repaired_parts_lookup.
    case_match; [case_match|]; [done| |]; apply wf_parts.
  - intros id. rewrite !elem_of_dom. intros [ps Hps]. rewrite repaired_parts_lookup in Hps.
    assert (is_Some (st_multipart st !! id)) as [u Hu].
    { apply elem_of_dom, wf_parts_owned, elem_of_dom.
      destruct (st_multipart st !! id); [destruct (upload_orphan _ _ _)|]; by eauto. }
    rewrite Hu in Hps. exists u. apply map_lookup_filter_Some. split; [done|].
    by destruct (upload_orphan st id u).
  - etrans; [apply dom_filter_subseteq|done].
  - etrans; [apply dom_filter_subseteq|done].
  - etrans; [apply dom_filter_subseteq|done].
  - etrans; [apply dom_filter_subseteq|done].
Qed.
End repair_facts.

(** ** The snapshot and its reading back *)
Section snapshot_facts.
Context `{!GoRuntime}.

Lemma apply_snapshot st label :
  wf_state st →
  applyPersistedState (snapshotState st) (emptyState label) =
  mkMemoryState (st_buckets st) (st_objects st) (st_multipart st) (st_parts st)
    (st_credentials st) (st_websites st) (st_cors st) (st_policies st)
    (st_publicAccess st) (st_lifecycles st) (st_notifications st)
    (st_replications st) (st_taggings st) label.
Proof.
  intros Hwf. unfold applyPersistedState, snapshotState. simpl. f_equal.
  - apply fold_left_insert_list_to_map. rewrite sort_slice_perm, <-list_fmap_compose.
    unfold range_map. rewrite range_order_perm.
    induction (map_to_list (st_objects st)) as [|[[b k] vs] l IH]; csimpl; [done|].
    by rewrite <-IH.
  - apply (fold_left_insert_list_to_map
             (λ t, taggingKey (ot_Bucket t) (ot_Key t) (ot_VersionID t)) id).
    rewrite <-list_fmap_compose. unfold range_map. rewrite range_order_perm.
    assert (Forall (λ p, p.1 = taggingKey (ot_Bucket p.2) (ot_Key p.2) (ot_VersionID p.2))
      (map_to_list (st_taggings st))) as Hall.
    { apply Forall_forall. intros [k t] ?%elem_of_map_to_list. by apply (wf_taggings _ Hwf). }
    induction Hall as [|[k t] l Hk Hall IH]; csimpl in *; [done|]. by rewrite <-IH, Hk.
Qed.

Lemma apply_snapshot_same st :
  wf_state st →
  applyPersistedState (snapshotState st) (emptyState (st_backendLabel st)) = st.
Proof. intros Hwf. rewrite apply_snapshot by done. by destruct st. Qed.
End snapshot_facts.

(** ** The invariant at the level of the store *)
Section store_facts.
Context `{!GoRuntime} {P : Type} `{!StatePersister P}.
Implicit Types s : memoryBackedStore P.

Definition wf_store s : Prop := wf_state (ms_st s).

Lemma persistLocked_st s : ms_st (exec persistLocked s) = ms_st s.
Proof.
  unfold exec, persistLocked. destruct (ms_persister s) as [p|]; [|done].
  by destruct (Save _ _).
Qed.

Lemma preserves_persistLocked (I : memoryState → Prop) :
  preserves (λ s, I (ms_st s)) persistLocked.
Proof. intros s Hs. by rewrite persistLocked_st. Qed.

Lemma preserves_on_st {A} (I : memoryState → Prop) (m : M memoryState A) :
  preserves I m → preserves (λ s, I (ms_st s)) (on_st m : M (memoryBackedStore P) A).
Proof.
  intros Hm s Hs. unfold exec, on_st. specialize (Hm _ Hs). unfold exec in Hm.
  by destruct (m (ms_st s)).
Qed.

Lemma preserves_change_and_persist (I : memoryState → Prop) m :
  preserves I m → preserves (λ s, I (ms_st s)) (change_and_persist m).
Proof.
  intros Hm. unfold change_and_persist. apply preserves_bind; [by apply preserves_on_st|].
  intros _. apply preserves_persistLocked.
Qed.

Lemma wf_change_and_persist m : preserves wf_state m → preserves wf_store (change_and_persist m).
Proof. apply preserves_change_and_persist. Qed.

(** The configuration tables. *)
Ltac solve_config :=
  intros st Hwf; unfold exec, putConfig, deleteConfig; simpl;
  first [ match goal with
          | |- context [st_buckets st !! ?b] =>
              let E := fresh in destruct (st_buckets st !! b) eqn:E; [|done]
          end
        | case_match; [|done] ]; simpl; solve_wf Hwf.

Lemma wf_put_website cfg : preserves wf_state (putConfig websites_table cfg).
Proof. solve_config. Qed.
Lemma wf_put_cors cfg : preserves wf_state (putConfig cors_table cfg).
Proof. solve_config. Qed.
Lemma wf_put_policy cfg : preserves wf_state (putConfig policies_table cfg).
Proof. solve_config. Qed.
Lemma wf_put_publicAccess cfg : preserves wf_state (putConfig publicAccess_table cfg).
Proof. solve_config. Qed.
Lemma wf_put_lifecycle cfg : preserves wf_state (putConfig lifecycles_table cfg).
Proof. solve_config. Qed.
Lemma wf_put_notification cfg : preserves wf_state (putConfig notifications_table cfg).
Proof. solve_config. Qed.
Lemma wf_put_replication cfg : preserves wf_state (putConfig replications_table cfg).
Proof. solve_config. Qed.
Lemma wf_delete_website b : preserves wf_state (deleteConfig websites_table b).
Proof. solve_config. Qed.
Lemma wf_delete_cors b : preserves wf_state (deleteConfig cors_table b).
Proof. solve_config. Qed.
Lemma wf_delete_policy b : preserves wf_state (deleteConfig policies_table b).
Proof. solve_config. Qed.
Lemma wf_delete_publicAccess b : preserves wf_state (deleteConfig publicAccess_table b).
Proof. solve_config. Qed.
Lemma wf_delete_lifecycle b : preserves wf_state (deleteConfig lifecycles_table b).
Proof. solve_config. Qed.
Lemma wf_delete_notification b : preserves wf_state (deleteConfig notifications_table b).
Proof. solve_config. Qed.
Lemma wf_delete_replication b : preserves wf_state (deleteConfig replications_table b).
Proof. solve_config. Qed.
End store_facts.

#[export] Hint Resolve wf_put_website wf_put_cors wf_put_policy wf_put_publicAccess
  wf_put_lifecycle wf_put_notification wf_put_replication wf_delete_website
  wf_delete_cors wf_delete_policy wf_delete_publicAccess wf_delete_lifecycle
  wf_delete_notification wf_delete_replication : wf.
#[export] Hint Resolve wf_change_and_persist preserves_bind preserves_ret : wf.

(** ** Lists of versions under update and removal *)
Section first_facts.
Context {A : Type} (p : A → bool).

Lemma update_first_Some f l l' :
  update_first p f l = Some l' →
  ∃ l1 x l2, l = l1 ++ x :: l2 ∧ l' = l1 ++ f x :: l2 ∧ p x = true ∧
    Forall (λ y, p y = false) l1.
Proof.
  revert l'. induction l as [|x l IH]; intros l' H; simpl in *; [done|].
  destruct (p x) eqn:E; simplify_eq.
  - by exists [], x, l.
  - apply fmap_Some in H as (l'' & H & ->).
    destruct (IH _ H) as (l1 & y & l2 & -> & -> & Hy & Hl1).
    exists (x :: l1), y, l2. repeat split; auto.
Qed.

Lemma update_first_None f l :
  update_first p f l = None ↔ Forall (λ y, p y = false) l.
Proof.
  induction l as [|x l IH]; simpl; [by split|].
  rewrite Forall_cons. destruct (p x); [naive_solver|].
  rewrite fmap_None, IH. naive_solver.
Qed.

Lemma remove_first_Some l x l' :
  remove_first p l = Some (x, l') →
  ∃ l1 l2, l = l1 ++ x :: l2 ∧ l' = l1 ++ l2 ∧ p x = true ∧ Forall (λ y, p y = false) l1.
Proof.
  revert l'. induction l as [|y l IH]; intros l' H; simpl in *; [done|].
  destruct (p y) eqn:E; simplify_eq.
  - by exists [], l'.
  - apply fmap_Some in H as ([z l''] & H & ?). simplify_eq.
    destruct (IH _ H) as (l1 & l2 & -> & -> & Hy & Hl1).
    exists (y :: l1), l2. repeat split; auto.
Qed.

Lemma remove_first_None l : remove_first p l = None ↔ Forall (λ y, p y = false) l.
Proof.
  induction l as [|x l IH]; simpl; [by split|].
  rewrite Forall_cons. destruct (p x); [naive_solver|].
  rewrite fmap_None, IH. naive_solver.
Qed.

Lemma find_first_Some l x :
  List.find p l = Some x →
  ∃ l1 l2, l = l1 ++ x :: l2 ∧ p x = true ∧ Forall (λ y, p y = false) l1.
Proof.
  induction l as [|y l IH]; intros H; simpl in *; [done|].
  destruct (p y) eqn:E; simplify_eq; [by exists [], l|].
  destruct (IH H) as (l1 & l2 & -> & ? & ?). exists (y :: l1), l2. auto.
Qed.

Lemma find_first_app l1 l2 :
  Forall (λ y, p y = false) l1 → List.find p (l1 ++ l2) = List.find p l2.
Proof. induction 1 as [|x l1 Hx Hl1 IH]; simpl; [done|]. by rewrite Hx. Qed.
End first_facts.

Lemma wf_versions_update k l1 v l2 f :
  ov_Bucket (f v) = ov_Bucket v → ov_Key (f v) = ov_Key v →
  ov_VersionID (f v) = ov_VersionID v →
  wf_versions k (l1 ++ v :: l2) → wf_versions k (l1 ++ f v :: l2).
Proof.
  intros Hb Hk Hid [Hne Hkeyed Hnull]. split.
  - by destruct l1.
  - apply Forall_app in Hkeyed as [? Hc]. apply Forall_cons in Hc as [Hv ?].
    apply Forall_app. split; [done|]. apply Forall_cons. by rewrite Hb, Hk.
  - rewrite List.filter_app, length_app in *. simpl in *.
    unfold is_null_version in *. simpl; rewrite Hid; destruct (String.eqb _ _); simpl in *; lia.
Qed.

Lemma wf_versions_remove k l1 v l2 :
  l1 ++ l2 ≠ [] → wf_versions k (l1 ++ v :: l2) → wf_versions k (l1 ++ l2).
Proof.
  intros Hne [_ Hkeyed Hnull]. split; [done| |].
  - apply Forall_app in Hkeyed as [? Hc]. apply Forall_cons in Hc as [Hv ?].
    by apply Forall_app.
  - rewrite List.filter_app, length_app in *. simpl in *.
    destruct (is_null_version v); simpl in *; lia.
Qed.

Lemma wf_versions_of st k v vs :
  wf_state st → versions_of st k = v :: vs → wf_versions k (v :: vs).
Proof.
  intros Hwf. unfold versions_of. destruct (st_objects st !! k) eqn:E; simpl; [|done].
  intros ->. by apply (wf_objects _ Hwf).
Qed.

Lemma wf_versions_of' st k vs :
  wf_state st → versions_of st k = vs → vs ≠ [] → wf_versions k vs.
Proof. intros Hwf E. destruct vs; [done|]. intros _. by eapply wf_versions_of. Qed.

Section run_op_facts.
Context `{!GoRuntime} {P : Type} `{!StatePersister P}.
Implicit Types s : memoryBackedStore P.
Notation wf_store := (wf_store (P:=P)).

Lemma wf_locked_DeleteBucket b : preserves wf_state (locked_DeleteBucket b).
Proof.
  intros st Hwf. unfold exec, locked_DeleteBucket. case_match; [|done]. simpl. solve_wf Hwf.
Qed.

Lemma wf_locked_PutObjectTagging cfg : preserves wf_state (locked_PutObjectTagging cfg).
Proof. intros st Hwf. unfold exec. simpl. solve_wf Hwf. Qed.

Lemma wf_locked_DeleteObjectTagging b k id :
  preserves wf_state (locked_DeleteObjectTagging b k id).
Proof.
  intros st Hwf. unfold exec, locked_DeleteObjectTagging. case_match; [|done]. simpl.
  solve_wf Hwf.
Qed.

Lemma wf_locked_UpdateObjectMetadata b k id m :
  preserves wf_state (locked_UpdateObjectMetadata b k id m).
Proof.
  intros st Hwf. unfold exec, locked_UpdateObjectMetadata.
  destruct (update_first _ _ _) as [vs|] eqn:E; [|done]. simpl.
  apply wf_set_objects_insert; [done|].
  apply update_first_Some in E as (l1 & v & l2 & E & -> & _).
  apply (wf_versions_update _ _ _ _ (set_ov_Metadata _)); [done..|].
  eapply wf_versions_of'; [done..|]. by destruct l1.
Qed.

Lemma wf_locked_DeleteObjectVersion b k id :
  preserves wf_state (locked_DeleteObjectVersion b k id).
Proof.
  intros st Hwf. unfold exec, locked_DeleteObjectVersion.
  destruct (remove_first _ _) as [[v vs]|] eqn:E; [|done].
  apply remove_first_Some in E as (l1 & l2 & E & -> & _).
  destruct (l1 ++ l2) as [|v' vs] eqn:E'; simpl; [by apply wf_set_objects_delete|].
  apply wf_set_objects_insert; [done|]. rewrite <-E'.
  apply (wf_versions_remove _ _ v); [by rewrite E'|].
  eapply wf_versions_of'; [done..|]. by destruct l1.
Qed.

Lemma wf_locked_DeleteAllObjectVersions b k :
  preserves wf_state (locked_DeleteAllObjectVersions b k).
Proof.
  intros st Hwf. unfold exec, locked_DeleteAllObjectVersions. case_match; simpl; [done|].
  by apply wf_set_objects_delete.
Qed.

#[local] Hint Resolve wf_locked_DeleteBucket wf_locked_PutObjectTagging
  wf_locked_DeleteObjectTagging wf_locked_UpdateObjectMetadata
  wf_locked_DeleteObjectVersion wf_locked_DeleteAllObjectVersions : wf.

Lemma wf_RunInTx p : preserves wf_store (RunInTx (run_tx_prog p)).
Proof.
  intros s Hwf. unfold exec, RunInTx. rewrite cloneState_id.
  pose proof (wf_run_tx_prog p _ Hwf) as Hp. unfold exec in Hp.
  destruct (run_tx_prog p (ms_st s)) as [st' [u|e]]; [|done].
  by apply (preserves_persistLocked wf_state).
Qed.

Lemma wf_RepairConsistency : preserves wf_store RepairConsistency.
Proof.
  intros s Hwf. unfold exec, RepairConsistency.
  pose proof (wf_repair _ Hwf) as Hr. destruct (repairState (ms_st s)) as [st' n]. simpl in Hr.
  destruct (n =? 0); [done|].
  pose proof (preserves_persistLocked wf_state (mkStore (ms_persister s) st') Hr) as Hp.
  unfold exec in Hp. by destruct (persistLocked _) as [s' [u|e]].
Qed.

Lemma wf_removal {A} (m : M memoryState A) :
  preserves wf_state m →
  preserves wf_store ((removed ← on_st m; persistLocked ;; mret removed) ;; mret tt).
Proof.
  intros Hm. apply preserves_bind; [|intros _; apply preserves_ret].
  apply preserves_bind; [by apply preserves_on_st|]. intros v.
  apply preserves_bind; [apply preserves_persistLocked | intros _; apply preserves_ret].
Qed.

(** A mutating method is the change of the state followed by the save, apart from
    [RunInTx] and [RepairConsistency]. *)
Lemma run_op_cases o :
  (∃ m, preserves wf_state m ∧ run_op o = (change_and_persist m : M (memoryBackedStore P) unit)) ∨
  (∃ A (m : M memoryState A), preserves wf_state m ∧
     run_op o = ((a ← on_st m; persistLocked ;; mret a) ;; mret tt : M (memoryBackedStore P) unit)) ∨
  (∃ p, o = OpRunInTx p) ∨ o = OpRepair.
Proof.
  destruct o as [[]| | | | | | | | | | | | | | | | | | | | |];
    first [ by eauto
          | left; eexists; split; [|reflexivity]; by eauto with wf nocore
          | right; left; eexists _, _; split; [|reflexivity]; by eauto with wf nocore ].
Qed.

Lemma wf_run_op o : preserves wf_store (run_op o).
Proof.
  destruct (run_op_cases o) as [(m & Hm & Eo)|[(A & m & Hm & Eo)|[[p Eo]|Eo]]]; rewrite Eo.
  - by apply wf_change_and_persist.
  - by apply wf_removal.
  - apply wf_RunInTx.
  - apply preserves_bind; [apply wf_RepairConsistency | intros _; apply preserves_ret].
Qed.

Lemma wf_reachable label s : reachable label s → wf_store s.
Proof. induction 1; [apply wf_emptyState | by apply wf_run_op]. Qed.
End run_op_facts.
