(* ===== verification/MemoryStoreProps.v ===== *)
(** * What the memory-backed metadata store promises

    The theorems on the store as a whole, over every sequence of operations and
    every persister, with an instance of the persister interface to evaluate
    them on. *)
From S2P Require Import Prelude Model MemoryStore MemoryStoreFacts.

(** A persister held in memory whose saves follow a script of failures. *)
Record scripted_persister := mkScripted {
  sp_saved : option persistedState;
  sp_failures : list (option error);
}.

#[global] Instance scripted_StatePersister : StatePersister scripted_persister := {|
  Load p := Ok (sp_saved p);
  Save st p :=
    match sp_failures p with
    | Some e :: rest => (mkScripted (sp_saved p) rest, Some e)
    | None :: rest => (mkScripted (Some st) rest, None)
    | [] => (mkScripted (Some st) [], None)
    end;
|}.

#[global] Instance scripted_StatePersisterLaws : StatePersisterLaws scripted_persister.
Proof. split. intros st [saved [|[e|] rest]] p' H; by simplify_eq/=. Qed.

(** A store that would be the same after a restart of the process. *)
Definition synced `{!GoRuntime} {P} `{!StatePersister P} (s : memoryBackedStore P) : Prop :=
  newMemoryBackedStore (ms_persister s) (st_backendLabel (ms_st s)) = Ok s.

Section props.
Context `{!GoRuntime} {P : Type} `{!StatePersister P}.
Implicit Types s : memoryBackedStore P.

(** [m] reports success only after a successful save of its final state. *)
Definition ends_persisted {A} (m : M (memoryBackedStore P) A) : Prop :=
  ∀ s s' a, wf_store s → m s = (s', Ok a) →
  ∃ s1, wf_store s1 ∧ ms_persister s1 = ms_persister s ∧ persistLocked s1 = (s', Ok tt).

Lemma on_st_persister {A} (m : M memoryState A) s : ms_persister (exec (on_st m) s) = ms_persister s.
Proof. unfold exec, on_st. by destruct (m _). Qed.

Lemma ends_persisted_on_st {A} (m : M memoryState A) :
  preserves wf_state m →
  ends_persisted (a ← on_st m; persistLocked ;; mret a).
Proof.
  intros Hm s s' a Hwf Hr. apply M_bind_inv in Hr as (s1 & b & H1 & H2).
  apply M_bind_inv in H2 as (s2 & [] & H2 & H3). unfold mret, M_ret in H3. simplify_eq.
  exists s1. pose proof (preserves_on_st (P:=P) wf_state m Hm s Hwf) as Hw.
  pose proof (on_st_persister m s) as Hp. unfold exec in Hw, Hp. by rewrite H1 in Hw, Hp.
Qed.

Lemma ends_persisted_change m : preserves wf_state m → ends_persisted (change_and_persist m).
Proof.
  intros Hm s s' [] Hwf Hr. apply M_bind_inv in Hr as (s1 & b & H1 & H2).
  exists s1. pose proof (preserves_on_st (P:=P) wf_state m Hm s Hwf) as Hw.
  pose proof (on_st_persister m s) as Hp. unfold exec in Hw, Hp. by rewrite H1 in Hw, Hp.
Qed.

Lemma ends_persisted_drop {A} (m : M (memoryBackedStore P) A) :
  ends_persisted m → ends_persisted (m ;; mret tt).
Proof.
  intros Hm s s' [] Hwf Hr. apply M_bind_inv in Hr as (s1 & a & H1 & H2).
  unfold mret, M_ret in H2. simplify_eq. by apply (Hm _ _ _ Hwf H1).
Qed.

Lemma persist_synced `{!StatePersisterLaws P} s s' :
  wf_store s → is_Some (ms_persister s) → persistLocked s = (s', Ok tt) → synced s'.
Proof.
  intros Hwf [p Hp]. unfold persistLocked. rewrite Hp.
  destruct (Save _ p) as [p' [e|]] eqn:E; [done|]. intros ?; simplify_eq/=.
  unfold synced, newMemoryBackedStore. simpl. apply Load_Save in E. rewrite E.
  by rewrite apply_snapshot_same.
Qed.

Lemma RunInTx_ends_persisted p : ends_persisted (RunInTx (run_tx_prog p)).
Proof.
  intros s s' [] Hwf Hr. unfold RunInTx in Hr. rewrite cloneState_id in Hr.
  pose proof (wf_run_tx_prog p _ Hwf) as Hp. unfold exec in Hp.
  destruct (run_tx_prog p (ms_st s)) as [st' [u|e]]; [|done].
  by exists (mkStore (ms_persister s) st').
Qed.

Lemma repair_zero_id st : (repairState st).2 = 0 → (repairState st).1 = st.
Proof.
  rewrite repairState_eq. simpl. unfold count_orphans. intros H0.
  assert (∀ {K A} `{Countable K} (orphan : K → A → bool) (m : gmap K A),
    Z.of_nat (length (List.filter (λ '(k, v), orphan k v) (range_map m))) = 0 →
    filter (λ '(k, v), orphan k v = false) m = m) as Hid.
  { intros K A ?? orphan m Hl. apply map_filter_id. intros k v Hv.
    apply (List_filter_length_le (λ '(k, v), orphan k v) (range_map m)) with (x := (k, v)).
    - apply length_zero_iff_nil. lia.
    - by apply elem_of_range_map. }
  rewrite !Hid by lia. destruct st as [bs os mus pas cr ws cs ps pb ls ns rs ts lab]; simpl; f_equal.
  apply map_eq. intros id. rewrite repaired_parts_lookup. simpl.
  destruct (mus !! id) as [u|] eqn:E; [|done].
  rewrite (List_filter_length_le (λ '(k, v), upload_orphan _ k v)
    (range_map mus)) with (x := (id, u)); [done| |by apply elem_of_range_map].
  apply length_zero_iff_nil. unfold upload_orphan in *; simpl in *. lia.
Qed.

Lemma count_after `{Countable K} {A} (orphan : K → A → bool) (m : gmap K A) :
  count_orphans orphan (filter (λ '(k, v), orphan k v = false) m) = 0.
Proof. unfold count_orphans. by rewrite no_orphans_after. Qed.

Lemma validate_after_repair st : validateState (repairState st).1 = [].
Proof.
  apply length_zero_iff_nil. apply Nat2Z.inj. rewrite <-repair_count.
  rewrite (repairState_eq (repairState st).1), (repairState_eq st). cbn -[count_orphans].
  assert (∀ a b c d e f, a = 0 → b = 0 → c = 0 → d = 0 → e = 0 → f = 0 →
    a + b + c + d + e + f = 0) as Hsum by lia.
  apply Hsum; apply count_after.
Qed.




(** A reported success has saved the state it leaves, except where there was
    nothing to repair. *)
Lemma success_saved s s' o :
  wf_store s → run_op o s = (s', Ok tt) →
  s' = s ∨ ∃ s1, wf_store s1 ∧ ms_persister s1 = ms_persister s ∧ persistLocked s1 = (s', Ok tt).
Proof.
  intros Hwf Hr. destruct (run_op_cases (P:=P) o) as [(m & Hm & Eo)|[(A & m & Hm & Eo)|[[p Eo]|Eo]]]; rewrite Eo in Hr.
  - right. exact (ends_persisted_change m Hm s s' tt Hwf Hr).
  - right. exact (ends_persisted_drop _ (ends_persisted_on_st m Hm) s s' tt Hwf Hr).
  - right. exact (RunInTx_ends_persisted p s s' tt Hwf Hr).
  - apply M_bind_inv in Hr as (s1 & n & Hr & Hret). unfold mret, M_ret in Hret. simplify_eq.
    unfold RepairConsistency in Hr. pose proof (wf_repair _ Hwf) as Hw. pose proof (repair_zero_id (ms_st s)) as Hz.
    destruct (repairState (ms_st s)) as [st' k]. simpl in *. destruct (k =? 0) eqn:Ek.
    + left. apply Z.eqb_eq in Ek. simplify_eq. rewrite Hz by done. by destruct s.
    + destruct (persistLocked _) as [s2 [[]|e]] eqn:E; simplify_eq. right.
      by exists (mkStore (ms_persister s) st').
Qed.

(** A reported failure has saved nothing, or the save failed. *)
Lemma failure_unsaved s s' o e :
  run_op o s = (s', Err e) →
  ms_persister s' = ms_persister s ∨
  ∃ s1 e', ms_persister s1 = ms_persister s ∧ persistLocked s1 = (s', Err e').
Proof.
  assert (∀ {A} (m : M memoryState A) s2 r, on_st m s = (s2, r) → ms_persister s2 = ms_persister s) as Hon.
  { intros A m s2 r Hm. pose proof (on_st_persister m s) as Hp. unfold exec in Hp. by rewrite Hm in Hp. }
  intros Hr. destruct (run_op_cases (P:=P) o) as [(m & Hm & Eo)|[(A & m & Hm & Eo)|[[p Eo]|Eo]]]; rewrite Eo in Hr.
  - unfold change_and_persist, mbind, M_bind in Hr. destruct (on_st m s) as [s1 [a|e1]] eqn:E; simplify_eq; [right|left; by eapply Hon].
    exists s1, e. split; [by eapply Hon|done].
  - unfold mbind, M_bind in Hr. destruct (on_st m s) as [s1 [a|e1]] eqn:E; simplify_eq; [|left; by eapply Hon].
    destruct (persistLocked s1) as [s2 [[]|e2]] eqn:E2; simplify_eq. right. exists s1, e. split; [by eapply Hon|done].
  - unfold run_op, RunInTx in Hr. destruct (run_tx_prog p _) as [st' [u|e1]]; simplify_eq; [|by left].
    right. by exists (mkStore (ms_persister s) st'), e.
  - unfold run_op, RepairConsistency, mbind, M_bind in Hr. destruct (repairState (ms_st s)) as [st' k].
    destruct (k =? 0); [done|]. destruct (persistLocked _) as [s2 [[]|e2]] eqn:E2; simplify_eq.
    right. by exists (mkStore (ms_persister s) st'), e.
Qed.

End props.

(** ** Versions and listings *)
Lemma Forall_not_version id vs :
  List.find (is_version id) vs = None → Forall (λ v, is_version id v = false) vs.
Proof. intros Hf. apply Forall_forall. intros v Hv%list_elem_of_In. by eapply find_none. Qed.

Lemma find_kept id v vs :
  id ≠ ov_VersionID v → List.find (is_version id) (kept_versions v vs) = List.find (is_version id) vs.
Proof.
  intros Hne. unfold kept_versions, filter_not_null, is_null_version.
  destruct (String.eqb_spec (ov_VersionID v) "null") as [E|]; [|done]. rewrite E in Hne.
  induction vs as [|x vs IH]; simpl; [done|]. unfold is_version in *.
  destruct (String.eqb_spec (ov_VersionID x) "null") as [Ex|Ex]; simpl.
  - rewrite Ex. destruct (String.eqb_spec "null" id); [congruence | done].
  - by rewrite IH.
Qed.

Lemma find_null_kept v vs :
  ov_VersionID v = "null" → List.find (is_version "null") (kept_versions v vs) = None.
Proof.
  intros E. unfold kept_versions, is_null_version. rewrite E. simpl.
  induction vs as [|x vs IH]; simpl; [done|].
  destruct (String.eqb (ov_VersionID x) "null") eqn:Ex; simpl; [done|].
  unfold is_version at 1. by rewrite Ex.
Qed.

Lemma find_app_None {A} (p : A → bool) l1 l2 :
  List.find p l1 = None → List.find p (l1 ++ l2) = List.find p l2.
Proof. induction l1 as [|x l1 IH]; simpl; [done|]. by destruct (p x). Qed.

Lemma find_app_else {A} (p : A → bool) l x :
  p x = false → List.find p (l ++ [x]) = List.find p l.
Proof. intros Hx. induction l as [|y l IH]; simpl; [by rewrite Hx|]. by destruct (p y). Qed.

Section version_props.
Context `{!GoRuntime} {P : Type} `{!StatePersister P}.
Implicit Types s : memoryBackedStore P.

Lemma ms_st_change m s : ms_st (exec (change_and_persist m) s) = exec m (ms_st s) ∨
  ∃ e, eval m (ms_st s) = Err e ∧ ms_st (exec (change_and_persist m) s) = exec m (ms_st s).
Proof.
  unfold exec, eval, change_and_persist, mbind, M_bind, on_st.
  destruct (m (ms_st s)) as [st' [u|e]]; simpl; [left | right; eauto].
  apply (persistLocked_st (mkStore (ms_persister s) st')).
Qed.

Lemma ms_st_change' m s : ms_st (exec (change_and_persist m) s) = exec m (ms_st s).
Proof. by destruct (ms_st_change m s) as [?|(e & _ & ?)]. Qed.

Lemma versions_of_put v st k :
  versions_of (putObjectVersion v st) k =
  if decide (k = mkObjectKey (ov_Bucket v) (ov_Key v))
  then kept_versions v (versions_of st k) ++ [v] else versions_of st k.
Proof.
  rewrite putObjectVersion_eq. simpl. case_decide as Hk; [subst k|].
  - by rewrite versions_of_set_objects_eq.
  - by rewrite versions_of_set_objects_ne by done.
Qed.

Lemma PutObjectVersion_spec s v :
  let b := ov_Bucket v in let k := ov_Key v in let id := ov_VersionID v in
  let s' := exec (PutObjectVersion v) s in
  GetLatestObjectVersion b k s' = Ok v ∧
  (id ≠ "" → id = "null" ∨ GetObjectVersion b k id s = Err ErrNotFound →
     GetObjectVersion b k id s' = Ok v) ∧
  (∀ id', id' ≠ "" → id' ≠ id →
     GetObjectVersion b k id' s' = GetObjectVersion b k id' s) ∧
  (∀ b' k', (b', k') ≠ (b, k) → ∀ id',
     GetObjectVersion b' k' id' s' = GetObjectVersion b' k' id' s).
Proof.
  intros b k id s'.
  assert (∀ o, versions_of (ms_st s') o = versions_of (putObjectVersion v (ms_st s)) o) as Hs.
  { intros o. unfold s', PutObjectVersion. by rewrite ms_st_change'. }
  unfold GetObjectVersion, GetLatestObjectVersion, latest_of. split_and!.
  - rewrite Hs, versions_of_put, decide_True by done. by rewrite last_snoc.
  - intros Hid Hfresh. apply String.eqb_neq in Hid as Hid'. rewrite Hid' in *.
    rewrite Hs, versions_of_put, decide_True by done. rewrite find_app_None.
    + simpl. unfold is_version. by rewrite String.eqb_refl.
    + destruct Hfresh as [Hn|Hn]; [rewrite Hn; by apply find_null_kept|].
      destruct (List.find _ _) as [x|] eqn:E in Hn; [done|].
      unfold kept_versions. destruct (is_null_version v) eqn:Env; [|done].
      apply String.eqb_eq in Env. unfold id. rewrite Env.
      pose proof (find_null_kept v (versions_of (ms_st s) (mkObjectKey b k)) Env) as Hk.
      unfold kept_versions, is_null_version in Hk. by rewrite Env in Hk.
  - intros id' Hid' Hne. apply String.eqb_neq in Hid'. rewrite Hid'.
    rewrite Hs, versions_of_put, decide_True by done.
    rewrite find_app_else, find_kept; [done|done|]. unfold is_version. by apply String.eqb_neq.
  - intros b' k' Hne id'. rewrite Hs, versions_of_put, decide_False; [done|].
    intros ?. simplify_eq.
Qed.

(** C37: [PutObjectVersion] makes the version the latest of its key and the one
    its id names (unless the key already had that id, other than "null"); the
    version stored as "null" before is replaced; every other version of the key
    and every other key read as before. *)
Theorem put_then_get s v :
  let b := ov_Bucket v in let k := ov_Key v in let id := ov_VersionID v in
  let s' := exec (PutObjectVersion v) s in
  GetLatestObjectVersion b k s' = Ok v ∧
  (id ≠ "" → id = "null" ∨ GetObjectVersion b k id s = Err ErrNotFound →
     GetObjectVersion b k id s' = Ok v) ∧
  (∀ id', id' ≠ "" → id' ≠ id →
     GetObjectVersion b k id' s' = GetObjectVersion b k id' s) ∧
  (∀ b' k', (b', k') ≠ (b, k) → ∀ id',
     GetObjectVersion b' k' id' s' = GetObjectVersion b' k' id' s).
Proof. apply PutObjectVersion_spec. Qed.

Lemma DeleteObjectVersion_spec s b k id :
  let key := mkObjectKey b k in
  let s' := exec (DeleteObjectVersion b k id) s in
  match List.find (is_version id) (versions_of (ms_st s) key) with
  | None => ms_st s' = ms_st s ∧ eval (DeleteObjectVersion b k id) s = Err ErrNotFound
  | Some v =>
      (∃ l1 l2, versions_of (ms_st s) key = l1 ++ v :: l2 ∧
         versions_of (ms_st s') key = l1 ++ l2 ∧
         Forall (λ x, ov_VersionID x ≠ id) l1 ∧
         (st_objects (ms_st s') !! key = None ↔ l1 ++ l2 = [])) ∧
      (∀ key', key' ≠ key → versions_of (ms_st s') key' = versions_of (ms_st s) key') ∧
      (∀ v', eval (DeleteObjectVersion b k id) s = Ok v' → v' = v)
  end.
Proof.
  intros key s'. unfold s', exec, eval, DeleteObjectVersion, mbind, M_bind, on_st,
    locked_DeleteObjectVersion. fold key.
  destruct (List.find _ _) as [v|] eqn:Ef.
  - assert (remove_first (is_version id) (versions_of (ms_st s) key) ≠ None) as Hn.
    { rewrite remove_first_None, Forall_forall. intros Hall.
      apply find_some in Ef as [Hin%list_elem_of_In Hv]. by rewrite Hall in Hv. }
    destruct (remove_first _ _) as [[v' vs]|] eqn:Er; [clear Hn|done].
    apply remove_first_Some in Er as (l1 & l2 & E & -> & Hv' & Hl1).
    assert (v' = v) as ->.
    { rewrite E, find_first_app in Ef by done. simpl in Ef. rewrite Hv' in Ef. congruence. }
    assert (Forall (λ x, ov_VersionID x ≠ id) l1).
    { eapply Forall_impl; [done|]. intros x Hx. by apply String.eqb_neq in Hx. }
    destruct (l1 ++ l2) as [|y vs] eqn:E12; simpl.
    all: match goal with |- context [persistLocked ?s1] =>
           pose proof (persistLocked_st s1) as Hst; unfold exec in Hst;
           destruct (persistLocked s1) as [s2 [[]|e]]; simpl in Hst |- *; rewrite Hst end.
    all: split_and!; [|intros key' Hne|naive_solver].
    all: try (exists l1, l2; rewrite E12; unfold versions_of; simpl;
      rewrite ?lookup_delete_eq, ?lookup_insert_eq; by split_and!).
    all: unfold versions_of; simpl; by rewrite ?lookup_delete_ne, ?lookup_insert_ne by done.
  - destruct (remove_first _ _) as [[v' vs]|] eqn:Er; [|by destruct s].
    apply remove_first_Some in Er as (l1 & l2 & E & -> & Hv' & Hl1).
    rewrite E, find_first_app in Ef by done. simpl in Ef. by rewrite Hv' in Ef.
Qed.

(** C38: [DeleteObjectVersion] removes the first version with the id and keeps
    the other versions of the key in their order; a key whose last version goes
    disappears; other keys are untouched; without such a version nothing
    changes. *)
Theorem delete_object_version_spec s b k id :
  let key := mkObjectKey b k in
  let s' := exec (DeleteObjectVersion b k id) s in
  match List.find (is_version id) (versions_of (ms_st s) key) with
  | None => ms_st s' = ms_st s ∧ eval (DeleteObjectVersion b k id) s = Err ErrNotFound
  | Some v =>
      (∃ l1 l2, versions_of (ms_st s) key = l1 ++ v :: l2 ∧
         versions_of (ms_st s') key = l1 ++ l2 ∧
         Forall (λ x, ov_VersionID x ≠ id) l1 ∧
         (st_objects (ms_st s') !! key = None ↔ l1 ++ l2 = [])) ∧
      (∀ key', key' ≠ key → versions_of (ms_st s') key' = versions_of (ms_st s) key') ∧
      (∀ v', eval (DeleteObjectVersion b k id) s = Ok v' → v' = v)
  end.
Proof. apply DeleteObjectVersion_spec. Qed.

Lemma visible_latest_Some st b k vs v :
  wf_state st → st_objects st !! k = Some vs →
  visible_latest b (k, vs) = Some v ↔
  k = mkObjectKey b (ov_Key v) ∧ ov_Bucket v = b ∧ ov_DeleteMarker v = false ∧ last vs = Some v.
Proof.
  intros Hwf Hk. unfold visible_latest, latest_of. split.
  - destruct (String.eqb_spec (ok_bucket k) b) as [<-|]; simpl; [|done].
    destruct (last vs) as [x|] eqn:El; [|done]. destruct (ov_DeleteMarker x) eqn:Ed; [done|].
    intros [= <-]. destruct (wf_objects _ Hwf _ _ Hk) as [_ Hkey _].
    rewrite Forall_forall in Hkey. destruct (Hkey x) as [Hb Hx].
    { by apply last_Some_elem_of. }
    destruct k; simpl in *; by subst.
  - intros (-> & <- & Hd & ->). simpl. by rewrite String.eqb_refl, Hd.
Qed.

Lemma visible_latest_NoDup st b (l : list (objectKey * list ObjectVersion)) :
  wf_state st → NoDup l.*1 → (∀ k vs, (k, vs) ∈ l → st_objects st !! k = Some vs) →
  NoDup (ov_Key <$> omap (visible_latest b) l).
Proof.
  intros Hwf. induction l as [|[k vs] l IH]; intros Hnd Hin; [constructor|].
  rewrite fmap_cons in Hnd. apply NoDup_cons in Hnd as [Hnk Hnd].
  change (omap (visible_latest b) ((k, vs) :: l)) with
    (match visible_latest b (k, vs) with
     | Some v => v :: omap (visible_latest b) l | None => omap (visible_latest b) l end).
  assert (NoDup (ov_Key <$> omap (visible_latest b) l)) as Hl.
  { apply IH; [done|]. intros ???. apply Hin. by right. }
  destruct (visible_latest b (k, vs)) as [v|] eqn:Ev; [|done].
  rewrite fmap_cons. constructor; [|done]. rewrite list_elem_of_fmap.
  intros (v' & Hkey & ([k' vs'] & Hp & Hv')%list_elem_of_omap).
  apply (visible_latest_Some st) in Ev as (-> & _); [|done|apply Hin; by left].
  apply (visible_latest_Some st) in Hv' as (-> & _); [|done|apply Hin; by right].
  apply Hnk. rewrite Hkey. apply list_elem_of_fmap. by exists (mkObjectKey b (ov_Key v'), vs').
Qed.

(** C7: [ListObjects] returns, once each, exactly the objects of the bucket whose
    latest version is not a delete marker. *)
Theorem list_objects_spec s b :
  wf_state (ms_st s) →
  ∃ l, ListObjects b s = Ok l ∧
    NoDup (ov_Key <$> l) ∧
    ∀ v, v ∈ l ↔ ov_Bucket v = b ∧ ov_DeleteMarker v = false ∧
                 GetLatestObjectVersion b (ov_Key v) s = Ok v.
Proof.
  intros Hwf. eexists. split; [reflexivity|]. split.
  { apply (visible_latest_NoDup (ms_st s)); [done|apply NoDup_fst_range_map|].
    intros k vs. by rewrite elem_of_range_map. }
  intros v. rewrite list_elem_of_omap. unfold GetLatestObjectVersion, latest_of, versions_of. split.
  - intros ([k vs] & Hk%elem_of_range_map & Hv).
    apply (visible_latest_Some (ms_st s)) in Hv as (-> & ? & ? & Hl); [|done..].
    rewrite Hk. simpl. by rewrite Hl.
  - intros (Hb & Hd & Hl). destruct (st_objects (ms_st s) !! _) as [vs|] eqn:Ek; [|done].
    exists (mkObjectKey b (ov_Key v), vs). rewrite elem_of_range_map. split; [done|].
    apply (visible_latest_Some (ms_st s)); [done..|]. simpl in Hl.
    destruct (last vs); [|done]. by simplify_eq.
Qed.

Lemma Z_strict_weak : StrictWeak Z.ltb.
Proof. split; intros; rewrite ?Z.ltb_lt, ?Z.ltb_ge in *; lia. Qed.

Lemma less_version_strict_weak : StrictWeak less_version.
Proof.
  apply less_by_strict_weak. split; intros; rewrite ?Z.ltb_lt, ?Z.ltb_ge in *; lia.
Qed.

(** C8: [ListObjectVersions] of an existing bucket is a permutation of all stored
    versions of the bucket, delete markers included, ordered by key and, within
    a key, newest first. *)
Theorem list_object_versions_sorted s b :
  wf_state (ms_st s) → is_Some (st_buckets (ms_st s) !! b) →
  ∃ l, ListObjectVersions b s = Ok l ∧
    StronglySorted (λ x y, String.ltb (ov_Key y) (ov_Key x) = false ∧
      (ov_Key x = ov_Key y → ov_CreatedAt y ≤ ov_CreatedAt x)) l ∧
    ∀ v, v ∈ l ↔ ov_Bucket v = b ∧ v ∈ versions_of (ms_st s) (mkObjectKey b (ov_Key v)).
Proof.
  intros Hwf [bk Hb]. unfold ListObjectVersions. rewrite Hb. eexists. split; [reflexivity|]. split.
  - eapply StronglySorted_weaken, sort_slice_sorted, less_version_strict_weak.
    intros x y. unfold not_after, less_version, less_by.
    destruct (String.eqb_spec (ov_Key y) (ov_Key x)) as [E|E].
    + rewrite Z.ltb_ge. intros ?. by rewrite E, string_ltb_irrefl.
    + intros ?. split; [done|]. congruence.
  - intros v. rewrite sort_slice_perm, list_elem_of_In, in_concat.
    setoid_rewrite <-list_elem_of_In. split.
    + intros (vs & ([k vs'] & -> & Hk%list_elem_of_In%filter_In)%list_elem_of_fmap & Hv).
      rewrite <-list_elem_of_In, elem_of_range_map in Hk. destruct Hk as [Hk Hkb].
      destruct (wf_objects _ Hwf _ _ Hk) as [_ Hkey _].
      rewrite Forall_forall in Hkey. destruct (Hkey v Hv) as [E1 E2].
      apply String.eqb_eq in Hkb. destruct k as [kb kk]. simpl in *. subst.
      split; [done|]. unfold versions_of. by rewrite Hk.
    + intros [Hvb Hv]. unfold versions_of in Hv.
      destruct (st_objects (ms_st s) !! _) as [vs|] eqn:Ek; simpl in Hv; [|by apply not_elem_of_nil in Hv].
      exists vs. split; [|done]. apply list_elem_of_fmap. exists (mkObjectKey b (ov_Key v), vs).
      split; [done|]. apply list_elem_of_In, filter_In.
      rewrite <-list_elem_of_In, elem_of_range_map. split; [done|]. apply String.eqb_refl.
Qed.

Lemma strict_of_sorted (l : list Z) :
  NoDup l → StronglySorted (not_after Z.ltb) l → StronglySorted Z.lt l.
Proof.
  intros Hnd Hs. induction Hs as [|x l Hs IH Hx]; [constructor|].
  apply NoDup_cons in Hnd as [Hnx Hnd]. constructor; [by apply IH|].
  rewrite Forall_forall in *. intros y Hy. specialize (Hx y Hy).
  unfold not_after in Hx. rewrite Z.ltb_ge in Hx.
  assert (x ≠ y) by (intros ->; done). lia.
Qed.

(** C9: [GetMultipartUpload] returns the stored parts of the upload, each exactly
    once, in strictly increasing order of their numbers. *)
Theorem get_multipart_upload_spec s id u :
  wf_state (ms_st s) → st_multipart (ms_st s) !! id = Some u →
  ∃ parts, GetMultipartUpload id s = Ok (u, parts) ∧
    StronglySorted Z.lt (mp_PartNumber <$> parts) ∧
    ∀ p, p ∈ parts ↔ default ∅ (st_parts (ms_st s) !! id) !! mp_PartNumber p = Some p.
Proof.
  intros Hwf Hu. unfold GetMultipartUpload. rewrite Hu. eexists. split; [reflexivity|].
  set (pm := default ∅ _).
  assert (∀ n p, pm !! n = Some p → mp_PartNumber p = n) as Hpm.
  { intros n p. unfold pm. destruct (st_parts (ms_st s) !! id) as [m|] eqn:E; simpl; [|done].
    apply (wf_parts _ Hwf) in E as [_ E]. by intros [_ ?]%E. }
  set (ns := sort_slice Z.ltb _).
  assert (∀ n, n ∈ ns ↔ is_Some (pm !! n)) as Hns.
  { intros n. unfold ns. rewrite sort_slice_perm, list_elem_of_fmap. split.
    - intros ([n' p] & -> & Hp%elem_of_range_map). eauto.
    - intros [p Hp]. exists (n, p). by rewrite elem_of_range_map. }
  assert (mp_PartNumber <$> omap (λ partNo, pm !! partNo) ns = ns) as Hnum.
  { assert (∀ n, n ∈ ns → is_Some (pm !! n)) as Hall by (intros; by apply Hns).
    clear Hns. clearbody ns. induction ns as [|n ns IH]; [done|]. csimpl.
    destruct (Hall n) as [p Hp]; [by left|]. rewrite Hp. csimpl.
    rewrite (Hpm _ _ Hp), IH; [done|]. intros; apply Hall; by right. }
  split.
  - rewrite Hnum. apply strict_of_sorted.
    + unfold ns. rewrite sort_slice_perm. apply NoDup_fst_range_map.
    + apply sort_slice_sorted, Z_strict_weak.
  - intros p. rewrite list_elem_of_omap. split.
    + intros (n & _ & Hp). by rewrite (Hpm _ _ Hp).
    + intros Hp. exists (mp_PartNumber p). split; [|done]. apply Hns. eauto.
Qed.
End version_props.

(** ** Evaluation on a concrete store *)
Section witnesses.
#[local] Existing Instance go_runtime_ref.

Definition ex_bucket : Bucket := mkBucket "photos" 0 "us-east-1" "Enabled".
Definition ex_version (key id : string) (at_ : Z) : ObjectVersion :=
  mkObjectVersion "photos" key id 3 "etag" "" "" "" "" "path" ∅ false at_.
Definition ex_upload : MultipartUpload := mkMultipartUpload "u1" "photos" "big" "" 5.
Definition ex_part (n : Z) : MultipartPart := mkMultipartPart "u1" n "e" 4 "" "" "" "" "p" 6.

Definition ex_ops : list store_op :=
  [ OpTx (TxCreateBucket ex_bucket);
    OpTx (TxPutObjectVersion (ex_version "b" "v1" 1));
    OpTx (TxPutObjectVersion (ex_version "a" "null" 2));
    OpTx (TxPutObjectVersion (ex_version "a" "null" 3));
    OpTx (TxDeleteObject "photos" "b" "v2" 4);
    OpTx (TxCreateMultipartUpload ex_upload);
    OpTx (TxUpsertMultipartPart (ex_part 2));
    OpTx (TxUpsertMultipartPart (ex_part 1)) ].

Definition ex_new : memoryBackedStore scripted_persister :=
  mkStore (Some (mkScripted None [])) (emptyState "sqlite").

Definition ex_store : memoryBackedStore scripted_persister :=
  fold_left (λ s o, exec (run_op o) s) ex_ops ex_new.

Lemma ex_store_reachable : reachable "sqlite" ex_store.
Proof.
  unfold ex_store. assert (reachable "sqlite" ex_new) as Hn.
  { apply reach_new. intros p [= <-]. reflexivity. }
  revert Hn. generalize ex_new. induction ex_ops as [|o ops IH]; intros s Hs; simpl; [done|].
  apply IH. by apply reach_op.
Qed.

Example ex_store_lists :
  ListObjects "photos" ex_store = Ok [ex_version "a" "null" 3].
Proof. vm_compute. reflexivity. Qed.

Example ex_failed_save_keeps_change :
  let s := mkStore (Some (mkScripted None [Some ErrConflict])) (emptyState "sqlite") in
  let '(s', r) := RunInTx (run_tx_prog (TxCall (TxCreateBucket ex_bucket) TxReturn)) s in
  r = Err ErrConflict ∧ st_buckets (ms_st s') !! "photos" = Some ex_bucket.
Proof. vm_compute. done. Qed.


Definition ex_op : store_op := OpTx (TxPutObjectVersion (ex_version "c" "v9" 9)).

Lemma ex_op_succeeds : is_ok (eval (run_op ex_op) ex_store) = true.
Proof. vm_compute. reflexivity. Qed.

Lemma ex_store_synced : synced ex_store.
Proof. vm_compute. reflexivity. Qed.

Lemma ex_store_persister : is_Some (ms_persister ex_store).
Proof. eexists. vm_compute. reflexivity. Qed.


Lemma list_objects_spec_witness :
  ∃ l, ListObjects "photos" ex_store = Ok l ∧ NoDup (ov_Key <$> l) ∧
    ∀ v, v ∈ l ↔ ov_Bucket v = "photos" ∧ ov_DeleteMarker v = false ∧
                 GetLatestObjectVersion "photos" (ov_Key v) ex_store = Ok v.
Proof. apply (list_objects_spec ex_store "photos"). eapply wf_reachable, ex_store_reachable. Defined.

Lemma list_object_versions_sorted_witness :
  ∃ l, ListObjectVersions "photos" ex_store = Ok l ∧
    StronglySorted (λ x y, String.ltb (ov_Key y) (ov_Key x) = false ∧
      (ov_Key x = ov_Key y → ov_CreatedAt y ≤ ov_CreatedAt x)) l ∧
    ∀ v, v ∈ l ↔ ov_Bucket v = "photos" ∧
                 v ∈ versions_of (ms_st ex_store) (mkObjectKey "photos" (ov_Key v)).
Proof.
  apply (list_object_versions_sorted ex_store "photos").
  - eapply wf_reachable, ex_store_reachable.
  - exists ex_bucket. vm_compute. reflexivity.
Defined.

Lemma get_multipart_upload_spec_witness :
  ∃ parts, GetMultipartUpload "u1" ex_store = Ok (ex_upload, parts) ∧
    StronglySorted Z.lt (mp_PartNumber <$> parts) ∧
    ∀ p, p ∈ parts ↔
      default ∅ (st_parts (ms_st ex_store) !! "u1") !! mp_PartNumber p = Some p.
Proof.
  apply (get_multipart_upload_spec ex_store "u1").
  - eapply wf_reachable, ex_store_reachable.
  - vm_compute. reflexivity.
Defined.
End witnesses.
