(* ===== verification/FileSystem.v ===== *)
(** * The operating system under the blob store

    Files and directories by path, the calls of package os the program makes, and
    their failures.  Every call consults a schedule of faults first: it may fail
    with an error, or the process may stop there ([Crash]), after which no call
    has any effect.  Theorems quantify over all schedules.  A path is its string;
    the program builds paths with [filepath.Join] from clean elements, which is
    concatenation with a slash. *)
From S2P Require Import Prelude GoStrings.

Inductive fault : Type :=
  | NoFault
  | Fault (e : error)
  | Crash.

(** Documented behaviour of [os.CreateTemp]: a name in the directory that no
    file has. *)
Class TempNames := {
  temp_name : string → gset string → string;
  temp_name_fresh dir used : temp_name dir used ∉ used;
  temp_name_below dir used : HasPrefix (temp_name dir used) (dir +:+ "/") = true;
}.

Record world := mkWorld {
  fs_files : gmap string string;
  fs_dirs : gset string;
  fs_mtimes : gmap string Z;
  fs_faults : list fault;
  fs_crashed : bool;
  fs_clock : Z;
}.

Definition set_files v w :=
  mkWorld v (fs_dirs w) (fs_mtimes w) (fs_faults w) (fs_crashed w) (fs_clock w).
Definition set_dirs v w :=
  mkWorld (fs_files w) v (fs_mtimes w) (fs_faults w) (fs_crashed w) (fs_clock w).

Definition ErrNotExist : error := ErrSentinel "file does not exist".
Definition ErrCrashed : error := ErrSentinel "process stopped".
Definition ErrNotEmpty : error := ErrSentinel "directory not empty".

(** The point where a call may fail. *)
Definition fault_point : M world unit := λ w,
  if fs_crashed w then (w, Err ErrCrashed)
  else match fs_faults w with
       | [] | NoFault :: _ =>
         (mkWorld (fs_files w) (fs_dirs w) (fs_mtimes w) (tail (fs_faults w)) false (fs_clock w),
          Ok tt)
       | Fault e :: rest =>
         (mkWorld (fs_files w) (fs_dirs w) (fs_mtimes w) rest false (fs_clock w), Err e)
       | Crash :: rest =>
         (mkWorld (fs_files w) (fs_dirs w) (fs_mtimes w) rest true (fs_clock w), Err ErrCrashed)
       end.

(** [filepath.Join(dir, name)] for clean elements, [filepath.Dir]. *)
Definition join_path (dir name : string) : string := dir +:+ "/" +:+ name.

Fixpoint last_slash (s : string) : option nat :=
  match s with
  | "" => None
  | String c s => match last_slash s with
                  | Some i => Some (S i)
                  | None => if Ascii.eqb c "/" then Some 0%nat else None
                  end
  end.

Definition path_dir (p : string) : string :=
  match last_slash p with
  | Some O => "/"
  | Some i => str_take i p
  | None => "."
  end.

(** The path and the directories above it. *)
Fixpoint ancestors (fuel : nat) (p : string) : list string :=
  match fuel with
  | O => [p]
  | S fuel => if String.eqb p "/" || String.eqb p "." then [p]
              else p :: ancestors fuel (path_dir p)
  end.

(** Is [p] below the directory [dir]? *)
Definition below (dir p : string) : bool := HasPrefix p (dir +:+ "/").

Section os.
Context `{!TempNames}.

Definition os_MkdirAll (p : string) : M world unit :=
  fault_point ;;
  modify (λ w, set_dirs (fs_dirs w ∪ list_to_set (ancestors (String.length p) p)) w).

(** [os.CreateTemp(dir, pattern)]: an empty file with a fresh name. *)
Definition os_CreateTemp (dir : string) : M world string :=
  fault_point ;;
  w ← get;
  if bool_decide (dir ∈ fs_dirs w) then
    let name := temp_name dir (dom (fs_files w)) in
    put (set_files (<[name := ""]> (fs_files w)) w) ;; mret name
  else throw ErrNotExist.

(** Writing to an open file: on a failure the file holds nothing of it (what a
    partial write leaves is never read: the file is removed or temporary). *)
Definition os_WriteFile (p content : string) : M world unit :=
  fault_point ;;
  modify (λ w, set_files (<[p := content]> (fs_files w)) w).

(** [file.Sync], [file.Close], and opening a directory: no effect but failure. *)
Definition os_Sync : M world unit := fault_point.
Definition os_Close : M world unit := fault_point.

Definition os_Rename (a b : string) : M world unit :=
  fault_point ;;
  w ← get;
  match fs_files w !! a with
  | None => throw ErrNotExist
  | Some content =>
    if bool_decide (path_dir b ∈ fs_dirs w)
    then put (set_files (<[b := content]> (delete a (fs_files w))) w)
    else throw ErrNotExist
  end.

Definition dir_empty (dir : string) (w : world) : bool :=
  List.forallb (λ p, negb (below dir p)) (elements (dom (fs_files w))) &&
  List.forallb (λ p, negb (below dir p)) (elements (fs_dirs w)).

(** [os.Remove]: a file, or an empty directory. *)
Definition os_Remove (p : string) : M world unit :=
  fault_point ;;
  w ← get;
  match fs_files w !! p with
  | Some _ => put (set_files (delete p (fs_files w)) w)
  | None =>
    if bool_decide (p ∈ fs_dirs w)
    then if dir_empty p w then put (set_dirs (fs_dirs w ∖ {[p]}) w) else throw ErrNotEmpty
    else throw ErrNotExist
  end.

(** [os.RemoveAll]: the path and everything below it; no error if absent. *)
Definition os_RemoveAll (p : string) : M world unit :=
  fault_point ;;
  modify (λ w, set_dirs (filter (λ q, q ≠ p ∧ below p q = false) (fs_dirs w))
    (set_files (filter (λ '(q, _), q ≠ p ∧ below p q = false) (fs_files w)) w)).

Definition os_ReadFile (p : string) : M world string :=
  fault_point ;;
  gets (λ w, match fs_files w !! p with Some c => Ok c | None => Err ErrNotExist end).

(** [os.Stat]: does the path exist? *)
Definition os_Stat (p : string) : M world unit :=
  fault_point ;;
  gets (λ w, if bool_decide (p ∈ fs_dirs w ∨ is_Some (fs_files w !! p))
             then Ok tt else Err ErrNotExist).

(** The name of [p] in [dir], when [p] is an entry of [dir] itself. *)
Definition entry_name (dir p : string) : option string :=
  if below dir p then
    let name := str_drop (String.length dir + 1) p in
    if Contains name "/" then None else Some name
  else None.

(** [os.ReadDir]: the names in the directory. *)
Definition os_ReadDir (dir : string) : M world (list string) :=
  fault_point ;;
  gets (λ w, if bool_decide (dir ∈ fs_dirs w)
    then Ok (omap (entry_name dir) (elements (dom (fs_files w) ∪ fs_dirs w)))
    else Err ErrNotExist).
End os.
