(* ===== verification/Blob.v ===== *)
(** * The blob store (src/internal/blob/store.go)

    Object bytes in files under sharded paths, written to a temporary file and
    renamed; multipart parts in a staging directory per upload.  An [io.Reader]
    is the bytes it delivers and the error it ends with, if any. *)
From S2P Require Import Prelude GoStrings Base64 FileSystem.

(** The digests of the standard library (crypto/sha256, sha1, md5, hash/crc32):
    the digest bytes of a text. *)
Class Hashes := {
  sha256_sum : string → string;
  sha1_sum : string → string;
  md5_sum : string → string;
  crc32_sum : string → string;
  crc32c_sum : string → string;
  sha256_length s : String.length (sha256_sum s) = 32%nat;
}.

(** [io.Reader] *)
Record reader := mkReader {
  rd_bytes : string;
  rd_error : option error;
}.

Definition bytes_reader (s : string) : reader := mkReader s None.

(** [io.MultiReader]: one after the other, up to the first error. *)
Fixpoint multi_reader (rs : list reader) : reader :=
  match rs with
  | [] => bytes_reader ""
  | r :: rs =>
    match rd_error r with
    | Some e => r
    | None => let m := multi_reader rs in mkReader (rd_bytes r +:+ rd_bytes m) (rd_error m)
    end
  end.

Inductive FsyncMode := FsyncStrict | FsyncSafe | FsyncFast.

(** [Config] with the defaults of [NewStore]; the mode is None when it is
    neither empty nor one of the three. *)
Record BlobConfig := mkBlobConfig {
  cfg_RootDir : string;
  cfg_FsyncMode : option FsyncMode;
  cfg_MultipartMaxAge : Z;
  cfg_CopyBufferSize : Z;
}.

Record ObjectRef := mkObjectRef {
  or_Bucket : string;
  or_Key : string;
  or_VersionID : string;
}.

Record ObjectMeta := mkObjectMeta {
  om_Ref : ObjectRef;
  om_Path : string;
  om_Size : Z;
  om_MD5Hex : string;
  om_SHA256 : string;
  om_SHA256B64 : string;
  om_SHA1B64 : string;
  om_CRC32B64 : string;
  om_CRC32CB64 : string;
  om_CreatedAt : Z;
}.

Record ByteRange := mkByteRange {
  br_Start : Z;
  br_End : Z;
}.

Record MultipartPartMeta := mkMultipartPartMeta {
  mm_UploadID : string;
  mm_PartNumber : Z;
  mm_Path : string;
  mm_Size : Z;
  mm_MD5Hex : string;
  mm_SHA256 : string;
  mm_SHA256B64 : string;
  mm_SHA1B64 : string;
  mm_CRC32B64 : string;
  mm_CRC32CB64 : string;
  mm_CreatedAt : Z;
}.

Record blobStore := mkBlobStore {
  bs_root : string;
  bs_objectsRoot : string;
  bs_tempRoot : string;
  bs_multipartRoot : string;
  bs_fsyncMode : FsyncMode;
  bs_multipartMaxAge : Z;
  bs_copyBufferSize : Z;
}.

Record RecoveryReport := mkRecoveryReport {
  rr_RemovedTempFiles : Z;
  rr_RemovedMultipartDir : Z;
}.

Definition str_len (s : string) : Z := Z.of_nat (String.length s).

(** [if err := m; err != nil { cleanup; return fmt.Errorf(msg, err) }] *)
Definition guard_io {S A} (m : M S A) (cleanup : M S unit) (msg : string) : M S A :=
  r ← try m;
  match r with
  | Ok a => mret a
  | Err e => ignore cleanup ;; throw (ErrWrap msg [] e)
  end.

Definition no_cleanup {S} : M S unit := mret tt.

(** [if err != nil && !os.IsNotExist(err)] *)
Definition not_exist_ok (m : M world unit) : M world unit :=
  r ← try m;
  match r with
  | Ok _ => mret tt
  | Err e => if errors_Is e ErrNotExist then mret tt else throw e
  end.

Section blob.
Context `{!Hashes} `{!TempNames}.

Definition digestHex (s : string) : string := hex_encode (sha256_sum s).

Definition nul_byte : string := String (ascii_of_nat 0) "".

(** [fmt.Sprintf(verb, n)] with the verb %06d, for n from 0 to 999999 and above. *)
Definition pad6 (n : Z) : string :=
  let s := FormatInt n in str_take (6 - String.length s) "000000" +:+ s.

Variable bs : blobStore.

Definition objectKeyDir (bucket key : string) : string :=
  let keyDigest := digestHex (bucket +:+ nul_byte +:+ key) in
  join_path (join_path (join_path (bs_objectsRoot bs) (str_take 2 keyDigest))
               (str_take 2 (str_drop 2 keyDigest))) keyDigest.

Definition ObjectPath (ref : ObjectRef) : string :=
  let version := if String.eqb (or_VersionID ref) "" then "null" else or_VersionID ref in
  join_path (objectKeyDir (or_Bucket ref) (or_Key ref)) (digestHex version +:+ ".obj").

Definition multipartUploadDir (uploadID : string) : string :=
  join_path (bs_multipartRoot bs) uploadID.

Definition multipartPartPath (uploadID : string) (partNumber : Z) : string :=
  join_path (multipartUploadDir uploadID) ("part-" +:+ pad6 partNumber +:+ ".bin").

Definition syncFile : M world unit :=
  match bs_fsyncMode bs with
  | FsyncFast => mret tt
  | _ => os_Sync
  end.

Definition syncParentDir (path : string) : M world unit :=
  match bs_fsyncMode bs with
  | FsyncStrict => os_Stat (path_dir path) ;; os_Sync
  | _ => mret tt
  end.

(** [s.now()] *)
Definition blob_now : M world Z := gets (λ w, Ok (fs_clock w)).

(** [io.CopyBuffer] into the temporary file: all bytes of the source, then its
    error. *)
Definition copy_to_file (path : string) (src : reader) : M world Z :=
  os_WriteFile path (rd_bytes src) ;;
  match rd_error src with
  | Some e => throw e
  | None => mret (str_len (rd_bytes src))
  end.

(** [cleanupTemp]: close, then remove. *)
Definition cleanup_temp (tmpPath : string) : M world unit :=
  ignore os_Close ;; ignore (os_Remove tmpPath).

Definition object_meta (ref : ObjectRef) (path : string) (content : string) (at_ : Z) : ObjectMeta :=
  mkObjectMeta ref path (str_len content) (hex_encode (md5_sum content))
    (hex_encode (sha256_sum content)) (b64_encode StdEncoding (sha256_sum content))
    (b64_encode StdEncoding (sha1_sum content)) (b64_encode StdEncoding (crc32_sum content))
    (b64_encode StdEncoding (crc32c_sum content)) at_.

Definition WriteObject (ref : ObjectRef) (src : reader) : M world ObjectMeta :=
  if String.eqb (or_Bucket ref) "" || String.eqb (or_Key ref) ""
  then throw (Errorf "bucket and key are required" [])
  else
    tmpPath ← guard_io (os_CreateTemp (bs_tempRoot bs)) no_cleanup "create temp file: %w";
    guard_io (copy_to_file tmpPath src) (cleanup_temp tmpPath) "stream object write: %w" ;;
    guard_io syncFile (cleanup_temp tmpPath) "sync temp file: %w" ;;
    guard_io os_Close (cleanup_temp tmpPath) "close temp file: %w" ;;
    let finalPath := ObjectPath ref in
    guard_io (os_MkdirAll (path_dir finalPath)) (cleanup_temp tmpPath)
      "create object directory: %w" ;;
    guard_io (os_Rename tmpPath finalPath) (cleanup_temp tmpPath)
      "commit object atomically: %w" ;;
    guard_io (syncParentDir finalPath) no_cleanup "sync parent directory: %w" ;;
    at_ ← blob_now;
    mret (object_meta ref finalPath (rd_bytes src) at_).

(** The bytes of a file from [start] to [end] inclusive. *)
Definition section_of (content : string) (start end_ : Z) : string :=
  str_take (Z.to_nat (end_ - start + 1)) (str_drop (Z.to_nat start) content).

(** [ReadObject] writes to [dst]: the bytes written and the error.  A failure
    while streaming writes none of them. *)
Definition ReadObject (path : string) (br : option ByteRange) : M world (string * option error) :=
  f ← try (os_ReadFile path);
  match f with
  | Err e => mret ("", Some (ErrWrap "open object: %w" [] e))
  | Ok content =>
    s ← try fault_point;
    match s with
    | Err e => mret ("", Some (ErrWrap "stat object: %w" [] e))
    | Ok _ =>
      let size := str_len content in
      let '(start, end_) :=
        match br with Some r => (br_Start r, br_End r) | None => (0, size - 1) end in
      if (start <? 0) || (end_ <? start) || (size <=? end_)
      then mret ("", Some (Errorf "invalid range %d-%d for size %d"
                             [FormatInt start; FormatInt end_; FormatInt size]))
      else
        c ← try fault_point;
        match c with
        | Err e => mret ("", Some (ErrWrap "stream object read: %w" [] e))
        | Ok _ => mret (section_of content start end_, None)
        end
    end
  end.

(** [for { if current == objectsRoot || ... { return }; if os.Remove(current) != nil
    { return }; current = filepath.Dir(current) }]; every round shortens the path. *)
Fixpoint cleanup_dirs (fuel : nat) (current : string) : M world unit :=
  match fuel with
  | O => mret tt
  | S fuel =>
    if String.eqb current (bs_objectsRoot bs) || String.eqb current "." || String.eqb current "/"
    then mret tt
    else
      r ← try (os_Remove current);
      match r with
      | Err _ => mret tt
      | Ok _ => cleanup_dirs fuel (path_dir current)
      end
  end.

Definition cleanupObjectDirs (startDir : string) : M world unit :=
  cleanup_dirs (S (String.length startDir)) startDir.

(** [for _, e := range entries]: directories are skipped. *)
Definition remove_version_file (keyDir name : string) : M world unit :=
  w ← get;
  if bool_decide (join_path keyDir name ∈ fs_dirs w) then mret tt
  else guard_io (not_exist_ok (os_Remove (join_path keyDir name))) no_cleanup
         "delete version file: %w".

Definition blob_DeleteObject (ref : ObjectRef) (versioned : bool) : M world unit :=
  if versioned then
    let path := ObjectPath ref in
    guard_io (not_exist_ok (os_Remove path)) no_cleanup "delete versioned object: %w" ;;
    cleanupObjectDirs (path_dir path)
  else
    let keyDir := objectKeyDir (or_Bucket ref) (or_Key ref) in
    r ← try (os_ReadDir keyDir);
    match r with
    | Err e => if errors_Is e ErrNotExist then mret tt
               else throw (ErrWrap "list key versions: %w" [] e)
    | Ok entries =>
      forM entries (remove_version_file keyDir) ;;
      cleanupObjectDirs keyDir
    end.

Definition blob_CreateMultipartUpload (uploadID : string) : M world unit :=
  if String.eqb (TrimSpace uploadID) "" then throw (Errorf "upload id is required" [])
  else os_MkdirAll (multipartUploadDir uploadID).

Definition part_meta (uploadID : string) (partNumber : Z) (path content : string) (at_ : Z)
    : MultipartPartMeta :=
  mkMultipartPartMeta uploadID partNumber path (str_len content) (hex_encode (md5_sum content))
    (hex_encode (sha256_sum content)) (b64_encode StdEncoding (sha256_sum content))
    (b64_encode StdEncoding (sha1_sum content)) (b64_encode StdEncoding (crc32_sum content))
    (b64_encode StdEncoding (crc32c_sum content)) at_.

Definition WriteMultipartPart (uploadID : string) (partNumber : Z) (src : reader)
    : M world MultipartPartMeta :=
  if partNumber <=? 0 then throw (Errorf "part number must be positive" [])
  else
    blob_CreateMultipartUpload uploadID ;;
    tmpPath ← guard_io (os_CreateTemp (bs_tempRoot bs)) no_cleanup "create temp part file: %w";
    guard_io (copy_to_file tmpPath src) (cleanup_temp tmpPath)
      "stream multipart part write: %w" ;;
    guard_io syncFile (cleanup_temp tmpPath) "sync multipart temp file: %w" ;;
    guard_io os_Close (cleanup_temp tmpPath) "close multipart temp file: %w" ;;
    let finalPath := multipartPartPath uploadID partNumber in
    guard_io (os_Rename tmpPath finalPath) (cleanup_temp tmpPath)
      "commit multipart part atomically: %w" ;;
    guard_io (syncParentDir finalPath) no_cleanup "sync multipart part directory: %w" ;;
    at_ ← blob_now;
    mret (part_meta uploadID partNumber finalPath (rd_bytes src) at_).

Definition blob_AbortMultipartUpload (uploadID : string) : M world unit :=
  guard_io (os_RemoveAll (multipartUploadDir uploadID)) no_cleanup
    "remove multipart upload staging: %w".

(** Opening the parts: all of them, or the first failure.  An open file keeps its
    bytes until it is closed. *)
Fixpoint open_parts (uploadID : string) (partNumbers : list Z) : M world (list reader) :=
  match partNumbers with
  | [] => mret []
  | partNumber :: rest =>
    content ← guard_io (os_ReadFile (multipartPartPath uploadID partNumber)) no_cleanup
                "open multipart part %d: %w";
    readers ← open_parts uploadID rest;
    mret (bytes_reader content :: readers)
  end.

Definition CompleteMultipartUploadWithWriter (uploadID : string) (partNumbers : list Z)
    (write : reader → M world ObjectMeta) : M world ObjectMeta :=
  match partNumbers with
  | [] => throw (Errorf "at least one part is required" [])
  | _ =>
    readers ← open_parts uploadID partNumbers;
    meta ← write (multi_reader readers);
    blob_AbortMultipartUpload uploadID ;;
    mret meta
  end.

Definition CompleteMultipartUpload (uploadID : string) (partNumbers : list Z) (dst : ObjectRef)
    : M world ObjectMeta :=
  CompleteMultipartUploadWithWriter uploadID partNumbers (λ src, WriteObject dst src).

Definition PromoteMultipartPart (uploadID : string) (partNumber : Z) (dst : ObjectRef)
    (part : MultipartPartMeta) : M world ObjectMeta :=
  let srcPath := multipartPartPath uploadID partNumber in
  let finalPath := ObjectPath dst in
  guard_io (os_MkdirAll (path_dir finalPath)) no_cleanup "create object directory: %w" ;;
  guard_io (os_Rename srcPath finalPath) no_cleanup "promote multipart part: %w" ;;
  guard_io (syncParentDir finalPath) no_cleanup "sync promoted object directory: %w" ;;
  guard_io (os_RemoveAll (multipartUploadDir uploadID)) no_cleanup
    "remove multipart upload staging: %w" ;;
  now ← blob_now;
  let createdAt := if mm_CreatedAt part =? -62135596800000000000 then now else mm_CreatedAt part in
  mret (mkObjectMeta dst finalPath (mm_Size part) (mm_MD5Hex part) (mm_SHA256 part)
          (mm_SHA256B64 part) (mm_SHA1B64 part) (mm_CRC32B64 part) (mm_CRC32CB64 part) createdAt).

(** [Recover]: the loop over the temporary entries, the one over the uploads. *)
Fixpoint remove_temp_entries (names : list string) (report : RecoveryReport)
    : M world RecoveryReport :=
  match names with
  | [] => mret report
  | name :: names =>
    guard_io (os_RemoveAll (join_path (bs_tempRoot bs) name)) no_cleanup
      "remove temp entry %q: %w" ;;
    remove_temp_entries names
      (mkRecoveryReport (rr_RemovedTempFiles report + 1) (rr_RemovedMultipartDir report))
  end.

Fixpoint remove_stale_uploads (now : Z) (names : list string) (report : RecoveryReport)
    : M world RecoveryReport :=
  match names with
  | [] => mret report
  | name :: names =>
    let path := join_path (bs_multipartRoot bs) name in
    guard_io fault_point no_cleanup "stat multipart entry %q: %w" ;;
    modTime ← gets (λ w, Ok (default 0 (fs_mtimes w !! path)));
    if saturate64 (now - modTime) <=? bs_multipartMaxAge bs
    then remove_stale_uploads now names report
    else
      guard_io (os_RemoveAll path) no_cleanup "remove stale multipart %q: %w" ;;
      remove_stale_uploads now names
        (mkRecoveryReport (rr_RemovedTempFiles report) (rr_RemovedMultipartDir report + 1))
  end.

Definition Recover : M world RecoveryReport :=
  tempEntries ← guard_io (os_ReadDir (bs_tempRoot bs)) no_cleanup "read temp root: %w";
  report ← remove_temp_entries tempEntries (mkRecoveryReport 0 0);
  now ← blob_now;
  multipartEntries ← guard_io (os_ReadDir (bs_multipartRoot bs)) no_cleanup
                       "read multipart root: %w";
  remove_stale_uploads now multipartEntries report.

Definition RemoveStaleMultipartUploads : M world Z :=
  report ← Recover;
  mret (rr_RemovedMultipartDir report).

Definition HealthCheck : M world unit :=
  forM [bs_root bs; bs_objectsRoot bs; bs_tempRoot bs; bs_multipartRoot bs]
    (λ p, guard_io (os_Stat p) no_cleanup "stat %s: %w").
End blob.

Definition defaultMultipartMaxAge : Z := 86400000000000.
Definition defaultCopyBufferSize : Z := 1048576.

Definition NewBlobStore `{!TempNames} (cfg : BlobConfig) : M world blobStore :=
  if String.eqb (TrimSpace (cfg_RootDir cfg)) "" then throw (Errorf "root dir is required" [])
  else match cfg_FsyncMode cfg with
  | None => throw (Errorf "invalid fsync mode %q" [])
  | Some mode =>
    let root := cfg_RootDir cfg in
    let s := mkBlobStore root (join_path root "objects") (join_path root "tmp")
      (join_path root "multipart") mode
      (if cfg_MultipartMaxAge cfg <=? 0 then defaultMultipartMaxAge else cfg_MultipartMaxAge cfg)
      (if cfg_CopyBufferSize cfg <=? 0 then defaultCopyBufferSize else cfg_CopyBufferSize cfg) in
    guard_io (os_MkdirAll (bs_objectsRoot s)) no_cleanup "create objects root: %w" ;;
    guard_io (os_MkdirAll (bs_tempRoot s)) no_cleanup "create temp root: %w" ;;
    guard_io (os_MkdirAll (bs_multipartRoot s)) no_cleanup "create multipart root: %w" ;;
    Recover s ;;
    mret s
  end.
