(* ===== verification/BlobFacts.v ===== *)
(** * Properties of the blob store

    A small program logic over the schedules of faults, the atomicity of object
    writes, reading back, recovery, and the assembly of multipart uploads. *)
From S2P Require Import Prelude GoStrings StringFacts Base64 FileSystem Blob.

(** ** Triples over every schedule of faults *)
Definition hoare {A} (P : world → Prop) (m : M world A) (Q : result A → world → Prop) : Prop :=
  ∀ w, P w → Q (m w).2 (m w).1.

Section hoare_rules.
Context {A B : Type}.
Implicit Types (P : world → Prop).

Lemma hoare_conseq P P' (m : M world A) (Q Q' : result A → world → Prop) :
  hoare P' m Q' → (∀ w, P w → P' w) → (∀ r w, Q' r w → Q r w) → hoare P m Q.
Proof. intros Hm HP HQ w Hw. apply HQ, Hm, HP, Hw. Qed.

Lemma hoare_ret P (a : A) (Q : result A → world → Prop) :
  (∀ w, P w → Q (Ok a) w) → hoare P (mret a) Q.
Proof. intros HQ w Hw. by apply HQ. Qed.

Lemma hoare_throw P e (Q : result A → world → Prop) :
  (∀ w, P w → Q (Err e) w) → hoare P (throw e) Q.
Proof. intros HQ w Hw. by apply HQ. Qed.

Lemma hoare_bind P (m : M world A) (f : A → M world B) R (Q : result B → world → Prop) :
  hoare P m R → (∀ a, hoare (R (Ok a)) (f a) Q) → (∀ e w, R (Err e) w → Q (Err e) w) →
  hoare P (mbind f m) Q.
Proof.
  intros Hm Hf He w Hw. specialize (Hm w Hw). unfold mbind, M_bind.
  destruct (m w) as [w' [a|e]]; simpl in *; [by apply Hf | by apply He].
Qed.

Lemma hoare_try P (m : M world A) R (Q : result (result A) → world → Prop) :
  hoare P m R → (∀ r w, R r w → Q (Ok r) w) → hoare P (try m) Q.
Proof.
  intros Hm HQ w Hw. specialize (Hm w Hw). unfold try. destruct (m w) as [w' r]. by apply HQ.
Qed.

Lemma hoare_ignore P (m : M world A) R (Q : result unit → world → Prop) :
  hoare P m R → (∀ r w, R r w → Q (Ok tt) w) → hoare P (ignore m) Q.
Proof. intros Hm HQ w Hw. by eapply HQ, Hm. Qed.

End hoare_rules.

(** [if err != nil { cleanup; return err }] with a cleanup that keeps the
    postcondition of the failure. *)
Lemma hoare_guard {A} P (m : M world A) cleanup msg R (Q : result A → world → Prop) :
  hoare P m R → (∀ a w, R (Ok a) w → Q (Ok a) w) →
  (∀ e, hoare (R (Err e)) cleanup (λ _ w, ∀ e', Q (Err e') w)) →
  hoare P (guard_io m cleanup msg) Q.
Proof.
  intros Hm Hok Hc. unfold guard_io. eapply hoare_bind.
  - eapply (hoare_try _ _ _ (λ r w, ∃ r', r = Ok r' ∧ R r' w)); [exact Hm|]. eauto.
  - intros [a|e].
    + apply hoare_ret. intros w (r' & [= <-] & Hr). by apply Hok.
    + apply (hoare_bind _ _ _ (λ r w, r = Ok tt ∧ ∀ e', Q (Err e') w)).
      * eapply hoare_ignore; [eapply hoare_conseq; [apply (Hc e)| |]|].
        -- intros w (r' & [= <-] & Hr). exact Hr.
        -- intros r w Hq. exact Hq.
        -- simpl. auto.
      * intros []. apply hoare_throw. intros w [_ Hq]. apply Hq.
      * naive_solver.
  - by intros e w (r' & ? & _).
Qed.

Lemma hoare_conj {A} P (m : M world A) Q1 Q2 :
  hoare P m Q1 → hoare P m Q2 → hoare P m (λ r w, Q1 r w ∧ Q2 r w).
Proof. intros H1 H2 w Hw. split; [by apply H1 | by apply H2]. Qed.

(** ** The files only *)
Abbreviation files := (gmap string string).
Definition fhoare {A} (P : files → Prop) (m : M world A) (Q : result A → files → Prop) : Prop :=
  hoare (λ w, P (fs_files w)) m (λ r w, Q r (fs_files w)).

(** A call that changes no file, whatever it returns. *)
Definition silent {A} (m : M world A) : Prop := ∀ w, fs_files (m w).1 = fs_files w.

Lemma silent_fhoare {A} (m : M world A) P : silent m → fhoare P m (λ _, P).
Proof. intros Hm w Hw. simpl. by rewrite Hm. Qed.

Lemma silent_bind {A B} (m : M world A) (f : A → M world B) :
  silent m → (∀ a, silent (f a)) → silent (mbind f m).
Proof.
  intros Hm Hf w. unfold mbind, M_bind. specialize (Hm w). destruct (m w) as [w' [a|e]]; simpl in *.
  - by rewrite Hf. - done.
Qed.

Lemma silent_ret {A} (a : A) : silent (mret a : M world A).
Proof. by intros w. Qed.
Lemma silent_throw {A} e : silent (throw e : M world A).
Proof. by intros w. Qed.
Lemma silent_gets {A} (f : world → result A) : silent (gets f).
Proof. by intros w. Qed.
Lemma silent_get : silent get.
Proof. by intros w. Qed.
Lemma silent_try {A} (m : M world A) : silent m → silent (try m).
Proof. intros Hm w. unfold try. specialize (Hm w). by destruct (m w). Qed.
Lemma silent_ignore {A} (m : M world A) : silent m → silent (ignore m).
Proof. intros Hm w. exact (Hm w). Qed.

Lemma silent_fault_point : silent fault_point.
Proof.
  intros w. unfold fault_point. destruct (fs_crashed w); [done|].
  by destruct (fs_faults w) as [|[]].
Qed.

Lemma silent_guard {A} (m : M world A) cleanup msg :
  silent m → silent cleanup → silent (guard_io m cleanup msg).
Proof.
  intros Hm Hc. unfold guard_io. apply silent_bind; [by apply silent_try|].
  intros [a|e]; [apply silent_ret|]. apply silent_bind; [by apply silent_ignore|].
  intros _. apply silent_throw.
Qed.

Create HintDb silent.
#[export] Hint Resolve silent_ret silent_throw silent_gets silent_get silent_try silent_ignore
  silent_fault_point silent_bind silent_guard : silent.

Section blob_facts.
Context `{!Hashes} `{!TempNames}.

Lemma silent_MkdirAll p : silent (os_MkdirAll p).
Proof. apply silent_bind; [auto with silent|]. by intros _ w. Qed.
Lemma silent_ReadFile p : silent (os_ReadFile p).
Proof. unfold os_ReadFile. auto with silent. Qed.
Lemma silent_Stat p : silent (os_Stat p).
Proof. unfold os_Stat. auto with silent. Qed.
Lemma silent_ReadDir p : silent (os_ReadDir p).
Proof. unfold os_ReadDir. auto with silent. Qed.
Lemma silent_no_cleanup : silent (no_cleanup : M world unit).
Proof. apply silent_ret. Qed.
Lemma silent_syncFile bs : silent (syncFile bs).
Proof. unfold syncFile, os_Sync. destruct (bs_fsyncMode bs); auto with silent. Qed.
Lemma silent_blob_now : silent blob_now.
Proof. unfold blob_now. auto with silent. Qed.
#[local] Hint Resolve silent_MkdirAll silent_ReadFile silent_Stat silent_ReadDir
  silent_no_cleanup silent_syncFile silent_blob_now : silent.
Lemma silent_syncParentDir bs p : silent (syncParentDir bs p).
Proof. unfold syncParentDir, os_Sync. destruct (bs_fsyncMode bs); auto with silent. Qed.
#[local] Hint Resolve silent_syncParentDir : silent.

(** A silent step that either goes on or fails with a cleanup. *)
Lemma fhoare_guard_silent {A} P (m : M world A) cleanup msg (Q : result A → files → Prop) :
  silent m → (∀ a F, P F → Q (Ok a) F) → fhoare P cleanup (λ _ F, ∀ e, Q (Err e) F) →
  fhoare P (guard_io m cleanup msg) Q.
Proof.
  intros Hm Hok Hc. apply (hoare_guard _ _ _ _ (λ _ w, P (fs_files w)));
    [by apply (silent_fhoare _ P)| |].
  - intros a w. apply Hok.
  - intros e. exact Hc.
Qed.

Lemma fhoare_fault P (m : M world unit) (Q : result unit → files → Prop) :
  (∀ w, P (fs_files w) → Q (m w).2 (fs_files (m w).1)) →
  (∀ e F, P F → Q (Err e) F) → fhoare P (fault_point ;; m) Q.
Proof.
  intros Hm He. apply (hoare_bind _ _ _ (λ _ w, P (fs_files w)));
    [apply (silent_fhoare _ P), silent_fault_point| |].
  - intros _ w Hw. by apply Hm.
  - intros e w Hw. by apply He.
Qed.

(** The temporary file: absent before, below the temporary directory. *)
Definition temp_file (bs : blobStore) (F0 : files) (tmp : string) : Prop :=
  F0 !! tmp = None ∧ below (bs_tempRoot bs) tmp = true.

Lemma create_temp_spec bs F0 :
  fhoare (λ F, F = F0) (os_CreateTemp (bs_tempRoot bs)) (λ r F,
    match r with
    | Ok tmp => temp_file bs F0 tmp ∧ F = <[tmp := ""]> F0
    | Err _ => F = F0
    end).
Proof.
  unfold os_CreateTemp. apply (hoare_bind _ _ _ (λ _ w, fs_files w = F0));
    [apply (silent_fhoare _ (λ F, F = F0)), silent_fault_point| |done].
  intros _ w Hw. simpl. unfold mbind, M_bind, get. case_bool_decide; simpl; [|done].
  rewrite <-Hw. split; [split|done].
  - apply not_elem_of_dom. apply temp_name_fresh.
  - unfold below. apply temp_name_below.
Qed.

Lemma copy_to_file_spec tmp src F0 :
  fhoare (λ F, F = <[tmp := ""]> F0) (copy_to_file tmp src) (λ r F,
    match r with
    | Ok n => F = <[tmp := rd_bytes src]> F0 ∧ rd_error src = None ∧ n = str_len (rd_bytes src)
    | Err _ => ∃ x, F = <[tmp := x]> F0
    end).
Proof.
  unfold copy_to_file. apply (hoare_bind _ _ _ (λ r w,
    match r with
    | Ok _ => fs_files w = <[tmp := rd_bytes src]> F0
    | Err _ => ∃ x, fs_files w = <[tmp := x]> F0
    end)).
  - apply (fhoare_fault (λ F, F = <[tmp := ""]> F0) _ (λ r F, match r with
      | Ok _ => F = <[tmp := rd_bytes src]> F0 | Err _ => ∃ x, F = <[tmp := x]> F0 end));
      simpl; [|by eauto]. intros w Hw. simpl. by rewrite Hw, insert_insert_eq.
  - intros []. destruct (rd_error src); [apply hoare_throw|apply hoare_ret]; eauto.
  - done.
Qed.

Lemma cleanup_temp_spec bs tmp x F0 :
  temp_file bs F0 tmp →
  fhoare (λ F, F = <[tmp := x]> F0) (cleanup_temp tmp) (λ _ F, F = F0 ∨ F = <[tmp := x]> F0).
Proof.
  intros [Hn _]. unfold cleanup_temp. apply (hoare_bind _ _ _ (λ _ w, fs_files w = <[tmp := x]> F0)).
  - apply (silent_fhoare _ (λ F, F = <[tmp := x]> F0)). unfold os_Close. auto with silent.
  - intros _. eapply (hoare_ignore _ _ (λ _ w, fs_files w = F0 ∨ fs_files w = <[tmp := x]> F0));
      [|intros r w Hr; exact Hr].
    apply (fhoare_fault (λ F, F = <[tmp := x]> F0) _ (λ _ F, F = F0 ∨ F = <[tmp := x]> F0)); [|by auto].
    intros w Hw. simpl. unfold mbind, M_bind, get.
    rewrite Hw, lookup_insert_eq. simpl. left. by rewrite delete_insert_id.
  - auto.
Qed.

(** What a failed write may leave: nothing, or a temporary file. *)
Definition temp_only (bs : blobStore) (F0 F : files) : Prop :=
  F = F0 ∨ ∃ tmp x, temp_file bs F0 tmp ∧ F = <[tmp := x]> F0.

Lemma cleanup_temp_only bs tmp x F0 :
  temp_file bs F0 tmp →
  fhoare (λ F, F = <[tmp := x]> F0) (cleanup_temp tmp) (λ _ F, temp_only bs F0 F).
Proof.
  intros Ht. eapply hoare_conseq; [by apply (cleanup_temp_spec bs tmp x F0)|done|].
  intros r w [?|?]; [by left|]. right. eauto.
Qed.

Lemma rename_spec bs tmp final content F0 :
  temp_file bs F0 tmp → final ≠ tmp →
  fhoare (λ F, F = <[tmp := content]> F0) (os_Rename tmp final) (λ r F,
    match r with
    | Ok _ => F = <[final := content]> F0
    | Err _ => F = <[tmp := content]> F0
    end).
Proof.
  intros [Hn _] Hne. unfold os_Rename.
  apply (fhoare_fault (λ F, F = <[tmp := content]> F0) _ (λ r F,
    match r with Ok _ => F = <[final := content]> F0 | Err _ => F = <[tmp := content]> F0 end)); [|done].
  intros w Hw. simpl. unfold mbind, M_bind, get. rewrite Hw, lookup_insert_eq.
  case_bool_decide; simpl; [|done]. by rewrite delete_insert_id.
Qed.

(** The final path of an object is not below the temporary directory. *)
Definition roots_apart (bs : blobStore) : Prop :=
  ∀ t, below (bs_tempRoot bs) (bs_objectsRoot bs +:+ t) = false ∧
       below (bs_tempRoot bs) (bs_multipartRoot bs +:+ "/" +:+ t) = false.

Lemma join_path_below a b t : join_path (a +:+ t) b = a +:+ (t +:+ "/" +:+ b).
Proof. unfold join_path. by rewrite str_app_assoc. Qed.

Lemma objectKeyDir_below bs bucket key :
  ∃ t, objectKeyDir bs bucket key = bs_objectsRoot bs +:+ t.
Proof.
  unfold objectKeyDir. set (k := digestHex _). unfold join_path at 3.
  rewrite !join_path_below. eauto.
Qed.

Lemma ObjectPath_below bs ref : ∃ t, ObjectPath bs ref = bs_objectsRoot bs +:+ t.
Proof.
  unfold ObjectPath. destruct (objectKeyDir_below bs (or_Bucket ref) (or_Key ref)) as [t ->].
  rewrite join_path_below. eauto.
Qed.

Lemma ObjectPath_not_temp bs ref F0 tmp :
  roots_apart bs → temp_file bs F0 tmp → ObjectPath bs ref ≠ tmp.
Proof.
  intros Hr [_ Ht] E. destruct (ObjectPath_below bs ref) as [t Hp].
  rewrite <-E, Hp in Ht. by rewrite (proj1 (Hr t)) in Ht.
Qed.

Lemma fhoare_bind {A B} P (m : M world A) (f : A → M world B) (R : result A → files → Prop)
    (Q : result B → files → Prop) :
  fhoare P m R → (∀ a, fhoare (R (Ok a)) (f a) Q) → (∀ e F, R (Err e) F → Q (Err e) F) →
  fhoare P (mbind f m) Q.
Proof. intros Hm Hf He. eapply hoare_bind; [exact Hm|exact Hf|]. intros e w. apply He. Qed.

Lemma fhoare_pure {A} (φ : Prop) P (m : M world A) Q :
  (φ → fhoare P m Q) → fhoare (λ F, φ ∧ P F) m Q.
Proof. intros Hm w [Hφ Hw]. by apply Hm. Qed.

(** A step of the write that only concerns the temporary file. *)
Lemma guard_temp_step {A} bs tmp content F0 (m : M world A) msg
    (Q : result A → files → Prop) :
  temp_file bs F0 tmp → silent m →
  (∀ a, Q (Ok a) (<[tmp := content]> F0)) → (∀ e F, temp_only bs F0 F → Q (Err e) F) →
  fhoare (λ F, F = <[tmp := content]> F0) (guard_io m (cleanup_temp tmp) msg) Q.
Proof.
  intros Ht Hs Hok He. apply fhoare_guard_silent; [done|by intros a F ->|].
  eapply hoare_conseq; [by apply (cleanup_temp_only bs tmp content F0)|done|].
  intros r w Hw e. by apply He.
Qed.

(** The outcome of [WriteObject] on the files. *)
Definition write_outcome (bs : blobStore) (path : string) (src : reader) (F0 F : files)
    (failed : bool) : Prop :=
  if failed then temp_only bs F0 F ∨ (F = <[path := rd_bytes src]> F0 ∧ rd_error src = None)
  else F = <[path := rd_bytes src]> F0 ∧ rd_error src = None.

Lemma WriteObject_spec bs ref src F0 :
  roots_apart bs →
  fhoare (λ F, F = F0) (WriteObject bs ref src) (λ r F,
    write_outcome bs (ObjectPath bs ref) src F0 F (negb (is_ok r)) ∧
    (∀ meta, r = Ok meta →
       ∃ at_, meta = object_meta ref (ObjectPath bs ref) (rd_bytes src) at_)).
Proof.
  intros Hr. unfold WriteObject. destruct (_ || _).
  { apply hoare_throw. intros w ->. split; [by left; left|done]. }
  set (post := λ (r : result ObjectMeta) (F : files), _).
  assert (∀ e F, temp_only bs F0 F → post (Err e) F) as Hfail.
  { intros e F HF. split; [by left|done]. }
  apply (fhoare_bind _ _ _ (λ r F, match r with
    | Ok tmp => temp_file bs F0 tmp ∧ F = <[tmp := ""]> F0 | Err _ => F = F0 end)).
  { eapply hoare_guard; [apply (create_temp_spec bs F0)|done|].
    intros e. apply hoare_ret. simpl. auto. }
  2:{ intros e F ->. apply Hfail. by left. }
  intros tmp. apply fhoare_pure. intros Ht.
  apply (fhoare_bind _ _ _ (λ r F, match r with
    | Ok _ => rd_error src = None ∧ F = <[tmp := rd_bytes src]> F0
    | Err _ => temp_only bs F0 F end)); [| |by auto].
  { eapply hoare_guard; [apply (copy_to_file_spec tmp src F0)|naive_solver|].
    intros e w (x & Hx). pose proof (cleanup_temp_only bs tmp x F0 Ht w Hx) as Hc. simpl in *. auto. }
  intros n. apply fhoare_pure. intros Hsrc.
  set (held := rd_bytes src) in *.
  do 3 (apply (fhoare_bind _ _ _ (λ r F, match r with
      | Ok _ => F = <[tmp := held]> F0 | Err _ => temp_only bs F0 F end));
    [apply (guard_temp_step bs); unfold os_Close; auto with silent|intros _|by auto]).
  apply (fhoare_bind _ _ _ (λ r F, match r with
    | Ok _ => F = <[ObjectPath bs ref := held]> F0 | Err _ => temp_only bs F0 F end)); [| |by auto].
  { eapply hoare_guard.
    - apply (rename_spec bs tmp (ObjectPath bs ref) held F0); [done|]. by eapply ObjectPath_not_temp.
    - done.
    - intros e. eapply hoare_conseq; [by apply (cleanup_temp_only bs tmp held F0)|done|]. auto. }
  intros _. apply (fhoare_bind _ _ _ (λ r F, F = <[ObjectPath bs ref := held]> F0)).
  - apply fhoare_guard_silent; [auto with silent|done|]. apply hoare_ret. auto.
  - intros _. apply (fhoare_bind _ _ _ (λ r F, F = <[ObjectPath bs ref := held]> F0)).
    + apply (silent_fhoare _ (λ F, F = <[ObjectPath bs ref := held]> F0)). auto with silent.
    + intros at_. apply hoare_ret. intros w Hw. split; [done|]. intros meta [= <-]. by exists at_.
    + intros e F HF. split; [by right|done].
  - intros e F HF. split; [by right|done].
Qed.

(** ** Reading *)
Definition range_of (br : option ByteRange) (content : string) : Z * Z :=
  match br with Some r => (br_Start r, br_End r) | None => (0, str_len content - 1) end.

Definition range_valid (br : option ByteRange) (content : string) : Prop :=
  let '(start, end_) := range_of br content in 0 ≤ start ∧ start ≤ end_ ∧ end_ < str_len content.

(** A world in which no call fails any more. *)
Definition healthy (w : world) : Prop := fs_faults w = [] ∧ fs_crashed w = false.

Lemma fault_point_healthy w : healthy w → fault_point w = (w, Ok tt).
Proof. destruct w as [f d t fl c k]. intros [Hf Hc]. simpl in *. by subst. Qed.

Lemma silent_ReadObject path br : silent (ReadObject path br).
Proof.
  unfold ReadObject. apply silent_bind; [auto with silent|]. intros [content|e]; [|auto with silent].
  apply silent_bind; [auto with silent|]. intros [[]|e]; [|auto with silent].
  destruct (match br with Some r => _ | None => _ end) as [start end_].
  destruct (_ || _); [auto with silent|]. apply silent_bind; [auto with silent|].
  intros [[]|e]; auto with silent.
Qed.

Lemma range_test start end_ size :
  (start <? 0) || (end_ <? start) || (size <=? end_) = false ↔
  0 ≤ start ∧ start ≤ end_ ∧ end_ < size.
Proof. rewrite !orb_false_iff, !Z.ltb_ge, Z.leb_gt. lia. Qed.

Lemma ReadObject_healthy path br w content :
  healthy w → fs_files w !! path = Some content →
  ReadObject path br w =
  (w, Ok (let '(start, end_) := range_of br content in
    if (start <? 0) || (end_ <? start) || (str_len content <=? end_)
    then ("", Some (Errorf "invalid range %d-%d for size %d"
                      [FormatInt start; FormatInt end_; FormatInt (str_len content)]))
    else (section_of content start end_, None))).
Proof.
  intros Hh Hf. unfold ReadObject, os_ReadFile, range_of, mbind, M_bind, try, gets.
  rewrite fault_point_healthy by done. rewrite Hf. rewrite fault_point_healthy by done.
  destruct br as [r|]; simpl.
  - destruct (_ || _); [done|]. by rewrite fault_point_healthy.
  - destruct (_ || _); [done|]. by rewrite fault_point_healthy.
Qed.

(** Whatever the schedule, what [ReadObject] delivers without an error is the
    requested section of the file. *)
Lemma ReadObject_sound path br w w' out :
  ReadObject path br w = (w', Ok (out, None)) →
  ∃ content, fs_files w !! path = Some content ∧ range_valid br content ∧
    out = section_of content (range_of br content).1 (range_of br content).2.
Proof.
  unfold ReadObject, os_ReadFile, mbind, M_bind, try, gets.
  pose proof (silent_fault_point w) as Hs. destruct (fault_point w) as [w1 [[]|e]]; [|done].
  simpl in Hs. rewrite Hs. destruct (fs_files w !! path) as [content|]; [|done].
  destruct (fault_point w1) as [w2 [[]|e]]; [|done].
  intros Hrun. exists content. split; [done|]. unfold range_valid, range_of.
  destruct br as [r|]; cbv beta iota zeta in *.
  all: match type of Hrun with (if ?b then _ else _) _ = _ => destruct b eqn:E end; [done|];
    apply range_test in E; destruct (fault_point w2) as [w3 [[]|e]]; [|done]; injection Hrun as <- <-; exact (conj E eq_refl).
Qed.

(** ** Removing *)
Definition keeps_long (n : nat) {A} (m : M world A) : Prop :=
  ∀ w q, (n < String.length q)%nat → fs_files (m w).1 !! q = fs_files w !! q.

Lemma keeps_long_bind n {A B} (m : M world A) (f : A → M world B) :
  keeps_long n m → (∀ a, keeps_long n (f a)) → keeps_long n (mbind f m).
Proof.
  intros Hm Hf w q Hq. specialize (Hm w q Hq). unfold mbind, M_bind.
  destruct (m w) as [w' [a|e]]; simpl in *; [|done]. by rewrite (Hf a w' q Hq).
Qed.

Lemma keeps_long_try n {A} (m : M world A) : keeps_long n m → keeps_long n (try m).
Proof. intros Hm w q Hq. specialize (Hm w q Hq). unfold try. by destruct (m w). Qed.

Lemma os_Remove_other p w q : p ≠ q → fs_files (os_Remove p w).1 !! q = fs_files w !! q.
Proof.
  intros Hne. unfold os_Remove, mbind, M_bind, get. pose proof (silent_fault_point w) as Hs.
  destruct (fault_point w) as [w1 [[]|e]]; simpl in *; rewrite <-Hs; [|done].
  destruct (fs_files w1 !! p) eqn:E; simpl; [by rewrite lookup_delete_ne|].
  case_bool_decide; [destruct (dir_empty p w1)|]; done.
Qed.

Lemma length_str_take n s : (String.length (str_take n s) ≤ String.length s)%nat.
Proof. revert s. induction n as [|n IH]; intros [|c s]; simpl; try lia. specialize (IH s). lia. Qed.

Lemma path_dir_short p :
  path_dir p = "." ∨ path_dir p = "/" ∨ (String.length (path_dir p) ≤ String.length p)%nat.
Proof.
  unfold path_dir. destruct (last_slash p) as [[|i]|]; [by auto| |by auto].
  right; right. apply length_str_take.
Qed.

Lemma keeps_long_cleanup bs fuel cur n :
  cur = "." ∨ cur = "/" ∨ (String.length cur ≤ n)%nat → keeps_long n (cleanup_dirs bs fuel cur).
Proof.
  revert cur. induction fuel as [|fuel IH]; intros cur Hcur; simpl; [by intros w q|].
  destruct (String.eqb cur (bs_objectsRoot bs) || String.eqb cur "." || String.eqb cur "/") eqn:E;
    [by intros w q|]. rewrite !orb_false_iff, !String.eqb_neq in E.
  assert (String.length cur ≤ n)%nat by naive_solver.
  apply keeps_long_bind.
  - apply keeps_long_try. intros w q Hq. apply os_Remove_other. intros ->. lia.
  - intros [[]|e]; [|by intros w q]. apply IH. destruct (path_dir_short cur) as [|[|]]; auto.
    right; right. lia.
Qed.

(** ** Paths *)
Lemma hex_digit_not_slash n : (n < 16)%N → hex_digit n ≠ "/"%char.
Proof.
  intros Hn E. assert (N_of_ascii (hex_digit n) = 47%N) as E' by by rewrite E.
  unfold hex_digit in E'. destruct (N.ltb_spec n 10); rewrite N_ascii_embedding in E' by lia; lia.
Qed.

Lemma hex_encode_length s : String.length (hex_encode s) = (2 * String.length s)%nat.
Proof. induction s as [|c s IH]; simpl; [done|]. rewrite IH. lia. Qed.

Lemma hex_digit_inj n m : (n < 16)%N → (m < 16)%N → hex_digit n = hex_digit m → n = m.
Proof.
  intros Hn Hm E. assert (N_of_ascii (hex_digit n) = N_of_ascii (hex_digit m)) as E' by by rewrite E.
  unfold hex_digit in E'. destruct (N.ltb_spec n 10), (N.ltb_spec m 10);
    rewrite !N_ascii_embedding in E' by lia; lia.
Qed.

Lemma hex_encode_inj s t : hex_encode s = hex_encode t → s = t.
Proof.
  revert t. induction s as [|c s IH]; intros [|d t]; simpl; try done. intros [= E1 E2 E3].
  f_equal; [|by apply IH].
  pose proof (N_ascii_bounded c). pose proof (N_ascii_bounded d).
  apply hex_digit_inj in E1; [|apply N.Div0.div_lt_upper_bound; lia..].
  apply hex_digit_inj in E2; [|apply N.mod_lt; lia..].
  rewrite <-(ascii_N_embedding c), <-(ascii_N_embedding d). f_equal.
  rewrite (N.div_mod (N_of_ascii c) 16), (N.div_mod (N_of_ascii d) 16) by lia. congruence.
Qed.

Lemma digestHex_length s : String.length (digestHex s) = 64%nat.
Proof. unfold digestHex. by rewrite hex_encode_length, sha256_length. Qed.

Lemma str_take_length n s : (n ≤ String.length s)%nat → String.length (str_take n s) = n.
Proof. revert s. induction n as [|n IH]; intros [|c s] Hn; simpl in *; try lia. rewrite IH; lia. Qed.

Lemma str_drop_length n s : String.length (str_drop n s) = (String.length s - n)%nat.
Proof. revert s. induction n as [|n IH]; intros [|c s]; simpl; try lia. by rewrite IH. Qed.

Lemma objectKeyDir_length bs bucket key :
  String.length (objectKeyDir bs bucket key) = (String.length (bs_objectsRoot bs) + 71)%nat.
Proof.
  unfold objectKeyDir, join_path. set (k := digestHex _).
  assert (String.length k = 64%nat) as Hk by apply digestHex_length.
  rewrite !length_str_app, !str_take_length, Hk by (rewrite ?str_drop_length; lia). simpl. lia.
Qed.

Lemma ObjectPath_length bs ref :
  String.length (ObjectPath bs ref) = (String.length (bs_objectsRoot bs) + 140)%nat.
Proof.
  unfold ObjectPath, join_path. rewrite !length_str_app, objectKeyDir_length, digestHex_length.
  simpl. lia.
Qed.

Lemma str_app_inj_length s1 s2 t1 t2 :
  String.length s1 = String.length s2 → s1 +:+ t1 = s2 +:+ t2 → s1 = s2 ∧ t1 = t2.
Proof.
  revert s2. induction s1 as [|c s1 IH]; intros [|d s2] Hl; try done.
  rewrite !str_app_cons. intros [= -> E]. simpl in Hl. apply IH in E as [-> ->]; [done|lia].
Qed.

(** The version id as the path sees it. *)
Definition path_version (ref : ObjectRef) : string :=
  if String.eqb (or_VersionID ref) "" then "null" else or_VersionID ref.

(** Two references share a path only where their digests collide. *)
Lemma ObjectPath_inj bs r1 r2 :
  ObjectPath bs r1 = ObjectPath bs r2 →
  sha256_sum (or_Bucket r1 +:+ nul_byte +:+ or_Key r1) =
    sha256_sum (or_Bucket r2 +:+ nul_byte +:+ or_Key r2) ∧
  sha256_sum (path_version r1) = sha256_sum (path_version r2).
Proof.
  unfold ObjectPath, join_path. intros E.
  apply str_app_inj_length in E as [E1 E2]; [|by rewrite !objectKeyDir_length].
  split.
  - unfold objectKeyDir, join_path in E1.
    set (k1 := digestHex _) in E1. set (k2 := digestHex _) in E1.
    assert (String.length k1 = 64%nat) as Hk1 by apply digestHex_length.
    assert (String.length k2 = 64%nat) as Hk2 by apply digestHex_length.
    apply str_app_inj_length in E1 as [_ E1].
    2:{ rewrite !length_str_app, !str_take_length by (rewrite ?str_drop_length; lia). done. }
    apply str_app_inj_length in E1 as [_ E1]; [|done]. by apply hex_encode_inj in E1.
  - apply str_app_inj_length in E2 as [_ E2]; [|done].
    apply str_app_inj_length in E2 as [E2 _]; [|by rewrite !digestHex_length].
    by apply hex_encode_inj in E2.
Qed.

Lemma last_slash_app s t : last_slash t = None → last_slash (s +:+ "/" +:+ t) = Some (String.length s).
Proof.
  intros Ht. induction s as [|c s IH].
  - rewrite str_app_nil_l, str_app_cons, str_app_nil_l. simpl. by rewrite Ht.
  - rewrite str_app_cons. simpl. by rewrite IH.
Qed.

Lemma last_slash_hex s t : last_slash t = None → last_slash (hex_encode s +:+ t) = None.
Proof.
  intros Ht. induction s as [|c s IH]; simpl; [by rewrite str_app_nil_l|].
  pose proof (N_ascii_bounded c). rewrite IH.
  pose proof (hex_digit_not_slash (N_of_ascii c / 16) ltac:(apply N.Div0.div_lt_upper_bound; lia)) as Hhi%Ascii.eqb_neq.
  pose proof (hex_digit_not_slash (N_of_ascii c mod 16) ltac:(apply N.mod_lt; lia)) as Hlo%Ascii.eqb_neq.
  by rewrite Hlo, Hhi.
Qed.

Lemma path_dir_ObjectPath bs ref :
  path_dir (ObjectPath bs ref) = objectKeyDir bs (or_Bucket ref) (or_Key ref).
Proof.
  unfold ObjectPath, path_dir, join_path. rewrite last_slash_app by by apply last_slash_hex.
  rewrite objectKeyDir_length.
  destruct (String.length (bs_objectsRoot bs) + 71)%nat eqn:E; [lia|].
  rewrite <-E, <-(objectKeyDir_length bs (or_Bucket ref) (or_Key ref)). apply str_take_app.
Qed.

(** Deleting one version: its file goes (or a call failed first); no other file
    whose path is as long is touched, in particular no other object. *)
Lemma blob_DeleteObject_spec bs ref w q :
  q ≠ ObjectPath bs ref → (String.length (bs_objectsRoot bs) + 71 < String.length q)%nat →
  fs_files (blob_DeleteObject bs ref true w).1 !! q = fs_files w !! q.
Proof.
  intros Hne Hlen. unfold blob_DeleteObject, guard_io, not_exist_ok, mbind, M_bind, try, ignore.
  pose proof (os_Remove_other (ObjectPath bs ref) w q (not_eq_sym Hne)) as Hr.
  pose proof (keeps_long_cleanup bs (S (String.length (path_dir (ObjectPath bs ref))))
    (path_dir (ObjectPath bs ref)) (String.length (bs_objectsRoot bs) + 71)) as Hc.
  assert (keeps_long (String.length (bs_objectsRoot bs) + 71)
    (cleanupObjectDirs bs (path_dir (ObjectPath bs ref)))) as Hk.
  { apply Hc. right; right. by rewrite path_dir_ObjectPath, objectKeyDir_length. }
  destruct (os_Remove _ w) as [w1 [[]|e]]; simpl in *.
  - rewrite (Hk w1 q Hlen). done.
  - destruct (errors_Is e ErrNotExist); simpl; [by rewrite (Hk w1 q Hlen)|done].
Qed.

(** ** Multipart assembly *)
Lemma silent_open_parts bs uploadID ns : silent (open_parts bs uploadID ns).
Proof.
  induction ns as [|n ns IH]; simpl; [auto with silent|].
  apply silent_bind; [auto with silent|]. intros c. apply silent_bind; [done|auto with silent].
Qed.

Lemma open_parts_spec bs uploadID ns w w' rs :
  open_parts bs uploadID ns w = (w', Ok rs) →
  Forall2 (λ n r, fs_files w !! multipartPartPath bs uploadID n = Some (rd_bytes r) ∧
                  rd_error r = None) ns rs.
Proof.
  revert w rs. induction ns as [|n ns IH]; intros w rs Hr; simpl in Hr.
  { unfold mret, M_ret in Hr. simplify_eq. constructor. }
  apply M_bind_inv in Hr as (w1 & c & H1 & Hr). apply M_bind_inv in Hr as (w2 & rs' & H2 & H3).
  unfold mret, M_ret in H3. simplify_eq.
  assert (fs_files w1 = fs_files w ∧ fs_files w !! multipartPartPath bs uploadID n = Some c) as [Hw1 Hc].
  { assert (silent (guard_io (os_ReadFile (multipartPartPath bs uploadID n)) no_cleanup
      "open multipart part %d: %w")) as Hs by auto with silent.
    specialize (Hs w). rewrite H1 in Hs. split; [done|].
    unfold guard_io, os_ReadFile, mbind, M_bind, try, gets in H1.
    pose proof (silent_fault_point w) as Hf. destruct (fault_point w) as [w3 [[]|e]]; simpl in *; [|done].
    rewrite Hf in H1. destruct (fs_files w !! _); unfold mret, M_ret in H1; simpl in *; [by simplify_eq|done]. }
  constructor; [done|]. rewrite <-Hw1. by eapply IH.
Qed.

Lemma multi_reader_bytes rs :
  Forall (λ r, rd_error r = None) rs →
  multi_reader rs = bytes_reader (Join (rd_bytes <$> rs) "").
Proof.
  induction 1 as [|r rs Hr Hrs IH]; [done|]. simpl. rewrite Hr, IH. unfold bytes_reader. simpl.
  destruct rs as [|r' rs]; [by rewrite str_app_nil_r|]. done.
Qed.

(** ** Completing an upload *)
Definition in_dir (dir q : string) : bool := String.eqb q dir || below dir q.

(** Objects are not in the staging area. *)
Definition staging_apart (bs : blobStore) : Prop :=
  ∀ t, in_dir (bs_multipartRoot bs) (bs_objectsRoot bs +:+ t) = false.

Lemma below_trans a b q : below a b = true → below b q = true → below a q = true.
Proof.
  unfold below. rewrite !HasPrefix_spec. intros [t ->] [u ->].
  exists (t +:+ "/" +:+ u). by rewrite !str_app_assoc.
Qed.

Lemma below_join dir name : below dir (join_path dir name) = true.
Proof. unfold below, join_path. apply HasPrefix_spec. exists name. by rewrite str_app_assoc. Qed.

Lemma in_dir_join dir name q : in_dir (join_path dir name) q = true → below dir q = true.
Proof.
  unfold in_dir. rewrite orb_true_iff, String.eqb_eq. intros [->|Hq]; [apply below_join|].
  by eapply below_trans; [apply below_join|].
Qed.

Lemma ObjectPath_not_staged bs ref name :
  staging_apart bs → in_dir (multipartUploadDir bs name) (ObjectPath bs ref) = false.
Proof.
  intros Hs. destruct (in_dir _ _) eqn:E; [|done]. apply in_dir_join in E.
  destruct (ObjectPath_below bs ref) as [t Ht]. rewrite Ht in E.
  specialize (Hs t). unfold in_dir in Hs. by rewrite E, orb_true_r in Hs.
Qed.

(** [os.RemoveAll]: on success the files in the directory are gone, on failure
    nothing is; no other file is touched. *)
Lemma os_RemoveAll_spec p w q :
  fs_files (os_RemoveAll p w).1 !! q =
  if is_ok (os_RemoveAll p w).2 && in_dir p q then None else fs_files w !! q.
Proof.
  unfold os_RemoveAll, mbind, M_bind, modify. pose proof (silent_fault_point w) as Hs.
  destruct (fault_point w) as [w1 [[]|e]]; simpl in *; [|by rewrite Hs].
  rewrite <-Hs. unfold in_dir. destruct (String.eqb_spec q p) as [->|Hne]; simpl.
  { apply map_lookup_filter_None. right. intros ? _ []; done. }
  destruct (below p q) eqn:E.
  { apply map_lookup_filter_None. right. intros ? _ []; congruence. }
  destruct (fs_files w1 !! q) eqn:Eq; [|by apply map_lookup_filter_None; left].
  by apply map_lookup_filter_Some.
Qed.

Lemma guard_io_Ok {A} (m : M world A) cleanup msg w w' a :
  guard_io m cleanup msg w = (w', Ok a) → m w = (w', Ok a).
Proof.
  unfold guard_io, mbind, M_bind, try. destruct (m w) as [w1 [b|e]]; simpl; [|done].
  unfold mret, M_ret. congruence.
Qed.

(** Completing with any writer: it is given the concatenation of the parts, and the
    staging directory is gone afterwards. *)
Lemma complete_with_writer_inv bs uploadID ns write w w' meta :
  CompleteMultipartUploadWithWriter bs uploadID ns write w = (w', Ok meta) →
  ∃ parts w1 w2,
    Forall2 (λ n c, fs_files w !! multipartPartPath bs uploadID n = Some c) ns parts ∧
    fs_files w1 = fs_files w ∧ write (bytes_reader (Join parts "")) w1 = (w2, Ok meta) ∧
    ∀ q, fs_files w' !! q = if in_dir (multipartUploadDir bs uploadID) q then None else fs_files w2 !! q.
Proof.
  intros Hrun. unfold CompleteMultipartUploadWithWriter in Hrun.
  assert (ns ≠ []) as Hne by by intros ->. destruct ns as [|n ns']; [done|]. clear Hne.
  set (ns := n :: ns') in *.
  apply M_bind_inv in Hrun as (w1 & rs & Hopen & Hrun).
  apply M_bind_inv in Hrun as (w2 & meta' & Hwrite & Hrun).
  apply M_bind_inv in Hrun as (w3 & [] & Habort & [= <- <-]).
  assert (fs_files w1 = fs_files w) as Hw1.
  { pose proof (silent_open_parts bs uploadID ns w) as E. by rewrite Hopen in E. }
  apply open_parts_spec in Hopen.
  assert (Forall (λ r, rd_error r = None) rs) as Hnone.
  { clear -Hopen. induction Hopen as [|????[_ ?]]; by constructor. }
  rewrite (multi_reader_bytes rs Hnone) in Hwrite.
  pose proof (guard_io_Ok _ _ _ _ _ _ Habort) as Hrm.
  exists (rd_bytes <$> rs), w1, w2. split_and!; [|done..|].
  - clear -Hopen. induction Hopen as [|????[? _]]; csimpl; by constructor.
  - intros q. pose proof (os_RemoveAll_spec (multipartUploadDir bs uploadID) w2 q) as E.
    by rewrite Hrm in E.
Qed.

Lemma CompleteMultipartUpload_spec bs uploadID ns dst w w' meta :
  roots_apart bs → staging_apart bs →
  CompleteMultipartUpload bs uploadID ns dst w = (w', Ok meta) →
  ∃ parts at_,
    Forall2 (λ n c, fs_files w !! multipartPartPath bs uploadID n = Some c) ns parts ∧
    let content := Join parts "" in
    meta = object_meta dst (ObjectPath bs dst) content at_ ∧
    fs_files w' !! ObjectPath bs dst = Some content ∧
    ∀ q, q ≠ ObjectPath bs dst → fs_files w' !! q =
      if in_dir (multipartUploadDir bs uploadID) q then None else fs_files w !! q.
Proof.
  intros Hr Hs (parts & w1 & w2 & Hparts & Hw1 & Hwrite & Hw')%complete_with_writer_inv.
  pose proof (WriteObject_spec bs dst (bytes_reader (Join parts "")) (fs_files w1) Hr w1 eq_refl) as Hspec.
  rewrite Hwrite in Hspec. simpl in Hspec. destruct Hspec as [[HF _] Hm].
  destruct (Hm _ eq_refl) as [at_ ->].
  exists parts, at_. split; [done|]. split; [done|]. split.
  - by rewrite Hw', ObjectPath_not_staged, HF, lookup_insert_eq.
  - intros q Hq. rewrite Hw'. destruct (in_dir _ q); [done|]. by rewrite HF, lookup_insert_ne, Hw1.
Qed.

(** A promoted part is moved, and described by what was recorded of it. *)
Lemma promote_inv bs uploadID n dst part w w' meta :
  staging_apart bs → PromoteMultipartPart bs uploadID n dst part w = (w', Ok meta) →
  ∃ content, fs_files w !! multipartPartPath bs uploadID n = Some content ∧
    fs_files w' !! ObjectPath bs dst = Some content ∧
    om_Path meta = ObjectPath bs dst ∧ om_Size meta = mm_Size part.
Proof.
  intros Hs Hrun. unfold PromoteMultipartPart in Hrun.
  apply M_bind_inv in Hrun as (w1 & [] & E1%guard_io_Ok & Hrun).
  apply M_bind_inv in Hrun as (w2 & [] & E2%guard_io_Ok & Hrun).
  apply M_bind_inv in Hrun as (w3 & [] & E3%guard_io_Ok & Hrun).
  apply M_bind_inv in Hrun as (w4 & [] & E4%guard_io_Ok & Hrun).
  apply M_bind_inv in Hrun as (w5 & now & [= <- _] & [= <- <-]).
  pose proof (silent_MkdirAll (path_dir (ObjectPath bs dst)) w) as F1. rewrite E1 in F1.
  pose proof (silent_syncParentDir bs (ObjectPath bs dst) w2) as F3. rewrite E3 in F3.
  pose proof (os_RemoveAll_spec (multipartUploadDir bs uploadID) w3 (ObjectPath bs dst)) as F4.
  rewrite E4, ObjectPath_not_staged in F4 by done. simpl in *.
  unfold os_Rename, mbind, M_bind, get in E2. pose proof (silent_fault_point w1) as F2.
  destruct (fault_point w1) as [w1' [[]|e]]; [|done]. simpl in *. rewrite <-F1, <-F2.
  destruct (fs_files w1' !! multipartPartPath bs uploadID n) as [c|]; [|done].
  case_bool_decide; [|done]. injection E2 as <-. exists c. split_and!; [done| |done..].
  rewrite F4, F3. simpl. by rewrite lookup_insert_eq.
Qed.

(** ** Recovery *)
(** The entries of the staging area, and is an upload past the age limit? *)
Definition upload_entries (bs : blobStore) (w : world) : list string :=
  omap (entry_name (bs_multipartRoot bs)) (elements (dom (fs_files w) ∪ fs_dirs w)).

Definition upload_stale (bs : blobStore) (w : world) (name : string) : bool :=
  bs_multipartMaxAge bs <?
    saturate64 (fs_clock w - default 0 (fs_mtimes w !! multipartUploadDir bs name)).

(** No call changes the clock or the times of the directories. *)
Definition steady {A} (m : M world A) : Prop :=
  ∀ w, fs_clock (m w).1 = fs_clock w ∧ fs_mtimes (m w).1 = fs_mtimes w.

Lemma steady_bind {A B} (m : M world A) (f : A → M world B) :
  steady m → (∀ a, steady (f a)) → steady (mbind f m).
Proof.
  intros Hm Hf w. specialize (Hm w). unfold mbind, M_bind.
  destruct (m w) as [w' [a|e]]; simpl in *; [|done].
  specialize (Hf a w'). destruct Hm as [<- <-], Hf as [-> ->]. done.
Qed.

Lemma steady_fault_point : steady fault_point.
Proof.
  intros w. unfold fault_point. destruct (fs_crashed w); [done|].
  by destruct (fs_faults w) as [|[]].
Qed.

Lemma steady_RemoveAll p : steady (os_RemoveAll p).
Proof. apply steady_bind; [apply steady_fault_point|]. by intros [] w. Qed.

(** Removing a list of entries of a directory, with a report that counts. *)
Lemma remove_temp_entries_spec bs names report w q :
  let '(w', r) := remove_temp_entries bs names report w in
  fs_files w' !! q = fs_files w !! q ∨
  (fs_files w' !! q = None ∧ below (bs_tempRoot bs) q = true).
Proof.
  revert report w. induction names as [|name names IH]; intros report w; simpl; [by left|].
  unfold guard_io, ignore, no_cleanup, mbind, M_bind, try.
  pose proof (os_RemoveAll_spec (join_path (bs_tempRoot bs) name) w q) as E.
  destruct (os_RemoveAll _ w) as [w1 [[]|e]]; simpl in *; [|by left].
  specialize (IH (mkRecoveryReport (rr_RemovedTempFiles report + 1) (rr_RemovedMultipartDir report)) w1).
  destruct (remove_temp_entries bs names _ w1) as [w2 r]. rewrite E in IH.
  destruct (in_dir _ q) eqn:Ed; [|done]. apply in_dir_join in Ed.
  right. destruct IH as [?|[? _]]; done.
Qed.

Lemma remove_temp_entries_gone bs names report w w' report' :
  remove_temp_entries bs names report w = (w', Ok report') →
  ∀ q, (∃ name, name ∈ names ∧ in_dir (join_path (bs_tempRoot bs) name) q = true) →
       fs_files w' !! q = None.
Proof.
  revert report w. induction names as [|name names IH]; intros report w Hrun q (x & Hx & Hq).
  { by apply elem_of_nil in Hx. }
  simpl in Hrun. apply M_bind_inv in Hrun as (w1 & [] & Hrm%guard_io_Ok & Hrun).
  apply elem_of_cons in Hx as [->|Hx]; [|by eapply IH; eauto].
  pose proof (os_RemoveAll_spec (join_path (bs_tempRoot bs) name) w q) as E.
  rewrite Hrm, Hq in E. simpl in E.
  match type of Hrun with remove_temp_entries _ _ ?rep _ = _ =>
    pose proof (remove_temp_entries_spec bs names rep w1 q) as Hk end.
  rewrite Hrun in Hk. rewrite E in Hk. naive_solver.
Qed.

Lemma in_dir_slash d q : in_dir d q = true → ∃ t, q +:+ "/" = d +:+ "/" +:+ t.
Proof.
  unfold in_dir, below. rewrite orb_true_iff, String.eqb_eq, HasPrefix_spec.
  intros [->|[t ->]]; [by exists ""|]. exists (t +:+ "/"). by rewrite !str_app_assoc.
Qed.

(** Staging directories of different uploads are disjoint. *)
Lemma in_dir_same_upload bs n1 n2 q :
  Contains n1 "/" = false → Contains n2 "/" = false →
  in_dir (multipartUploadDir bs n1) q = true → in_dir (multipartUploadDir bs n2) q = true →
  n1 = n2.
Proof.
  intros H1 H2 [t1 E1]%in_dir_slash [t2 E2]%in_dir_slash. rewrite E1 in E2.
  unfold multipartUploadDir, join_path in E2. rewrite !str_app_assoc in E2.
  apply str_app_inj_length in E2 as [_ E2]; [|done].
  apply str_app_inj_length in E2 as [_ E2]; [|done].
  rewrite !str_app_cons, !str_app_nil_l in E2. by apply split_at_byte in E2 as [-> _].
Qed.

Definition stale_at (bs : blobStore) (now : Z) (w : world) (name : string) : bool :=
  bs_multipartMaxAge bs <?
    saturate64 (now - default 0 (fs_mtimes w !! multipartUploadDir bs name)).

Lemma stale_at_steady bs now (w w' : world) name :
  fs_mtimes w' = fs_mtimes w → stale_at bs now w' name = stale_at bs now w name.
Proof. unfold stale_at. by intros ->. Qed.

Lemma remove_stale_uploads_spec bs now names report w q :
  let '(w', r) := remove_stale_uploads bs now names report w in
  (fs_files w' !! q = fs_files w !! q ∨
   (fs_files w' !! q = None ∧ ∃ name, name ∈ names ∧ stale_at bs now w name = true ∧
      in_dir (multipartUploadDir bs name) q = true)) ∧
  (is_ok r = true → ∀ name, name ∈ names → stale_at bs now w name = true →
     in_dir (multipartUploadDir bs name) q = true → fs_files w' !! q = None).
Proof.
  revert report w. induction names as [|name names IH]; intros report w.
  { split; [by left|]. intros _ name Hn. by apply elem_of_nil in Hn. }
  simpl. unfold guard_io, ignore, no_cleanup, mbind, M_bind, try, gets.
  pose proof (silent_fault_point w) as Hs. pose proof (steady_fault_point w) as [_ Hm].
  destruct (fault_point w) as [w1 [[]|e]]; simpl in *; [|rewrite Hs; by split; [left|]].
  destruct (_ <=? _) eqn:E.
  - apply Z.leb_le in E. specialize (IH report w1).
    assert (stale_at bs now w name = false) as Hst.
    { unfold stale_at. rewrite <-Hm. apply Z.ltb_ge. exact E. }
    destruct (remove_stale_uploads bs now names report w1) as [w2 r]. rewrite Hs in IH.
    destruct IH as [[Ho|(Ho & x & Hx & Hx' & Hq)] Hok]; split.
    + by left.
    + intros Hr x Hx%elem_of_cons Hxs Hq. destruct Hx as [->|Hx]; [congruence|].
      eapply Hok; [done..| |done]. by rewrite (stale_at_steady bs now w).
    + right. split; [done|]. exists x. rewrite <-(stale_at_steady bs now w w1) by done. set_solver.
    + by intros.
  - apply Z.leb_gt in E.
    assert (stale_at bs now w name = true) as Hst.
    { unfold stale_at. rewrite <-Hm. apply Z.ltb_lt. exact E. }
    pose proof (os_RemoveAll_spec (join_path (bs_multipartRoot bs) name) w1 q) as Er.
    pose proof (steady_RemoveAll (join_path (bs_multipartRoot bs) name) w1) as [_ Hm'].
    destruct (os_RemoveAll _ w1) as [w2 [[]|e]]; simpl in *; [|rewrite Er, Hs; by split; [left|]].
    specialize (IH (mkRecoveryReport (rr_RemovedTempFiles report) (rr_RemovedMultipartDir report + 1)) w2).
    destruct (remove_stale_uploads bs now names _ w2) as [w3 r].
    rewrite Er, Hs in IH. fold (multipartUploadDir bs name) in IH.
    destruct (in_dir (multipartUploadDir bs name) q) eqn:Eq.
    { split; [right; split; [naive_solver|]; exists name; set_solver|]. naive_solver. }
    assert (∀ x, stale_at bs now w2 x = stale_at bs now w x) as Hsx.
    { intros x. apply stale_at_steady. congruence. }
    setoid_rewrite Hsx in IH. destruct IH as [Ho Hok]. split.
    + destruct Ho as [|(? & x & ? & ? & ?)]; [by left|]. right. split; [done|]. exists x. set_solver.
    + intros Hr x Hx%elem_of_cons. destruct Hx as [->|Hx]; [congruence|]. by apply Hok.
Qed.

Lemma entry_name_spec dir q name :
  entry_name dir q = Some name → q = join_path dir name ∧ Contains name "/" = false.
Proof.
  unfold entry_name, below. destruct (HasPrefix q _) eqn:E; [|done].
  apply HasPrefix_spec in E as [t ->].
  assert (String.length dir + 1 = String.length (dir +:+ "/"))%nat as -> by by rewrite length_str_app.
  rewrite str_drop_app. destruct (Contains t "/") eqn:Ec; [done|]. intros [= <-].
  unfold join_path. by rewrite !str_app_assoc.
Qed.

Lemma os_ReadDir_Ok dir w w' l :
  os_ReadDir dir w = (w', Ok l) →
  l = omap (entry_name dir) (elements (dom (fs_files w) ∪ fs_dirs w)) ∧ fs_files w' = fs_files w ∧
  fs_mtimes w' = fs_mtimes w ∧ fs_clock w' = fs_clock w.
Proof.
  unfold os_ReadDir, mbind, M_bind, gets. pose proof (silent_fault_point w) as Hs.
  pose proof (steady_fault_point w) as [Hc Hm].
  assert (fs_dirs (fault_point w).1 = fs_dirs w) as Hd.
  { unfold fault_point. destruct (fs_crashed w); [done|]. by destruct (fs_faults w) as [|[]]. }
  destruct (fault_point w) as [w1 [[]|e]]; simpl in *; [|done].
  case_bool_decide; intros [= <- <-]. by rewrite Hs, Hd.
Qed.

(** Outside the temporary directory nothing disappears while it is cleared. *)
Lemma remove_temp_entries_dirs bs names report w :
  steady (remove_temp_entries bs names report) ∧
  ∀ q, below (bs_tempRoot bs) q = false → q ∈ fs_dirs w →
       q ∈ fs_dirs (remove_temp_entries bs names report w).1.
Proof.
  revert report w. induction names as [|name names IH]; intros report w; simpl; [done|]. split.
  - apply steady_bind; [|intros _; apply (IH _ w)].
    intros w'. unfold guard_io, ignore, no_cleanup, mbind, M_bind, try.
    pose proof (steady_RemoveAll (join_path (bs_tempRoot bs) name) w') as Hr.
    by destruct (os_RemoveAll _ w') as [w1 [[]|e]].
  - intros q Hq Hd. unfold guard_io, ignore, no_cleanup, mbind, M_bind, try.
    assert (q ∈ fs_dirs (os_RemoveAll (join_path (bs_tempRoot bs) name) w).1) as Hr.
    { unfold os_RemoveAll, mbind, M_bind, modify.
      assert (fs_dirs (fault_point w).1 = fs_dirs w) as E.
      { unfold fault_point. destruct (fs_crashed w); [done|]. by destruct (fs_faults w) as [|[]]. }
      destruct (fault_point w) as [w1 [[]|e]]; simpl in *; rewrite E; [|done].
      apply elem_of_filter. split; [|done].
      assert (in_dir (join_path (bs_tempRoot bs) name) q = false) as En.
      { destruct (in_dir _ q) eqn:En; [|done]. apply in_dir_join in En. congruence. }
      unfold in_dir in En. apply orb_false_iff in En as [En1%String.eqb_neq En2]. done. }
    destruct (os_RemoveAll _ w) as [w1 [[]|e]]; simpl in *; [|done]. by apply IH.
Qed.

Lemma temp_below_not_object bs ref : roots_apart bs → below (bs_tempRoot bs) (ObjectPath bs ref) = false.
Proof. intros Hr. destruct (ObjectPath_below bs ref) as [t ->]. apply Hr. Qed.

Lemma temp_below_not_staged bs name q :
  roots_apart bs → in_dir (multipartUploadDir bs name) q = true → below (bs_tempRoot bs) q = false.
Proof.
  intros Hr Hq%in_dir_join. unfold below in Hq. apply HasPrefix_spec in Hq as [t ->].
  rewrite str_app_assoc. apply Hr.
Qed.

Lemma entry_name_join dir name : Contains name "/" = false → entry_name dir (join_path dir name) = Some name.
Proof.
  intros Hn. unfold entry_name. rewrite below_join.
  assert (String.length dir + 1 = String.length (dir +:+ "/"))%nat as -> by by rewrite length_str_app.
  unfold join_path. by rewrite <-str_app_assoc, str_drop_app, Hn.
Qed.

Lemma elem_of_upload_entries bs w name :
  name ∈ upload_entries bs w ↔ Contains name "/" = false ∧
    (is_Some (fs_files w !! multipartUploadDir bs name) ∨ multipartUploadDir bs name ∈ fs_dirs w).
Proof.
  unfold upload_entries. rewrite list_elem_of_omap. split.
  - intros (q & Hq & [-> Hn]%entry_name_spec). split; [done|].
    apply elem_of_elements in Hq. by rewrite elem_of_union, elem_of_dom in Hq.
  - intros [Hn Hq]. exists (multipartUploadDir bs name). split.
    + apply elem_of_elements. by rewrite elem_of_union, elem_of_dom.
    + by apply entry_name_join.
Qed.

(** The parts of [Recover] that concern the temporary directory. *)
Definition temp_cleared (bs : blobStore) (w w' : world) : Prop :=
  (∀ q, below (bs_tempRoot bs) q = false → fs_files w' !! q = fs_files w !! q) ∧
  fs_clock w' = fs_clock w ∧ fs_mtimes w' = fs_mtimes w.

Lemma clear_temp_spec bs w :
  let '(w', r) := (tempEntries ← guard_io (os_ReadDir (bs_tempRoot bs)) no_cleanup "read temp root: %w";
    remove_temp_entries bs tempEntries (mkRecoveryReport 0 0)) w in
  temp_cleared bs w w' ∧
  (is_ok r = true →
    (∀ q name, entry_name (bs_tempRoot bs) q = Some name → fs_files w' !! q = None) ∧
    (roots_apart bs → ∀ name, name ∈ upload_entries bs w → name ∈ upload_entries bs w')).
Proof.
  unfold mbind at 1, M_bind at 1.
  pose proof (silent_guard (os_ReadDir (bs_tempRoot bs)) no_cleanup "read temp root: %w"
    ltac:(auto with silent) ltac:(auto with silent) w) as Hs.
  assert (fs_clock (guard_io (os_ReadDir (bs_tempRoot bs)) no_cleanup "read temp root: %w" w).1 = fs_clock w ∧
    fs_mtimes (guard_io (os_ReadDir (bs_tempRoot bs)) no_cleanup "read temp root: %w" w).1 = fs_mtimes w ∧
    fs_dirs (guard_io (os_ReadDir (bs_tempRoot bs)) no_cleanup "read temp root: %w" w).1 = fs_dirs w)
    as (Hc & Hm & Hd).
  { unfold guard_io, os_ReadDir, gets, ignore, no_cleanup, mbind, M_bind, try, fault_point.
    destruct (fs_crashed w); [done|]. destruct (fs_faults w) as [|[]]; simpl; try case_bool_decide; done. }
  destruct (guard_io _ _ _ w) as [w1 [names|e]] eqn:Eg; simpl in *.
  2:{ split; [|done]. split_and!; [|done..]. intros q _. by rewrite Hs. }
  apply guard_io_Ok, os_ReadDir_Ok in Eg as (-> & _).
  set (names := omap _ _). pose proof (λ q, remove_temp_entries_spec bs names (mkRecoveryReport 0 0) w1 q) as Hq.
  destruct (remove_temp_entries_dirs bs names (mkRecoveryReport 0 0) w1) as [Hst Hdirs].
  specialize (Hst w1) as [Hc1 Hm1].
  pose proof (remove_temp_entries_gone bs names (mkRecoveryReport 0 0) w1) as Hgone.
  destruct (remove_temp_entries bs names (mkRecoveryReport 0 0) w1) as [w2 r]; simpl in *.
  assert (∀ q, below (bs_tempRoot bs) q = false → fs_files w2 !! q = fs_files w !! q) as Hout.
  { intros q Hb. rewrite <-Hs. destruct (Hq q) as [?|[_ ?]]; congruence. }
  split; [split_and!; [done|congruence..]|]. intros Hok. split.
  - intros q name Hn. destruct (fs_files w !! q) as [c|] eqn:Eq.
    + destruct r as [rep|]; [|done]. eapply Hgone; [done|]. exists name. split.
      * apply list_elem_of_omap. exists q. split; [|done]. apply elem_of_elements, elem_of_union. left.
        apply elem_of_dom. eauto.
      * apply entry_name_spec in Hn as [-> _]. unfold in_dir. by rewrite String.eqb_refl.
    + destruct (Hq q) as [->|[-> _]]; [by rewrite Hs|done].
  - intros Hr name [Hn Hq']%elem_of_upload_entries. apply elem_of_upload_entries. split; [done|].
    assert (below (bs_tempRoot bs) (multipartUploadDir bs name) = false) as Hb.
    { apply (temp_below_not_staged bs name); [done|]. unfold in_dir. by rewrite String.eqb_refl. }
    rewrite Hout by done. destruct Hq' as [?|Hd']; [by left|]. right. apply Hdirs; [done|]. by rewrite Hd.
Qed.

Lemma Recover_spec bs w :
  roots_apart bs → staging_apart bs →
  let '(w', r) := Recover bs w in
  (∀ ref, fs_files w' !! ObjectPath bs ref = fs_files w !! ObjectPath bs ref) ∧
  (∀ name q, Contains name "/" = false → upload_stale bs w name = false →
     in_dir (multipartUploadDir bs name) q = true → fs_files w' !! q = fs_files w !! q) ∧
  (is_ok r = true →
     (∀ q name, entry_name (bs_tempRoot bs) q = Some name → fs_files w' !! q = None) ∧
     (∀ name q, name ∈ upload_entries bs w → upload_stale bs w name = true →
        in_dir (multipartUploadDir bs name) q = true → fs_files w' !! q = None)).
Proof.
  intros Hr Hsa. pose proof (clear_temp_spec bs w) as Hct.
  assert (Recover bs w = (report ← (tempEntries ← guard_io (os_ReadDir (bs_tempRoot bs)) no_cleanup
      "read temp root: %w"; remove_temp_entries bs tempEntries (mkRecoveryReport 0 0));
    now ← blob_now;
    multipartEntries ← guard_io (os_ReadDir (bs_multipartRoot bs)) no_cleanup "read multipart root: %w";
    remove_stale_uploads bs now multipartEntries report) w) as ->.
  { unfold Recover, mbind, M_bind. by destruct (guard_io (os_ReadDir (bs_tempRoot bs)) _ _ w) as [? []]. }
  unfold mbind at 1, M_bind at 1. match type of Hct with context [mbind ?f ?m w] => destruct (mbind f m w) as [w1 [report|e]] end; simpl in *;
    destruct Hct as [(Hout & Hc & Hm) Hok].
  2:{ split_and!; [intros ref; by apply Hout, temp_below_not_object|intros name q _ _ Hq|done].
      apply Hout. by eapply temp_below_not_staged. }
  unfold blob_now, gets, mbind, M_bind.
  destruct Hok as [Hgone Hent]; [done|].
  pose proof (silent_guard (os_ReadDir (bs_multipartRoot bs)) no_cleanup "read multipart root: %w"
    ltac:(auto with silent) ltac:(auto with silent) w1) as Hs.
  destruct (guard_io _ _ _ w1) as [w2 [names|e]] eqn:Eg; simpl in *.
  2:{ rewrite !Hs. split_and!; [intros ref; by apply Hout, temp_below_not_object|intros name q _ _ Hq|done].
      apply Hout. by eapply temp_below_not_staged. }
  apply guard_io_Ok, os_ReadDir_Ok in Eg as (-> & _ & Hm2 & Hc2). fold (upload_entries bs w1).
  pose proof (λ q, remove_stale_uploads_spec bs (fs_clock w1) (upload_entries bs w1) report w2 q) as Hst.
  assert (∀ x, stale_at bs (fs_clock w1) w2 x = upload_stale bs w x) as Hx.
  { intros x. unfold stale_at, upload_stale. congruence. }
  destruct (remove_stale_uploads _ _ _ _ w2) as [w3 r].
  setoid_rewrite Hx in Hst. rewrite Hs in Hst. split_and!.
  - intros ref. rewrite <-(Hout (ObjectPath bs ref)) by by apply temp_below_not_object.
    destruct (Hst (ObjectPath bs ref)) as [[?|(_ & x & _ & _ & Hin)] _]; [done|].
    by rewrite ObjectPath_not_staged in Hin.
  - intros name q Hn Hfresh Hq. rewrite <-(Hout q) by by eapply temp_below_not_staged.
    destruct (Hst q) as [[?|(_ & x & Hx1 & Hx2 & Hin)] _]; [done|].
    apply elem_of_upload_entries in Hx1 as [Hx1 _].
    rewrite (in_dir_same_upload bs name x q) in Hfresh by done. congruence.
  - intros Hrok. split.
    + intros q name Hq. destruct (Hst q) as [[->|[? _]] _]; [by eapply Hgone|done].
    + intros name q Hname Hstale Hq. eapply Hst; eauto.
Qed.
End blob_facts.

(** ** A concrete environment, for evaluation

    A digest that is the beginning of the text, padded; temporary names longer
    than all names in use; a store below [data]. *)
Fixpoint str_repeat (n : nat) (c : ascii) : string :=
  match n with O => "" | S n => String c (str_repeat n c) end.

Lemma str_repeat_length n c : String.length (str_repeat n c) = n.
Proof. induction n; simpl; congruence. Qed.

Definition pad_digest (s : string) : string := str_take 32 (s +:+ str_repeat 32 "0").

Lemma pad_digest_length s : String.length (pad_digest s) = 32%nat.
Proof. unfold pad_digest. apply str_take_length. rewrite length_str_app, str_repeat_length. lia. Qed.

Definition ex_hashes : Hashes := {|
  sha256_sum := pad_digest;
  sha1_sum s := str_take 20 (pad_digest s);
  md5_sum s := str_take 16 (pad_digest s);
  crc32_sum s := str_take 4 (pad_digest s);
  crc32c_sum s := str_take 4 (pad_digest s);
  sha256_length := pad_digest_length;
|}.

Definition ex_temp_name (dir : string) (used : gset string) : string :=
  dir +:+ "/" +:+ str_repeat (S (set_fold (λ s n, (String.length s + n)%nat) 0%nat used)) "t".

Lemma set_fold_length_le (used : gset string) s :
  s ∈ used → (String.length s ≤ set_fold (λ s n, (String.length s + n)%nat) 0%nat used)%nat.
Proof.
  revert used. apply (set_fold_ind_L (λ n (X : gset string), s ∈ X → (String.length s ≤ n)%nat)).
  - set_solver.
  - intros x X n _ IH [->%elem_of_singleton|Hx]%elem_of_union; [lia|]. specialize (IH Hx). lia.
Qed.

Lemma ex_temp_name_fresh dir used : ex_temp_name dir used ∉ used.
Proof.
  intros Hin%set_fold_length_le. unfold ex_temp_name in Hin.
  rewrite !length_str_app, str_repeat_length in Hin. lia.
Qed.

Lemma ex_temp_name_below dir used : HasPrefix (ex_temp_name dir used) (dir +:+ "/") = true.
Proof.
  apply HasPrefix_spec. unfold ex_temp_name. eexists. by rewrite str_app_assoc.
Qed.

Definition ex_temp_names : TempNames := {|
  temp_name := ex_temp_name;
  temp_name_fresh := ex_temp_name_fresh;
  temp_name_below := ex_temp_name_below;
|}.

Definition ex_bs : blobStore :=
  mkBlobStore "data" "data/objects" "data/tmp" "data/multipart" FsyncStrict 100 4096.

Lemma ex_roots_apart : roots_apart ex_bs.
Proof. by intros t. Qed.

Lemma ex_staging_apart : staging_apart ex_bs.
Proof. by intros t. Qed.

(** The directories of the store, a stale temporary file, an old upload with two
    parts and a recent one. *)
Definition ex_world : world :=
  mkWorld
    (list_to_map [("data/tmp/stale", "x"); ("data/multipart/u1/part-000001.bin", "ab");
       ("data/multipart/u1/part-000002.bin", "cd"); ("data/multipart/u2/part-000001.bin", "z")])
    (list_to_set ["data"; "data/objects"; "data/tmp"; "data/multipart";
       "data/multipart/u1"; "data/multipart/u2"])
    (list_to_map [("data/multipart/u1", 1000); ("data/multipart/u2", 1950)]) [] false 2000.
