(* ===== verification/BlobProps.v ===== *)
(** * What the blob store promises

    Object writes are atomic under every schedule of failures and crashes; a
    read gives the section asked for; versions never share a file; a deletion
    removes one version; a completed upload is the concatenation of its parts;
    recovery clears what crashed writes leave. *)
From S2P Require Import Prelude GoStrings StringFacts Base64 FileSystem Blob BlobFacts.

Section blob_props.
Context `{!Hashes} `{!TempNames}.

(** C5: [WriteObject] is atomic: whatever calls fail and wherever the process
    stops, the object's file holds either what it held before or the whole new
    content, the second only if the source delivered everything; no other object
    is touched and at most one temporary file is left.  On success the file holds
    the content and the result describes it. *)
Theorem write_object_atomic bs ref src w :
  roots_apart bs →
  let path := ObjectPath bs ref in
  let '(w', r) := WriteObject bs ref src w in
  match r with
  | Ok meta => fs_files w' = <[path := rd_bytes src]> (fs_files w) ∧ rd_error src = None ∧
      ∃ at_, meta = object_meta ref path (rd_bytes src) at_
  | Err _ => temp_only bs (fs_files w) (fs_files w') ∨
      (fs_files w' = <[path := rd_bytes src]> (fs_files w) ∧ rd_error src = None)
  end.
Proof.
  intros Hr path. pose proof (WriteObject_spec bs ref src (fs_files w) Hr w eq_refl) as Hs.
  destruct (WriteObject bs ref src w) as [w' [meta|e]]; simpl in *; destruct Hs as [Ho Hm]; [|done].
  destruct Ho as [HF Hsrc]. split_and!; [done..|by apply Hm].
Qed.

Lemma section_of_all content :
  content ≠ "" → section_of content 0 (str_len content - 1) = content.
Proof.
  intros Hne. unfold section_of, str_len. rewrite Z2Nat.inj_0. simpl.
  apply str_take_all. lia.
Qed.

(** What was written is what is read: after a successful write, in a world
    where calls no longer fail, [ReadObject] returns the whole content of a
    non-empty object, the inclusive section of a range inside the object, and an
    error for any other range and for every read of an empty object (its default
    range is 0 to -1). *)
Theorem write_then_read bs ref src w w' meta br :
  roots_apart bs →
  WriteObject bs ref src w = (w', Ok meta) → healthy w' →
  let content := rd_bytes src in
  (br = None → content ≠ "" → ReadObject (om_Path meta) br w' = (w', Ok (content, None))) ∧
  (content = "" → ∃ e, ReadObject (om_Path meta) br w' = (w', Ok ("", Some e))) ∧
  (∀ r, br = Some r → 0 ≤ br_Start r ≤ br_End r → br_End r < str_len content →
     ReadObject (om_Path meta) br w' =
     (w', Ok (section_of content (br_Start r) (br_End r), None))) ∧
  (∀ r, br = Some r → ¬ (0 ≤ br_Start r ≤ br_End r ∧ br_End r < str_len content) →
     ∃ e, ReadObject (om_Path meta) br w' = (w', Ok ("", Some e))).
Proof.
  intros Hr Hw Hh content.
  pose proof (WriteObject_spec bs ref src (fs_files w) Hr w eq_refl) as Hs.
  rewrite Hw in Hs. simpl in Hs. destruct Hs as [[HF Hsrc] Hm].
  destruct (Hm meta eq_refl) as [at_ ->]. simpl.
  assert (fs_files w' !! ObjectPath bs ref = Some content) as Hf by (by rewrite HF, lookup_insert_eq).
  split_and!.
  - intros -> Hne. rewrite (ReadObject_healthy _ _ _ content) by done. unfold range_of.
    assert ((0 <? 0) || (str_len content - 1 <? 0) || (str_len content <=? str_len content - 1) = false)
      as ->; [|by rewrite section_of_all].
    apply range_test. assert (0 < str_len content); [|lia]. unfold str_len.
    assert (String.length content ≠ 0%nat); [|lia]. by intros ?%length_zero_str.
  - intros E. rewrite (ReadObject_healthy _ _ _ content) by done. rewrite E.
    unfold range_of. destruct br as [r|]; [|by eauto]. simpl.
    destruct ((br_Start r <? 0) || _ || _) eqn:Et; [eauto|]. apply range_test in Et.
    unfold str_len in Et. simpl in Et. lia.
  - intros r -> H1 H2. rewrite (ReadObject_healthy _ _ _ content) by done. unfold range_of.
    assert ((br_Start r <? 0) || (br_End r <? br_Start r) || (str_len content <=? br_End r) = false)
      as ->; [|done]. apply range_test. lia.
  - intros r -> Hn. rewrite (ReadObject_healthy _ _ _ content) by done. unfold range_of.
    destruct ((br_Start r <? 0) || _ || _) eqn:E; [eauto|]. apply range_test in E. lia.
Qed.

(** Versions of objects do not share a file: two references with the same
    path are the same up to a digest collision of SHA-256 or a NUL byte in a
    bucket name (the digest is taken of bucket, NUL, key). *)
Theorem object_paths_distinct bs r1 r2 :
  ObjectPath bs r1 = ObjectPath bs r2 →
  (∀ s t, s ∈ [or_Bucket r1 +:+ nul_byte +:+ or_Key r1; path_version r1] →
          t ∈ [or_Bucket r2 +:+ nul_byte +:+ or_Key r2; path_version r2] →
          sha256_sum s = sha256_sum t → s = t) →
  Contains (or_Bucket r1) nul_byte = false → Contains (or_Bucket r2) nul_byte = false →
  or_Bucket r1 = or_Bucket r2 ∧ or_Key r1 = or_Key r2 ∧ path_version r1 = path_version r2.
Proof.
  intros E Hcol H1 H2. apply ObjectPath_inj in E as [Ek Ev].
  apply Hcol in Ek; [|set_solver..]. apply Hcol in Ev; [|set_solver..].
  unfold nul_byte in *. rewrite !str_app_cons, !str_app_nil_l in Ek.
  apply split_at_byte in Ek as [-> ->]; done.
Qed.

(** Deleting one version touches no other object: every other object file is
    as before, for every schedule of failures. *)
Theorem delete_version_only bs ref ref' w :
  ObjectPath bs ref' ≠ ObjectPath bs ref →
  fs_files (exec (blob_DeleteObject bs ref true) w) !! ObjectPath bs ref' =
  fs_files w !! ObjectPath bs ref'.
Proof.
  intros Hne. apply blob_DeleteObject_spec; [done|]. rewrite ObjectPath_length. lia.
Qed.

(** A completed upload is the concatenation of the listed parts in the listed
    order: the object's file holds it, its digests are those of the whole, the
    staging directory is gone and nothing else has changed. *)
Theorem complete_multipart_concatenates bs uploadID ns dst w w' meta :
  roots_apart bs → staging_apart bs →
  CompleteMultipartUpload bs uploadID ns dst w = (w', Ok meta) →
  ∃ parts at_,
    Forall2 (λ n c, fs_files w !! multipartPartPath bs uploadID n = Some c) ns parts ∧
    let content := Join parts "" in
    meta = object_meta dst (ObjectPath bs dst) content at_ ∧
    fs_files w' !! ObjectPath bs dst = Some content ∧
    ∀ q, q ≠ ObjectPath bs dst → fs_files w' !! q =
      if in_dir (multipartUploadDir bs uploadID) q then None else fs_files w !! q.
Proof. apply CompleteMultipartUpload_spec. Qed.

(** C29: recovery at start-up: whatever fails, no object and no staging of a recent
    upload is touched; when it succeeds, no entry is left in the temporary
    directory and no file in the staging of an upload past the age limit. *)
Theorem recover_cleans bs w :
  roots_apart bs → staging_apart bs →
  let '(w', r) := Recover bs w in
  (∀ ref, fs_files w' !! ObjectPath bs ref = fs_files w !! ObjectPath bs ref) ∧
  (∀ name q, Contains name "/" = false → upload_stale bs w name = false →
     in_dir (multipartUploadDir bs name) q = true → fs_files w' !! q = fs_files w !! q) ∧
  (is_ok r = true →
     (∀ q name, entry_name (bs_tempRoot bs) q = Some name → fs_files w' !! q = None) ∧
     (∀ name q, name ∈ upload_entries bs w → upload_stale bs w name = true →
        in_dir (multipartUploadDir bs name) q = true → fs_files w' !! q = None)).
Proof. apply Recover_spec. Qed.
End blob_props.

(** ** Witnesses *)
Section witnesses.
#[local] Existing Instance ex_hashes.
#[local] Existing Instance ex_temp_names.

Definition ex_ref : ObjectRef := mkObjectRef "b" "k" "v1".
Definition ex_written : world * result ObjectMeta :=
  WriteObject ex_bs ex_ref (bytes_reader "hello") ex_world.

Lemma ex_written_ok : is_ok ex_written.2 = true.
Proof. by vm_compute. Qed.
Lemma ex_written_healthy : healthy ex_written.1.
Proof. split; by vm_compute. Qed.

Lemma ex_written_eq : ∃ meta, ex_written = (ex_written.1, Ok meta).
Proof.
  pose proof ex_written_ok as E. destruct ex_written as [w [meta|e]]; simpl in *; [by exists meta|done].
Qed.

(** The source fails in the middle of the copy: the world keeps its objects. *)
Definition ex_torn : world * result ObjectMeta :=
  WriteObject ex_bs ex_ref (mkReader "he" (Some ErrCrashed)) ex_world.
Lemma ex_torn_fails : is_ok ex_torn.2 = false.
Proof. by vm_compute. Qed.

Lemma write_object_atomic_witness :
  is_ok ex_torn.2 = false ∧ temp_only ex_bs (fs_files ex_world) (fs_files ex_torn.1).
Proof.
  pose proof (write_object_atomic ex_bs ex_ref (mkReader "he" (Some ErrCrashed)) ex_world ex_roots_apart) as H.
  fold ex_torn in H. pose proof ex_torn_fails as Hf.
  destruct ex_torn as [w' [meta|err]]; [discriminate Hf|].
  split; [done|]. destruct H as [H|[_ H]]; [exact H|discriminate H].
Defined.

Lemma write_then_read_witness :
  ∃ meta, ReadObject (om_Path meta) (Some (mkByteRange 1 3)) ex_written.1 =
          (ex_written.1, Ok ("ell", None)).
Proof.
  destruct ex_written_eq as [meta E]. exists meta.
  destruct (write_then_read ex_bs ex_ref (bytes_reader "hello") ex_world ex_written.1 meta
    (Some (mkByteRange 1 3)) ex_roots_apart E ex_written_healthy) as (_ & _ & Hr & _).
  apply (Hr (mkByteRange 1 3)); [reflexivity|simpl; lia|simpl; unfold str_len; simpl; lia].
Defined.

Lemma object_paths_distinct_witness :
  ObjectPath ex_bs ex_ref ≠ ObjectPath ex_bs (mkObjectRef "b" "k" "v2").
Proof.
  intros E. apply object_paths_distinct in E as (_ & _ & E); [discriminate E| |reflexivity..].
  assert (forallb (λ s, forallb (λ t, implb (String.eqb (sha256_sum s) (sha256_sum t)) (String.eqb s t))
    [("b" +:+ nul_byte +:+ "k"); "v2"]) [("b" +:+ nul_byte +:+ "k"); "v1"] = true) as Hb
    by reflexivity.
  intros s t Hs Ht Est.
  rewrite forallb_forall in Hb. apply list_elem_of_In, Hb in Hs.
  rewrite forallb_forall in Hs. apply list_elem_of_In, Hs in Ht.
  rewrite Est, String.eqb_refl in Ht. by apply String.eqb_eq.
Defined.

Lemma delete_version_only_witness :
  ∃ w', exec (blob_DeleteObject ex_bs (mkObjectRef "b" "k" "v2") true) ex_written.1 = w' ∧
  fs_files w' !! ObjectPath ex_bs ex_ref = fs_files ex_written.1 !! ObjectPath ex_bs ex_ref.
Proof.
  eexists. split; [reflexivity|]. apply delete_version_only.
  apply (bool_decide_unpack _). vm_compute. exact I.
Defined.

Definition ex_completed : world * result ObjectMeta :=
  CompleteMultipartUpload ex_bs "u1" [2; 1] ex_ref ex_world.

Lemma ex_completed_eq : ∃ meta, ex_completed = (ex_completed.1, Ok meta).
Proof.
  assert (is_ok ex_completed.2 = true) as E by by vm_compute.
  destruct ex_completed as [w [meta|e]]; simpl in *; [by exists meta|done].
Qed.

(** Parts 2 and 1 in this order. *)
Lemma complete_multipart_concatenates_witness :
  ∃ parts, Join parts "" = "cdab" ∧
    fs_files ex_completed.1 !! ObjectPath ex_bs ex_ref = Some (Join parts "").
Proof.
  destruct ex_completed_eq as [meta E].
  destruct (complete_multipart_concatenates ex_bs "u1" [2; 1] ex_ref ex_world _ meta
    ex_roots_apart ex_staging_apart E) as (parts & at_ & Hp & _ & Hf & _).
  exists parts. split; [|exact Hf].
  assert (∀ n c c', fs_files ex_world !! multipartPartPath ex_bs "u1" n = Some c →
    fs_files ex_world !! multipartPartPath ex_bs "u1" n = Some c' → c = c') as Hfun by congruence.
  apply Forall2_cons_inv_l in Hp as (c1 & l1 & H1 & Hp & ->).
  apply Forall2_cons_inv_l in Hp as (c2 & l2 & H2 & Hp & ->). apply Forall2_nil_inv_l in Hp as ->.
  rewrite (Hfun 2 c1 "cd" H1) by reflexivity. rewrite (Hfun 1 c2 "ab" H2) by reflexivity. reflexivity.
Defined.

Lemma ex_recover_ok : is_ok (Recover ex_bs ex_world).2 = true.
Proof. by vm_compute. Qed.

Lemma recover_cleans_witness :
  ∃ w', (Recover ex_bs ex_world).1 = w' ∧
    fs_files w' !! "data/tmp/stale" = None ∧
    fs_files w' !! "data/multipart/u1/part-000001.bin" = None ∧
    fs_files w' !! "data/multipart/u2/part-000001.bin" =
      fs_files ex_world !! "data/multipart/u2/part-000001.bin".
Proof.
  eexists. split; [reflexivity|].
  pose proof (recover_cleans ex_bs ex_world ex_roots_apart ex_staging_apart) as H.
  pose proof ex_recover_ok as Hok. destruct (Recover ex_bs ex_world) as [w' r]. simpl in *.
  destruct H as (_ & Hkeep & Hgone). destruct (Hgone Hok) as [Htmp Hold]. split; [|split].
  - by apply (Htmp _ "stale").
  - apply (Hold "u1"); [|reflexivity..]. apply (bool_decide_unpack _). vm_compute. exact I.
  - apply (Hkeep "u2"); reflexivity.
Defined.
End witnesses.
