(* ===== verification/DirWalk.v ===== *)
(** * Walking a directory tree (package path/filepath)

    [filepath.WalkDir] over the files and directories of FileSystem.v, with directories
    read as the walk comes to them and the entries of each in the order of their names.
    There are no symbolic links; a path is joined from clean elements.  A walk that
    succeeds has been at every file, and with as much fuel as paths are long it ends. *)
From S2P Require Import Prelude GoStrings StringFacts FileSystem BlobFacts.

(** A state that holds a file system. *)
Class HasWorld (St : Type) := {
  world_of : St → world;
  on_world : ∀ {A}, M world A → M St A;
  on_world_spec {A} (m : M world A) s : world_of (on_world m s).1 = (m (world_of s)).1 ∧ (on_world m s).2 = (m (world_of s)).2;
}.

#[export] Instance world_HasWorld : HasWorld world := {|
  world_of w := w;
  on_world A m := m;
  on_world_spec A m w := conj eq_refl eq_refl;
|}.

Definition ErrWalkFuel : error := ErrSentinel "directories too deep".

Section walk.
Context `{!GoRuntime} {St : Type} `{!HasWorld St}.

(** [os.ReadDir]: the names in order, each with whether it is a directory. *)
Definition dir_entries (path : string) : M world (list (string * bool)) :=
  names ← os_ReadDir path;
  gets (λ w, Ok ((λ name, (name, bool_decide (join_path path name ∈ fs_dirs w))) <$> sort_slice String.ltb names)).

Variable fn : string → bool → M St unit.

Fixpoint walkDir (fuel : nat) (path : string) (isDir : bool) : M St unit :=
  match fuel with
  | O => throw ErrWalkFuel
  | S fuel =>
    fn path isDir ;;
    if isDir then
      entries ← on_world (dir_entries path);
      forM entries (λ e, walkDir fuel (join_path path e.1) e.2)
    else mret tt
  end.

Definition WalkDir (fuel : nat) (root : string) : M St unit :=
  on_world (os_Stat root) ;;
  isDir ← on_world (gets (λ w, Ok (bool_decide (root ∈ fs_dirs w))));
  walkDir fuel root isDir.
End walk.

(** ** Paths below a directory *)
Lemma below_path dir p : below dir p = true ↔ ∃ t, p = join_path dir t.
Proof.
  unfold below, join_path. rewrite HasPrefix_spec. split; intros [t ->]; exists t; by rewrite ?str_app_assoc.
Qed.

Lemma join_path_assoc a b c : join_path (join_path a b) c = join_path a (join_path b c).
Proof. unfold join_path. by rewrite !str_app_assoc. Qed.

Lemma drop_join dir t : str_drop (String.length dir + 1) (join_path dir t) = t.
Proof.
  unfold join_path. rewrite <- str_app_assoc. replace (String.length dir + 1)%nat with (String.length (dir +:+ "/"))
    by (rewrite length_str_app; done). apply str_drop_app.
Qed.

Lemma entry_name_Some dir p name : entry_name dir p = Some name ↔ p = join_path dir name ∧ Contains name "/" = false.
Proof.
  unfold entry_name. split.
  - destruct (below dir p) eqn:Hb; [|done]. apply below_path in Hb as [t ->]. rewrite drop_join.
    destruct (Contains t "/") eqn:Hc; [done|]. by intros [= <-].
  - intros [-> Hc]. rewrite (proj2 (below_path _ _)) by eauto. by rewrite drop_join, Hc.
Qed.

(** The first element of what is below a directory. *)
Lemma first_element t : Contains t "/" = false ∨ ∃ name rest, t = join_path name rest ∧ Contains name "/" = false.
Proof.
  induction t as [|c t IH]; [by left|]. rewrite Contains_byte. destruct (Ascii.eqb_spec "/" c) as [<- | Hne].
  - right. by exists "", t.
  - destruct IH as [Hc | (name & rest & -> & Hc)]; [by left|]. right. exists (String c name), rest.
    split; [done|]. rewrite Contains_byte. by destruct (Ascii.eqb_spec "/" c).
Qed.

Lemma fault_point_keeps w w' : fault_point w = (w', Ok tt) → fs_files w' = fs_files w ∧ fs_dirs w' = fs_dirs w.
Proof. unfold fault_point. destruct (fs_crashed w); [done|]. destruct (fs_faults w) as [|[]]; intros ?; by simplify_eq/=. Qed.

Lemma dir_entries_Ok `{!GoRuntime} path w w' es : dir_entries path w = (w', Ok es) →
  fs_files w' = fs_files w ∧ fs_dirs w' = fs_dirs w ∧ path ∈ fs_dirs w ∧
  es = (λ name, (name, bool_decide (join_path path name ∈ fs_dirs w))) <$>
    sort_slice String.ltb (omap (entry_name path) (elements (dom (fs_files w) ∪ fs_dirs w))).
Proof.
  unfold dir_entries, os_ReadDir. intros Hr. apply M_bind_inv in Hr as (w1 & names & Hr & He).
  apply M_bind_inv in Hr as (w2 & [] & Hf & Hn). apply fault_point_keeps in Hf as [Ef Ed].
  unfold gets in Hn, He. case_bool_decide; [|done]. simplify_eq. split_and!; [done|done|by rewrite <-Ed|by rewrite Ef, Ed].
Qed.

Lemma dir_entries_elem `{!GoRuntime} path w w' es : dir_entries path w = (w', Ok es) →
  ∀ e, e ∈ es ↔ Contains e.1 "/" = false ∧ e.2 = bool_decide (join_path path e.1 ∈ fs_dirs w) ∧
    (is_Some (fs_files w !! join_path path e.1) ∨ join_path path e.1 ∈ fs_dirs w).
Proof.
  intros (_ & _ & _ & ->)%dir_entries_Ok [name b]. rewrite list_elem_of_fmap. simpl. split.
  - intros (n & [= -> ->] & Hn). rewrite sort_slice_perm, list_elem_of_omap in Hn.
    destruct Hn as (p & Hp & [-> Hc]%entry_name_Some). split_and!; [done..|].
    apply elem_of_elements, elem_of_union in Hp as [Hp | Hp]; [left|by right]. by apply elem_of_dom.
  - intros (Hc & -> & Hp). exists name. split; [done|]. rewrite sort_slice_perm, list_elem_of_omap.
    exists (join_path path name). split; [|by apply entry_name_Some].
    apply elem_of_elements, elem_of_union. destruct Hp; [left; by apply elem_of_dom|by right].
Qed.

(** Calls that change no file and no directory. *)
Definition still {A} (m : M world A) : Prop := ∀ w, fs_files (m w).1 = fs_files w ∧ fs_dirs (m w).1 = fs_dirs w.

Lemma still_bind {A B} (m : M world A) (f : A → M world B) : still m → (∀ x, still (f x)) → still (mbind f m).
Proof.
  intros Hm Hf w. specialize (Hm w). unfold mbind, M_bind. destruct (m w) as [w1 [x|e]]; simpl in *; [|done].
  destruct (Hf x w1) as [E1 E2]. destruct Hm as [<- <-]. done.
Qed.
Lemma still_gets {A} (f : world → result A) : still (gets f).
Proof. by intros w. Qed.
Lemma still_fault_point : still fault_point.
Proof. intros w. unfold fault_point. destruct (fs_crashed w); [done|]. by destruct (fs_faults w) as [|[]]. Qed.
Lemma still_ReadDir p : still (os_ReadDir p).
Proof. apply still_bind; [apply still_fault_point|intros _; apply still_gets]. Qed.
Lemma still_Stat p : still (os_Stat p).
Proof. apply still_bind; [apply still_fault_point|intros _; apply still_gets]. Qed.
Lemma still_entries `{!GoRuntime} p : still (dir_entries p).
Proof. apply still_bind; [apply still_ReadDir|intros names; apply still_gets]. Qed.

(** ** A walk over a tree that stays as it is *)
Section covers.
Context `{!GoRuntime} {St : Type} `{!HasWorld St}.
Variable fn : string → bool → M St unit.
Variable root : string.
(** The files and directories below the root. *)
Variable F0 : gmap string string.
Variable D0 : gset string.

Definition in_tree (p : string) : Prop := p = root ∨ below root p = true.

(** What is at a path: a file, or a directory. *)
Definition kind (p : string) (isDir : bool) : Prop := if isDir then p ∈ D0 else is_Some (F0 !! p).

(** Everything is in directories up to the root, and a file is none. *)
Definition tree_ok : Prop := ∀ p b, kind p b → below root p = true →
  b = bool_decide (p ∈ D0) ∧ ∀ q, in_tree q → below q p = true → q ∈ D0.

Definition tree_kept (s : St) : Prop := ∀ p, in_tree p →
  fs_files (world_of s) !! p = F0 !! p ∧ (p ∈ fs_dirs (world_of s) ↔ p ∈ D0).

Variable I : St → Prop.
Variable done_at : string → bool → St → Prop.
Definition onward (s s' : St) : Prop := I s' ∧ ∀ p b, done_at p b s → done_at p b s'.

Hypothesis tree : tree_ok.
Hypothesis I_kept : ∀ s, I s → tree_kept s.
Hypothesis still_step : ∀ A (m : M world A) s s' r, still m → I s → on_world m s = (s', r) → onward s s'.
Hypothesis dir_step : ∀ p s s', p ∈ D0 → in_tree p → I s → fn p true s = (s', Ok tt) → onward s s' ∧ done_at p true s'.
Hypothesis file_step : ∀ p s s', is_Some (F0 !! p) → below root p = true → I s → fn p false s = (s', Ok tt) →
  onward s s' ∧ done_at p false s'.

Lemma onward_trans s1 s2 s3 : onward s1 s2 → onward s2 s3 → onward s1 s3.
Proof. intros [_ H1] [Hi H2]. split; [done|]. eauto. Qed.

Lemma in_tree_join path name : in_tree path → below root (join_path path name) = true.
Proof.
  intros [-> | Hb]; [apply below_path; eauto|]. eapply below_trans; [exact Hb|]. apply below_path. eauto.
Qed.

(** What reading a directory of the tree gives. *)
Lemma entries_of path s s' es : I s → in_tree path → on_world (dir_entries path) s = (s', Ok es) →
  ∀ e, e ∈ es ↔ Contains e.1 "/" = false ∧ e.2 = bool_decide (join_path path e.1 ∈ D0) ∧
    (is_Some (F0 !! join_path path e.1) ∨ join_path path e.1 ∈ D0).
Proof.
  intros Hi Hp Hr. pose proof (on_world_spec (dir_entries path) s) as [_ Hres]. rewrite Hr in Hres. simpl in Hres.
  pose proof (I_kept _ Hi) as Hk. unfold tree_kept in Hk.
  destruct (dir_entries path (world_of s)) as [w' r] eqn:Hd. simpl in Hres. subst r.
  intros e. rewrite (dir_entries_elem _ _ _ _ Hd e).
  destruct (Hk (join_path path e.1)) as [-> Hdir]; [right; by apply in_tree_join|].
  by rewrite (bool_decide_ext _ _ Hdir), Hdir.
Qed.

(** Where an entry leads. *)
Definition entry_ok (path : string) (isDir : bool) : Prop :=
  in_tree path ∧ kind path isDir ∧ (isDir = false → below root path = true).

Definition covered (path : string) (isDir : bool) (s : St) : Prop :=
  ∀ p b, kind p b → (p = path ∧ b = isDir ∨ isDir = true ∧ below path p = true) → done_at p b s.

Lemma entry_ok_child path s s' es e : I s → in_tree path → on_world (dir_entries path) s = (s', Ok es) → e ∈ es →
  entry_ok (join_path path e.1) e.2.
Proof.
  intros Hi Hin Hr (Hc & Hb & Hx)%(entries_of _ _ _ _ Hi Hin Hr). split; [right; by apply in_tree_join|].
  split; [|intros _; by apply in_tree_join]. unfold kind. rewrite Hb. case_bool_decide; [done|]. by destruct Hx.
Qed.

(** What is below a directory is an entry of it or below an entry. *)
Lemma below_entry path s s' es p b : I s → in_tree path → on_world (dir_entries path) s = (s', Ok es) → kind p b → below path p = true →
  ∃ e, e ∈ es ∧ (p = join_path path e.1 ∧ b = e.2 ∨ e.2 = true ∧ below (join_path path e.1) p = true).
Proof.
  intros Hi Hin Hr Hk Hb. pose proof (entries_of _ _ _ _ Hi Hin Hr) as Hes. destruct (proj1 (below_path _ _) Hb) as [t ->].
  assert (Hbr : below root (join_path path t) = true) by (destruct Hin as [<- | Hin]; [done|by eapply below_trans]).
  destruct (tree _ _ Hk Hbr) as [Hbool Habove]. destruct (first_element t) as [Hc | (name & rest & -> & Hc)].
  - exists (t, b). split; [|by left]. apply Hes. simpl. split_and!; [done..|]. destruct b; [by right|by left].
  - assert (Hd : join_path path name ∈ D0).
    { apply Habove; [right; by apply in_tree_join|]. apply below_path. exists rest. by rewrite join_path_assoc. }
    exists (name, true). split; [|right; split; [done|]; apply below_path; exists rest; by rewrite join_path_assoc].
    apply Hes. simpl. rewrite bool_decide_true by done. split_and!; [done..|by right].
Qed.

Lemma walkDir_covers fuel path isDir s s' : entry_ok path isDir → I s → walkDir fn fuel path isDir s = (s', Ok tt) →
  onward s s' ∧ covered path isDir s'.
Proof.
  revert path isDir s s'. induction fuel as [|fuel IH]; intros path isDir s s' (Hin & Hent & Hbel) Hi Hw; [done|]. simpl in Hw.
  apply M_bind_inv in Hw as (s1 & [] & Hfn & Hw). destruct isDir.
  2: { unfold mret, M_ret in Hw. simplify_eq. destruct (file_step _ _ _ Hent (Hbel eq_refl) Hi Hfn) as [Ho Hd].
    split; [done|]. intros p b _ [[-> ->] | [? _]]; done. }
  destruct (dir_step _ _ _ Hent Hin Hi Hfn) as [Ho1 Hd1]. apply M_bind_inv in Hw as (s2 & es & Hr & Hw).
  pose proof (still_step _ _ _ _ _ (still_entries path) (proj1 Ho1) Hr) as Ho2.
  assert (Hall : ∀ l s2 s', (∀ e, e ∈ l → e ∈ es) → I s2 → forM l (λ e, walkDir fn fuel (join_path path e.1) e.2) s2 = (s', Ok tt) →
    onward s2 s' ∧ ∀ e, e ∈ l → covered (join_path path e.1) e.2 s').
  { clear Hw. induction l as [|e l IHl]; intros t t' Hl Hit Hf; simpl in Hf.
    - unfold mret, M_ret in Hf. simplify_eq. split; [by split|]. intros e He. by apply elem_of_nil in He.
    - apply M_bind_inv in Hf as (t1 & [] & He & Hf).
      pose proof (entry_ok_child _ _ _ _ e (proj1 Ho1) Hin Hr (Hl e ltac:(by left))) as Hok.
      destruct (IH _ _ _ _ Hok Hit He) as [Ho Hcov].
      destruct (IHl t1 t') as [Ho' Hcov']; [intros; apply Hl; by right|apply Ho|done|].
      split; [by eapply onward_trans|]. intros e' [-> | He']%elem_of_cons; [|by apply Hcov'].
      intros p b Hp Hpath. apply Ho', (Hcov p b Hp Hpath). }
  destruct (Hall es s2 s') as [Ho3 Hcov]; [done|apply Ho2|done|].
  split; [by eapply onward_trans; [|eapply onward_trans]|]. intros p b Hp [[-> ->] | [_ Hb]].
  { by apply Ho3, Ho2. }
  destruct (below_entry _ _ _ _ p b (proj1 Ho1) Hin Hr Hp Hb) as (e & He & Hpe). by apply (Hcov e He).
Qed.

(** Fuel for every path of the tree that is as long as [path] or longer. *)
Definition enough (fuel : nat) (path : string) : Prop := ∀ q, in_tree q → is_Some (F0 !! q) ∨ q ∈ D0 →
  (String.length q < String.length path + fuel)%nat.

Lemma length_join a b : String.length (join_path a b) = S (String.length a + String.length b).
Proof. unfold join_path. rewrite !length_str_app. simpl. lia. Qed.

Lemma enough_positive fuel path isDir : entry_ok path isDir → enough fuel path → fuel ≠ O.
Proof.
  intros (Hin & Hent & _) He ->. specialize (He path Hin). destruct isDir; [specialize (He (or_intror Hent))|specialize (He (or_introl Hent))]; lia.
Qed.

(** With enough fuel, more makes no difference: the walk does not stop short. *)
Lemma walkDir_fuel fuel fuel' path isDir s : entry_ok path isDir → I s → enough fuel path → enough fuel' path →
  walkDir fn fuel path isDir s = walkDir fn fuel' path isDir s.
Proof.
  revert fuel' path isDir s. induction fuel as [|fuel IH]; intros fuel' path isDir s Hent Hi He He'; [by destruct (enough_positive _ _ _ Hent He)|].
  destruct fuel' as [|fuel']; [by destruct (enough_positive _ _ _ Hent He')|].
  simpl. unfold mbind at 1 3, M_bind at 1 3. destruct (fn path isDir s) as [s1 [[]|e]] eqn:Hfn; [|done].
  destruct isDir; [|done]. destruct Hent as (Hin & Hent & _).
  destruct (dir_step _ _ _ Hent Hin Hi Hfn) as [Ho1 _]. unfold mbind at 1 2, M_bind at 1 2.
  destruct (on_world (dir_entries path) s1) as [s2 [es|e]] eqn:Hr; [|done].
  pose proof (still_step _ _ _ _ _ (still_entries path) (proj1 Ho1) Hr) as Ho2.
  assert (Hall : ∀ l t, (∀ e, e ∈ l → e ∈ es) → I t →
    forM l (λ e, walkDir fn fuel (join_path path e.1) e.2) t = forM l (λ e, walkDir fn fuel' (join_path path e.1) e.2) t).
  { induction l as [|e l IHl]; intros t Hl Hit; [done|]. simpl.
    pose proof (entry_ok_child _ _ _ _ e (proj1 Ho1) Hin Hr (Hl e ltac:(by left))) as Hok.
    assert (∀ n, enough (S n) path → enough n (join_path path e.1)) as Hless.
    { intros n Hn q Hq Hq'. specialize (Hn q Hq Hq'). rewrite length_join. lia. }
    unfold mbind, M_bind. rewrite (IH fuel' _ _ _ Hok Hit (Hless _ He) (Hless _ He')).
    destruct (walkDir fn fuel' (join_path path e.1) e.2 t) as [t1 [[]|err]] eqn:Hw; [|done].
    apply IHl; [intros; apply Hl; by right|]. by apply (walkDir_covers _ _ _ _ _ Hok Hit Hw). }
  apply Hall; [done|apply Ho2].
Qed.

Lemma WalkDir_covers fuel s s' : root ∈ D0 → I s → WalkDir fn fuel root s = (s', Ok tt) → onward s s' ∧ covered root true s'.
Proof.
  intros Hroot Hi Hw. unfold WalkDir in Hw. apply M_bind_inv in Hw as (s1 & [] & H1 & Hw).
  pose proof (still_step _ _ _ _ _ (still_Stat root) Hi H1) as Ho1.
  apply M_bind_inv in Hw as (s2 & b & H2 & Hw). pose proof (still_step _ _ _ _ _ (still_gets _) (proj1 Ho1) H2) as Ho2.
  assert (b = true) as ->.
  { pose proof (on_world_spec (gets (λ w, Ok (bool_decide (root ∈ fs_dirs w)))) s1) as [_ Hres]. rewrite H2 in Hres. simpl in Hres.
    injection Hres as ->. apply bool_decide_eq_true. by apply (I_kept _ (proj1 Ho1)); [left|]. }
  destruct (walkDir_covers fuel root true s2 s') as [Ho3 Hcov]; [|apply Ho2|done|].
  - split; [by left|]. by split.
  - split; [|done]. eapply onward_trans; [exact Ho1|]. by eapply onward_trans.
Qed.
End covers.

(** As much fuel as any path is long. *)
Definition walk_fuel (w : world) : nat :=
  S (foldr (λ p n, Nat.max (String.length p) n) 0%nat (elements (dom (fs_files w) ∪ fs_dirs w))).

Lemma walk_fuel_enough w p : is_Some (fs_files w !! p) ∨ p ∈ fs_dirs w → (String.length p < walk_fuel w)%nat.
Proof.
  intros Hp. unfold walk_fuel. assert (p ∈ elements (dom (fs_files w) ∪ fs_dirs w)) as Hin.
  { apply elem_of_elements, elem_of_union. destruct Hp; [left; by apply elem_of_dom|by right]. }
  revert Hin. generalize (elements (dom (fs_files w) ∪ fs_dirs w)). intros l. induction l as [|q l IH]; simpl.
  - by intros ?%elem_of_nil.
  - intros [-> | Hin]%elem_of_cons; [lia|]. specialize (IH Hin). lia.
Qed.
