(* ===== verification/Listing.v ===== *)
(** * Object listings (src/internal/server/s3_api.go, sqlite_store.go)

    ListObjectsV2 in its two implementations: the S3 handler pages over the
    objects of a store ([list_page_objects]), or hands the page to a store that
    can seek ([sqliteListObjectsV2], the query and loop of the SQL backend); the
    continuation tokens; ListObjectVersions with its markers. *)
From S2P Require Import Prelude GoStrings Base64 Model.

(** [encoding/json] of a struct: the text and the reading back, which is exact
    for the values the text can represent. *)
Class JsonCodec (A : Type) := {
  json_Marshal : A → string;
  json_Unmarshal : string → option A;
  json_nonempty a : json_Marshal a ≠ "";
  json_representable : A → Prop;
  json_round_trip a : json_representable a → json_Unmarshal (json_Marshal a) = Some a;
}.

(** ** Continuation tokens *)
Record listV2ContinuationToken := mkToken {
  tk_Prefix : string;
  tk_Delimiter : string;
  tk_After : string;
}.

Section tokens.
Context `{!JsonCodec listV2ContinuationToken}.

Definition encodeListContinuationToken (prefix delimiter after : string) : string :=
  b64_encode RawURLEncoding (json_Marshal (mkToken prefix delimiter after)).

Definition decodeListContinuationToken (token prefix delimiter : string) : result string :=
  if String.eqb token "" then Ok ""
  else match b64_decode RawURLEncoding token with
  | None => Err (Errorf "illegal base64 data" [])
  | Some payload =>
    match json_Unmarshal payload with
    | None => Err (Errorf "json" [])
    | Some decoded =>
      if negb (String.eqb (tk_Prefix decoded) prefix)
         || negb (String.eqb (tk_Delimiter decoded) delimiter)
         || String.eqb (tk_After decoded) ""
      then Err (Errorf "token mismatch" [])
      else Ok (tk_After decoded)
    end
  end.
End tokens.

(** [max-keys]: the default on an empty, malformed or out of range value. *)
Definition parse_max_keys (v : string) : Z :=
  if String.eqb v "" then 1000
  else match Atoi v with
       | Some parsed => if (0 <=? parsed) && (parsed <=? 1000) then parsed else 1000
       | None => 1000
       end.

(** ** Entries *)

(** The common prefix a key falls under: the part up to the end of the first
    delimiter after the prefix. *)
Definition common_prefix (prefix delimiter key : string) : option string :=
  if String.eqb delimiter "" then None
  else let tail := TrimPrefix key prefix in
       match Index tail delimiter with
       | Some idx => Some (prefix +:+ str_take (idx + String.length delimiter) tail)
       | None => None
       end.

(** One round of the loop of [listV2EntriesFromObjects]. *)
Definition list_step (prefix delimiter : string)
    (acc : list ListObjectsV2Entry * gset string) (obj : ObjectVersion)
    : list ListObjectsV2Entry * gset string :=
  let '(entries, commonPrefixes) := acc in
  if negb (String.eqb prefix "") && negb (HasPrefix (ov_Key obj) prefix) then acc
  else match common_prefix prefix delimiter (ov_Key obj) with
       | Some cp =>
         if bool_decide (cp ∈ commonPrefixes) then acc
         else (entries ++ [mkListObjectsV2Entry cp None], {[cp]} ∪ commonPrefixes)
       | None => (entries ++ [mkListObjectsV2Entry (ov_Key obj) (Some obj)], commonPrefixes)
       end.

Definition less_entry (x y : ListObjectsV2Entry) : bool := String.ltb (le_Value x) (le_Value y).
Definition less_object_key (x y : ObjectVersion) : bool := String.ltb (ov_Key x) (ov_Key y).

Section entries.
Context `{!GoRuntime}.

Definition listV2EntriesFromObjects (objects : list ObjectVersion) (prefix delimiter : string)
    : list ListObjectsV2Entry :=
  sort_slice less_entry (fold_left (list_step prefix delimiter) objects ([], ∅)).1.
End entries.

(** ** Pages

    [quotedETag]: the ETag in double quotes unless it has them already (the
    quote character is byte 34). *)
Definition dquote : string := String (ascii_of_nat 34) "".
Definition quotedETag (etag : string) : string :=
  if HasPrefix etag dquote && HasSuffix etag dquote then etag
  else dquote +:+ etag +:+ dquote.

(** The ListBucketResult document. *)
Record listContent := mkListContent {
  lc_Key : string;
  lc_Size : Z;
  lc_ETag : string;
}.

Record listResult := mkListResult {
  lb_Name : string;
  lb_Prefix : string;
  lb_Delimiter : string;
  lb_MaxKeys : Z;
  lb_KeyCount : Z;
  lb_IsTruncated : bool;
  lb_ContinuationToken : string;
  lb_NextContinuationToken : string;
  lb_Contents : list listContent;
  lb_CommonPrefixes : list string;
}.

Definition empty_listResult (bucket prefix delimiter : string) (maxKeys : Z)
    (continuation : string) : listResult :=
  mkListResult bucket prefix delimiter maxKeys 0 false continuation "" [] [].

(** [out.Contents = append(...)] or [out.CommonPrefixes = append(...)], and
    [out.KeyCount++]. *)
Definition add_entry (out : listResult) (entry : ListObjectsV2Entry) : listResult :=
  let '(contents, prefixes) :=
    match le_Object entry with
    | Some obj => (lb_Contents out ++
        [mkListContent (le_Value entry) (ov_Size obj) (quotedETag (ov_ETag obj))],
        lb_CommonPrefixes out)
    | None => (lb_Contents out, lb_CommonPrefixes out ++ [le_Value entry])
    end in
  mkListResult (lb_Name out) (lb_Prefix out) (lb_Delimiter out) (lb_MaxKeys out)
    (lb_KeyCount out + 1) (lb_IsTruncated out) (lb_ContinuationToken out)
    (lb_NextContinuationToken out) contents prefixes.

Definition set_truncated (token : string) (out : listResult) : listResult :=
  mkListResult (lb_Name out) (lb_Prefix out) (lb_Delimiter out) (lb_MaxKeys out)
    (lb_KeyCount out) true (lb_ContinuationToken out) token (lb_Contents out)
    (lb_CommonPrefixes out).

Section pages.
Context `{!GoRuntime} `{!JsonCodec listV2ContinuationToken}.

(** The entries from [startIdx] on: all of them without a start, otherwise from
    the first entry above it. *)
Fixpoint from_start (startAfter : string) (entries : list ListObjectsV2Entry)
    : list ListObjectsV2Entry :=
  match entries with
  | [] => []
  | entry :: rest =>
    if String.ltb startAfter (le_Value entry) then entries else from_start startAfter rest
  end.

Definition start_entries (startAfter : string) (entries : list ListObjectsV2Entry)
    : list ListObjectsV2Entry :=
  if String.eqb startAfter "" then entries else from_start startAfter entries.

(** [for i := startIdx; i < len(entries) && out.KeyCount < maxKeys; i++] *)
Fixpoint list_loop (prefix delimiter : string) (maxKeys : Z)
    (entries : list ListObjectsV2Entry) (out : listResult) : listResult :=
  match entries with
  | [] => out
  | entry :: rest =>
    if negb (lb_KeyCount out <? maxKeys) then out
    else
      let out := add_entry out entry in
      let out :=
        if (lb_KeyCount out =? maxKeys) && bool_decide (rest ≠ [])
        then set_truncated (encodeListContinuationToken prefix delimiter (le_Value entry)) out
        else out in
      list_loop prefix delimiter maxKeys rest out
  end.

(** The page over the objects of a store without seek. *)
Definition list_page_objects (objects : list ObjectVersion) (startAfter : string)
    (out : listResult) : listResult :=
  let objects := sort_slice less_object_key objects in
  let entries := listV2EntriesFromObjects objects (lb_Prefix out) (lb_Delimiter out) in
  list_loop (lb_Prefix out) (lb_Delimiter out) (lb_MaxKeys out)
    (start_entries startAfter entries) out.

(** The page a store with seek returned. *)
Definition list_page_pager (page : ListObjectsV2Result) (out : listResult) : listResult :=
  let out := fold_left add_entry (lr_Entries page) out in
  if lr_IsTruncated page
  then set_truncated (encodeListContinuationToken (lb_Prefix out) (lb_Delimiter out)
                        (lr_NextAfter page)) out
  else out.
End pages.

(** ** The SQL backend's page *)

(** The least string above every string with the prefix, if there is one. *)
Fixpoint upper_bound_rev (rev_prefix : string) : option string :=
  match rev_prefix with
  | "" => None
  | String c rest =>
    if (N_of_ascii c =? 255)%N then upper_bound_rev rest
    else Some (String.rev (String (ascii_of_N (N_of_ascii c + 1)) rest))
  end.

Definition stringPrefixUpperBound (prefix : string) : option string :=
  upper_bound_rev (String.rev prefix).

Section sql_pages.
Context `{!GoRuntime}.

(** The rows of the query: the latest visible version of each key of the bucket
    within the bounds, by key. *)
Definition sql_list_rows (visible : list ObjectVersion) (opts : ListObjectsV2Options)
    : list ObjectVersion :=
  let in_bounds obj :=
    negb (String.ltb (ov_Key obj) (lo_Prefix opts)) &&
    String.ltb (lo_StartAfter opts) (ov_Key obj) &&
    match stringPrefixUpperBound (lo_Prefix opts) with
    | Some upper => String.ltb (ov_Key obj) upper
    | None => true
    end in
  sort_slice less_object_key (List.filter in_bounds visible).

(** [continue] on the keys below the start when it ends with the delimiter. *)
Definition sql_skip (opts : ListObjectsV2Options) (obj : ObjectVersion) : bool :=
  negb (String.eqb (lo_Delimiter opts) "") && negb (String.eqb (lo_StartAfter opts) "") &&
  HasSuffix (lo_StartAfter opts) (lo_Delimiter opts) &&
  HasPrefix (ov_Key obj) (lo_StartAfter opts).

(** [for rows.Next()] *)
Fixpoint sql_list_loop (opts : ListObjectsV2Options) (maxKeys : Z) (rows : list ObjectVersion)
    (entries : list ListObjectsV2Entry) (commonPrefixes : gset string) : ListObjectsV2Result :=
  match rows with
  | [] => mkListObjectsV2Result entries false ""
  | obj :: rows =>
    if sql_skip opts obj then sql_list_loop opts maxKeys rows entries commonPrefixes
    else
      let emit entry commonPrefixes :=
        if Z.of_nat (length entries) =? maxKeys
        then mkListObjectsV2Result entries true
               (match last entries with Some e => le_Value e | None => "" end)
        else sql_list_loop opts maxKeys rows (entries ++ [entry]) commonPrefixes in
      match common_prefix (lo_Prefix opts) (lo_Delimiter opts) (ov_Key obj) with
      | Some cp =>
        if bool_decide (cp ∈ commonPrefixes)
        then sql_list_loop opts maxKeys rows entries commonPrefixes
        else emit (mkListObjectsV2Entry cp None) ({[cp]} ∪ commonPrefixes)
      | None => emit (mkListObjectsV2Entry (ov_Key obj) (Some obj)) commonPrefixes
      end
  end.

Definition sqliteListObjectsV2 (visible : list ObjectVersion) (opts : ListObjectsV2Options)
    : ListObjectsV2Result :=
  let maxKeys := Z.min 1000 (Z.max 0 (lo_MaxKeys opts)) in
  if maxKeys =? 0 then mkListObjectsV2Result [] false ""
  else sql_list_loop opts maxKeys (sql_list_rows visible opts) [] ∅.
End sql_pages.

(** ** ListObjectVersions *)
Record versionEntry := mkVersionEntry {
  ve_Key : string;
  ve_VersionID : string;
  ve_IsLatest : bool;
  ve_LastModified : Z;
  ve_ETag : string;
  ve_Size : Z;
}.

Record listVersionsResult := mkListVersionsResult {
  lv_Name : string;
  lv_Prefix : string;
  lv_KeyMarker : string;
  lv_VersionIDMarker : string;
  lv_MaxKeys : Z;
  lv_IsTruncated : bool;
  lv_NextKeyMarker : string;
  lv_NextVersionIDMarker : string;
  lv_Versions : list versionEntry;
  lv_DeleteMarkers : list versionEntry;
}.

(** [latestByKey]: the id of the first version of each key. *)
Definition latest_by_key (versions : list ObjectVersion) : gmap string string :=
  fold_left (λ m v, match m !! ov_Key v with
                    | Some _ => m
                    | None => <[ov_Key v := ov_VersionID v]> m
                    end) versions ∅.

(** The entries from [start] on: past the version the markers name, or from the
    first key above the key marker. *)
Fixpoint versions_from (keyMarker versionIDMarker : string) (entries : list ObjectVersion)
    : list ObjectVersion :=
  match entries with
  | [] => []
  | version :: rest =>
    let at_marker := String.eqb (ov_Key version) keyMarker &&
                     String.eqb (ov_VersionID version) versionIDMarker in
    if String.ltb keyMarker (ov_Key version)
       || (String.eqb (ov_Key version) keyMarker && negb (String.eqb versionIDMarker "")
           && String.eqb (ov_VersionID version) versionIDMarker)
    then (if at_marker then rest else entries)
    else versions_from keyMarker versionIDMarker rest
  end.

(** [LastModified] is kept as the instant; the document shows it in RFC 3339. *)
Definition version_entry (latestByKey : gmap string string) (version : ObjectVersion)
    : versionEntry :=
  let is_latest := String.eqb (default "" (latestByKey !! ov_Key version)) (ov_VersionID version) in
  if ov_DeleteMarker version
  then mkVersionEntry (ov_Key version) (ov_VersionID version) is_latest (ov_CreatedAt version) "" 0
  else mkVersionEntry (ov_Key version) (ov_VersionID version) is_latest (ov_CreatedAt version)
         (quotedETag (ov_ETag version)) (ov_Size version).

(** [for i := start; i < len(entries) && i < start+maxKeys; i++], with [todo] the
    rounds left. *)
Fixpoint versions_loop (latestByKey : gmap string string) (todo : nat)
    (entries : list ObjectVersion) (out : listVersionsResult) : listVersionsResult :=
  match todo, entries with
  | S todo, version :: rest =>
    let entry := version_entry latestByKey version in
    let '(vs, ds) := if ov_DeleteMarker version
      then (lv_Versions out, lv_DeleteMarkers out ++ [entry])
      else (lv_Versions out ++ [entry], lv_DeleteMarkers out) in
    let truncated := (todo =? 0)%nat && bool_decide (rest ≠ []) in
    let out := mkListVersionsResult (lv_Name out) (lv_Prefix out) (lv_KeyMarker out)
      (lv_VersionIDMarker out) (lv_MaxKeys out)
      (if truncated then true else lv_IsTruncated out)
      (if truncated then ov_Key version else lv_NextKeyMarker out)
      (if truncated then ov_VersionID version else lv_NextVersionIDMarker out) vs ds in
    if truncated then out else versions_loop latestByKey todo rest out
  | _, _ => out
  end.

Definition list_versions_page (versions : list ObjectVersion)
    (bucket prefix keyMarker versionIDMarker : string) (maxKeys : Z) : listVersionsResult :=
  let out := mkListVersionsResult bucket prefix keyMarker versionIDMarker maxKeys
               false "" "" [] [] in
  let latestByKey := latest_by_key versions in
  let entries := List.filter (λ v, String.eqb prefix "" || HasPrefix (ov_Key v) prefix) versions in
  let from := if String.eqb keyMarker "" then entries
              else versions_from keyMarker versionIDMarker entries in
  if maxKeys =? 0
  then (if bool_decide (from ≠ [])
        then mkListVersionsResult bucket prefix keyMarker versionIDMarker maxKeys
               true keyMarker versionIDMarker [] []
        else out)
  else versions_loop latestByKey (Z.to_nat maxKeys) from out.
