(* ===== verification/ListingProps.v ===== *)
(** * Properties of the listings

    Pages of ListObjectsV2 follow one another without loss or repetition, the
    SQL page is the page of the handler, and the upper bound of a prefix. *)
From S2P Require Import Prelude GoStrings StringFacts Base64 Model Listing.

(** ** The value of an entry *)
Definition value_of (p d key : string) : string :=
  match common_prefix p d key with Some cp => cp | None => key end.

Definition entry_of (p d : string) (obj : ObjectVersion) : ListObjectsV2Entry :=
  match common_prefix p d (ov_Key obj) with
  | Some cp => mkListObjectsV2Entry cp None
  | None => mkListObjectsV2Entry (ov_Key obj) (Some obj)
  end.

Lemma value_entry_of p d obj : le_Value (entry_of p d obj) = value_of p d (ov_Key obj).
Proof. unfold entry_of, value_of. by destruct (common_prefix _ _ _). Qed.

Lemma common_prefix_Some p d key cp :
  HasPrefix key p = true →
  common_prefix p d key = Some cp ↔
  d ≠ "" ∧ ∃ tail i, key = p +:+ tail ∧ Index tail d = Some i ∧
    cp = p +:+ str_take (i + String.length d) tail.
Proof.
  intros [tail ->]%HasPrefix_spec. unfold common_prefix. rewrite TrimPrefix_app.
  destruct (String.eqb_spec d "") as [->|Hd].
  - split; [done|]. by intros [? _].
  - destruct (Index tail d) as [i|] eqn:Ei.
    + split; [intros [= <-]; split; [done|]; by exists tail, i|].
      intros (_ & tail' & i' & Ht & Hi & ->). apply String.app_inj in Ht as <-. congruence.
    + split; [done|]. intros (_ & tail' & i' & Ht & Hi & ->).
      apply String.app_inj in Ht as <-. congruence.
Qed.

Lemma common_prefix_of_prefix p d key cp :
  HasPrefix key p = true → common_prefix p d key = Some cp → HasPrefix key cp = true.
Proof.
  intros Hp Hc. apply common_prefix_Some in Hc as (_ & tail & i & -> & Hi & ->); [|done].
  rewrite HasPrefix_app_same. apply HasPrefix_spec. eexists. symmetry. apply take_drop_str.
Qed.

Lemma common_prefix_has_prefix p d key cp :
  HasPrefix key p = true → common_prefix p d key = Some cp → HasPrefix cp p = true.
Proof.
  intros Hp Hc. apply common_prefix_Some in Hc as (_ & tail & i & -> & Hi & ->); [|done].
  apply HasPrefix_app.
Qed.

(** A common prefix is its own common prefix, and that of every key below it. *)
Lemma common_prefix_below p d key cp key' :
  HasPrefix key p = true → common_prefix p d key = Some cp →
  HasPrefix key' cp = true → common_prefix p d key' = Some cp.
Proof.
  intros Hp Hc Hk'.
  assert (HasPrefix key' p = true) as Hp'.
  { eapply HasPrefix_trans; [done|]. by eapply common_prefix_has_prefix. }
  apply common_prefix_Some in Hc as (Hd & tail & i & -> & Hi & ->); [|done].
  apply common_prefix_Some; [done|]. split; [done|].
  apply HasPrefix_spec in Hk' as [u ->]. rewrite str_app_assoc.
  eexists _, i. split; [done|].
  assert (Index (str_take (i + String.length d) tail +:+ u) d = Some i) as Hi'.
  { apply Index_app. by apply Index_take. }
  split; [done|]. f_equal.
  assert (String.length (str_take (i + String.length d) tail) = (i + String.length d)%nat) as Hlen.
  { apply Index_Some in Hi as [_ Hl]. revert Hl. generalize (i + String.length d)%nat as n.
    clear. intros n. revert n. induction tail as [|c t IH]; intros [|n] Hn; simpl in *; try lia.
    f_equal. apply IH. lia. }
  rewrite <-Hlen at 2. by rewrite str_take_app.
Qed.

Lemma value_of_prefix p d key :
  HasPrefix key p = true → HasPrefix key (value_of p d key) = true.
Proof.
  intros Hp. unfold value_of. destruct (common_prefix p d key) eqn:E.
  - by eapply common_prefix_of_prefix. - apply HasPrefix_refl.
Qed.

Lemma value_of_not_after p d key :
  HasPrefix key p = true → String.ltb key (value_of p d key) = false.
Proof.
  intros [t Ht]%(value_of_prefix p d)%HasPrefix_spec. rewrite Ht at 1. apply prefix_not_after.
Qed.

(** Values follow the order of the keys. *)
Lemma value_of_mono p d k1 k2 :
  HasPrefix k1 p = true → HasPrefix k2 p = true → String.ltb k1 k2 = true →
  value_of p d k1 = value_of p d k2 ∨ String.ltb (value_of p d k1) (value_of p d k2) = true.
Proof.
  intros H1 H2 Hlt. pose proof (value_of_not_after p d k1 H1) as Hv1.
  destruct (common_prefix p d k2) as [cp2|] eqn:E2.
  - destruct (String.ltb k1 cp2) eqn:Elt.
    + right. unfold value_of at 2. rewrite E2. by eapply string_ltb_le_lt_trans.
    + left. pose proof (common_prefix_of_prefix _ _ _ _ H2 E2) as [t ->]%HasPrefix_spec.
      pose proof (between_prefix _ _ _ Elt Hlt) as Hb.
      pose proof (common_prefix_below _ _ _ _ _ H2 E2 Hb) as E1.
      unfold value_of. by rewrite E1, E2.
  - right. unfold value_of at 2. rewrite E2. by eapply string_ltb_le_lt_trans.
Qed.

(** ** The entries as a filter of the objects *)
Fixpoint build (p d : string) (seen : gset string) (objs : list ObjectVersion)
    : list ListObjectsV2Entry :=
  match objs with
  | [] => []
  | obj :: objs =>
    if negb (HasPrefix (ov_Key obj) p) then build p d seen objs
    else match common_prefix p d (ov_Key obj) with
         | Some cp => if bool_decide (cp ∈ seen) then build p d seen objs
                      else entry_of p d obj :: build p d ({[cp]} ∪ seen) objs
         | None => entry_of p d obj :: build p d seen objs
         end
  end.

Lemma no_prefix_test p key : negb (String.eqb p "") && negb (HasPrefix key p) = negb (HasPrefix key p).
Proof.
  destruct (String.eqb_spec p "") as [->|]; simpl; [|done]. by rewrite HasPrefix_nil.
Qed.

Lemma fold_list_step p d objs es seen :
  (fold_left (list_step p d) objs (es, seen)).1 = es ++ build p d seen objs.
Proof.
  revert es seen. induction objs as [|obj objs IH]; intros es seen; simpl.
  { by rewrite app_nil_r. }
  rewrite no_prefix_test. destruct (HasPrefix (ov_Key obj) p); simpl; [|apply IH].
  unfold entry_of. destruct (common_prefix p d (ov_Key obj)) as [cp|].
  - case_bool_decide; rewrite IH; [done|]. by rewrite <-app_assoc.
  - by rewrite IH, <-app_assoc.
Qed.

Definition key_sorted : list ObjectVersion → Prop :=
  StronglySorted (λ x y, String.ltb (ov_Key x) (ov_Key y) = true).
Definition value_sorted : list ListObjectsV2Entry → Prop :=
  StronglySorted (λ x y, String.ltb (le_Value x) (le_Value y) = true).

Lemma elem_of_build p d seen objs e :
  e ∈ build p d seen objs →
  ∃ obj, obj ∈ objs ∧ HasPrefix (ov_Key obj) p = true ∧ e = entry_of p d obj ∧
    (∀ cp, common_prefix p d (ov_Key obj) = Some cp → cp ∉ seen).
Proof.
  revert seen. induction objs as [|obj objs IH]; intros seen; simpl.
  { by intros ?%not_elem_of_nil. }
  assert (∀ seen', e ∈ build p d seen' objs → seen ⊆ seen' →
    ∃ obj', obj' ∈ obj :: objs ∧ HasPrefix (ov_Key obj') p = true ∧ e = entry_of p d obj' ∧
    (∀ cp, common_prefix p d (ov_Key obj') = Some cp → cp ∉ seen)) as Hrest.
  { intros seen' He Hsub. destruct (IH _ He) as (o & ? & ? & ? & Hn).
    exists o. split_and!; [by right|done|done|]. intros cp Hcp. specialize (Hn cp Hcp). set_solver. }
  destruct (HasPrefix (ov_Key obj) p) eqn:Hp; simpl; [|by intros ?%Hrest].
  destruct (common_prefix p d (ov_Key obj)) as [cp|] eqn:Ec.
  - case_bool_decide; [by intros ?%Hrest|]. rewrite elem_of_cons. intros [->|He%Hrest]; [|done|set_solver].
    exists obj. split_and!; [by left|done|done|]. intros cp'. rewrite Ec. by intros [= <-].
  - rewrite elem_of_cons. intros [->|He%Hrest]; [|done|done].
    exists obj. split_and!; [by left|done|done|]. intros cp'. by rewrite Ec.
Qed.

Lemma elem_of_build_iff p d seen objs e :
  e ∈ build p d seen objs ↔
  ∃ obj, obj ∈ objs ∧ HasPrefix (ov_Key obj) p = true ∧ e = entry_of p d obj ∧
    (∀ cp, common_prefix p d (ov_Key obj) = Some cp → cp ∉ seen).
Proof.
  split; [apply elem_of_build|].
  revert seen. induction objs as [|o objs IH]; intros seen (obj & Hin & Hp & -> & Hn).
  { by apply not_elem_of_nil in Hin. }
  cbn [build]. apply elem_of_cons in Hin as [<-|Hin].
  - rewrite Hp. simpl. destruct (common_prefix p d (ov_Key obj)) as [cp|] eqn:Ec; [|by left].
    rewrite bool_decide_false by by apply Hn. by left.
  - destruct (HasPrefix (ov_Key o) p); simpl; [|by apply IH; exists obj].
    destruct (common_prefix p d (ov_Key o)) as [cp|] eqn:Ec.
    2:{ right. apply IH. by exists obj. }
    case_bool_decide; [by apply IH; exists obj|].
    destruct (decide (common_prefix p d (ov_Key obj) = Some cp)) as [Eq|Nq].
    + assert (entry_of p d o = entry_of p d obj) as -> by (unfold entry_of; by rewrite Ec, Eq).
      by left.
    + right. apply IH. exists obj. split_and!; [done..|]. intros cp' Hcp'.
      specialize (Hn cp' Hcp'). rewrite elem_of_union, elem_of_singleton. naive_solver.
Qed.

Lemma build_sorted p d seen objs : key_sorted objs → value_sorted (build p d seen objs).
Proof.
  intros Hs. revert seen. induction Hs as [|obj objs Hs IH Hall]; intros seen; simpl; [constructor|].
  rewrite Forall_forall in Hall.
  destruct (HasPrefix (ov_Key obj) p) eqn:Hp; simpl; [|apply IH].
  destruct (common_prefix p d (ov_Key obj)) as [cp|] eqn:Ec.
  - case_bool_decide; [apply IH|]. constructor; [apply IH|]. apply Forall_forall.
    intros e (o & Ho & Hpo & -> & Hn)%elem_of_build. rewrite !value_entry_of.
    destruct (value_of_mono p d _ _ Hp Hpo (Hall o Ho)) as [Heq|]; [exfalso|done].
    unfold value_of in Heq. rewrite Ec in Heq. destruct (common_prefix p d (ov_Key o)) as [cp'|] eqn:Eo.
    + apply (Hn cp'); [done|]. set_solver.
    + subst cp. rewrite (common_prefix_below p d _ _ (ov_Key o) Hp Ec) in Eo; [done|apply HasPrefix_refl].
  - constructor; [apply IH|]. apply Forall_forall.
    intros e (o & Ho & Hpo & -> & Hn)%elem_of_build. rewrite !value_entry_of.
    destruct (value_of_mono p d _ _ Hp Hpo (Hall o Ho)) as [Heq|]; [exfalso|done].
    unfold value_of in Heq. rewrite Ec in Heq. destruct (common_prefix p d (ov_Key o)) as [cp'|] eqn:Eo.
    + subst cp'. rewrite (common_prefix_below p d _ _ (ov_Key obj) Hpo Eo) in Ec; [done|apply HasPrefix_refl].
    + specialize (Hall o Ho). by rewrite Heq, string_ltb_irrefl in Hall.
Qed.

Lemma not_after_of_lt {A} (key : A → string) (l : list A) :
  StronglySorted (λ x y, String.ltb (key x) (key y) = true) l →
  StronglySorted (not_after (λ x y, String.ltb (key x) (key y))) l.
Proof. apply StronglySorted_weaken. intros x y. apply string_ltb_asym. Qed.

Lemma key_strict_weak {A} (key : A → string) : StrictWeak (λ x y, String.ltb (key x) (key y)).
Proof. split; intros; [by apply string_ltb_asym|by eapply string_ltb_negtrans]. Qed.

Lemma sorted_lt_unique {A} (key : A → string) (l : list A) x y :
  StronglySorted (λ x y, String.ltb (key x) (key y) = true) l →
  x ∈ l → y ∈ l → key x = key y → x = y.
Proof.
  intros Hs. induction Hs as [|z l Hs IH Hall]; [by intros ?%not_elem_of_nil|].
  rewrite Forall_forall in Hall. rewrite !elem_of_cons. intros [->|Hx] [->|Hy] Heq; [done| | |by apply IH].
  - specialize (Hall y Hy). by rewrite Heq, string_ltb_irrefl in Hall.
  - specialize (Hall x Hx). by rewrite Heq, string_ltb_irrefl in Hall.
Qed.

Section entries_facts.
Context `{!GoRuntime}.

(** Sorting what is sorted already. *)
Lemma sort_slice_sorted_id {A} (key : A → string) (l l' : list A) :
  l ≡ₚ l' → StronglySorted (λ x y, String.ltb (key x) (key y) = true) l' →
  sort_slice (λ x y, String.ltb (key x) (key y)) l = l'.
Proof.
  intros Hp Hs. apply sort_slice_unique; [apply key_strict_weak|done| |by apply not_after_of_lt].
  intros x y Hx Hy H1 H2. rewrite Hp in Hx, Hy.
  eapply sorted_lt_unique; [exact Hs|done..|by apply string_ltb_eq].
Qed.

Lemma sort_objects_key_sorted objs :
  NoDup (ov_Key <$> objs) → key_sorted (sort_slice less_object_key objs).
Proof.
  intros Hnd. pose proof (sort_slice_sorted less_object_key objs (key_strict_weak ov_Key)) as Hs.
  assert (NoDup (ov_Key <$> sort_slice less_object_key objs)) as Hnd' by by rewrite sort_slice_perm.
  induction Hs as [|x l Hs IH Hall]; [constructor|].
  rewrite fmap_cons in Hnd'. apply NoDup_cons in Hnd' as [Hx Hnd'].
  constructor; [by apply IH|]. rewrite Forall_forall in *. intros y Hy. specialize (Hall y Hy).
  unfold not_after, less_object_key in Hall.
  destruct (String.ltb (ov_Key x) (ov_Key y)) eqn:E; [done|].
  destruct Hx. rewrite (string_ltb_eq _ _ E Hall). by apply list_elem_of_fmap_2.
Qed.

Lemma entries_build objs p d :
  key_sorted objs → listV2EntriesFromObjects objs p d = build p d ∅ objs.
Proof.
  intros Hs. unfold listV2EntriesFromObjects. rewrite fold_list_step. simpl.
  apply (sort_slice_sorted_id le_Value); [done|]. by apply build_sorted.
Qed.
End entries_facts.

(** ** Pages *)
Section page_facts.
Context `{!GoRuntime} `{!JsonCodec listV2ContinuationToken}.

(** The page in terms of the entries it may show: the first [maxKeys] of them,
    with a token for the last one shown when some are left. *)
Definition page_of (p d : string) (maxKeys : Z) (es : list ListObjectsV2Entry) (out : listResult)
    : listResult :=
  let shown := take (Z.to_nat maxKeys) es in
  let out := fold_left add_entry shown out in
  match last shown with
  | Some e => if bool_decide (drop (Z.to_nat maxKeys) es = []) then out
              else set_truncated (encodeListContinuationToken p d (le_Value e)) out
  | None => out
  end.

Lemma add_entry_KeyCount out e : lb_KeyCount (add_entry out e) = lb_KeyCount out + 1.
Proof. unfold add_entry. by destruct (le_Object e). Qed.

Lemma list_loop_full p d maxKeys es out :
  maxKeys ≤ lb_KeyCount out → list_loop p d maxKeys es out = out.
Proof.
  intros Hle. destruct es as [|e es]; simpl; [done|].
  assert (lb_KeyCount out <? maxKeys = false) as -> by (apply Z.ltb_ge; lia). done.
Qed.

Lemma list_loop_page p d maxKeys es out :
  0 ≤ lb_KeyCount out → list_loop p d maxKeys es out =
  page_of p d (maxKeys - lb_KeyCount out) es out.
Proof.
  revert out. induction es as [|e es IH]; intros out Hk.
  { unfold page_of. by rewrite take_nil. }
  cbn [list_loop]. destruct (Z.ltb_spec (lb_KeyCount out) maxKeys) as [Hlt|Hge]; simpl.
  - pose proof (add_entry_KeyCount out e) as Hc.
    destruct (Z.eqb_spec (lb_KeyCount (add_entry out e)) maxKeys) as [Heq|Hne]; simpl.
    + rewrite list_loop_full.
      2:{ case_bool_decide; simpl; lia. }
      unfold page_of. replace (Z.to_nat (maxKeys - lb_KeyCount out)) with 1%nat by lia. simpl.
      by destruct es.
    + rewrite IH by lia. unfold page_of. rewrite Hc.
      replace (Z.to_nat (maxKeys - lb_KeyCount out)) with
        (S (Z.to_nat (maxKeys - (lb_KeyCount out + 1)))) by lia.
      set (n := Z.to_nat (maxKeys - (lb_KeyCount out + 1))).
      assert (n ≠ 0%nat) by lia. simpl.
      destruct es as [|e' es]; [by rewrite !take_nil, !drop_nil|]. destruct n as [|n]; [done|]. done.
  - unfold page_of. by replace (Z.to_nat (maxKeys - lb_KeyCount out)) with 0%nat by lia.
Qed.

(** [start_entries] on sorted entries: those above the start. *)
Lemma from_start_filter s es :
  value_sorted es → from_start s es = List.filter (λ e, String.ltb s (le_Value e)) es.
Proof.
  induction 1 as [|e es Hs IH Hall]; simpl; [done|].
  destruct (String.ltb s (le_Value e)) eqn:E; [|done]. f_equal.
  rewrite Forall_forall in Hall. clear -E Hall. induction es as [|e' es IH]; simpl; [done|].
  rewrite (string_ltb_trans _ _ _ E) by by apply Hall; left.
  f_equal. apply IH. intros y Hy. apply Hall. by right.
Qed.

Lemma filter_above_last l1 e l2 :
  value_sorted (l1 ++ e :: l2) →
  List.filter (λ x, String.ltb (le_Value e) (le_Value x)) (l1 ++ e :: l2) = l2.
Proof.
  intros Hs. apply StronglySorted_app in Hs as (Hall & _ & Hs).
  apply StronglySorted_cons in Hs as [He Hs].
  rewrite List.filter_app. simpl. rewrite string_ltb_irrefl.
  assert (List.filter (λ x, String.ltb (le_Value e) (le_Value x)) l1 = []) as ->.
  { clear -Hall. induction l1 as [|x l1 IH]; simpl; [done|].
    rewrite (string_ltb_asym _ (le_Value e)) by (apply Hall; [by left|by left]).
    apply IH. intros x1 x2 ??. apply Hall; [by right|done]. }
  simpl. clear -He. induction l2 as [|x l2 IH]; simpl; [done|].
  apply Forall_cons in He as [-> He]. f_equal. by apply IH.
Qed.

(** A client that follows the tokens of the handler's pages. *)
Fixpoint list_all (fuel : nat) (objects : list ObjectVersion)
    (bucket prefix delimiter : string) (maxKeys : Z) (continuation : string)
    : option (list listResult) :=
  match fuel with
  | O => None
  | S fuel =>
    match decodeListContinuationToken continuation prefix delimiter with
    | Err _ => None
    | Ok startAfter =>
      let page := list_page_objects objects startAfter
                    (empty_listResult bucket prefix delimiter maxKeys continuation) in
      if lb_IsTruncated page
      then (page ::.) <$> list_all fuel objects bucket prefix delimiter maxKeys
                            (lb_NextContinuationToken page)
      else Some [page]
    end
  end.

Definition content_of (e : ListObjectsV2Entry) : option listContent :=
  (λ obj, mkListContent (le_Value e) (ov_Size obj) (quotedETag (ov_ETag obj))) <$> le_Object e.
Definition prefix_of (e : ListObjectsV2Entry) : option string :=
  match le_Object e with Some _ => None | None => Some (le_Value e) end.

Lemma fold_add_entry es out :
  lb_Contents (fold_left add_entry es out) = lb_Contents out ++ omap content_of es ∧
  lb_CommonPrefixes (fold_left add_entry es out) = lb_CommonPrefixes out ++ omap prefix_of es ∧
  lb_KeyCount (fold_left add_entry es out) = lb_KeyCount out + Z.of_nat (length es) ∧
  lb_IsTruncated (fold_left add_entry es out) = lb_IsTruncated out.
Proof.
  revert out. induction es as [|e es IH]; intros out; simpl.
  { rewrite !app_nil_r. split_and!; [done..|lia|done]. }
  destruct (IH (add_entry out e)) as (-> & -> & -> & ->).
  unfold add_entry, content_of, prefix_of. destruct (le_Object e) as [obj|]; simpl;
    rewrite <-?app_assoc; simpl; split_and!; try done; lia.
Qed.

Lemma decode_encode p d v :
  json_representable (mkToken p d v) → v ≠ "" →
  decodeListContinuationToken (encodeListContinuationToken p d v) p d = Ok v.
Proof.
  intros Hr Hv. unfold decodeListContinuationToken, encodeListContinuationToken.
  pose proof (json_nonempty (mkToken p d v)) as Hne.
  destruct (String.eqb_spec (b64_encode RawURLEncoding (json_Marshal (mkToken p d v))) "") as [E|_].
  { by apply b64_encode_nil in E. }
  rewrite b64_round_trip, json_round_trip by done. simpl.
  rewrite !String.eqb_refl. simpl. by apply String.eqb_neq in Hv as ->.
Qed.

(** The page of the handler over sorted entries. *)
Lemma list_page_objects_eq objects s p d bucket maxKeys continuation :
  NoDup (ov_Key <$> objects) →
  let entries := listV2EntriesFromObjects (sort_slice less_object_key objects) p d in
  list_page_objects objects s (empty_listResult bucket p d maxKeys continuation) =
  page_of p d maxKeys (start_entries s entries) (empty_listResult bucket p d maxKeys continuation).
Proof.
  intros Hnd entries. unfold list_page_objects. simpl. rewrite list_loop_page by (simpl; lia).
  simpl. by replace (maxKeys - 0) with maxKeys by lia.
Qed.

Lemma entries_value_sorted objects p d :
  NoDup (ov_Key <$> objects) →
  value_sorted (listV2EntriesFromObjects (sort_slice less_object_key objects) p d).
Proof.
  intros Hnd. pose proof (sort_objects_key_sorted objects Hnd) as Hs.
  rewrite entries_build by done. by apply build_sorted.
Qed.

Lemma start_entries_filter s es :
  value_sorted es → s ≠ "" → start_entries s es = List.filter (λ e, String.ltb s (le_Value e)) es.
Proof. intros Hs Hne. unfold start_entries. apply String.eqb_neq in Hne as ->. by apply from_start_filter. Qed.

Lemma page_of_truncated p d maxKeys es out :
  1 ≤ maxKeys → lb_IsTruncated out = false →
  lb_IsTruncated (page_of p d maxKeys es out) = bool_decide (drop (Z.to_nat maxKeys) es ≠ []) ∧
  (∀ e, last (take (Z.to_nat maxKeys) es) = Some e → drop (Z.to_nat maxKeys) es ≠ [] →
     lb_NextContinuationToken (page_of p d maxKeys es out) =
     encodeListContinuationToken p d (le_Value e)) ∧
  lb_Contents (page_of p d maxKeys es out) =
    lb_Contents out ++ omap content_of (take (Z.to_nat maxKeys) es) ∧
  lb_CommonPrefixes (page_of p d maxKeys es out) =
    lb_CommonPrefixes out ++ omap prefix_of (take (Z.to_nat maxKeys) es) ∧
  lb_KeyCount (page_of p d maxKeys es out) =
    lb_KeyCount out + Z.of_nat (length (take (Z.to_nat maxKeys) es)).
Proof.
  intros Hm Ht. unfold page_of. set (n := Z.to_nat maxKeys). assert (n ≠ 0%nat) by lia.
  destruct (fold_add_entry (take n es) out) as (H1 & H2 & H3 & H4).
  destruct (last (take n es)) as [e|] eqn:El.
  - destruct (decide (drop n es = [])) as [E|E].
    + rewrite (bool_decide_true (drop n es = [])), bool_decide_false by naive_solver.
      rewrite H1, H2, H3, H4, Ht. split_and!; done.
    + rewrite (bool_decide_false (drop n es = [])), bool_decide_true by done.
      simpl. rewrite H1, H2, H3. split_and!; [done|congruence|done..].
  - apply last_None in El. assert (es = []) as -> by (destruct es, n; done).
    rewrite drop_nil, bool_decide_false by naive_solver. rewrite H1, H2, H3, H4, Ht.
    split_and!; [done|by rewrite take_nil|done..].
Qed.

Lemma list_all_from fuel objects bucket p d maxKeys es1 es2 s continuation :
  NoDup (ov_Key <$> objects) → 1 ≤ maxKeys →
  let entries := listV2EntriesFromObjects (sort_slice less_object_key objects) p d in
  entries = es1 ++ es2 →
  (∀ e, e ∈ entries → le_Value e ≠ "" ∧ json_representable (mkToken p d (le_Value e))) →
  decodeListContinuationToken continuation p d = Ok s → start_entries s entries = es2 →
  (length es2 < fuel)%nat →
  ∃ pages, list_all fuel objects bucket p d maxKeys continuation = Some pages ∧
    concat (lb_Contents <$> pages) = omap content_of es2 ∧
    concat (lb_CommonPrefixes <$> pages) = omap prefix_of es2 ∧
    Forall (λ page, lb_KeyCount page ≤ maxKeys) pages.
Proof.
  intros Hnd Hm entries Hes Hrep. revert es1 es2 s continuation Hes.
  induction fuel as [|fuel IH]; intros es1 es2 s cont Hes Hdec Hstart Hfuel; [lia|].
  simpl. rewrite Hdec, list_page_objects_eq by done. fold entries. rewrite Hstart.
  destruct (page_of_truncated p d maxKeys es2 (empty_listResult bucket p d maxKeys cont) Hm eq_refl)
    as (Ht & Hn & Hc & Hp & Hk). simpl in Hc, Hp, Hk. rewrite Ht.
  set (n := Z.to_nat maxKeys) in *. assert (n ≠ 0%nat) by lia.
  assert (lb_KeyCount (page_of p d maxKeys es2 (empty_listResult bucket p d maxKeys cont)) ≤ maxKeys).
  { rewrite Hk, length_take. lia. }
  rewrite <-(take_drop n es2) in Hes.
  destruct (decide (drop n es2 = [])) as [E|E].
  - rewrite bool_decide_false by naive_solver. eexists. split; [done|]. simpl.
    assert (take n es2 = es2) as Hall by by rewrite <-(take_drop n es2) at 2; rewrite E, app_nil_r.
    rewrite Hc, Hp, !app_nil_r, Hall. split_and!; [done..|]. by apply Forall_singleton.
  - rewrite bool_decide_true by done.
    destruct (last (take n es2)) as [e|] eqn:El.
    2:{ apply last_None in El. destruct es2, n; done. }
    rewrite (Hn e eq_refl E). apply last_Some in El as [l El].
    assert (entries = (es1 ++ l) ++ e :: drop n es2) as Hes'
      by by rewrite Hes, El, <-!app_assoc.
    assert (e ∈ entries) as He by (rewrite Hes'; set_solver).
    destruct (Hrep e He) as [Hne Hr].
    pose proof (entries_value_sorted objects p d Hnd) as Hs. fold entries in Hs.
    destruct (IH (es1 ++ take n es2) (drop n es2) (le_Value e)
      (encodeListContinuationToken p d (le_Value e))) as (pages & -> & Hpc & Hpp & Hpk).
    + by rewrite Hes, <-app_assoc.
    + by apply decode_encode.
    + rewrite start_entries_filter by done. rewrite Hes'. apply filter_above_last. by rewrite <-Hes'.
    + rewrite length_drop. assert (length es2 ≠ 0%nat); [|lia]. by destruct es2; rewrite ?drop_nil in E.
    + eexists. split; [done|]. csimpl. rewrite Hpc, Hpp, Hc, Hp, <-!omap_app, !take_drop.
      split_and!; [done..|]. by constructor.
Qed.
End page_facts.

(** ** The upper bound of a prefix *)
Lemma upper_bound_rev_snoc r c :
  upper_bound_rev (r +:+ String c "") =
  match upper_bound_rev r with
  | Some u => Some (String c u)
  | None => if (N_of_ascii c =? 255)%N then None
            else Some (String (ascii_of_N (N_of_ascii c + 1)) "")
  end.
Proof.
  induction r as [|d r IH]; [done|]. rewrite str_app_cons. simpl.
  destruct (N_of_ascii d =? 255)%N; [exact IH|].
  by rewrite <-str_app_cons, str_rev_snoc.
Qed.

Lemma stringPrefixUpperBound_cons c p :
  stringPrefixUpperBound (String c p) =
  match stringPrefixUpperBound p with
  | Some u => Some (String c u)
  | None => if (N_of_ascii c =? 255)%N then None
            else Some (String (ascii_of_N (N_of_ascii c + 1)) "")
  end.
Proof. unfold stringPrefixUpperBound. by rewrite str_rev_cons, upper_bound_rev_snoc. Qed.

Lemma prefix_bounds p k :
  HasPrefix k p =
  negb (String.ltb k p) &&
  match stringPrefixUpperBound p with Some upper => String.ltb k upper | None => true end.
Proof.
  revert k. induction p as [|c p IH]; intros k.
  { by rewrite HasPrefix_nil, ltb_nil_r. }
  rewrite stringPrefixUpperBound_cons. destruct k as [|d k]; [done|].
  rewrite HasPrefix_cons, ltb_cons, (IH k), (Ascii.eqb_sym c d).
  destruct (Ascii.eqb_spec d c) as [->|Hne]; simpl.
  - rewrite N.ltb_irrefl. simpl. destruct (String.ltb k p); simpl; [done|].
    destruct (stringPrefixUpperBound p) as [u|].
    + by rewrite ltb_cons, N.ltb_irrefl, Ascii.eqb_refl.
    + destruct (N.eqb_spec (N_of_ascii c) 255); [done|]. rewrite ltb_cons.
      pose proof (N_ascii_bounded c). rewrite N_ascii_embedding by lia.
      assert (N_of_ascii c <? N_of_ascii c + 1 = true)%N as -> by (apply N.ltb_lt; lia). done.
  - destruct (N.ltb_spec (N_of_ascii d) (N_of_ascii c)) as [|Hge]; simpl; [done|].
    destruct (stringPrefixUpperBound p) as [u|].
    + rewrite ltb_cons. apply Ascii.eqb_neq in Hne as ->.
      by assert (N_of_ascii d <? N_of_ascii c = false)%N as -> by (apply N.ltb_ge; lia).
    + assert (N_of_ascii d ≠ N_of_ascii c).
      { intros E. apply Hne. rewrite <-(ascii_N_embedding d), E. apply ascii_N_embedding. }
      pose proof (N_ascii_bounded c). pose proof (N_ascii_bounded d).
      destruct (N.eqb_spec (N_of_ascii c) 255); [lia|]. rewrite ltb_cons, N_ascii_embedding by lia.
      assert (N_of_ascii d <? N_of_ascii c + 1 = false)%N as -> by (apply N.ltb_ge; lia).
      by rewrite ltb_nil_r, andb_false_r.
Qed.

(** The bounds of the seek query are exact: a key has the prefix exactly when
    it is not below the prefix and, where the prefix has an upper bound, below
    that bound. *)
Theorem prefix_bounds_exact p k :
  HasPrefix k p =
  negb (String.ltb k p) &&
  match stringPrefixUpperBound p with Some upper => String.ltb k upper | None => true end.
Proof. apply prefix_bounds. Qed.

(** ** The SQL page *)

(** The cursors a listing hands out: an object's key, unless it ends with the
    delimiter, and a common prefix. *)
Definition cursor_ok (p d s : string) : Prop :=
  s = "" ∨ d = "" ∨
  (HasPrefix s p = true ∧
   ((common_prefix p d s = None ∧ HasSuffix s d = false) ∨ common_prefix p d s = Some s)).

Lemma HasSuffix_common_prefix p d key cp :
  HasPrefix key p = true → common_prefix p d key = Some cp → HasSuffix cp d = true.
Proof.
  intros Hp Hc. apply common_prefix_Some in Hc as (Hd & tail & i & -> & Hi & ->); [|done].
  apply Index_Some in Hi as [Ht Hl]. apply HasSuffix_spec. exists (p +:+ str_take i tail).
  rewrite str_app_assoc. f_equal. rewrite Ht at 1.
  assert (String.length (str_take i tail) = i) as Hi.
  { clear -Hl. assert (i ≤ String.length tail)%nat as Hi by lia. revert Hi. clear.
    revert i. induction tail as [|c t IH]; intros [|i] Hn; simpl in *; try lia. f_equal. apply IH. lia. }
  rewrite <-Hi at 1. rewrite str_take_app_add. f_equal. apply str_take_app.
Qed.

Lemma value_of_nonempty p d key : HasPrefix key p = true → key ≠ "" → value_of p d key ≠ "".
Proof.
  intros Hp Hne. unfold value_of. destruct (common_prefix p d key) as [cp|] eqn:E; [|done].
  apply common_prefix_Some in E as (Hd & tail & i & -> & Hi & ->); [|done].
  intros E%str_app_eq_nil. destruct E as [_ E]. apply Index_take in Hi. rewrite E, Index_nil in Hi.
  by apply String.eqb_neq in Hd as Hd'; rewrite Hd' in Hi.
Qed.

(** The cursor is below the entry exactly when it is below the key, unless the
    cursor itself is in the group of the entry. *)
Lemma cursor_below p d s key :
  HasPrefix key p = true →
  (∀ cp, common_prefix p d key = Some cp → HasPrefix s cp = true → False) →
  String.ltb s key = String.ltb s (value_of p d key).
Proof.
  intros Hp Hno. unfold value_of. destruct (common_prefix p d key) as [cp|] eqn:E; [|done].
  pose proof (common_prefix_of_prefix _ _ _ _ Hp E) as [t Ht]%HasPrefix_spec.
  destruct (String.ltb s cp) eqn:E1.
  - eapply string_ltb_lt_le_trans; [exact E1|]. rewrite Ht. apply prefix_not_after.
  - destruct (String.ltb s key) eqn:E2; [|done]. exfalso. apply (Hno cp); [done|].
    rewrite Ht in E2. by eapply between_prefix.
Qed.

(** A key is past the cursor in the query exactly when its entry is past it. *)
Lemma sql_past_cursor p d s key :
  cursor_ok p d s → HasPrefix key p = true → key ≠ "" →
  String.ltb s key &&
    negb (negb (String.eqb d "") && negb (String.eqb s "") && HasSuffix s d && HasPrefix key s) =
  String.ltb s (value_of p d key).
Proof.
  intros Hc Hp Hne. destruct (String.eqb_spec s "") as [->|Hs]; simpl.
  { pose proof (value_of_nonempty p d key Hp Hne) as Hv. rewrite !andb_false_r. simpl.
    rewrite !ltb_nil_l. apply String.eqb_neq in Hne as ->. by apply String.eqb_neq in Hv as ->. }
  destruct (String.eqb_spec d "") as [->|Hd]; simpl.
  { by rewrite andb_true_r. }
  destruct Hc as [?|[?|[Hsp [[Hcs Hsuf]|Hcs]]]]; [done|done| |].
  - rewrite Hsuf. simpl. rewrite andb_true_r. apply cursor_below; [done|].
    intros cp Hcp Hpre. rewrite (common_prefix_below _ _ _ _ _ Hp Hcp Hpre) in Hcs. done.
  - rewrite (HasSuffix_common_prefix p d s s) by done. simpl.
    destruct (HasPrefix key s) eqn:Eks; simpl.
    + rewrite andb_false_r. unfold value_of.
      rewrite (common_prefix_below p d s s key) by done. by rewrite string_ltb_irrefl.
    + rewrite andb_true_r. apply cursor_below; [done|]. intros cp Hcp Hpre.
      rewrite (common_prefix_below _ _ _ _ _ Hp Hcp Hpre) in Hcs. simplify_eq.
      rewrite (common_prefix_of_prefix p d key s) in Eks; done.
Qed.

(** Filtering the entries by their value is filtering the objects. *)
Lemma build_filter p d (Q : string → bool) seen1 seen2 objs :
  (∀ cp, Q cp = true → cp ∈ seen1 ↔ cp ∈ seen2) →
  List.filter (λ e, Q (le_Value e)) (build p d seen1 objs) =
  build p d seen2 (List.filter (λ o, Q (value_of p d (ov_Key o))) objs).
Proof.
  revert seen1 seen2. induction objs as [|obj objs IH]; intros seen1 seen2 Hseen; [done|].
  cbn [build List.filter].
  destruct (HasPrefix (ov_Key obj) p) eqn:Hp; simpl.
  2:{ destruct (Q (value_of p d (ov_Key obj))); simpl; rewrite ?Hp; by apply IH. }
  pose proof (value_entry_of p d obj) as Hve. unfold value_of in *.
  destruct (common_prefix p d (ov_Key obj)) as [cp|] eqn:Ec.
  - destruct (Q cp) eqn:Eq; cbn [build]; rewrite ?Hp, ?Ec; simpl.
    + destruct (decide (cp ∈ seen2)) as [Hin|Hin].
      * rewrite (bool_decide_true _ Hin), bool_decide_true by by apply Hseen. by apply IH.
      * rewrite (bool_decide_false _ Hin), bool_decide_false by by rewrite Hseen.
        simpl. rewrite Hve, Eq. f_equal. apply IH. intros cp' Hq. rewrite !elem_of_union, Hseen; done.
    + case_bool_decide; [by apply IH|]. simpl. rewrite Hve, Eq. apply IH.
      intros cp' Hq. rewrite elem_of_union, Hseen, elem_of_singleton by done. naive_solver congruence.
  - destruct (Q (ov_Key obj)) eqn:Eq; cbn [build]; rewrite ?Hp, ?Ec; simpl; rewrite Hve, Eq.
    + f_equal. by apply IH. + by apply IH.
Qed.

Section sql_facts.
Context `{!GoRuntime} `{!JsonCodec listV2ContinuationToken}.

Lemma List_filter_sorted {A} (R : A → A → Prop) (f : A → bool) l :
  StronglySorted R l → StronglySorted R (List.filter f l).
Proof.
  induction 1 as [|x l Hs IH Hall]; simpl; [constructor|]. destruct (f x); [|done].
  constructor; [done|]. rewrite Forall_forall in *. intros y Hy%list_elem_of_In%filter_In.
  apply Hall, list_elem_of_In. by destruct Hy.
Qed.

Lemma List_filter_perm {A} (f : A → bool) l1 l2 :
  l1 ≡ₚ l2 → List.filter f l1 ≡ₚ List.filter f l2.
Proof.
  induction 1 as [|x l1 l2 _ IH|x y l|l1 l2 l3 _ IH1 _ IH2]; simpl.
  - done. - destruct (f x); by rewrite IH.
  - destruct (f x), (f y); try done. constructor. - by rewrite IH1.
Qed.

Lemma sql_list_rows_eq visible opts :
  NoDup (ov_Key <$> visible) →
  sql_list_rows visible opts =
  List.filter (λ o, HasPrefix (ov_Key o) (lo_Prefix opts) && String.ltb (lo_StartAfter opts) (ov_Key o))
    (sort_slice less_object_key visible).
Proof.
  intros Hnd. unfold sql_list_rows. apply (sort_slice_sorted_id ov_Key).
  - rewrite (List_filter_perm _ _ _ (Permutation_sym (sort_slice_perm less_object_key visible))).
    apply reflexive_eq, List.filter_ext. intros o. rewrite (prefix_bounds (lo_Prefix opts)).
    by destruct (String.ltb (ov_Key o) (lo_Prefix opts)), (String.ltb (lo_StartAfter opts) (ov_Key o)),
      (stringPrefixUpperBound (lo_Prefix opts)); rewrite ?andb_true_r, ?andb_false_r.
  - apply List_filter_sorted. by apply sort_objects_key_sorted.
Qed.

(** The result of the loop: the first [maxKeys] entries. *)
Definition sql_page (maxKeys : Z) (all : list ListObjectsV2Entry) : ListObjectsV2Result :=
  let shown := take (Z.to_nat maxKeys) all in
  if bool_decide (drop (Z.to_nat maxKeys) all = []) then mkListObjectsV2Result shown false ""
  else mkListObjectsV2Result shown true
         (match last shown with Some e => le_Value e | None => "" end).

Lemma sql_page_more maxKeys es e es' :
  Z.of_nat (length es) = maxKeys →
  sql_page maxKeys (es ++ e :: es') =
  mkListObjectsV2Result es true (match last es with Some e => le_Value e | None => "" end).
Proof.
  intros <-. unfold sql_page. rewrite Nat2Z.id, take_app_length, drop_app_length.
  by rewrite bool_decide_false.
Qed.

Lemma sql_list_loop_eq opts maxKeys rows es seen :
  Z.of_nat (length es) ≤ maxKeys →
  Forall (λ o, HasPrefix (ov_Key o) (lo_Prefix opts) = true) rows →
  sql_list_loop opts maxKeys rows es seen =
  sql_page maxKeys (es ++ build (lo_Prefix opts) (lo_Delimiter opts) seen
                            (List.filter (λ o, negb (sql_skip opts o)) rows)).
Proof.
  intros Hlen Hall. revert es seen Hlen. induction Hall as [|obj rows Hp Hall IH]; intros es seen Hlen.
  { simpl. rewrite app_nil_r. unfold sql_page. rewrite take_ge, drop_ge by lia. done. }
  cbn [sql_list_loop List.filter]. destruct (sql_skip opts obj); simpl; [by apply IH|].
  rewrite Hp. simpl. unfold entry_of.
  assert (∀ e seen', (if Z.of_nat (length es) =? maxKeys
      then mkListObjectsV2Result es true (match last es with Some e => le_Value e | None => "" end)
      else sql_list_loop opts maxKeys rows (es ++ [e]) seen') =
    sql_page maxKeys (es ++ e :: build (lo_Prefix opts) (lo_Delimiter opts) seen'
                            (List.filter (λ o, negb (sql_skip opts o)) rows))) as Hemit.
  { intros e seen'. destruct (Z.eqb_spec (Z.of_nat (length es)) maxKeys).
    - by rewrite sql_page_more.
    - rewrite IH, <-app_assoc; [done|]. rewrite length_app. simpl. lia. }
  destruct (common_prefix (lo_Prefix opts) (lo_Delimiter opts) (ov_Key obj)) as [cp|]; [|apply Hemit].
  case_bool_decide; [by apply IH | apply Hemit].
Qed.

Lemma sql_entries_eq visible opts :
  NoDup (ov_Key <$> visible) → (∀ o, o ∈ visible → ov_Key o ≠ "") →
  let p := lo_Prefix opts in let d := lo_Delimiter opts in let s := lo_StartAfter opts in
  cursor_ok p d s →
  build p d ∅ (List.filter (λ o, negb (sql_skip opts o)) (sql_list_rows visible opts)) =
  start_entries s (listV2EntriesFromObjects (sort_slice less_object_key visible) p d).
Proof.
  intros Hnd Hne p d s Hc. pose proof (sort_objects_key_sorted visible Hnd) as Hs.
  rewrite entries_build by done.
  assert (∀ o, o ∈ sort_slice less_object_key visible → ov_Key o ≠ "") as Hne'.
  { intros o Ho. apply Hne. by rewrite sort_slice_perm in Ho. }
  assert (start_entries s (build p d ∅ (sort_slice less_object_key visible)) =
    List.filter (λ e, String.ltb s (le_Value e)) (build p d ∅ (sort_slice less_object_key visible))) as ->.
  { destruct (decide (s = "")) as [Es|]; [|apply start_entries_filter; [by apply build_sorted|done]].
    rewrite Es. unfold start_entries. simpl. symmetry. apply forallb_filter_id, forallb_forall.
    intros e He%list_elem_of_In. rewrite ltb_nil_l. apply negb_true_iff, String.eqb_neq.
    apply elem_of_build in He as (o & Ho & Hpo & -> & _). rewrite value_entry_of.
    apply value_of_nonempty; [done|]. by apply Hne'. }
  rewrite (build_filter p d (String.ltb s) ∅ ∅) by done.
  rewrite sql_list_rows_eq by done. fold p s. clear Hs Hne Hnd.
  generalize dependent (sort_slice less_object_key visible). intros objs Hne.
  assert (∀ o, o ∈ objs → HasPrefix (ov_Key o) p = true →
    (String.ltb s (ov_Key o) && negb (sql_skip opts o)) = String.ltb s (value_of p d (ov_Key o))) as Hq.
  { intros o Ho Hpo. rewrite <-sql_past_cursor by (try done; by apply Hne). done. }
  clear Hne. generalize (∅ : gset string). induction objs as [|o objs IH]; intros seen; [done|].
  assert (∀ o', o' ∈ objs → HasPrefix (ov_Key o') p = true →
    (String.ltb s (ov_Key o') && negb (sql_skip opts o')) = String.ltb s (value_of p d (ov_Key o'))) as Hq'.
  { intros o' Ho'. apply Hq. by right. }
  specialize (IH Hq'). specialize (Hq o). cbn [List.filter].
  destruct (HasPrefix (ov_Key o) p) eqn:Hp; simpl.
  2:{ destruct (String.ltb s (value_of p d (ov_Key o))); cbn [build]; rewrite ?Hp; apply IH. }
  rewrite <-Hq by (by left || done).
  destruct (String.ltb s (ov_Key o)); simpl; [|apply IH].
  destruct (sql_skip opts o); simpl; [apply IH|]. rewrite Hp. simpl.
  destruct (common_prefix p d (ov_Key o)); [case_bool_decide|]; by rewrite IH.
Qed.
End sql_facts.

Section list_theorems.
Context `{!GoRuntime} `{!JsonCodec listV2ContinuationToken}.


(** The entries of a listing: in strictly increasing order of their values,
    one entry for each object with the prefix whose key has no delimiter after
    it, and one common prefix for each group of keys that share it. *)
Theorem list_entries_spec objects p d :
  NoDup (ov_Key <$> objects) →
  let entries := listV2EntriesFromObjects (sort_slice less_object_key objects) p d in
  value_sorted entries ∧
  (∀ obj, mkListObjectsV2Entry (ov_Key obj) (Some obj) ∈ entries ↔
     obj ∈ objects ∧ HasPrefix (ov_Key obj) p = true ∧ common_prefix p d (ov_Key obj) = None) ∧
  (∀ cp, mkListObjectsV2Entry cp None ∈ entries ↔
     ∃ obj, obj ∈ objects ∧ HasPrefix (ov_Key obj) p = true ∧
       common_prefix p d (ov_Key obj) = Some cp).
Proof.
  intros Hnd entries. split; [by apply entries_value_sorted|].
  pose proof (sort_objects_key_sorted objects Hnd) as Hs. unfold entries.
  rewrite entries_build by done.
  split.
  - intros obj. rewrite elem_of_build_iff. setoid_rewrite sort_slice_perm. split.
    + intros (o & Ho & Hp & He & _). unfold entry_of in He.
      destruct (common_prefix p d (ov_Key o)) eqn:Ec; simplify_eq. done.
    + intros (Ho & Hp & Hc). exists obj. unfold entry_of. rewrite Hc. naive_solver.
  - intros cp. rewrite elem_of_build_iff. setoid_rewrite sort_slice_perm. split.
    + intros (o & Ho & Hp & He & _). unfold entry_of in He.
      destruct (common_prefix p d (ov_Key o)) eqn:Ec; simplify_eq. eauto.
    + intros (o & Ho & Hp & Hc). exists o. unfold entry_of. rewrite Hc. set_solver.
Qed.

(** C26: The two implementations agree: for every cursor that is a common prefix
    or a key that does not end with the delimiter, the page the handler makes of
    the SQL backend's page is the page it makes of the list of objects. *)
Theorem sql_page_equiv visible bucket p d s maxKeys continuation :
  NoDup (ov_Key <$> visible) → (∀ o, o ∈ visible → ov_Key o ≠ "") →
  0 ≤ maxKeys ≤ 1000 → cursor_ok p d s →
  let out := empty_listResult bucket p d maxKeys continuation in
  list_page_pager (sqliteListObjectsV2 visible (mkListObjectsV2Options p d s maxKeys)) out =
  list_page_objects visible s out.
Proof.
  intros Hnd Hne Hm Hc out. unfold out. rewrite list_page_objects_eq by done.
  unfold sqliteListObjectsV2. cbn [lo_MaxKeys].
  replace (Z.min 1000 (Z.max 0 maxKeys)) with maxKeys by lia.
  destruct (Z.eqb_spec maxKeys 0) as [->|Hm0].
  { reflexivity. }
  rewrite sql_list_loop_eq; [|simpl; lia|].
  2:{ rewrite sql_list_rows_eq by done. apply Forall_forall.
      intros o [_ Ho]%list_elem_of_In%filter_In. simpl in Ho. by apply andb_true_iff in Ho as [? _]. }
  pose proof (sql_entries_eq visible (mkListObjectsV2Options p d s maxKeys) Hnd Hne Hc) as ->.
  cbn [lo_StartAfter lo_Prefix lo_Delimiter app].
  set (es := start_entries _ _). unfold list_page_pager, sql_page, page_of.
  case_bool_decide as E; simpl.
  - destruct (last _); [done|]. done.
  - destruct (last (take (Z.to_nat maxKeys) es)) as [e|] eqn:El.
    + assert (∀ l o, lb_Prefix (fold_left add_entry l o) = lb_Prefix o ∧
        lb_Delimiter (fold_left add_entry l o) = lb_Delimiter o) as Hpd.
      { induction l as [|x l IH]; intros o; simpl; [done|].
        destruct (IH (add_entry o x)) as [-> ->]. unfold add_entry. by destruct (le_Object x). }
      by destruct (Hpd (take (Z.to_nat maxKeys) es)
        (empty_listResult bucket p d maxKeys continuation)) as [-> ->].
    + apply last_None in El. destruct es; [by rewrite drop_nil in E|].
      destruct (Z.to_nat maxKeys) eqn:En; [lia|done].
Qed.
End list_theorems.

(** ** Evaluation on concrete buckets *)
Section listing_witnesses.
#[local] Existing Instance go_runtime_ref.

(** A concrete token text, three fields in hexadecimal between commas, for the
    evaluations below. *)
Definition token_text (t : listV2ContinuationToken) : string :=
  Join [hex_encode (tk_Prefix t); hex_encode (tk_Delimiter t); hex_encode (tk_After t)] ",".

Definition token_read (s : string) : option listV2ContinuationToken :=
  match hex_decode <$> Split s "," with
  | [Some p; Some d; Some a] => Some (mkToken p d a)
  | _ => None
  end.

Lemma token_text_nonempty t : token_text t ≠ "".
Proof.
  unfold token_text. simpl. intros [_ E]%str_app_eq_nil. by rewrite str_app_cons in E.
Qed.

Definition token_ok (t : listV2ContinuationToken) : bool :=
  match token_read (token_text t) with
  | Some t' => String.eqb (tk_Prefix t') (tk_Prefix t) &&
               String.eqb (tk_Delimiter t') (tk_Delimiter t) && String.eqb (tk_After t') (tk_After t)
  | None => false
  end.

Lemma token_ok_reads t : token_ok t = true → token_read (token_text t) = Some t.
Proof.
  unfold token_ok. destruct (token_read (token_text t)) as [[p' d' a']|]; [|done].
  rewrite !andb_true_iff, !String.eqb_eq. simpl. intros [[-> ->] ->]. by destruct t.
Qed.

#[local] Instance token_codec : JsonCodec listV2ContinuationToken := {|
  json_Marshal := token_text;
  json_Unmarshal := token_read;
  json_nonempty := token_text_nonempty;
  json_representable t := token_ok t = true;
  json_round_trip := token_ok_reads;
|}.

Definition ex_object (key : string) : ObjectVersion :=
  mkObjectVersion "b" key "null" 1 "e" "" "" "" "" "p" ∅ false 0.
Definition ex_objects : list ObjectVersion :=
  ex_object <$> ["c.txt"; "a/2"; "b/x/1"; "a/1"; "d.txt"].

Example ex_entries :
  le_Value <$> listV2EntriesFromObjects ex_objects "" "/" = ["a/"; "b/"; "c.txt"; "d.txt"].
Proof. vm_compute. reflexivity. Qed.

Lemma ex_tokens_ok :
  List.forallb (λ e, negb (String.eqb (le_Value e) "") && token_ok (mkToken "" "/" (le_Value e)))
    (listV2EntriesFromObjects (sort_slice less_object_key ex_objects) "" "/") = true.
Proof. vm_compute. reflexivity. Qed.


Lemma list_entries_spec_witness :
  value_sorted (listV2EntriesFromObjects (sort_slice less_object_key ex_objects) "" "/").
Proof.
  apply (list_entries_spec ex_objects "" "/"). refine (bool_decide_unpack _ _). vm_compute. exact I.
Defined.

Lemma sql_page_equiv_witness :
  cursor_ok "" "/" "a/" ∧
  list_page_pager (sqliteListObjectsV2 ex_objects (mkListObjectsV2Options "" "/" "a/" 2))
    (empty_listResult "b" "" "/" 2 "t") =
  list_page_objects ex_objects "a/" (empty_listResult "b" "" "/" 2 "t").
Proof.
  assert (cursor_ok "" "/" "a/") as Hc by (right; right; vm_compute; auto).
  split; [exact Hc|]. apply (sql_page_equiv ex_objects "b" "" "/" "a/" 2 "t").
  - refine (bool_decide_unpack _ _). vm_compute. exact I.
  - apply Forall_forall. repeat constructor; discriminate.
  - lia.
  - exact Hc.
Defined.

(** The case the equivalence leaves out shows: when a page ends with an object
    whose key ends with the delimiter (a folder marker), the SQL backend's next
    page skips every key below it, which the other implementation lists. *)
Theorem sql_page_after_folder_marker :
  let marker := ex_object "a/" in let below := ex_object "a/b" in
  let first := sqliteListObjectsV2 [marker; below] (mkListObjectsV2Options "a/" "/" "" 1) in
  lr_IsTruncated first = true ∧ lr_NextAfter first = "a/" ∧
  lr_Entries (sqliteListObjectsV2 [marker; below] (mkListObjectsV2Options "a/" "/" "a/" 1)) = [] ∧
  lb_Contents (list_page_objects [marker; below] "a/" (empty_listResult "b" "a/" "/" 1 "t")) =
    [mkListContent "a/b" 1 (quotedETag "e")].
Proof. vm_compute. done. Qed.
End listing_witnesses.
