(* ===== verification/Http.v ===== *)
(** * Requests, responses and instants

    The parts of net/http and package time the handlers use: header maps with
    canonical keys, a request with its parsed query and its body, a response
    writer (the first status wins and fixes the headers sent), and the text forms
    of instants. *)
From S2P Require Import Prelude GoStrings Blob.

(** ** Headers *)
Definition is_token_char (c : ascii) : bool :=
  in_range "0" "9" c || in_range "A" "Z" c || in_range "a" "z" c ||
  match Index "!#$%&'*+-.^_`|~" (String c "") with Some _ => true | None => false end.

Fixpoint canonical (upper : bool) (s : string) : string :=
  match s with
  | "" => ""
  | String c s => String (if upper then upper_ascii c else lower_ascii c)
                    (canonical (Ascii.eqb c "-") s)
  end.

(** [textproto.CanonicalMIMEHeaderKey] *)
Definition CanonicalHeaderKey (s : string) : string :=
  if str_forall is_token_char s then canonical true s else s.

Abbreviation http_header := (gmap string (list string)).

(** [h.Get(key)], [h.Set(key, value)] *)
Definition header_get (h : http_header) (key : string) : string :=
  match h !! CanonicalHeaderKey key with
  | Some (v :: _) => v
  | _ => ""
  end.

Definition header_set (key value : string) (h : http_header) : http_header :=
  <[CanonicalHeaderKey key := [value]]> h.

(** ** Requests

    What the server reads of an [http.Request]: the method, the host, the path, the
    parsed query, the headers as the transport delivers them (canonical keys), the
    body, the values its context carries, what the limiter of heavy operations
    answers to it (it depends on the other requests: Heavy.v), the path and the
    query as they were sent, the host of the URL, the address of the peer and
    whether the connection uses TLS. *)
Record request := mkRequest {
  rq_Method : string;
  rq_Host : string;
  rq_Path : string;
  rq_Query : gmap string (list string);
  rq_Header : http_header;
  rq_Body : reader;
  rq_RequestID : string;
  rq_Principal : string;
  rq_Acquire : result unit;
  rq_EscapedPath : string;
  rq_RawQuery : string;
  rq_URLHost : string;
  rq_RemoteAddr : string;
  rq_TLS : bool;
}.

(** [q.Get(key)]: the first value, or the empty text. *)
Definition query_get (q : gmap string (list string)) (key : string) : string :=
  match q !! key with
  | Some (v :: _) => v
  | _ => ""
  end.

Definition hasQueryFlag (q : gmap string (list string)) (key : string) : bool :=
  match q !! key with Some _ => true | None => false end.

Definition StatusOK : Z := 200.
Definition StatusNoContent : Z := 204.
Definition StatusPartialContent : Z := 206.
Definition StatusNotModified : Z := 304.
Definition StatusBadRequest : Z := 400.
Definition StatusForbidden : Z := 403.
Definition StatusNotFound : Z := 404.
Definition StatusMethodNotAllowed : Z := 405.
Definition StatusConflict : Z := 409.
Definition StatusPreconditionFailed : Z := 412.
Definition StatusRequestedRangeNotSatisfiable : Z := 416.
Definition StatusInternalServerError : Z := 500.
Definition StatusNotImplemented : Z := 501.
Definition StatusServiceUnavailable : Z := 503.

(** ** Responses

    [A] is the type of the documents the handlers encode. *)
Inductive payload (A : Type) : Type :=
  | PDoc (doc : A)
  | PBytes (bytes : string).
Arguments PDoc {_} _.
Arguments PBytes {_} _.

Record response (A : Type) := mkResponse {
  rs_Status : option Z;
  rs_Header : http_header;
  rs_Sent : http_header;
  rs_Body : list (payload A);
}.
Arguments mkResponse {_} _ _ _ _.
Arguments rs_Status {_} _.
Arguments rs_Header {_} _.
Arguments rs_Sent {_} _.
Arguments rs_Body {_} _.

Definition new_response {A} : response A := mkResponse None ∅ ∅ [].

(** [w.Header().Set], [w.WriteHeader], [w.Write] *)
Definition rs_set_header {A} (key value : string) (w : response A) : response A :=
  mkResponse (rs_Status w) (header_set key value (rs_Header w)) (rs_Sent w) (rs_Body w).

Definition rs_write_header {A} (status : Z) (w : response A) : response A :=
  match rs_Status w with
  | Some _ => w
  | None => mkResponse (Some status) (rs_Header w) (rs_Header w) (rs_Body w)
  end.

Definition rs_write {A} (p : payload A) (w : response A) : response A :=
  let w := rs_write_header StatusOK w in
  mkResponse (rs_Status w) (rs_Header w) (rs_Sent w) (rs_Body w ++ [p]).

Lemma rs_write_header_status {A} status (w : response A) :
  is_Some (rs_Status (rs_write_header status w)).
Proof. unfold rs_write_header. destruct (rs_Status w) eqn:E; simpl; [rewrite E|]; eauto. Qed.

(** ** Instants

    The formats of package time the handlers use, with what its documentation
    says of them: RFC 3339 text denotes the instant to the second for the years
    0 to 9999. *)
Definition second : Z := 1000000000.
Definition year_0 : Z := -62167219200 * second.
Definition year_10000 : Z := 253402300800 * second.

Class TimeFormats := {
  format_RFC3339 : Z → string;
  parse_RFC3339 : string → option Z;
  format_http : Z → string;
  http_ParseTime : string → option Z;
  parse_format_RFC3339 t : year_0 ≤ t < year_10000 →
    parse_RFC3339 (format_RFC3339 t) = Some (t / second * second);
  format_RFC3339_trimmed t : TrimSpace (format_RFC3339 t) = format_RFC3339 t;
}.

Example canonical_ex : CanonicalHeaderKey "x-amz-copy-source" = "X-Amz-Copy-Source" ∧
  CanonicalHeaderKey "Content-MD5" = "Content-Md5" ∧ CanonicalHeaderKey "a b" = "a b".
Proof. vm_compute. done. Qed.
