(* ===== verification/Calendar.v ===== *)
(** * Instants as dates (package time)

    The calendar of package time on instants (nanoseconds since 1970, UTC), and the
    two layouts the signatures use: 20060102 and 20060102T150405Z, written and
    read. *)
From S2P Require Import Prelude GoStrings StringFacts Http.

Definition minute : Z := 60 * second.
Definition hour : Z := 3600 * second.

(** ** The calendar *)
Definition days_per_era : Z := 146097.

(** Days since 1970-01-01 of a date of the proleptic Gregorian calendar; the year is
    counted from March. *)
Definition days_of_date (y m d : Z) : Z :=
  let y' := if m <=? 2 then y - 1 else y in
  let yoe := y' mod 400 in
  let doy := (153 * ((m + 9) mod 12) + 2) / 5 + d - 1 in
  (y' / 400) * days_per_era + (yoe * 365 + yoe / 4 - yoe / 100 + doy) - 719468.

(** Year of the era (counted to 400 in January and February of the era's last year),
    month and day of a day of the era. *)
Definition era_date (doe : Z) : Z * Z * Z :=
  let yoe := (doe - doe / 1460 + doe / 36524 - doe / 146096) / 365 in
  let doy := doe - (365 * yoe + yoe / 4 - yoe / 100) in
  let mp := (5 * doy + 2) / 153 in
  let m := if mp <? 10 then mp + 3 else mp - 9 in
  ((if m <=? 2 then yoe + 1 else yoe), m, doy - (153 * mp + 2) / 5 + 1).

Definition date_of_days (days : Z) : Z * Z * Z :=
  let z := days + 719468 in
  let '(y, m, d) := era_date (z mod days_per_era) in
  (z / days_per_era * 400 + y, m, d).

Definition is_leap (y : Z) : bool :=
  (y mod 4 =? 0) && (negb (y mod 100 =? 0) || (y mod 400 =? 0)).

Definition daysIn (m y : Z) : Z :=
  if m =? 2 then (if is_leap y then 29 else 28)
  else if (m =? 4) || (m =? 6) || (m =? 9) || (m =? 11) then 30 else 31.

(** ** Writing *)
Fixpoint zeros (n : nat) : string :=
  match n with O => "" | S n => String "0" (zeros n) end.

(** [appendInt(b, x, width)] *)
Definition appendInt (x : Z) (width : nat) : string :=
  let u := format_uint (Z.abs x) in
  (if x <? 0 then "-" else "") +:+ zeros (width - String.length u) +:+ u.

Definition day_seconds : Z := 86400.

(** [t.Format("20060102")] *)
Definition format_date (t : Z) : string :=
  let '(y, m, d) := date_of_days (t / second / day_seconds) in
  appendInt y 4 +:+ appendInt m 2 +:+ appendInt d 2.

(** [t.Format("20060102T150405Z")] *)
Definition format_amz (t : Z) : string :=
  let s := t / second mod day_seconds in
  format_date t +:+ "T" +:+ appendInt (s / 3600) 2 +:+ appendInt (s / 60 mod 60) 2
    +:+ appendInt (s mod 60) 2 +:+ "Z".

(** ** Reading *)
Definition getnum (fixed : bool) (s : string) : option (Z * string) :=
  match s with
  | "" => None
  | String a s1 =>
    x ← digit_of a;
    let single := if fixed then None else Some (x, s1) in
    match s1 with
    | "" => single
    | String b s2 => match digit_of b with
                     | Some y => Some (10 * x + y, s2)
                     | None => single
                     end
    end
  end.

(** The four digits of a year. *)
Definition get_year (s : string) : option (Z * string) :=
  match s with
  | String a (String b (String c (String d rest))) =>
    w ← digit_of a; x ← digit_of b; y ← digit_of c; z ← digit_of d;
    Some (1000 * w + 100 * x + 10 * y + z, rest)
  | _ => None
  end.

Definition in_bounds (lo hi : Z) (r : option (Z * string)) : option (Z * string) :=
  '(x, s) ← r; if (lo <=? x) && (x <=? hi) then Some (x, s) else None.

Fixpoint digits_prefix (s : string) : string :=
  match s with
  | "" => ""
  | String c s => match digit_of c with
                  | Some _ => String c (digits_prefix s)
                  | None => ""
                  end
  end.

(** The fraction of a second that [Parse] accepts although the layout has none; it
    reads nine digits and drops the others. *)
Definition get_fraction (s : string) : Z * string :=
  match s with
  | String p rest =>
    let digits := digits_prefix rest in
    if (Ascii.eqb p "." || Ascii.eqb p ",") && negb (String.eqb digits "") then
      let kept := str_take 9 digits in
      (default 0 (parse_digits 0 kept) * 10 ^ (9 - Z.of_nat (String.length kept)),
       str_drop (String.length digits) rest)
    else (0, s)
  | "" => (0, s)
  end.

Definition skip (prefix s : string) : option string :=
  if HasPrefix s prefix then Some (TrimPrefix s prefix) else None.

(** [time.Parse("20060102T150405Z", value)] *)
Definition parse_amz (value : string) : option Z :=
  '(y, s) ← get_year value;
  '(m, s) ← in_bounds 1 12 (getnum true s);
  '(d, s) ← getnum true s;
  s ← skip "T" s;
  '(hh, s) ← in_bounds 0 23 (getnum false s);
  '(mm, s) ← in_bounds 0 59 (getnum true s);
  '(ss, s) ← in_bounds 0 59 (getnum true s);
  let '(nsec, s) := get_fraction s in
  s ← skip "Z" s;
  if String.eqb s "" && (1 <=? d) && (d <=? daysIn m y) then
    Some ((days_of_date y m d * day_seconds + hh * 3600 + mm * 60 + ss) * second + nsec)
  else None.

Example amz_ex : format_amz (1740668000 * second + 5) = "20250227T145320Z" ∧
  parse_amz "20250227T145320Z" = Some (1740668000 * second) ∧
  parse_amz "20250227T145320.5Z" = Some (1740668000 * second + 500000000) ∧
  parse_amz "20250229T000000Z" = None ∧ format_amz 0 = "19700101T000000Z".
Proof. vm_compute. done. Qed.

(** ** The calendar and its inverse *)
Definition check_era_day (doe : Z) : bool :=
  let '(y, m, d) := era_date doe in
  (days_of_date y m d =? doe - 719468) && (1 <=? m) && (m <=? 12) && (1 <=? d) && (d <=? daysIn m y) &&
  (0 <=? y) && (y <=? 400) && Bool.eqb (y =? 400) (146037 <=? doe).

Definition year_of_era (doe : Z) : Z := (doe - doe / 1460 + doe / 36524 - doe / 146096) / 365.
Definition year_start (y : Z) : Z := 365 * y + y / 4 - y / 100.

Fixpoint check_range (check : Z → bool) (fuel : nat) (n : Z) : bool :=
  match fuel with
  | O => true
  | S fuel => check n && check_range check fuel (n + 1)
  end.

Lemma check_range_spec check fuel n x :
  check_range check fuel n = true → n ≤ x < n + Z.of_nat fuel → check x = true.
Proof.
  revert n. induction fuel as [|fuel IH]; intros n; simpl; [lia|].
  intros [Hd Hf]%andb_prop Hx. destruct (Z.eq_dec x n) as [->|]; [done|]. apply (IH (n + 1)); [done|lia].
Qed.

Lemma year_of_era_mono a b : 0 ≤ a ≤ b → year_of_era a ≤ year_of_era b.
Proof.
  intros. unfold year_of_era. apply Z.div_le_mono; [lia|].
  assert (E : ∀ x, x / 146096 = x / 36524 / 4) by (intros; by rewrite Z.div_div). rewrite !E.
  assert (Hq : a / 36524 ≤ b / 36524) by (apply Z.div_le_mono; lia).
  assert (Hdiv : ∀ x y k, 0 < k → x ≤ y → y / k ≤ x / k + (y - x)).
  { intros x y k Hk Hxy. rewrite <-Z.div_add by lia. apply Z.div_le_mono; nia. }
  pose proof (Hdiv a b 1460 ltac:(lia) ltac:(lia)). pose proof (Hdiv _ _ 4 ltac:(lia) Hq). lia.
Qed.

(** The first and the last day of every year of the era, whose last year has a leap day. *)
Definition check_year (y : Z) : bool :=
  (year_of_era (year_start y) =? y) &&
  (year_of_era (year_start (y + 1) - 1 + (if y =? 399 then 1 else 0)) =? y).

Lemma years_checked : check_range check_year 400 0 = true.
Proof. vm_compute. done. Qed.

(** Month and day of a day of a year that begins in March. *)
Definition check_doy (leap : bool) (doy : Z) : bool :=
  let mp := (5 * doy + 2) / 153 in
  let m := if mp <? 10 then mp + 3 else mp - 9 in
  let d := doy - (153 * mp + 2) / 5 + 1 in
  ((153 * ((m + 9) mod 12) + 2) / 5 + d - 1 =? doy) && (1 <=? m) && (m <=? 12) && (1 <=? d) &&
  (d <=? (if m =? 2 then (if leap then 29 else 28) else daysIn m 1)) && Bool.eqb (m <=? 2) (306 <=? doy).

Lemma doys_checked : check_range (check_doy true) 366 0 && check_range (check_doy false) 365 0 = true.
Proof. vm_compute. done. Qed.

Ltac dlia := Z.to_euclidean_division_equations; lia.

Lemma year_of_era_spec doe : 0 ≤ doe < days_per_era →
  0 ≤ year_of_era doe < 400 ∧ 0 ≤ doe - year_start (year_of_era doe) ∧
  doe - year_start (year_of_era doe) < 365 + (if is_leap (year_of_era doe + 1) then 1 else 0).
Proof.
  intros Hd. set (y := year_of_era doe).
  assert (Hy : 0 ≤ y < 400).
  { unfold y. change 0 with (year_of_era 0) at 1. split; [apply year_of_era_mono; lia|].
    apply Z.le_lt_trans with (year_of_era (days_per_era - 1)); [apply year_of_era_mono; lia|done]. }
  assert (Hstart : ∀ x, 0 ≤ x < 400 → year_of_era (year_start x) = x).
  { intros x Hx. pose proof (check_range_spec _ _ _ x years_checked ltac:(lia)) as [H1 _]%andb_prop.
    by apply Z.eqb_eq in H1. }
  split; [done|]. split.
  - destruct (Z.le_gt_cases (year_start y) doe); [lia|]. exfalso.
    destruct (Z.eq_dec y 0) as [E|]; [rewrite E in *; change (year_start 0) with 0 in *; lia|].
    pose proof (check_range_spec _ _ _ (y - 1) years_checked ltac:(lia)) as [_ H1]%andb_prop.
    apply Z.eqb_eq in H1. rewrite (proj2 (Z.eqb_neq _ _)) in H1 by lia.
    replace (y - 1 + 1) with y in H1 by lia.
    assert (year_of_era doe ≤ y - 1); [|unfold y in *; lia]. rewrite <-H1. apply year_of_era_mono.
    unfold year_start, days_per_era in *. dlia.
  - assert (Hlen : year_start (y + 1) - year_start y = 365 + (if is_leap (y + 1) then 1 else 0) ∨ y = 399).
    { unfold year_start, is_leap. destruct (Z.eq_dec y 399); [by right|left].
      destruct (Z.eqb_spec ((y + 1) mod 4) 0), (Z.eqb_spec ((y + 1) mod 100) 0), (Z.eqb_spec ((y + 1) mod 400) 0); simpl; dlia. }
    destruct Hlen as [Hlen| ->]; [|change (year_start 399) with 145731; change (is_leap (399 + 1)) with true; unfold days_per_era in *; lia].
    destruct (Z.le_gt_cases (year_start (y + 1)) doe) as [Hle|]; [|lia]. exfalso.
    destruct (Z.eq_dec y 399) as [E|]; [rewrite E in *; change (year_start (399 + 1)) with 146096 in *;
      change (year_start 399) with 145731 in *; change (is_leap (399 + 1)) with true in *; lia|].
    assert (y + 1 ≤ year_of_era doe); [|unfold y in *; lia]. rewrite <-(Hstart (y + 1)) by lia. apply year_of_era_mono.
    split; [|exact Hle]. unfold year_start. dlia.
Qed.

Lemma era_day_ok doe : 0 ≤ doe < days_per_era → check_era_day doe = true.
Proof.
  intros Hd. destruct (year_of_era_spec doe Hd) as (Hy & H0 & H1). unfold check_era_day, era_date. cbv zeta.
  change ((doe - doe / 1460 + doe / 36524 - doe / 146096) / 365) with (year_of_era doe). set (y := year_of_era doe) in *.
  change (365 * y + y / 4 - y / 100) with (year_start y). set (doy := doe - year_start y) in *.
  assert (Hdoy : check_doy (is_leap (y + 1)) doy = true).
  { pose proof doys_checked as [Ht Hf]%andb_prop.
    destruct (is_leap (y + 1)); [apply (check_range_spec _ _ _ _ Ht)|apply (check_range_spec _ _ _ _ Hf)]; lia. }
  unfold check_doy in Hdoy. cbv zeta in Hdoy. set (mp := (5 * doy + 2) / 153) in *.
  set (m := if mp <? 10 then mp + 3 else mp - 9) in *. set (d := doy - (153 * mp + 2) / 5 + 1) in *.
  apply andb_prop in Hdoy as [Hdoy Hm]. apply andb_prop in Hdoy as [Hdoy Hdm]. apply andb_prop in Hdoy as [Hdoy Hd1].
  apply andb_prop in Hdoy as [Hdoy Hm12]. apply andb_prop in Hdoy as [Hback Hm1].
  rewrite Hm1, Hm12, Hd1. apply Z.eqb_eq in Hback. apply Bool.eqb_prop in Hm.
  assert (Hdays : days_of_date (if m <=? 2 then y + 1 else y) m d = doe - 719468).
  { unfold days_of_date. assert (E : (if m <=? 2 then (if m <=? 2 then y + 1 else y) - 1 else if m <=? 2 then y + 1 else y) = y).
    { destruct (m <=? 2); lia. }
    rewrite E, Z.div_small, Z.mod_small by lia. unfold doy, year_start in *. lia. }
  rewrite Hdays, Z.eqb_refl. simpl. rewrite !andb_true_iff, !Z.leb_le. split; [split; [split|]|].
  - unfold daysIn in *. apply Z.leb_le in Hdm. destruct (Z.eqb_spec m 2) as [E|]; [|done]. by rewrite E in *.
  - destruct (m <=? 2); lia.
  - destruct (m <=? 2); lia.
  - rewrite Hm. apply Bool.eqb_true_iff. unfold doy, year_start, days_per_era in *.
    destruct (Z.leb_spec 306 (doe - (365 * y + y / 4 - y / 100))), (Z.leb_spec 146037 doe), (is_leap (y + 1)); rewrite ?Z.eqb_eq, ?Z.eqb_neq; dlia.
Qed.

Lemma is_leap_shift e y : is_leap (e * 400 + y) = is_leap y.
Proof.
  unfold is_leap.
  replace (e * 400 + y) with (y + (e * 100) * 4) at 1 by lia. rewrite Z_mod_plus_full.
  replace (e * 400 + y) with (y + (e * 4) * 100) at 1 by lia. rewrite Z_mod_plus_full.
  replace (e * 400 + y) with (y + e * 400) by lia. by rewrite Z_mod_plus_full.
Qed.

Lemma days_of_date_shift e y m d :
  days_of_date (e * 400 + y) m d = e * days_per_era + days_of_date y m d.
Proof.
  unfold days_of_date.
  assert (∀ a, (a + e * 400) / 400 = a / 400 + e) as Hdiv by (intros; by apply Z.div_add).
  destruct (m <=? 2).
  - replace (e * 400 + y - 1) with (y - 1 + e * 400) by lia. rewrite Z_mod_plus_full, Hdiv. lia.
  - replace (e * 400 + y) with (y + e * 400) by lia. rewrite Z_mod_plus_full, Hdiv. lia.
Qed.

Lemma date_of_days_spec days :
  let '(y, m, d) := date_of_days days in
  days_of_date y m d = days ∧ 1 ≤ m ≤ 12 ∧ 1 ≤ d ≤ daysIn m y ∧
  (-719528 ≤ days < 2932897 → 0 ≤ y < 10000).
Proof.
  unfold date_of_days. set (z := days + 719468).
  assert (0 ≤ z mod days_per_era < days_per_era) as Hr by (by apply Z.mod_pos_bound).
  pose proof (era_day_ok _ Hr) as Hc. unfold check_era_day in Hc.
  destruct (era_date (z mod days_per_era)) as [[y m] d].
  repeat (apply andb_prop in Hc as [Hc ?]).
  assert (Hz : z = days_per_era * (z / days_per_era) + z mod days_per_era) by (by apply Z_div_mod_eq_full).
  rewrite days_of_date_shift. unfold daysIn in *. rewrite is_leap_shift. unfold days_per_era in *.
  split; [lia|]. split; [lia|]. split; [lia|]. intros Hdays.
  destruct (Z.eqb_spec y 400), (Z.leb_spec 146037 (z mod 146097)); simpl in *; try done; lia.
Qed.

(** ** Reading back what was written *)
Definition check_two (x : Z) : bool :=
  match appendInt x 2 with
  | String a (String b "") =>
    match digit_of a, digit_of b with Some i, Some j => 10 * i + j =? x | _, _ => false end
  | _ => false
  end.

Definition check_four (x : Z) : bool :=
  match appendInt x 4 with
  | String a (String b (String c (String d ""))) =>
    match digit_of a, digit_of b, digit_of c, digit_of d with
    | Some i, Some j, Some k, Some l => 1000 * i + 100 * j + 10 * k + l =? x
    | _, _, _, _ => false
    end
  | _ => false
  end.

Fixpoint check_below (f : Z → bool) (fuel : nat) (x : Z) : bool :=
  match fuel with
  | O => true
  | S fuel => f x && check_below f fuel (x + 1)
  end.

Lemma check_below_spec f fuel lo x :
  check_below f fuel lo = true → lo ≤ x < lo + Z.of_nat fuel → f x = true.
Proof.
  revert lo. induction fuel as [|fuel IH]; intros lo; simpl; [lia|].
  intros [Hd Hf]%andb_prop Hx. destruct (Z.eq_dec x lo) as [->|]; [done|]. apply (IH (lo + 1)); [done|lia].
Qed.

Lemma getnum_append fixed x rest : 0 ≤ x < 100 → getnum fixed (appendInt x 2 +:+ rest) = Some (x, rest).
Proof.
  intros Hx. assert (check_two x = true) as Hc by (apply (check_below_spec check_two 100 0); [by vm_compute|lia]).
  unfold check_two in Hc. destruct (appendInt x 2) as [|a [|b [|? ?]]]; try done.
  rewrite !str_app_cons, str_app_nil_l. simpl.
  destruct (digit_of a) as [i|]; [|done]. destruct (digit_of b) as [j|]; [|done]. simpl.
  apply Z.eqb_eq in Hc as <-. done.
Qed.

Lemma get_year_append x rest : 0 ≤ x < 10000 → get_year (appendInt x 4 +:+ rest) = Some (x, rest).
Proof.
  intros Hx.
  assert (check_four x = true) as Hc.
  { apply (check_below_spec check_four (Z.to_nat 10000) 0); [by vm_compute|lia]. }
  unfold check_four in Hc. destruct (appendInt x 4) as [|a [|b [|c [|d [|? ?]]]]]; try done.
  rewrite !str_app_cons, str_app_nil_l. simpl.
  destruct (digit_of a) as [i|]; [|done]. destruct (digit_of b) as [j|]; [|done].
  destruct (digit_of c) as [k|]; [|done]. destruct (digit_of d) as [l|]; [|done]. simpl.
  apply Z.eqb_eq in Hc as <-. done.
Qed.

(** Reading a written instant gives it back to the second. *)
Lemma parse_format_amz t : year_0 ≤ t < year_10000 →
  parse_amz (format_amz t) = Some (t / second * second).
Proof.
  intros Ht. unfold format_amz, format_date.
  assert (Hs : 0 ≤ t / second mod day_seconds < 86400) by (by apply Z.mod_pos_bound).
  assert (Hd : t / second = day_seconds * (t / second / day_seconds) + t / second mod day_seconds)
    by (by apply Z_div_mod_eq_full).
  set (s := t / second mod day_seconds) in *. pose proof (date_of_days_spec (t / second / day_seconds)) as Hdate.
  set (days := t / second / day_seconds) in *.
  assert (-719528 ≤ days < 2932897) as Hdays.
  { assert (-62167219200 ≤ t / second < 253402300800).
    { unfold year_0, year_10000 in Ht. split; [apply Z.div_le_lower_bound|apply Z.div_lt_upper_bound]; unfold second in *; lia. }
    unfold days, day_seconds. split; [apply Z.div_le_lower_bound|apply Z.div_lt_upper_bound]; lia. }
  destruct (date_of_days days) as [[y m] d].
  destruct Hdate as (Hdate & Hm & Hday & Hy). specialize (Hy Hdays).
  assert (daysIn m y ≤ 31).
  { unfold daysIn. repeat match goal with |- context [if ?b then _ else _] => destruct b end; lia. }
  assert (0 ≤ s / 3600 < 24) by (split; [apply Z.div_le_lower_bound|apply Z.div_lt_upper_bound]; lia).
  assert (0 ≤ s / 60 mod 60 < 60) by (by apply Z.mod_pos_bound).
  assert (0 ≤ s mod 60 < 60) by (by apply Z.mod_pos_bound).
  unfold parse_amz. rewrite !str_app_assoc, get_year_append by lia. simpl.
  rewrite getnum_append by lia. simpl.
  rewrite (proj2 (Z.leb_le 1 m)), (proj2 (Z.leb_le m 12)) by lia. simpl.
  rewrite getnum_append by lia. simpl.
  unfold skip at 2. rewrite HasPrefix_app, TrimPrefix_app. simpl.
  rewrite getnum_append by lia. cbn [mbind option_bind in_bounds].
  rewrite (proj2 (Z.leb_le 0 _)), (proj2 (Z.leb_le (s / 3600) 23)) by lia. cbn [mbind option_bind andb].
  rewrite getnum_append by lia. cbn [mbind option_bind in_bounds].
  rewrite (proj2 (Z.leb_le 0 _)), (proj2 (Z.leb_le (s / 60 mod 60) 59)) by lia. cbn [mbind option_bind andb].
  rewrite getnum_append by lia. cbn [mbind option_bind in_bounds].
  rewrite (proj2 (Z.leb_le 0 _)), (proj2 (Z.leb_le (s mod 60) 59)) by lia. cbn [mbind option_bind andb].
  change (get_fraction "Z") with (0, "Z"). cbv iota beta. change (skip "Z" "Z") with (Some ""). cbn [mbind option_bind].
  rewrite (proj2 (Z.leb_le 1 d)), (proj2 (Z.leb_le d _)) by lia. simpl.
  rewrite Hdate, Z.add_0_r. do 2 f_equal.
  assert (s = 3600 * (s / 3600) + 60 * (s / 60 mod 60) + s mod 60).
  { pose proof (Z.div_mod s 60 ltac:(lia)). pose proof (Z.div_mod (s / 60) 60 ltac:(lia)).
    rewrite Z.div_div in * by lia. change (60 * 60) with 3600 in *. lia. }
  lia.
Qed.

Definition date_char (c : ascii) : bool :=
  in_range "0" "9" c || Ascii.eqb c "-" || Ascii.eqb c "T" || Ascii.eqb c "Z".

(** ** The bytes of a date *)
Lemma parse_digits_chars a s z : parse_digits a s = Some z → str_forall (in_range "0" "9") s = true.
Proof.
  revert a. induction s as [|c s IH]; intros a; [done|]. simpl. unfold digit_of.
  destruct (in_range "0" "9" c); [|done]. apply IH.
Qed.

Lemma format_uint_chars z : 0 ≤ z → str_forall (in_range "0" "9") (format_uint z) = true ∧ format_uint z ≠ "".
Proof.
  intros Hz. destruct (format_uint_spec z Hz) as (c & s & E & _ & _ & Hp). rewrite E.
  split; [|done]. unfold parse_uint in Hp. by apply parse_digits_chars in Hp.
Qed.

Lemma zeros_chars n : str_forall (in_range "0" "9") (zeros n) = true.
Proof. by induction n. Qed.

Lemma appendInt_chars x w : str_forall date_char (appendInt x w) = true ∧ appendInt x w ≠ "".
Proof.
  destruct (format_uint_chars (Z.abs x)) as [Hd Hne]; [lia|]. unfold appendInt. split.
  - rewrite !str_forall_app. apply andb_true_intro. split; [by destruct (x <? 0)|].
    apply andb_true_intro. split; (eapply str_forall_impl; [|done || apply zeros_chars]);
      intros c Hc; unfold date_char; by rewrite Hc.
  - intros E. apply str_app_eq_nil in E as [_ E]. by apply str_app_eq_nil in E as [_ E].
Qed.

Lemma format_date_chars t : str_forall date_char (format_date t) = true ∧ format_date t ≠ "".
Proof.
  unfold format_date. destruct (date_of_days _) as [[y m] d]. split.
  - rewrite !str_forall_app. by rewrite !(proj1 (appendInt_chars _ _)).
  - intros E. apply str_app_eq_nil in E as [E _]. by destruct (appendInt_chars y 4).
Qed.

Lemma format_amz_nonempty t : format_amz t ≠ "".
Proof. unfold format_amz. intros E. apply str_app_eq_nil in E as [E _]. by destruct (format_date_chars t). Qed.
