(* ===== verification/Rfc3339.v ===== *)
(** * RFC 3339 instants (package time)

    The layouts [time.RFC3339] and [time.RFC3339Nano] of package time, written in UTC
    and read with any offset, on the calendar of Calendar.v. *)
From S2P Require Import Prelude GoStrings StringFacts Http Calendar.

(** ** Writing *)

(** The date and the time of the day to the second. *)
Definition format_seconds (t : Z) : string :=
  let '(y, m, d) := date_of_days (t / second / day_seconds) in
  let s := t / second mod day_seconds in
  appendInt y 4 +:+ "-" +:+ appendInt m 2 +:+ "-" +:+ appendInt d 2 +:+ "T"
    +:+ appendInt (s / 3600) 2 +:+ ":" +:+ appendInt (s / 60 mod 60) 2 +:+ ":" +:+ appendInt (s mod 60) 2.

(** [appendNano] of the layout .999999999: nine digits without the trailing zeros. *)
Definition format_nanos (nsec : Z) : string :=
  if nsec =? 0 then "" else "." +:+ trim_right_char "0" (appendInt nsec 9).

(** [t.UTC().Format(time.RFC3339)] and [t.UTC().Format(time.RFC3339Nano)] *)
Definition rfc3339 (t : Z) : string := format_seconds t +:+ "Z".
Definition rfc3339_nano (t : Z) : string := format_seconds t +:+ format_nanos (t mod second) +:+ "Z".

(** ** Reading *)

(** Z, or an offset +hh:mm, in seconds east of UTC. *)
Definition get_zone (s : string) : option (Z * string) :=
  if HasPrefix s "Z" then Some (0, str_drop 1 s)
  else match s with
  | String sign rest =>
    if negb (Ascii.eqb sign "+" || Ascii.eqb sign "-") then None
    else '(hh, rest) ← in_bounds 0 24 (getnum true rest);
         rest ← skip ":" rest;
         '(mm, rest) ← in_bounds 0 60 (getnum true rest);
         Some ((if Ascii.eqb sign "-" then -1 else 1) * (hh * 60 + mm) * 60, rest)
  | "" => None
  end.

(** [time.Parse(time.RFC3339, value)]; the layout with nanoseconds reads the same
    texts, since a fraction is accepted after the seconds in either. *)
Definition parse_rfc3339 (value : string) : option Z :=
  '(y, s) ← get_year value;
  s ← skip "-" s;
  '(m, s) ← in_bounds 1 12 (getnum true s);
  s ← skip "-" s;
  '(d, s) ← getnum true s;
  s ← skip "T" s;
  '(hh, s) ← in_bounds 0 23 (getnum false s);
  s ← skip ":" s;
  '(mm, s) ← in_bounds 0 59 (getnum true s);
  s ← skip ":" s;
  '(ss, s) ← in_bounds 0 59 (getnum true s);
  let '(nsec, s) := get_fraction s in
  '(zone, s) ← get_zone s;
  if String.eqb s "" && (1 <=? d) && (d <=? daysIn m y) then
    Some ((days_of_date y m d * day_seconds + hh * 3600 + mm * 60 + ss - zone) * second + nsec)
  else None.

Example rfc3339_ex :
  rfc3339_nano (1740668000 * second + 120000) = "2025-02-27T14:53:20.00012Z" ∧
  rfc3339 (1740668000 * second + 5) = "2025-02-27T14:53:20Z" ∧
  parse_rfc3339 "2025-02-27T14:53:20.00012Z" = Some (1740668000 * second + 120000) ∧
  parse_rfc3339 "2025-02-27T16:53:20+02:00" = Some (1740668000 * second) ∧
  parse_rfc3339 "0001-01-01T00:00:00Z" = Some (-62135596800 * second) ∧
  parse_rfc3339 "2025-02-29T00:00:00Z" = None ∧ parse_rfc3339 "2025-02-27 14:53:20Z" = None.
Proof. vm_compute. split_and!; reflexivity. Qed.

(** ** Reading back what was written *)
Lemma in_bounds_Some lo hi x s : lo ≤ x ≤ hi → in_bounds lo hi (Some (x, s)) = Some (x, s).
Proof. intros Hx. simpl. rewrite (proj2 (Z.leb_le lo x)), (proj2 (Z.leb_le x hi)) by lia. done. Qed.

Lemma skip_app p s : skip p (p +:+ s) = Some s.
Proof. unfold skip. by rewrite HasPrefix_app, TrimPrefix_app. Qed.

(** The fields of an instant, and the instant of the fields. *)
Lemma instant_fields t : year_0 ≤ t < year_10000 →
  let '(y, m, d) := date_of_days (t / second / day_seconds) in
  let s := t / second mod day_seconds in
  0 ≤ y < 10000 ∧ 1 ≤ m ≤ 12 ∧ 1 ≤ d ≤ daysIn m y ∧ daysIn m y ≤ 31 ∧
  0 ≤ s / 3600 < 24 ∧ 0 ≤ s / 60 mod 60 < 60 ∧ 0 ≤ s mod 60 < 60 ∧
  days_of_date y m d * day_seconds + s / 3600 * 3600 + s / 60 mod 60 * 60 + s mod 60 = t / second.
Proof.
  intros Ht.
  assert (Hs : 0 ≤ t / second mod day_seconds < 86400) by (by apply Z.mod_pos_bound).
  assert (Hd : t / second = day_seconds * (t / second / day_seconds) + t / second mod day_seconds)
    by (by apply Z_div_mod_eq_full).
  set (s := t / second mod day_seconds) in *. pose proof (date_of_days_spec (t / second / day_seconds)) as Hdate.
  set (days := t / second / day_seconds) in *.
  assert (-719528 ≤ days < 2932897) as Hdays.
  { assert (-62167219200 ≤ t / second < 253402300800).
    { unfold year_0, year_10000 in Ht. split; [apply Z.div_le_lower_bound|apply Z.div_lt_upper_bound]; unfold second in *; lia. }
    unfold days, day_seconds. split; [apply Z.div_le_lower_bound|apply Z.div_lt_upper_bound]; lia. }
  destruct (date_of_days days) as [[y m] d].
  destruct Hdate as (Hdate & Hm & Hday & Hy). specialize (Hy Hdays).
  assert (daysIn m y ≤ 31).
  { unfold daysIn. repeat match goal with |- context [if ?b then _ else _] => destruct b end; lia. }
  assert (0 ≤ s / 3600 < 24) by (split; [apply Z.div_le_lower_bound|apply Z.div_lt_upper_bound]; lia).
  assert (0 ≤ s / 60 mod 60 < 60) by (by apply Z.mod_pos_bound).
  assert (0 ≤ s mod 60 < 60) by (by apply Z.mod_pos_bound).
  assert (s = 3600 * (s / 3600) + 60 * (s / 60 mod 60) + s mod 60).
  { pose proof (Z.div_mod s 60 ltac:(lia)). pose proof (Z.div_mod (s / 60) 60 ltac:(lia)).
    rewrite Z.div_div in * by lia. change (60 * 60) with 3600 in *. lia. }
  rewrite Hdate. repeat (split; [lia|]). lia.
Qed.

(** A written instant is read up to its fraction, whatever follows the seconds. *)
Lemma parse_seconds t rest : year_0 ≤ t < year_10000 →
  parse_rfc3339 (format_seconds t +:+ rest) =
  (let '(nsec, s) := get_fraction rest in
   '(zone, s) ← get_zone s;
   if String.eqb s "" then Some ((t / second - zone) * second + nsec) else None).
Proof.
  intros Ht. pose proof (instant_fields t Ht) as Hf. unfold format_seconds.
  destruct (date_of_days _) as [[y m] d]. cbv zeta in *. set (s := t / second mod day_seconds) in *.
  destruct Hf as (Hy & Hm & Hd & Hdi & Hh & Hmi & Hse & Ht').
  unfold parse_rfc3339. rewrite !str_app_assoc, get_year_append by lia. cbn [mbind option_bind].
  rewrite skip_app. cbn [mbind option_bind]. rewrite getnum_append, in_bounds_Some by lia. cbn [mbind option_bind].
  rewrite skip_app. cbn [mbind option_bind]. rewrite getnum_append by lia. cbn [mbind option_bind].
  rewrite skip_app. cbn [mbind option_bind]. rewrite getnum_append, in_bounds_Some by lia. cbn [mbind option_bind].
  rewrite skip_app. cbn [mbind option_bind]. rewrite getnum_append, in_bounds_Some by lia. cbn [mbind option_bind].
  rewrite skip_app. cbn [mbind option_bind]. rewrite getnum_append, in_bounds_Some by lia. cbn [mbind option_bind].
  destruct (get_fraction rest) as [nsec s1]. destruct (get_zone s1) as [[zone s2]|]; [|done]. cbn [mbind option_bind].
  rewrite (proj2 (Z.leb_le 1 d)), (proj2 (Z.leb_le d _)), !andb_true_r by lia.
  destruct (String.eqb s2 ""); [|done]. do 2 f_equal. lia.
Qed.

(** ** The fraction *)
Lemma format_digits_length fuel z k acc : 0 ≤ z < 10 ^ Z.of_nat k →
  (String.length (format_digits fuel z acc) ≤ Nat.max 1 k + String.length acc)%nat.
Proof.
  revert z k acc. induction fuel as [|fuel IH]; intros z k acc Hz; [simpl; lia|]. cbn [format_digits]. cbv zeta.
  destruct (Z.eqb_spec (z / 10) 0) as [|Hne]; [simpl; lia|].
  destruct k as [|k]; [simpl in Hz; replace z with 0 in Hne by lia; by rewrite Z.div_0_l in Hne|].
  rewrite Nat2Z.inj_succ, Z.pow_succ_r in Hz by lia.
  assert (0 ≤ z / 10 < 10 ^ Z.of_nat k) as Hd.
  { split; [apply Z.div_pos; lia|apply Z.div_lt_upper_bound; lia]. }
  destruct k as [|k]; [simpl in Hd; lia|].
  etrans; [by apply (IH _ (S k))|]. simpl. lia.
Qed.

Lemma length_zeros n : String.length (zeros n) = n.
Proof. induction n as [|n IH]; simpl; [done|]. by rewrite IH. Qed.

Lemma parse_zeros n s : parse_digits 0 (zeros n +:+ s) = parse_digits 0 s.
Proof. induction n as [|n IH]; [done|]. exact IH. Qed.

Lemma parse_zeros_right n a : parse_digits a (zeros n) = Some (a * 10 ^ Z.of_nat n).
Proof.
  revert a. induction n as [|n IH]; intros a; [simpl; f_equal; lia|].
  cbn [zeros parse_digits]. change (digit_of "0") with (Some 0). cbv iota. rewrite IH. f_equal.
  rewrite Nat2Z.inj_succ, Z.pow_succ_r by lia. lia.
Qed.

(** A number below 10^w is written with exactly w digits. *)
Lemma appendInt_width z w : (1 ≤ w)%nat → 0 ≤ z < 10 ^ Z.of_nat w →
  String.length (appendInt z w) = w ∧ parse_digits 0 (appendInt z w) = Some z ∧
  str_forall (in_range "0" "9") (appendInt z w) = true.
Proof.
  intros Hw Hz. unfold appendInt. destruct (Z.ltb_spec z 0); [lia|]. rewrite str_app_nil_l, Z.abs_eq by lia.
  destruct (format_uint_spec z ltac:(lia)) as (c & s & E & _ & _ & Hp).
  assert (Hl : (String.length (format_uint z) ≤ w)%nat).
  { unfold format_uint. etrans; [by apply (format_digits_length _ _ w)|]. simpl. lia. }
  split_and!.
  - rewrite length_str_app, length_zeros. lia.
  - rewrite parse_zeros, E. exact Hp.
  - rewrite str_forall_app, zeros_chars. by destruct (format_uint_chars z ltac:(lia)) as [-> _].
Qed.

Lemma zeros_snoc n : zeros n +:+ "0" = zeros (S n).
Proof. induction n as [|n IH]; [done|]. cbn [zeros] in *. rewrite str_app_cons, IH. done. Qed.

Lemma trim_left_char_zeros s : ∃ n, s = zeros n +:+ trim_left_char "0" s.
Proof.
  induction s as [|c s [n IH]]; [exists 0%nat; by rewrite str_app_nil_l|].
  change (trim_left_char "0" (String c s)) with (if Ascii.eqb "0" c then trim_left_char "0" s else String c s).
  destruct (Ascii.eqb_spec "0" c) as [<-|]; [|exists 0%nat; by rewrite str_app_nil_l].
  exists (S n). cbn [zeros]. by rewrite str_app_cons, <-IH.
Qed.

Lemma rev_zeros n : String.rev (zeros n) = zeros n.
Proof. induction n as [|n IH]; [done|]. cbn [zeros]. rewrite str_rev_cons, IH. apply zeros_snoc. Qed.

Lemma trim_right_zeros s : ∃ n, s = trim_right_char "0" s +:+ zeros n.
Proof.
  unfold trim_right_char. destruct (trim_left_char_zeros (String.rev s)) as [n Hn]. exists n.
  rewrite <-(rev_zeros n), <-str_rev_app, <-Hn. by rewrite str_rev_involutive.
Qed.

Lemma digits_prefix_app s t : str_forall (in_range "0" "9") s = true → no_digit t → digits_prefix (s +:+ t) = s.
Proof.
  intros Hs Ht. induction s as [|c s IH]; [by destruct t as [|d t]; simpl in *; rewrite ?Ht|].
  rewrite str_app_cons. simpl in *. apply andb_prop in Hs as [Hc Hs]. unfold digit_of. rewrite Hc. by rewrite IH.
Qed.

Lemma get_fraction_nanos n rest : 0 ≤ n < second → no_digit rest →
  (∀ c s, rest = String c s → Ascii.eqb c "." || Ascii.eqb c "," = false) →
  get_fraction (format_nanos n +:+ rest) = (n, rest).
Proof.
  intros Hn Hrest Hdot. unfold format_nanos. destruct (Z.eqb_spec n 0) as [->|Hne].
  { rewrite str_app_nil_l. destruct rest as [|c s]; [done|]. simpl. by rewrite (Hdot c s). }
  destruct (appendInt_width n 9) as (Hlen & Hparse & Hdig); [lia|unfold second in *; simpl; lia|].
  destruct (trim_right_zeros (appendInt n 9)) as [k Hk]. set (D := trim_right_char "0" (appendInt n 9)) in *.
  rewrite Hk in Hlen, Hparse, Hdig. rewrite length_str_app, length_zeros in Hlen.
  rewrite str_forall_app in Hdig. apply andb_prop in Hdig as [Hdig _].
  assert (∃ x, parse_digits 0 D = Some x ∧ n = x * 10 ^ Z.of_nat k) as (x & Hx & Hxn).
  { rewrite parse_digits_app in Hparse. destruct (parse_digits 0 D) as [x|]; [|done]. cbn [mbind option_bind] in Hparse.
    rewrite parse_zeros_right in Hparse. exists x. split; [done|]. congruence. }
  assert (D ≠ "") as HD. { intros ->. simpl in Hx. injection Hx as <-. lia. }
  rewrite !str_app_cons, str_app_nil_l. unfold get_fraction.
  rewrite digits_prefix_app by done. change (Ascii.eqb "." "." || Ascii.eqb "." ",") with true.
  rewrite (proj2 (String.eqb_neq D "")) by done. cbn [negb andb]. cbv zeta.
  rewrite str_drop_app, str_take_all, Hx by lia. cbn [default from_option].
  rewrite Hxn. replace (9 - Z.of_nat (String.length D)) with (Z.of_nat k) by lia. done.
Qed.

(** An instant of the years 0 to 9999 comes back from its text, to the nanosecond or
    to the second. *)
Lemma parse_rfc3339_nano t : year_0 ≤ t < year_10000 → parse_rfc3339 (rfc3339_nano t) = Some t.
Proof.
  intros Ht. unfold rfc3339_nano. rewrite parse_seconds by done.
  rewrite get_fraction_nanos; [|by apply Z.mod_pos_bound|done|by intros c s [= <- _]].
  change (get_zone "Z") with (Some (0, "")). cbn [mbind option_bind]. change (String.eqb "" "") with true. cbv iota.
  f_equal. pose proof (Z_div_mod_eq_full t second). lia.
Qed.

Lemma parse_rfc3339_seconds t : year_0 ≤ t < year_10000 → parse_rfc3339 (rfc3339 t) = Some (t / second * second).
Proof.
  intros Ht. unfold rfc3339. rewrite parse_seconds by done. change (get_fraction "Z") with (0, "Z").
  cbv beta iota zeta. change (get_zone "Z") with (Some (0, "")). cbn [mbind option_bind].
  change (String.eqb "" "") with true. cbv iota.
  by rewrite Z.sub_0_r, Z.add_0_r.
Qed.
