(* ===== verification/Duration.v ===== *)
(** * Durations (package time)

    Nanoseconds in 64 bits, as texts: [time.ParseDuration], with the arithmetic of
    its fractions in float64. *)
From Stdlib Require Import SpecFloat.
From S2P Require Import Prelude GoStrings StringFacts Http Calendar.

(** ** float64 *)
Definition float64 : Type := spec_float.
Definition f64_of (z : Z) : float64 := binary_normalize 53 1024 z 0 false.
Definition f64_mul : float64 → float64 → float64 := SFmul 53 1024.
Definition f64_div : float64 → float64 → float64 := SFdiv 53 1024.

(** [uint64(f)] of a value that is not negative and fits. *)
Definition f64_trunc (f : float64) : Z :=
  match f with
  | S754_finite false m e => if 0 <=? e then Z.pos m * 2 ^ e else Z.pos m / 2 ^ (- e)
  | _ => 0
  end.

(** ** Reading *)
Definition two63 : Z := 2 ^ 63.

(** [leadingInt]: the number at the start of the text and what follows it; None when
    it does not fit. *)
Fixpoint leadingInt (x : Z) (s : string) : option (Z * string) :=
  match s with
  | "" => Some (x, "")
  | String c s' =>
    match digit_of c with
    | None => Some (x, s)
    | Some d => if two63 / 10 <? x then None
                else if two63 <? x * 10 + d then None
                else leadingInt (x * 10 + d) s'
    end
  end.

(** [leadingFraction]: digits that do not fit are skipped. *)
Fixpoint leadingFraction (x : Z) (scale : float64) (overflow : bool) (s : string) : Z * float64 * string :=
  match s with
  | "" => (x, scale, "")
  | String c s' =>
    match digit_of c with
    | None => (x, scale, s)
    | Some d => if overflow || ((two63 - 1) / 10 <? x) || (two63 <? x * 10 + d)
                then leadingFraction x scale true s'
                else leadingFraction (x * 10 + d) (f64_mul scale (f64_of 10)) false s'
    end
  end.

Definition microsecond : Z := 1000.
Definition millisecond : Z := 1000000.

(** [unitMap] *)
Definition unit_of (u : string) : option Z :=
  if String.eqb u "ns" then Some 1
  else if String.eqb u "us" || String.eqb u "µs" || String.eqb u "μs" then Some microsecond
  else if String.eqb u "ms" then Some millisecond
  else if String.eqb u "s" then Some second
  else if String.eqb u "m" then Some minute
  else if String.eqb u "h" then Some hour
  else None.

(** The unit: up to the next digit or dot. *)
Fixpoint split_unit (s : string) : string * string :=
  match s with
  | "" => ("", "")
  | String c s' =>
    if Ascii.eqb c "." || bool_decide (is_Some (digit_of c)) then ("", s)
    else let '(u, rest) := split_unit s' in (String c u, rest)
  end.

(** One number with its unit: its nanoseconds and what follows. *)
Definition duration_part (s : string) : option (Z * string) :=
  '(v, s1) ← leadingInt 0 s;
  let pre := negb (String.length s =? String.length s1)%nat in
  let '(f, scale, post, s2) :=
    match s1 with
    | String "." t => let '(f, scale, rest) := leadingFraction 0 (f64_of 1) false t in
                      (f, scale, negb (String.length t =? String.length rest)%nat, rest)
    | _ => (0, f64_of 1, false, s1)
    end in
  if negb pre && negb post then None
  else let '(u, rest) := split_unit s2 in
  if String.eqb u "" then None
  else unit ← unit_of u;
  if two63 / unit <? v then None
  else let v := v * unit in
  let v := if 0 <? f then v + f64_trunc (f64_mul (f64_of f) (f64_div (f64_of unit) scale)) else v in
  if two63 <? v then None else Some (v, rest).

(** The loop over the parts. *)
Fixpoint duration_parts (fuel : nat) (d : Z) (s : string) : option Z :=
  match fuel, s with
  | _, "" => Some d
  | O, _ => None
  | S fuel, String c _ =>
    if negb (Ascii.eqb c "." || bool_decide (is_Some (digit_of c))) then None
    else '(v, rest) ← duration_part s;
         if two63 <? d + v then None else duration_parts fuel (d + v) rest
  end.

Definition split_sign (s : string) : bool * string :=
  match s with
  | String "-" t => (true, t)
  | String "+" t => (false, t)
  | _ => (false, s)
  end.

Definition ParseDuration (orig : string) : option Z :=
  let '(neg, s) := split_sign orig in
  if String.eqb s "0" then Some 0
  else if String.eqb s "" then None
  else d ← duration_parts (String.length s) 0 s;
  if neg then Some (wrap64 (- d))
  else if two63 - 1 <? d then None else Some d.

Example duration_ex :
  ParseDuration "1h30m" = Some (hour + 30 * minute) ∧ ParseDuration "1.5s" = Some 1500000000 ∧
  ParseDuration "-0.1us" = Some (-100) ∧ ParseDuration "3" = None ∧ ParseDuration "." = None ∧
  ParseDuration "24h" = Some (24 * hour) ∧ ParseDuration "0.3333333333333333333h" = Some 1200000000000 ∧
  ParseDuration "9223372036854775808ns" = None ∧
  ParseDuration "-9223372036854775808ns" = Some (- two63) ∧ ParseDuration "2562048h" = None ∧
  ParseDuration "1d" = None ∧ ParseDuration "15m0.000000001s" = Some (15 * minute + 1).
Proof. vm_compute. split_and!; reflexivity. Qed.

(** ** Whole numbers of nanoseconds are read back *)
Lemma digit_of_range c d : digit_of c = Some d → 0 ≤ d < 10.
Proof.
  unfold digit_of, in_range. destruct (_ && _) eqn:E; [|done]. intros [= <-].
  apply andb_true_iff in E as [E1 E2]. apply N.leb_le in E1, E2.
  change (N_of_ascii "0") with 48%N in E1. change (N_of_ascii "9") with 57%N in E2. lia.
Qed.

Lemma parse_digits_le s a z : 0 ≤ a → parse_digits a s = Some z → a ≤ z.
Proof.
  revert a. induction s as [|c s IH]; intros a Ha; simpl; [by intros [= ->]|].
  destruct (digit_of c) as [d|] eqn:Hd; [|done]. apply digit_of_range in Hd. intros Hz. apply IH in Hz; lia.
Qed.

Lemma leadingInt_digits s t a z :
  0 ≤ a → parse_digits a s = Some z → z ≤ two63 → no_digit t → leadingInt a (s +:+ t) = Some (z, t).
Proof.
  revert a. induction s as [|c s IH]; intros a Ha; rewrite ?str_app_nil_l, ?str_app_cons; simpl.
  { intros [= ->] _ Ht. destruct t as [|c t]; [done|]. simpl in *. by rewrite Ht. }
  destruct (digit_of c) as [d|] eqn:Hd; [|done]. apply digit_of_range in Hd. intros Hz Hle Ht.
  assert (a * 10 + d ≤ z) by (apply (parse_digits_le s); [lia|done]).
  destruct (Z.ltb_spec (two63 / 10) a).
  { pose proof (Z.mul_succ_div_gt two63 10 ltac:(lia)). lia. }
  destruct (Z.ltb_spec two63 (a * 10 + d)); [lia|]. apply IH; [lia|done..].
Qed.

Lemma duration_part_ns n : 0 < n ≤ two63 → duration_part (FormatInt n +:+ "ns") = Some (n, "").
Proof.
  intros Hn. unfold FormatInt. destruct (Z.ltb_spec n 0); [lia|].
  destruct (format_uint_spec n ltac:(lia)) as (c & s & -> & _ & _ & Hp). unfold duration_part.
  rewrite (leadingInt_digits (String c s) "ns" 0 n) by (done || lia). cbn [mbind option_bind].
  rewrite length_str_app. cbv zeta.
  assert ((String.length (String c s) + String.length "ns" =? String.length "ns")%nat = false) as ->
    by (apply Nat.eqb_neq; simpl; lia).
  simpl. rewrite Z.div_1_r, Z.mul_1_r. destruct (Z.ltb_spec two63 n); [lia|]. reflexivity.
Qed.

Lemma duration_parts_last fuel d c s v : is_Some (digit_of c) → duration_part (String c s) = Some (v, "") →
  d + v ≤ two63 → duration_parts (S fuel) d (String c s) = Some (d + v).
Proof.
  intros Hc Hpart Hle. cbn [duration_parts]. rewrite bool_decide_true, orb_true_r, Hpart by done.
  cbn [negb mbind option_bind]. destruct (Z.ltb_spec two63 (d + v)); [lia|]. by destruct fuel.
Qed.

Lemma ParseDuration_ns n : 0 < n < two63 → ParseDuration (FormatInt n +:+ "ns") = Some n.
Proof.
  intros Hn. pose proof (duration_part_ns n ltac:(lia)) as Hpart. unfold FormatInt in *.
  destruct (Z.ltb_spec n 0); [lia|].
  destruct (format_uint_spec n ltac:(lia)) as (c & s & E & _ & Hc & Hp). rewrite E in *.
  rewrite !str_app_cons in *. unfold ParseDuration.
  assert (split_sign (String c (s +:+ "ns")) = (false, String c (s +:+ "ns"))) as ->.
  { destruct c as [[] [] [] [] [] [] [] []]; try reflexivity; by destruct Hc. }
  assert (String.eqb (String c (s +:+ "ns")) "0" = false) as ->.
  { apply String.eqb_neq. intros [= _ Hs]. by apply str_app_eq_nil in Hs as [_ ?]. }
  change (String.eqb (String c (s +:+ "ns")) "") with false.
  cbn [String.length]. rewrite (duration_parts_last _ 0 c (s +:+ "ns") n) by (done || lia).
  cbn [mbind option_bind]. rewrite Z.add_0_l. destruct (Z.ltb_spec (two63 - 1) n); [lia|done].
Qed.
