(* ===== verification/Config.v ===== *)
(** * Configuration (src/internal/config/config.go)

    The settings read from the environment.  Every field depends on one variable; a
    value that cannot be read, or is outside the range of the field, leaves the
    default.  [strconv.Atoi] and [time.ParseDuration] are those of GoStrings.v and
    Duration.v. *)
From S2P Require Import Prelude GoStrings StringFacts Http Calendar Duration.

Definition defaultAddr : string := ":9000".
Definition defaultDataDir : string := "./data".
Definition defaultLogMode : string := "info".
Definition defaultShutdownTimeout : Z := 10 * second.
Definition defaultMaxInFlight : Z := 128.
Definition defaultAuthMaxSkew : Z := 15 * minute.
Definition defaultMetadataBackend : string := "sqlite".
Definition defaultValkeyAddr : string := "127.0.0.1:6379".
Definition defaultMetadataConnectTimeout : Z := 3 * second.
Definition defaultLifecycleInterval : Z := 5 * minute.
Definition defaultLifecycleBatchSize : Z := 100.
Definition defaultLifecycleMaxRetries : Z := 3.
Definition defaultLifecycleBackoff : Z := 200 * millisecond.
Definition defaultMetricsPath : string := "/metrics".
Definition defaultHTTPReadHeaderTimeout : Z := 5 * second.
Definition defaultHTTPReadTimeout : Z := 30 * second.
Definition defaultHTTPWriteTimeout : Z := 30 * second.
Definition defaultHTTPIdleTimeout : Z := 60 * second.
Definition defaultHTTPMaxHeaderBytes : Z := 1048576.
Definition defaultHeavyOpsWorkers : Z := 4.
Definition defaultHeavyOpsQueue : Z := 64.
Definition defaultTLSMinVersion : string := "1.2".
Definition defaultAuthFailThreshold : Z := 20.
Definition defaultAuthFailWindow : Z := minute.
Definition defaultAuthBlockDuration : Z := 5 * minute.
Definition defaultUITheme : string := "sysadmin90".
Definition defaultUIDashboardStatsSSE : Z := 2 * second.
Definition defaultUIBucketsSSE : Z := 10 * second.
Definition defaultUITokensSSE : Z := 10 * second.
Definition defaultUIObjectsSSE : Z := 10 * second.
Definition defaultUIObjectMetadataSSE : Z := 10 * second.
Definition defaultWebsiteAddr : string := ":9001".

Record Config := mkConfig {
  cfg_Addr : string;
  cfg_DataDir : string;
  cfg_ImportDirectory : string;
  cfg_LogMode : string;
  cfg_Domain : string;
  cfg_ShutdownTimeout : Z;
  cfg_MaxInFlight : Z;
  cfg_AuthMaxSkew : Z;
  cfg_AdminAccessKey : string;
  cfg_AdminSecretKey : string;
  cfg_MetadataBackend : string;
  cfg_MetadataDSN : string;
  cfg_MetadataValkeyAddr : string;
  cfg_MetadataConnectTimeout : Z;
  cfg_LifecycleRules : string;
  cfg_LifecycleInterval : Z;
  cfg_LifecycleBatchSize : Z;
  cfg_LifecycleMaxRetries : Z;
  cfg_LifecycleBackoff : Z;
  cfg_LifecycleDryRun : bool;
  cfg_MetricsPath : string;
  cfg_TracingEnabled : bool;
  cfg_HTTPReadHeaderTimeout : Z;
  cfg_HTTPReadTimeout : Z;
  cfg_HTTPWriteTimeout : Z;
  cfg_HTTPIdleTimeout : Z;
  cfg_HTTPMaxHeaderBytes : Z;
  cfg_HTTPDisableKeepAlive : bool;
  cfg_HeavyOpsWorkers : Z;
  cfg_HeavyOpsQueue : Z;
  cfg_TLSEnabled : bool;
  cfg_TLSCertFile : string;
  cfg_TLSKeyFile : string;
  cfg_TLSMinVersion : string;
  cfg_AuthFailThreshold : Z;
  cfg_AuthFailWindow : Z;
  cfg_AuthBlockDuration : Z;
  cfg_PATSigningKey : string;
  cfg_UITheme : string;
  cfg_UIDashboardStatsSSE : Z;
  cfg_UIBucketsSSE : Z;
  cfg_UITokensSSE : Z;
  cfg_UIObjectsSSE : Z;
  cfg_UIObjectMetadataSSE : Z;
  cfg_SSEMasterKey : string;
  cfg_WebsiteEnabled : bool;
  cfg_WebsiteAddr : string;
  cfg_WebsiteDomain : string;
}.

(** [strconv.ParseBool] *)
Definition ParseBool (s : string) : option bool :=
  if bool_decide (s ∈ ["1"; "t"; "T"; "TRUE"; "true"; "True"]) then Some true
  else if bool_decide (s ∈ ["0"; "f"; "F"; "FALSE"; "false"; "False"]) then Some false
  else None.

Section load.
Variable getenv : string → string.

(** The value of a variable that is set and read as a value the field admits. *)
Definition env {A} (parse : string → option A) (admits : A → bool) (name : string) (default : A) : A :=
  let v := getenv name in
  if String.eqb v "" then default
  else match parse v with
       | Some x => if admits x then x else default
       | None => default
       end.

Definition env_text : string → string → string := env Some (λ _, true).
Definition env_bool : string → bool → bool := env ParseBool (λ _, true).
Definition env_positive : string → Z → Z := env Atoi (λ n, 0 <? n).
Definition env_natural : string → Z → Z := env Atoi (λ n, 0 <=? n).
Definition env_duration : string → Z → Z := env ParseDuration (λ d, 0 <? d).
Definition env_pause : string → Z → Z := env ParseDuration (λ d, 0 <=? d).

(** The file of the default metadata store is in the data directory. *)
Definition default_dsn (dataDir : string) : string := "file:" +:+ trim_right_char "/" dataDir +:+ "/s000-metadata.db".

Definition LoadFromEnv : Config :=
  let dataDir := env_text "S000_DATA_DIR" defaultDataDir in
  mkConfig
    (env_text "S000_ADDR" defaultAddr) dataDir
    (env_text "S000_IMPORT_DIRECTORY" "") (env_text "S000_LOG_MODE" defaultLogMode)
    (env_text "S000_DOMAIN" "") (env_duration "S000_SHUTDOWN_TIMEOUT" defaultShutdownTimeout)
    (env_positive "S000_MAX_INFLIGHT" defaultMaxInFlight) (env_duration "S000_AUTH_MAX_SKEW" defaultAuthMaxSkew)
    (env_text "S000_ADMIN_ACCESS_KEY" "") (env_text "S000_ADMIN_SECRET_KEY" "")
    (env_text "S000_METADATA_BACKEND" defaultMetadataBackend)
    (env_text "S000_METADATA_DSN" (default_dsn dataDir))
    (env_text "S000_VALKEY_ADDR" defaultValkeyAddr)
    (env_duration "S000_METADATA_CONNECT_TIMEOUT" defaultMetadataConnectTimeout)
    (env_text "S000_LIFECYCLE_RULES" "") (env_duration "S000_LIFECYCLE_INTERVAL" defaultLifecycleInterval)
    (env_positive "S000_LIFECYCLE_BATCH_SIZE" defaultLifecycleBatchSize)
    (env_natural "S000_LIFECYCLE_MAX_RETRIES" defaultLifecycleMaxRetries)
    (env_pause "S000_LIFECYCLE_BACKOFF" defaultLifecycleBackoff) (env_bool "S000_LIFECYCLE_DRY_RUN" false)
    (env_text "S000_METRICS_PATH" defaultMetricsPath) (env_bool "S000_TRACING_ENABLED" false)
    (env_duration "S000_HTTP_READ_HEADER_TIMEOUT" defaultHTTPReadHeaderTimeout)
    (env_duration "S000_HTTP_READ_TIMEOUT" defaultHTTPReadTimeout)
    (env_duration "S000_HTTP_WRITE_TIMEOUT" defaultHTTPWriteTimeout)
    (env_duration "S000_HTTP_IDLE_TIMEOUT" defaultHTTPIdleTimeout)
    (env_positive "S000_HTTP_MAX_HEADER_BYTES" defaultHTTPMaxHeaderBytes)
    (env_bool "S000_HTTP_DISABLE_KEEPALIVE" false)
    (env_positive "S000_HEAVY_OPS_WORKERS" defaultHeavyOpsWorkers)
    (env_natural "S000_HEAVY_OPS_QUEUE" defaultHeavyOpsQueue)
    (env_bool "S000_TLS_ENABLED" false) (env_text "S000_TLS_CERT_FILE" "") (env_text "S000_TLS_KEY_FILE" "")
    (env_text "S000_TLS_MIN_VERSION" defaultTLSMinVersion)
    (env_positive "S000_AUTH_FAIL_THRESHOLD" defaultAuthFailThreshold)
    (env_duration "S000_AUTH_FAIL_WINDOW" defaultAuthFailWindow)
    (env_duration "S000_AUTH_BLOCK_DURATION" defaultAuthBlockDuration)
    (env_text "S000_PAT_SIGNING_KEY" "")
    (env (λ v, Some (ToLower (TrimSpace v))) (λ _, true) "S000_UI_THEME" defaultUITheme)
    (env_duration "S000_UI_SSE_DASHBOARD_STATS_INTERVAL" defaultUIDashboardStatsSSE)
    (env_duration "S000_UI_SSE_BUCKETS_INTERVAL" defaultUIBucketsSSE)
    (env_duration "S000_UI_SSE_TOKENS_INTERVAL" defaultUITokensSSE)
    (env_duration "S000_UI_SSE_OBJECTS_INTERVAL" defaultUIObjectsSSE)
    (env_duration "S000_UI_SSE_OBJECT_METADATA_INTERVAL" defaultUIObjectMetadataSSE)
    (env_text "S000_SSE_MASTER_KEY" "") (env_bool "S000_WEBSITE_ENABLED" false)
    (env_text "S000_WEBSITE_ADDR" defaultWebsiteAddr) (env_text "S000_WEBSITE_DOMAIN" "").
End load.

(** ** TLS *)
Definition VersionTLS12 : Z := 771.
Definition VersionTLS13 : Z := 772.

Definition ParseTLSMinVersion (value : string) : result Z :=
  let v := TrimSpace (ToLower value) in
  if bool_decide (v ∈ [""; "1.2"; "tls1.2"; "tls12"]) then Ok VersionTLS12
  else if bool_decide (v ∈ ["1.3"; "tls1.3"; "tls13"]) then Ok VersionTLS13
  else Err (Errorf "unsupported tls min version %q" [value]).

Definition ValidateTLSEnabledSettings (cfg : Config) : result unit :=
  if negb (cfg_TLSEnabled cfg) then Ok tt
  else if String.eqb (TrimSpace (cfg_TLSCertFile cfg)) "" then Err (Errorf "tls cert file is required when tls is enabled" [])
  else if String.eqb (TrimSpace (cfg_TLSKeyFile cfg)) "" then Err (Errorf "tls key file is required when tls is enabled" [])
  else match ParseTLSMinVersion (cfg_TLSMinVersion cfg) with Ok _ => Ok tt | Err e => Err e end.

(** ** What a configuration holds *)
Lemma env_admits {A} getenv (parse : string → option A) admits name default :
  admits default = true → admits (env getenv parse admits name default) = true.
Proof.
  intros Hd. unfold env. destruct (String.eqb _ _); [done|]. destruct (parse _) as [x|]; [|done]. by destruct (admits x) eqn:E.
Qed.

Lemma env_ind {A} getenv (parse : string → option A) admits name default (P : A → Prop) :
  P default → (∀ v x, parse v = Some x → P x) → P (env getenv parse admits name default).
Proof.
  intros Hd Hp. unfold env. destruct (String.eqb _ _); [done|]. destruct (parse _) as [x|] eqn:E; [|done].
  destruct (admits x); [by eapply Hp|done].
Qed.

Lemma ParseInt_range s z : ParseInt s = Some z → in_int64 z.
Proof.
  unfold ParseInt. intros E. repeat case_match; try done; simplify_eq; by apply in_int64b_spec.
Qed.

Lemma ParseDuration_max s d : ParseDuration s = Some d → d ≤ int64_max.
Proof.
  unfold ParseDuration. destruct (split_sign s) as [neg t]. destruct (String.eqb t "0"); [intros [= <-]; done|].
  destruct (String.eqb t ""); [done|]. destruct (duration_parts _ _ _) as [v|]; [|done]. simpl. destruct neg.
  - intros [= <-]. apply wrap64_range.
  - destruct (Z.ltb_spec (two63 - 1) v) as [|Hv]; [done|]. intros [= <-]. exact Hv.
Qed.

(** A number of a field that admits what [0 <? _] or [0 <=? _] admits. *)
Definition counts (lo n : Z) : Prop := lo ≤ n ≤ int64_max.

Lemma env_positive_counts getenv name d : counts 1 d → counts 1 (env_positive getenv name d).
Proof.
  intros [Hl Hu]. split.
  - assert (H : 0 <? env_positive getenv name d = true); [|lia]. apply (env_admits _ _ (λ n, 0 <? n)). lia.
  - apply (env_ind _ _ _ _ _ (λ n, n ≤ int64_max)); [done|]. intros v x Hx%ParseInt_range. apply Hx.
Qed.
Lemma env_natural_counts getenv name d : counts 0 d → counts 0 (env_natural getenv name d).
Proof.
  intros [Hl Hu]. split.
  - assert (H : 0 <=? env_natural getenv name d = true); [|lia]. apply (env_admits _ _ (λ n, 0 <=? n)). lia.
  - apply (env_ind _ _ _ _ _ (λ n, n ≤ int64_max)); [done|]. intros v x Hx%ParseInt_range. apply Hx.
Qed.
Lemma env_duration_counts getenv name d : counts 1 d → counts 1 (env_duration getenv name d).
Proof.
  intros [Hl Hu]. split.
  - assert (H : 0 <? env_duration getenv name d = true); [|lia]. apply (env_admits _ _ (λ n, 0 <? n)). lia.
  - apply (env_ind _ _ _ _ _ (λ n, n ≤ int64_max)); [done|]. intros v x. apply ParseDuration_max.
Qed.
Lemma env_pause_counts getenv name d : counts 0 d → counts 0 (env_pause getenv name d).
Proof.
  intros [Hl Hu]. split.
  - assert (H : 0 <=? env_pause getenv name d = true); [|lia]. apply (env_admits _ _ (λ n, 0 <=? n)). lia.
  - apply (env_ind _ _ _ _ _ (λ n, n ≤ int64_max)); [done|]. intros v x. apply ParseDuration_max.
Qed.

(** What the other parts of the program rely on: limits, workers and timeouts are
    positive 64-bit numbers, bounds on repetitions and waiting are not negative. *)
Definition usable (cfg : Config) : Prop :=
  Forall (counts 1) [cfg_ShutdownTimeout cfg; cfg_MaxInFlight cfg; cfg_AuthMaxSkew cfg; cfg_MetadataConnectTimeout cfg;
    cfg_LifecycleInterval cfg; cfg_LifecycleBatchSize cfg; cfg_HTTPReadHeaderTimeout cfg; cfg_HTTPReadTimeout cfg;
    cfg_HTTPWriteTimeout cfg; cfg_HTTPIdleTimeout cfg; cfg_HTTPMaxHeaderBytes cfg; cfg_HeavyOpsWorkers cfg;
    cfg_AuthFailThreshold cfg; cfg_AuthFailWindow cfg; cfg_AuthBlockDuration cfg; cfg_UIDashboardStatsSSE cfg;
    cfg_UIBucketsSSE cfg; cfg_UITokensSSE cfg; cfg_UIObjectsSSE cfg; cfg_UIObjectMetadataSSE cfg] ∧
  Forall (counts 0) [cfg_LifecycleMaxRetries cfg; cfg_LifecycleBackoff cfg; cfg_HeavyOpsQueue cfg].

Lemma positive_read getenv name d n : 0 < n ≤ int64_max → getenv name = FormatInt n → env_positive getenv name d = n.
Proof.
  intros Hn Hg. assert (Hi : ParseInt (FormatInt n) = Some n).
  { apply ParseInt_FormatInt. unfold in_int64, int64_min, int64_max in *. lia. }
  unfold env_positive, env. rewrite Hg. unfold Atoi. destruct (String.eqb_spec (FormatInt n) "") as [E|_]; [by rewrite E in Hi|].
  rewrite Hi. by destruct (Z.ltb_spec 0 n); [|lia].
Qed.

Lemma duration_read getenv name d n : 0 < n ≤ int64_max → getenv name = FormatInt n +:+ "ns" → env_duration getenv name d = n.
Proof.
  intros Hn Hg. assert (Hi : ParseDuration (FormatInt n +:+ "ns") = Some n).
  { apply ParseDuration_ns. unfold two63, int64_max in *. lia. }
  unfold env_duration, env. rewrite Hg. destruct (String.eqb_spec (FormatInt n +:+ "ns") "") as [E|_]; [by rewrite E in Hi|].
  rewrite Hi. by destruct (Z.ltb_spec 0 n); [|lia].
Qed.

(** Whatever the environment holds, the configuration read from it is usable: every
    limit, number of workers and timeout is a positive 64-bit number, and retries,
    backoff and the queue of heavy operations are not negative. *)
Theorem configuration_is_usable getenv : usable (LoadFromEnv getenv).
Proof.
  split; repeat constructor.
  all: first [apply env_positive_counts | apply env_duration_counts | apply env_natural_counts | apply env_pause_counts]; vm_compute.
  all: split; discriminate.
Qed.

(** A number or a duration that is set to a positive 64-bit value is the one the
    configuration has; texts that cannot be read leave the default. *)
Theorem settings_are_read getenv n : 0 < n ≤ int64_max →
  (getenv "S000_MAX_INFLIGHT" = FormatInt n → cfg_MaxInFlight (LoadFromEnv getenv) = n) ∧
  (getenv "S000_HEAVY_OPS_WORKERS" = FormatInt n → cfg_HeavyOpsWorkers (LoadFromEnv getenv) = n) ∧
  (getenv "S000_AUTH_MAX_SKEW" = FormatInt n +:+ "ns" → cfg_AuthMaxSkew (LoadFromEnv getenv) = n) ∧
  (Atoi (getenv "S000_MAX_INFLIGHT") = None → cfg_MaxInFlight (LoadFromEnv getenv) = defaultMaxInFlight) ∧
  (ParseDuration (getenv "S000_AUTH_MAX_SKEW") = None → cfg_AuthMaxSkew (LoadFromEnv getenv) = defaultAuthMaxSkew).
Proof.
  intros Hn. split_and!; simpl; intros Hg; try (by apply positive_read); try (by apply duration_read).
  all: unfold env_positive, env_duration, env; rewrite Hg; by destruct (String.eqb _ _).
Qed.

(** TLS is served from version 1.2 on, or the settings are refused. *)
Lemma tls_from_12 cfg : cfg_TLSEnabled cfg = true → ValidateTLSEnabledSettings cfg = Ok tt →
  ∃ v, ParseTLSMinVersion (cfg_TLSMinVersion cfg) = Ok v ∧ VersionTLS12 ≤ v ∧
    TrimSpace (cfg_TLSCertFile cfg) ≠ "" ∧ TrimSpace (cfg_TLSKeyFile cfg) ≠ "".
Proof.
  intros He. unfold ValidateTLSEnabledSettings. rewrite He. simpl.
  destruct (String.eqb_spec (TrimSpace (cfg_TLSCertFile cfg)) ""); [done|].
  destruct (String.eqb_spec (TrimSpace (cfg_TLSKeyFile cfg)) ""); [done|].
  destruct (ParseTLSMinVersion _) as [v|] eqn:Ev; [|done]. intros _. exists v. split_and!; try done.
  unfold ParseTLSMinVersion in Ev. repeat case_match; simplify_eq; done.
Qed.

Definition ex_env (l : list (string * string)) (name : string) : string :=
  match List.find (λ p, String.eqb p.1 name) l with Some p => p.2 | None => "" end.

Example config_ex :
  let cfg := LoadFromEnv (ex_env [("S000_DATA_DIR", "/srv/data//"); ("S000_MAX_INFLIGHT", "-3"); ("S000_LIFECYCLE_BACKOFF", "0");
    ("S000_HTTP_READ_TIMEOUT", "1m30s"); ("S000_LIFECYCLE_DRY_RUN", "yes"); ("S000_TLS_ENABLED", "T"); ("S000_UI_THEME", " Dracula ")]) in
  cfg_MetadataDSN cfg = "file:/srv/data/s000-metadata.db" ∧ cfg_MaxInFlight cfg = 128 ∧ cfg_LifecycleBackoff cfg = 0 ∧
  cfg_HTTPReadTimeout cfg = 90 * second ∧ cfg_LifecycleDryRun cfg = false ∧ cfg_TLSEnabled cfg = true ∧
  cfg_UITheme cfg = "dracula" ∧ cfg_LifecycleBatchSize cfg = 100.
Proof. vm_compute. split_and!; reflexivity. Qed.

Lemma settings_are_read_witness :
  let getenv := ex_env [("S000_MAX_INFLIGHT", "250"); ("S000_HEAVY_OPS_WORKERS", "250"); ("S000_AUTH_MAX_SKEW", "250ns")] in
  cfg_MaxInFlight (LoadFromEnv getenv) = 250 ∧ cfg_HeavyOpsWorkers (LoadFromEnv getenv) = 250 ∧
  cfg_AuthMaxSkew (LoadFromEnv getenv) = 250.
Proof.
  intros getenv. assert (Hn : 0 < 250 ≤ int64_max) by (vm_compute; split; [reflexivity|discriminate]).
  pose proof (settings_are_read getenv 250 Hn) as (H1 & H2 & H3 & _ & _).
  split_and!; [apply H1|apply H2|apply H3]; vm_compute; reflexivity.
Defined.
