(* ===== verification/LifecycleRules.v ===== *)
(** * Lifecycle rules (src/internal/lifecycle/rules.go)

    Rules by prefix and age, their text in the environment and their XML form.  The
    decoding of XML is a parameter. *)
From S2P Require Import Prelude GoStrings StringFacts Http Calendar Duration.

Record Rule := mkRule {
  lr_Prefix : string;
  lr_ExpireAfter : Z;
}.

#[export] Instance Rule_eq_dec : EqDecision Rule.
Proof. solve_decision. Defined.

(** ** The text form *)

(** One segment of a rule: empty ones are skipped, of equal keys the last one
    counts. *)
Definition add_segment (values : gmap string string) (segment : string) : result (gmap string string) :=
  let segment := TrimSpace segment in
  if String.eqb segment "" then Ok values
  else match SplitN segment "=" 2 with
  | [k; v] =>
    let key := ToLower (TrimSpace k) in
    if String.eqb key "prefix" || String.eqb key "age" then Ok (<[key := TrimSpace v]> values)
    else Err (Errorf "unknown key %q" [key])
  | _ => Err (Errorf "invalid segment %q" [segment])
  end.

Fixpoint add_segments (values : gmap string string) (segments : list string) : result (gmap string string) :=
  match segments with
  | [] => Ok values
  | segment :: segments => values ← add_segment values segment; add_segments values segments
  end.

Definition parseRule (spec : string) : result Rule :=
  let spec := TrimSpace spec in
  if String.eqb spec "" then Err (Errorf "empty rule" [])
  else values ← add_segments ∅ (Split spec ",");
  match values !! "age" with
  | None => Err (Errorf "missing age" [])
  | Some ageRaw =>
    let invalid := Err (Errorf "invalid age %q" [ageRaw]) in
    match ParseDuration ageRaw with
    | None => invalid
    | Some age =>
      if age <=? 0 then invalid
      else match values !! "prefix" with
      | None => Err (Errorf "missing prefix" [])
      | Some prefix => Ok (mkRule prefix age)
      end
    end
  end.

(** The loop over the specifications; [i] is the number of the next one. *)
Fixpoint parse_rules (i : Z) (specs : list string) : result (list Rule) :=
  match specs with
  | [] => Ok []
  | spec :: specs =>
    match parseRule spec with
    | Err err => Err (ErrWrap "parse lifecycle rule %d: %w" [FormatInt i] err)
    | Ok rule => rules ← parse_rules (i + 1) specs; Ok (rule :: rules)
    end
  end.

Definition ParseRules (raw : string) : result (list Rule) :=
  let raw := TrimSpace raw in
  if String.eqb raw "" then Ok [] else parse_rules 1 (Split raw ";").

(** ** Matching *)
Fixpoint matchesAnyRule (rules : list Rule) (key : string) (age : Z) : bool :=
  match rules with
  | [] => false
  | rule :: rules =>
    if age <? lr_ExpireAfter rule then matchesAnyRule rules key age
    else if HasPrefix key (lr_Prefix rule) then true
    else matchesAnyRule rules key age
  end.

(** ** The XML form *)
Record lifecycleRuleXML := mkLifecycleRuleXML {
  lx_Status : string;
  lx_Prefix : string;
  lx_FilterPrefix : string;
  lx_Days : Z;
}.

Definition io_EOF : error := ErrSentinel "EOF".

(** The decoder of encoding/xml on a document: its rules, with [Days] a 64-bit
    integer. *)
Class LifecycleXML := { xml_Decode_lifecycle : string → result (list lifecycleRuleXML) }.

Definition nonempty_or (s d : string) : string := if String.eqb s "" then d else s.

(** [time.Duration(days) * 24 * time.Hour] *)
Definition days_duration (days : Z) : Z := wrap64 (wrap64 (days * 24) * hour).

Fixpoint xml_rules (i : Z) (rules : list lifecycleRuleXML) : result (list Rule) :=
  match rules with
  | [] => Ok []
  | rule :: rules =>
    if negb (EqualFold (TrimSpace (lx_Status rule)) "Enabled") then xml_rules (i + 1) rules
    else if lx_Days rule <=? 0
    then Err (Errorf "parse lifecycle xml rule %d: expiration days must be positive" [FormatInt i])
    else
      let prefix := nonempty_or (TrimSpace (lx_FilterPrefix rule)) (TrimSpace (lx_Prefix rule)) in
      rest ← xml_rules (i + 1) rules;
      Ok (mkRule prefix (days_duration (lx_Days rule)) :: rest)
  end.

Definition ParseLifecycleXMLRules `{!LifecycleXML} (raw : string) : result (list Rule) :=
  let raw := TrimSpace raw in
  if String.eqb raw "" then Ok []
  else match xml_Decode_lifecycle raw with
  | Err err => if bool_decide (err = io_EOF) then Ok [] else Err (ErrWrap "parse lifecycle xml: %w" [] err)
  | Ok rules => xml_rules 1 rules
  end.

Example rules_ex :
  ParseRules " prefix=logs/,age=24h ; age=1h30m,prefix=" = Ok [mkRule "logs/" (24 * hour); mkRule "" (90 * minute)] ∧
  ParseRules "prefix=a" = Err (ErrWrap "parse lifecycle rule %d: %w" ["1"] (Errorf "missing age" [])) ∧
  ParseRules ";" = Err (ErrWrap "parse lifecycle rule %d: %w" ["1"] (Errorf "empty rule" [])) ∧
  matchesAnyRule [mkRule "logs/" hour] "logs/a" hour = true ∧
  matchesAnyRule [mkRule "logs/" hour] "logs/a" (hour - 1) = false.
Proof. vm_compute. split_and!; reflexivity. Qed.

(** ** What a rule matches *)
Lemma matchesAnyRule_spec rules key age :
  matchesAnyRule rules key age = true ↔
  ∃ rule, rule ∈ rules ∧ lr_ExpireAfter rule ≤ age ∧ HasPrefix key (lr_Prefix rule) = true.
Proof.
  induction rules as [|rule rules IH]; simpl; [split; [done|intros (? & ?%not_elem_of_nil & _); done]|].
  destruct (Z.ltb_spec age (lr_ExpireAfter rule)); [|destruct (HasPrefix key (lr_Prefix rule)) eqn:Hp].
  - rewrite IH. split; [intros (r & ? & ?); exists r; split; [by right|done]|].
    intros (r & [->|Hr]%elem_of_cons & ? & ?); [lia|by exists r].
  - split; [|done]. intros _. exists rule. split_and!; [left|done..].
  - rewrite IH. split; [intros (r & ? & ?); exists r; split; [by right|done]|].
    intros (r & [->|Hr]%elem_of_cons & ? & ?); [congruence|by exists r].
Qed.

(** ** Rules read back from their text *)
Definition rule_text (rule : Rule) : string :=
  "prefix=" +:+ lr_Prefix rule +:+ ",age=" +:+ FormatInt (lr_ExpireAfter rule) +:+ "ns".

(** A prefix the text form can express, and an age within 64 bits. *)
Record rule_expressible (rule : Rule) : Prop := {
  re_plain : plain (lr_Prefix rule) = true;
  re_no_comma : Contains (lr_Prefix rule) "," = false;
  re_no_semicolon : Contains (lr_Prefix rule) ";" = false;
  re_age : 0 < lr_ExpireAfter rule < two63;
}.

Lemma parse_digits_lacks a s z d : digit_of d = None → parse_digits a s = Some z → Contains s (String d "") = false.
Proof.
  intros Hd. revert a. induction s as [|c s IH]; intros a; simpl; [done|].
  destruct (digit_of c) as [x|] eqn:Hc; [|done]. intros Hz. rewrite Contains_byte, (IH _ Hz), orb_false_r.
  destruct (Ascii.eqb_spec d c) as [->|]; [congruence|done].
Qed.

Lemma FormatInt_lacks n d : 0 ≤ n → digit_of d = None → Contains (FormatInt n) (String d "") = false.
Proof.
  intros Hn Hd. unfold FormatInt. destruct (Z.ltb_spec n 0); [lia|].
  destruct (format_uint_spec n Hn) as (c & s & -> & _ & _ & Hp). by apply parse_digits_lacks with 0 n.
Qed.

Lemma add_segment_plain values k v :
  k = "prefix" ∨ k = "age" → plain v = true → add_segment values (k +:+ String "=" v) = Ok (<[k := v]> values).
Proof.
  intros Hk Hv. unfold add_segment.
  assert (plain (k +:+ String "=" v) = true) as Hp.
  { rewrite plain_app. simpl. rewrite Hv. by destruct Hk as [-> | ->]. }
  rewrite (TrimSpace_plain _ Hp).
  destruct (String.eqb_spec (k +:+ String "=" v) "") as [E|_]; [by destruct Hk as [-> | ->]|].
  unfold SplitN. cbn [split_n]. rewrite Index_byte_app by by destruct Hk as [-> | ->].
  rewrite str_take_app. assert (str_drop (String.length k + String.length "=") (k +:+ String "=" v) = v) as ->.
  { by destruct Hk as [-> | ->]. }
  rewrite (TrimSpace_plain v Hv). by destruct Hk as [-> | ->].
Qed.

Lemma rule_text_plain rule : rule_expressible rule → plain (rule_text rule) = true.
Proof. intros [Hp _ _ _]. unfold rule_text. rewrite !plain_app, Hp, plain_FormatInt. done. Qed.

Lemma rule_text_lacks rule : rule_expressible rule → Contains (rule_text rule) ";" = false.
Proof.
  intros [_ _ Hs Ha]. unfold rule_text. rewrite !Contains_byte_app, Hs, FormatInt_lacks by (done || lia). done.
Qed.

Lemma parseRule_text rule : rule_expressible rule → parseRule (rule_text rule) = Ok rule.
Proof.
  intros Hr. pose proof (rule_text_plain rule Hr) as Htext. destruct Hr as [Hp Hc _ Ha].
  unfold parseRule. rewrite (TrimSpace_plain _ Htext).
  assert (String.eqb (rule_text rule) "" = false) as -> by done.
  assert (plain (FormatInt (lr_ExpireAfter rule) +:+ "ns") = true) as Hage by by rewrite plain_app, plain_FormatInt.
  assert (Split (rule_text rule) "," =
    ["prefix" +:+ String "=" (lr_Prefix rule); "age" +:+ String "=" (FormatInt (lr_ExpireAfter rule) +:+ "ns")]) as ->.
  { unfold rule_text. change ("prefix=" +:+ ?p +:+ ",age=" +:+ ?x) with (("prefix=" +:+ p) +:+ String "," ("age=" +:+ x)).
    rewrite Split_app by by rewrite Contains_byte_app, Hc. f_equal. apply Split_single.
    change ("age" +:+ String "=" ?x) with ("age=" +:+ x).
    rewrite !Contains_byte_app, FormatInt_lacks by (done || lia). done. }
  cbn [add_segments]. rewrite add_segment_plain by auto. cbn [mbind result_bind].
  rewrite add_segment_plain by auto. cbn [mbind result_bind].
  rewrite lookup_insert_eq, ParseDuration_ns by done. rewrite lookup_insert_ne, lookup_insert_eq by done.
  destruct (Z.leb_spec (lr_ExpireAfter rule) 0); [lia|]. by destruct rule.
Qed.

Lemma parse_rules_texts i rules : Forall rule_expressible rules → parse_rules i (rule_text <$> rules) = Ok rules.
Proof.
  intros Hr. revert i. induction Hr as [|rule rules Hrule _ IH]; intros i; [done|].
  simpl. by rewrite parseRule_text, IH.
Qed.

(** Lifecycle rules survive their text: rules whose prefixes are printable and
    hold no separator, joined by semicolons in the form of the environment variable
    (prefix=p,age=n ns), are read back as they were, in their order; and a rule list
    matches an object exactly when one of its rules has a prefix of its key and an
    age the object has reached. *)
Theorem rules_round_trip rules key age :
  Forall rule_expressible rules →
  ParseRules (Join (rule_text <$> rules) ";") = Ok rules ∧
  (matchesAnyRule rules key age = true ↔
   ∃ rule, rule ∈ rules ∧ lr_ExpireAfter rule ≤ age ∧ HasPrefix key (lr_Prefix rule) = true).
Proof.
  intros Hr. split; [|apply matchesAnyRule_spec]. unfold ParseRules.
  assert (plain (Join (rule_text <$> rules) ";") = true) as Hp.
  { clear key age. induction Hr as [|rule rules Hrule Hrest IH]; [done|]. apply rule_text_plain in Hrule.
    destruct rules as [|rule' rules]; [done|].
    change (Join (rule_text <$> rule :: rule' :: rules) ";") with
      (rule_text rule +:+ ";" +:+ Join (rule_text <$> rule' :: rules) ";").
    by rewrite !plain_app, Hrule, IH. }
  rewrite (TrimSpace_plain _ Hp). destruct rules as [|rule rules]; [done|].
  assert (String.eqb (Join (rule_text <$> rule :: rules) ";") "" = false) as ->.
  { by destruct rules. }
  rewrite Split_Join; [by apply parse_rules_texts|done|].
  apply Forall_fmap. eapply Forall_impl; [exact Hr|]. apply rule_text_lacks.
Qed.

Lemma rules_round_trip_witness :
  ParseRules (Join (rule_text <$> [mkRule "logs/" hour; mkRule "" 5]) ";") = Ok [mkRule "logs/" hour; mkRule "" 5].
Proof.
  apply (rules_round_trip [mkRule "logs/" hour; mkRule "" 5] "" 0).
  repeat (apply Forall_cons; split; [split; [reflexivity..|vm_compute; split; reflexivity]|]). by apply Forall_nil.
Defined.

(** The ages the operations guide shows are refused: days are no unit. *)
Theorem documented_rules_are_refused :
  ParseRules "prefix=logs/,age=30d;prefix=tmp/,age=7d" =
  Err (ErrWrap "parse lifecycle rule %d: %w" ["1"] (Errorf "invalid age %q" ["30d"])).
Proof. vm_compute. reflexivity. Qed.

(** Up to 106751 days the age is what it says; more days wrap around, and 106752 days
    expire objects of any age. *)
Lemma days_exact days : 0 < days ≤ 106751 → days_duration days = days * 24 * hour.
Proof.
  intros Hd. unfold days_duration. rewrite (wrap64_id (days * 24)).
  - apply wrap64_id. unfold in_int64, int64_min, int64_max, hour, second. lia.
  - unfold in_int64, int64_min, int64_max. lia.
Qed.

Theorem many_days_expire_at_once rules key age :
  lr_ExpireAfter <$> rules = [days_duration 106752] → 0 ≤ age → (∀ rule, rule ∈ rules → lr_Prefix rule = "") →
  matchesAnyRule rules key age = true.
Proof.
  intros Hdays Hage Hprefix. destruct rules as [|rule [|]]; try done. injection Hdays as Hdays.
  apply matchesAnyRule_spec. exists rule. split; [left|]. rewrite (Hprefix rule) by left.
  split; [|apply HasPrefix_nil]. rewrite Hdays. transitivity 0; [|done]. by vm_compute.
Qed.
