(* ===== verification/AwsChunked.v ===== *)
(** * Bodies with the aws-chunked encoding (src/internal/server/aws_chunked.go)

    The reader's state machine (size line, data, CRLF, trailers) run to the end of
    the body: the bytes it delivers and the error it ends with.  An [io.EOF]
    returned by [Read], from wherever it comes, is the end of the data for the
    caller. *)
From S2P Require Import Prelude GoStrings StringFacts Http Blob.

Definition usesAWSChunkedEncoding (value : string) : bool :=
  List.existsb (λ part, EqualFold (TrimSpace part) "aws-chunked") (Split value ",").

Definition CR : ascii := ascii_of_nat 13.
Definition LF : ascii := ascii_of_nat 10.
Definition CRLF : string := String CR (String LF "").

(** [r.ReadString('\n')]: the line with its end and the rest; None at the end of
    the input. *)
Definition read_line (input : string) : option (string * string) :=
  (λ i, (str_take (S i) input, str_drop (S i) input)) <$> Index input (String LF "").

(** [strings.TrimRight(s, "\r\n")] *)
Fixpoint trim_right_crlf (s : string) : string :=
  match s with
  | "" => ""
  | String c s =>
    match trim_right_crlf s with
    | "" => if Ascii.eqb c CR || Ascii.eqb c LF then "" else String c ""
    | t => String c t
    end
  end.

(** [strconv.ParseInt(s, 16, 64)] *)
Fixpoint parse_hex_digits (acc : Z) (s : string) : option Z :=
  match s with
  | "" => Some acc
  | String c s => match hex_value c with
                  | Some d => parse_hex_digits (acc * 16 + Z.of_N d) s
                  | None => None
                  end
  end.

Definition parse_uint16 (s : string) : option Z :=
  match s with "" => None | _ => parse_hex_digits 0 s end.

Definition ParseInt16 (s : string) : option Z :=
  let r := match s with
           | String "-" t => Z.opp <$> parse_uint16 t
           | String "+" t => parse_uint16 t
           | _ => parse_uint16 s
           end in
  match r with
  | Some z => if in_int64b z then Some z else None
  | None => None
  end.

Definition parse_chunk_size (line : string) : result Z :=
  let line := trim_right_crlf line in
  let line := match Index line ";" with Some i => str_take i line | None => line end in
  match ParseInt16 (TrimSpace line) with
  | Some size => if size <? 0 then Err (Errorf "invalid aws-chunked chunk size %q" [line]) else Ok size
  | None => Err (Errorf "invalid aws-chunked chunk size %q" [line])
  end.

(** [discardTrailers]: the error it ends with, [ended] at the end of the input. *)
Fixpoint discardTrailers (fuel : nat) (ended : option error) (input : string) : option error :=
  match fuel with
  | O => ended
  | S fuel =>
    match read_line input with
    | None => ended
    | Some (line, rest) =>
      if String.eqb (trim_right_crlf line) "" then None else discardTrailers fuel ended rest
    end
  end.

(** [readCRLF]: the rest of the input, or the error. *)
Definition readCRLF (ended : option error) (input : string) : string + option error :=
  match input with
  | String cr (String lf rest) =>
    if Ascii.eqb cr CR && Ascii.eqb lf LF then inl rest
    else inr (Some (Errorf "invalid aws-chunked chunk terminator" []))
  | _ => inr ended
  end.

(** All the reads up to the end; every round consumes a size line. *)
Fixpoint chunked_reads (fuel : nat) (ended : option error) (needCRLF : bool) (input : string)
    : reader :=
  match fuel with
  | O => mkReader "" ended
  | S fuel =>
    match (if needCRLF then readCRLF ended input else inl input) with
    | inr e => mkReader "" e
    | inl input =>
      match read_line input with
      | None => mkReader "" ended
      | Some (line, rest) =>
        match parse_chunk_size line with
        | Err e => mkReader "" (Some e)
        | Ok size =>
          if size =? 0
          then mkReader "" (discardTrailers (S (String.length rest)) ended rest)
          else
            let data := str_take (Z.to_nat size) rest in
            if str_len rest <? size
            then mkReader data ended
            else
              let next := chunked_reads fuel ended true (str_drop (Z.to_nat size) rest) in
              mkReader (data +:+ rd_bytes next) (rd_error next)
        end
      end
    end
  end.

Definition awsChunkedReader (body : reader) : reader :=
  chunked_reads (S (String.length (rd_bytes body))) (rd_error body) false (rd_bytes body).

Definition requestObjectBody (r : request) : reader :=
  if usesAWSChunkedEncoding (header_get (rq_Header r) "Content-Encoding")
  then awsChunkedReader (rq_Body r)
  else rq_Body r.

(** ** The encoding

    A chunk as a client sends it: a size line with any extension, then the data. *)
Record chunk := mkChunk {
  ch_line : string;
  ch_data : string;
}.

Definition encode_chunk (c : chunk) : string := ch_line c +:+ CRLF +:+ ch_data c +:+ CRLF.

Definition encode_chunks (cs : list chunk) : string := Join (encode_chunk <$> cs) "".

(** The size line has no line feed and gives the length of the data. *)
Definition size_line (line : string) (size : Z) : Prop :=
  Contains line (String LF "") = false ∧ parse_chunk_size (line +:+ CRLF) = Ok size.

Definition wf_chunk (c : chunk) : Prop :=
  ch_data c ≠ "" ∧ size_line (ch_line c) (str_len (ch_data c)).

(** ** Facts *)
Lemma Index_lf_app line t :
  Contains line (String LF "") = false →
  Index (line +:+ CRLF +:+ t) (String LF "") = Some (String.length line + 1)%nat.
Proof.
  induction line as [|c line IH]; intros H.
  { rewrite str_app_nil_l. unfold CRLF. rewrite !str_app_cons, !Index_unfold, !HasPrefix_cons.
    by rewrite !HasPrefix_nil. }
  apply Contains_byte_cons in H as [Hc H]. rewrite str_app_cons, Index_unfold, HasPrefix_cons.
  destruct (Ascii.eqb_spec LF c) as [E|_]; [congruence|]. simpl. by rewrite IH.
Qed.

Lemma read_line_app line t :
  Contains line (String LF "") = false →
  read_line (line +:+ CRLF +:+ t) = Some (line +:+ CRLF, t).
Proof.
  intros H. unfold read_line. rewrite Index_lf_app by done. unfold fmap, option_fmap, option_map.
  assert (S (String.length line + 1) = String.length (line +:+ CRLF))%nat as ->.
  { rewrite length_str_app. simpl. lia. }
  by rewrite <-str_app_assoc, str_take_app, str_drop_app.
Qed.

Lemma str_take_len_app s t : str_take (Z.to_nat (str_len s)) (s +:+ t) = s.
Proof. unfold str_len. rewrite Nat2Z.id. apply str_take_app. Qed.

Lemma str_drop_len_app s t : str_drop (Z.to_nat (str_len s)) (s +:+ t) = t.
Proof. unfold str_len. rewrite Nat2Z.id. apply str_drop_app. Qed.

Lemma encode_chunks_cons c cs : encode_chunks (c :: cs) = encode_chunk c +:+ encode_chunks cs.
Proof. unfold encode_chunks. by rewrite fmap_cons, Join_cons_nil. Qed.

Lemma str_len_pos s : s ≠ "" → 0 < str_len s.
Proof. unfold str_len. destruct s; [done|]. simpl. lia. Qed.

(** One chunk of the encoding: its data, then the rest with the CRLF pending. *)
Lemma chunked_reads_chunk fuel ended (need : bool) c t :
  wf_chunk c →
  chunked_reads (S fuel) ended need ((if need then CRLF else "") +:+ ch_line c +:+ CRLF +:+ ch_data c +:+ t) =
  let next := chunked_reads fuel ended true t in
  mkReader (ch_data c +:+ rd_bytes next) (rd_error next).
Proof.
  intros [Hd [Hl Hs]]. pose proof (str_len_pos _ Hd) as Hp. simpl.
  assert ((if need then readCRLF ended ((if need then CRLF else "") +:+ ch_line c +:+ CRLF +:+ ch_data c +:+ t)
    else inl ((if need then CRLF else "") +:+ ch_line c +:+ CRLF +:+ ch_data c +:+ t)) =
    inl (ch_line c +:+ CRLF +:+ ch_data c +:+ t)) as -> by by destruct need.
  rewrite read_line_app, Hs by done.
  destruct (Z.eqb_spec (str_len (ch_data c)) 0); [lia|].
  destruct (Z.ltb_spec (str_len (ch_data c +:+ t)) (str_len (ch_data c))) as [Hlt|_].
  { unfold str_len in Hlt. rewrite length_str_app in Hlt. lia. }
  by rewrite str_take_len_app, str_drop_len_app.
Qed.

Lemma chunked_reads_last fuel ended line t :
  size_line line 0 →
  chunked_reads (S fuel) ended true (CRLF +:+ line +:+ CRLF +:+ t) =
  mkReader "" (discardTrailers (S (String.length t)) ended t).
Proof.
  intros [Hl Hs]. pose proof (read_line_app line t Hl) as Hr.
  set (input := line +:+ CRLF +:+ t) in *. unfold CRLF. rewrite !str_app_cons, str_app_nil_l.
  cbn [chunked_reads readCRLF]. rewrite !Ascii.eqb_refl. simpl andb. cbv iota. by rewrite Hr, Hs.
Qed.

(** The bytes of the remaining chunks when the CRLF of the one before is pending. *)
Lemma chunked_reads_pending fuel ended cs t :
  Forall wf_chunk cs → (length cs ≤ fuel)%nat →
  chunked_reads fuel ended true (CRLF +:+ encode_chunks cs +:+ t) =
  let next := chunked_reads (fuel - length cs) ended true (CRLF +:+ t) in
  mkReader (Join (ch_data <$> cs) "" +:+ rd_bytes next) (rd_error next).
Proof.
  revert fuel. induction cs as [|c cs IH]; intros fuel Hw Hf.
  - rewrite Nat.sub_0_r. simpl. rewrite !str_app_nil_l.
    by destruct (chunked_reads fuel ended true (CRLF +:+ t)).
  - destruct fuel as [|fuel]; [simpl in Hf; lia|]. apply Forall_cons in Hw as [Hc Hw].
    assert (CRLF +:+ encode_chunks (c :: cs) +:+ t =
      CRLF +:+ ch_line c +:+ CRLF +:+ ch_data c +:+ (CRLF +:+ encode_chunks cs +:+ t)) as ->.
    { rewrite encode_chunks_cons. unfold encode_chunk. by rewrite !str_app_assoc. }
    rewrite (chunked_reads_chunk fuel ended true c) by done.
    rewrite IH by (done || simpl in Hf; lia). rewrite fmap_cons, Join_cons_nil.
    simpl. by rewrite <-str_app_assoc.
Qed.

Lemma length_encode_chunks cs : Forall wf_chunk cs → (length cs ≤ String.length (encode_chunks cs))%nat.
Proof.
  induction 1 as [|c cs [Hc _] Hw IH]; [done|].
  rewrite encode_chunks_cons, length_str_app. unfold encode_chunk. rewrite !length_str_app.
  destruct (ch_data c); [done|]. simpl. lia.
Qed.

(** A body that starts with chunks. *)
Lemma awsChunkedReader_chunks cs t ended :
  Forall wf_chunk cs → cs ≠ [] →
  ∃ fuel, (String.length t < fuel)%nat ∧
  awsChunkedReader (mkReader (encode_chunks cs +:+ t) ended) =
  let next := chunked_reads fuel ended true (CRLF +:+ t) in
  mkReader (Join (ch_data <$> cs) "" +:+ rd_bytes next) (rd_error next).
Proof.
  intros Hw Hne. destruct cs as [|c cs]; [done|].
  pose proof (length_encode_chunks _ Hw) as Hlen. apply Forall_cons in Hw as [Hc Hw].
  unfold awsChunkedReader. simpl rd_bytes. simpl rd_error.
  rewrite length_str_app. set (n := String.length (encode_chunks (c :: cs))) in *.
  exists (n + String.length t - length cs)%nat. simpl in Hlen. split; [lia|].
  assert (encode_chunks (c :: cs) +:+ t =
    (if false then CRLF else "") +:+ ch_line c +:+ CRLF +:+ ch_data c +:+ (CRLF +:+ encode_chunks cs +:+ t)) as ->.
  { rewrite encode_chunks_cons. unfold encode_chunk. by rewrite !str_app_assoc. }
  rewrite (chunked_reads_chunk (n + String.length t) ended false c) by done.
  rewrite chunked_reads_pending by (done || lia). rewrite fmap_cons, Join_cons_nil.
  simpl. by rewrite <-str_app_assoc.
Qed.

(** ** Properties *)


(** A body cut off after any number of chunks, without its terminating chunk,
    is read as a complete, shorter object: the end of the input reaches the caller
    as the end of the data. *)
Theorem chunked_truncation_accepted cs :
  Forall wf_chunk cs → cs ≠ [] →
  awsChunkedReader (bytes_reader (encode_chunks cs)) = bytes_reader (Join (ch_data <$> cs) "").
Proof.
  intros Hw Hne. destruct (awsChunkedReader_chunks cs "" None Hw Hne) as (fuel & Hf & E).
  unfold bytes_reader at 1. rewrite <-(str_app_nil_r (encode_chunks cs)), E.
  destruct fuel as [|fuel]; [lia|]. simpl. by rewrite str_app_nil_r.
Qed.

Definition ex_chunks : list chunk :=
  [mkChunk "5;chunk-signature=ab" "hello"; mkChunk "A" "0123456789"].

Lemma ex_chunks_wf : Forall wf_chunk ex_chunks.
Proof. repeat constructor; done. Qed.


Lemma chunked_truncation_accepted_witness :
  awsChunkedReader (bytes_reader (encode_chunks ex_chunks)) = bytes_reader "hello0123456789".
Proof. apply (chunked_truncation_accepted ex_chunks); [exact ex_chunks_wf|done]. Defined.
