(* ===== verification/Sse.v ===== *)
(** * Server-side encryption (src/internal/server/sse.go)

    AES in counter mode over the object's bytes behind a random initial counter;
    reading a range seeks to the block of its start and advances the counter. *)
From S2P Require Import Prelude GoStrings StringFacts Base64 Model FileSystem Blob BlobFacts Http.

(** The block cipher of crypto/aes: the encryption of a 16-byte block. *)
Class BlockCipher := {
  aes_encrypt : string → string → string;
}.

Definition sseAlgorithmAES256 : string := "AES256".
Definition sseMetadataKey : string := "__s000_sse".
Definition sseIVSize : nat := 16.

(** ** Bytes as numbers *)
Definition byte_Z (c : ascii) : Z := Z.of_N (N_of_ascii c).
Definition Z_byte (z : Z) : ascii := ascii_of_N (Z.to_N (z mod 256)).

Fixpoint le_decode (s : string) : Z :=
  match s with
  | "" => 0
  | String c s => byte_Z c + 256 * le_decode s
  end.

Fixpoint le_encode (n : nat) (z : Z) : string :=
  match n with
  | O => ""
  | S n => String (Z_byte z) (le_encode n (z / 256))
  end.

Definition be_decode (s : string) : Z := le_decode (String.rev s).
Definition be_encode (n : nat) (z : Z) : string := String.rev (le_encode n z).

Definition xor_byte (a b : ascii) : ascii :=
  match a, b with
  | Ascii a0 a1 a2 a3 a4 a5 a6 a7, Ascii b0 b1 b2 b3 b4 b5 b6 b7 =>
    Ascii (xorb a0 b0) (xorb a1 b1) (xorb a2 b2) (xorb a3 b3)
          (xorb a4 b4) (xorb a5 b5) (xorb a6 b6) (xorb a7 b7)
  end.

(** ** crypto/cipher's counter mode *)
Section ctr.
Context `{!BlockCipher}.

(** The block of the key stream at an index, its byte at an offset. *)
Definition ctr_block (key iv : string) (i : Z) : string :=
  aes_encrypt key (be_encode 16 ((be_decode iv + i) mod 2 ^ 128)).

Definition str_nth (n : nat) (s : string) : ascii :=
  match str_drop n s with String c _ => c | "" => ascii_of_nat 0 end.

Definition key_byte (key iv : string) (off : Z) : ascii :=
  str_nth (Z.to_nat (off mod 16)) (ctr_block key iv (off / 16)).

(** [cipher.StreamReader] over [cipher.NewCTR(block, iv)], from an offset of the
    key stream. *)
Fixpoint ctr_xor (key iv : string) (off : Z) (s : string) : string :=
  match s with
  | "" => ""
  | String c s => String (xor_byte c (key_byte key iv off)) (ctr_xor key iv (off + 1) s)
  end.

(** The loop over the bytes of the counter, the last first. *)
Fixpoint advance_bytes (rev_iv : string) (carry : Z) : string :=
  match rev_iv with
  | "" => ""
  | String c s =>
    if carry =? 0 then String c s
    else
      let sum := byte_Z c + Z.land carry 255 in
      String (Z_byte sum) (advance_bytes s (Z.shiftr carry 8 + Z.shiftr sum 8))
  end.

Definition advanceCTRIV (iv : string) (blocks : Z) : string :=
  String.rev (advance_bytes (String.rev iv) (blocks mod 2 ^ 64)).

(** [aes.NewCipher] *)
Definition aes_NewCipher (key : string) : result unit :=
  if existsb (Nat.eqb (String.length key)) [16; 24; 32]%nat then Ok tt
  else Err (Errorf "crypto/aes: invalid key size %d" [FormatInt (str_len key)]).
End ctr.

(** ** The metadata entry *)
Definition meta_get (m : gmap string string) (k : string) : string := default "" (m !! k).

Definition objectUsesSSE (obj : ObjectVersion) : bool :=
  String.eqb (meta_get (ov_Metadata obj) sseMetadataKey) sseAlgorithmAES256.

Definition setSSEHeader (obj : ObjectVersion) (h : http_header) : http_header :=
  if objectUsesSSE obj then header_set "x-amz-server-side-encryption" sseAlgorithmAES256 h else h.

Definition markSSEMetadata (meta : gmap string string) (encrypted : bool) : gmap string string :=
  if encrypted then <[sseMetadataKey := sseAlgorithmAES256]> meta else delete sseMetadataKey meta.

Definition sseRequested (r : request) : bool * string :=
  let value := TrimSpace (header_get (rq_Header r) "x-amz-server-side-encryption") in
  if String.eqb value "" then (false, "") else (true, value).

(** ** Writing and reading *)
Section sse.
Context `{!Hashes} `{!TempNames} `{!BlockCipher}.
Variable bs : blobStore.
Variable sseKey : string.

(** [hashingReader.objectMeta]: the description of the bytes read, with the rest
    of the base. *)
Definition hashing_objectMeta (base : ObjectMeta) (content : string) : ObjectMeta :=
  object_meta (om_Ref base) (om_Path base) content (om_CreatedAt base).

Definition cipher_reader (iv : string) (src : reader) : reader :=
  mkReader (ctr_xor sseKey iv 0 (rd_bytes src)) (rd_error src).

(** [writeMaybeEncryptedObject] when encrypting, after the counter is drawn. *)
Definition write_encrypted (iv : string) (ref : ObjectRef) (src : reader) : M world ObjectMeta :=
  _ ← lift (aes_NewCipher sseKey);
  base ← WriteObject bs ref (multi_reader [bytes_reader iv; cipher_reader iv src]);
  mret (hashing_objectMeta base (rd_bytes src)).

Definition invalid_range (start end_ size : Z) : error :=
  Errorf "invalid range %d-%d for size %d" [FormatInt start; FormatInt end_; FormatInt size].

(** [readMaybeEncryptedObject]: what it writes to its destination and its error. *)
Definition readMaybeEncryptedObject (path : string) (obj : ObjectVersion) (br : option ByteRange)
    : M world (string * option error) :=
  if negb (objectUsesSSE obj) then ReadObject path br
  else if negb (String.length sseKey =? 32)%nat
  then mret ("", Some (Errorf "sse-s3 is not configured" []))
  else
    f ← try (os_ReadFile path);
    match f with
    | Err e => mret ("", Some e)
    | Ok content =>
      s ← try fault_point;
      match s with
      | Err e => mret ("", Some e)
      | Ok _ =>
        if (String.length content <? sseIVSize)%nat
        then mret ("", Some (ErrSentinel "unexpected EOF"))
        else
          let iv := str_take sseIVSize content in
          let '(start, end_) :=
            match br with
            | Some r => (br_Start r, br_End r)
            | None => (0, wrap64 (ov_Size obj - 1))
            end in
          if (start <? 0) || (end_ <? start) || (ov_Size obj <=? end_)
          then mret ("", Some (invalid_range start end_ (ov_Size obj)))
          else
            match aes_NewCipher sseKey with
            | Err e => mret ("", Some e)
            | Ok _ =>
              let blockStart := start - Z.rem start 16 in
              let streamIV := advanceCTRIV iv (Z.quot blockStart 16) in
              c ← try fault_point;
              match c with
              | Err e => mret ("", Some e)
              | Ok _ =>
                let sealed := str_take (Z.to_nat (end_ - blockStart + 1))
                                (str_drop (sseIVSize + Z.to_nat blockStart) content) in
                let plain := ctr_xor sseKey streamIV 0 sealed in
                let discard := Z.to_nat (start - blockStart) in
                if (String.length plain <? discard)%nat
                then mret ("", Some (ErrSentinel "EOF"))
                else mret (str_drop discard plain, None)
              end
            end
      end
    end.
End sse.

(** ** Facts: bytes *)
Lemma byte_Z_range c : 0 ≤ byte_Z c < 256.
Proof. unfold byte_Z. pose proof (N_ascii_bounded c). lia. Qed.

Lemma byte_Z_byte z : byte_Z (Z_byte z) = z mod 256.
Proof.
  unfold byte_Z, Z_byte. pose proof (Z.mod_pos_bound z 256 ltac:(lia)).
  rewrite N_ascii_embedding by lia. lia.
Qed.

Lemma Z_byte_Z c : Z_byte (byte_Z c) = c.
Proof.
  unfold Z_byte. rewrite Z.mod_small by apply byte_Z_range. unfold byte_Z.
  by rewrite N2Z.id, ascii_N_embedding.
Qed.

Lemma le_decode_range s : 0 ≤ le_decode s < 256 ^ Z.of_nat (String.length s).
Proof.
  induction s as [|c s IH]; [done|]. simpl String.length.
  rewrite Nat2Z.inj_succ, Z.pow_succ_r by lia. simpl. pose proof (byte_Z_range c). lia.
Qed.

Lemma le_encode_decode s : le_encode (String.length s) (le_decode s) = s.
Proof.
  induction s as [|c s IH]; [done|]. simpl. pose proof (byte_Z_range c). f_equal.
  - unfold Z_byte. rewrite Z.mul_comm, Z_mod_plus_full, Z.mod_small by lia. unfold byte_Z.
    by rewrite N2Z.id, ascii_N_embedding.
  - rewrite Z.mul_comm, Z.div_add, Z.div_small by lia. by rewrite Z.add_0_l, IH.
Qed.

Lemma le_decode_encode n z : le_decode (le_encode n z) = z mod 256 ^ Z.of_nat n.
Proof.
  revert z. induction n as [|n IH]; intros z; [by rewrite Z.mod_1_r|].
  simpl le_encode. simpl le_decode. rewrite byte_Z_byte, IH, Nat2Z.inj_succ, Z.pow_succ_r by lia.
  rewrite Z.rem_mul_r by (try apply Z.pow_pos_nonneg; lia). lia.
Qed.

Lemma length_advance_bytes s carry : String.length (advance_bytes s carry) = String.length s.
Proof.
  revert carry. induction s as [|c s IH]; intros carry; simpl; [done|].
  destruct (carry =? 0); simpl; [done|]. by rewrite IH.
Qed.

(** The loop is addition modulo the width of the counter. *)
Lemma advance_bytes_spec s carry :
  0 ≤ carry → le_decode (advance_bytes s carry) = (le_decode s + carry) mod 256 ^ Z.of_nat (String.length s).
Proof.
  revert carry. induction s as [|c s IH]; intros carry Hc; [by rewrite Z.mod_1_r|].
  cbn [advance_bytes]. destruct (Z.eqb_spec carry 0) as [->|_].
  { rewrite Z.add_0_r, Z.mod_small by apply le_decode_range. done. }
  pose proof (byte_Z_range c) as Hb.
  assert (Z.land carry 255 = carry mod 256) as E by (by apply (Z.land_ones carry 8)).
  assert (Z.shiftr carry 8 = carry / 256) as E2 by (by apply (Z.shiftr_div_pow2 carry 8)).
  cbn [le_decode String.length]. rewrite E, E2, (Z.shiftr_div_pow2 _ 8) by lia.
  change (2 ^ 8) with 256. set (sum := byte_Z c + carry mod 256).
  assert (0 ≤ carry mod 256 < 256) as Hm by (apply Z.mod_pos_bound; lia).
  assert (0 ≤ carry / 256) as Hd by (apply Z.div_pos; lia).
  assert (0 ≤ sum / 256) as Hs by (apply Z.div_pos; unfold sum; lia).
  rewrite byte_Z_byte, IH, Nat2Z.inj_succ, Z.pow_succ_r by lia.
  set (W := 256 ^ Z.of_nat (String.length s)). assert (0 < W) by (apply Z.pow_pos_nonneg; lia).
  assert (byte_Z c + 256 * le_decode s + carry =
    sum mod 256 + 256 * (le_decode s + (carry / 256 + sum / 256))) as ->.
  { pose proof (Z.div_mod carry 256 ltac:(lia)). pose proof (Z.div_mod sum 256 ltac:(lia)).
    unfold sum in *. lia. }
  rewrite Z.rem_mul_r by lia. set (q := le_decode s + (carry / 256 + sum / 256)).
  pose proof (Z.mod_pos_bound sum 256 ltac:(lia)).
  rewrite (Z.mul_comm 256 q), Z_mod_plus_full, (Z.mod_small (sum mod 256)) by lia.
  rewrite Z.div_add, (Z.div_small (sum mod 256)) by lia. by rewrite Z.add_0_l.
Qed.

Lemma advanceCTRIV_decode iv blocks :
  String.length iv = 16%nat → 0 ≤ blocks < 2 ^ 64 →
  be_decode (advanceCTRIV iv blocks) = (be_decode iv + blocks) mod 2 ^ 128.
Proof.
  intros Hl Hb. unfold be_decode, advanceCTRIV. rewrite str_rev_involutive, Z.mod_small by done.
  rewrite advance_bytes_spec by lia. by rewrite length_str_rev, Hl.
Qed.

Section ctr_facts.
Context `{!BlockCipher}.

Lemma length_ctr_xor key iv off s : String.length (ctr_xor key iv off s) = String.length s.
Proof. revert off. induction s as [|c s IH]; intros off; simpl; congruence. Qed.

Lemma ctr_xor_drop key iv off n s :
  ctr_xor key iv (off + Z.of_nat n) (str_drop n s) = str_drop n (ctr_xor key iv off s).
Proof.
  revert off s. induction n as [|n IH]; intros off s; [by rewrite Z.add_0_r|].
  destruct s as [|c s]; [done|]. simpl. rewrite <-IH. f_equal. lia.
Qed.

Lemma ctr_xor_take key iv off n s :
  ctr_xor key iv off (str_take n s) = str_take n (ctr_xor key iv off s).
Proof. revert off s. induction n as [|n IH]; intros off [|c s]; simpl; try done. by rewrite IH. Qed.

(** Encrypting twice with the same stream gives the bytes back. *)
Lemma xor_byte_involutive a b : xor_byte (xor_byte a b) b = a.
Proof.
  destruct a, b; simpl. f_equal; by rewrite xorb_assoc, xorb_nilpotent, xorb_false_r.
Qed.

Lemma ctr_xor_involutive key iv off s : ctr_xor key iv off (ctr_xor key iv off s) = s.
Proof.
  revert off. induction s as [|c s IH]; intros off; simpl; [done|].
  by rewrite xor_byte_involutive, IH.
Qed.

(** Advancing the counter by [k] blocks is starting [k] blocks later. *)
Lemma ctr_xor_advance key iv k off s :
  String.length iv = 16%nat → 0 ≤ k < 2 ^ 64 → 0 ≤ off →
  ctr_xor key (advanceCTRIV iv k) off s = ctr_xor key iv (16 * k + off) s.
Proof.
  intros Hl Hk. revert off. induction s as [|c s IH]; intros off Ho; [done|].
  cbn [ctr_xor]. rewrite IH by lia. f_equal; [|f_equal; lia].
  f_equal. unfold key_byte. f_equal.
  - f_equal. rewrite Z.add_comm, Z.mul_comm, Z.mod_add by lia. done.
  - unfold ctr_block. f_equal. f_equal. rewrite advanceCTRIV_decode by done.
    rewrite Z.add_mod_idemp_l by lia. f_equal.
    rewrite (Z.mul_comm 16 k), Z.div_add_l by lia. lia.
Qed.
End ctr_facts.

(** ** Reading what was written *)
Section sse_facts.
Context `{!Hashes} `{!TempNames} `{!BlockCipher}.
Variable bs : blobStore.
Variable sseKey : string.

Lemma sse_section iv plain start end_ :
  String.length iv = 16%nat → 0 ≤ start ≤ end_ → end_ < str_len plain → in_int64 (str_len plain) →
  let blockStart := start - Z.rem start 16 in
  str_drop (Z.to_nat (start - blockStart))
    (ctr_xor sseKey (advanceCTRIV iv (Z.quot blockStart 16)) 0
      (str_take (Z.to_nat (end_ - blockStart + 1))
        (str_drop (16 + Z.to_nat blockStart) (iv +:+ ctr_xor sseKey iv 0 plain)))) =
  section_of plain start end_.
Proof.
  intros Hl Hs He Hi blockStart. unfold in_int64, int64_max in Hi.
  assert (Z.rem start 16 = start mod 16) as Er by (apply Z.rem_mod_nonneg; lia).
  assert (blockStart = 16 * (start / 16)) as Eb.
  { unfold blockStart. rewrite Er. pose proof (Z.div_mod start 16 ltac:(lia)). lia. }
  pose proof (Z.mod_pos_bound start 16 ltac:(lia)) as Hm.
  assert (0 ≤ start / 16) as Hd by (apply Z.div_pos; lia).
  assert (0 ≤ blockStart ≤ start) as Hb.
  { split; [lia|]. unfold blockStart. lia. }
  assert (Z.quot blockStart 16 = start / 16) as ->.
  { rewrite Z.quot_div_nonneg by lia. rewrite Eb, Z.mul_comm, Z.div_mul by lia. done. }
  rewrite <-str_drop_drop. change 16%nat with (16%nat). rewrite <-Hl at 1. rewrite str_drop_app.
  rewrite <-(ctr_xor_drop sseKey iv 0 (Z.to_nat blockStart) plain), <-ctr_xor_take.
  rewrite ctr_xor_advance by (done || lia).
  assert (16 * (start / 16) + 0 = 0 + Z.of_nat (Z.to_nat blockStart)) as -> by lia.
  rewrite ctr_xor_involutive, str_drop_take, str_drop_drop. unfold section_of. f_equal; [lia|].
  f_equal. lia.
Qed.

Lemma length_section plain start end_ :
  0 ≤ start ≤ end_ → end_ < str_len plain → String.length (section_of plain start end_) = Z.to_nat (end_ - start + 1).
Proof.
  unfold str_len. intros Hs He. unfold section_of. apply str_take_length. rewrite str_drop_length. lia.
Qed.

Lemma readMaybeEncryptedObject_healthy path obj br w iv plain :
  objectUsesSSE obj = true → String.length sseKey = 32%nat → String.length iv = 16%nat →
  ov_Size obj = str_len plain → in_int64 (str_len plain) → healthy w →
  fs_files w !! path = Some (iv +:+ ctr_xor sseKey iv 0 plain) →
  readMaybeEncryptedObject sseKey path obj br w =
  (w, Ok (let '(start, end_) := range_of br plain in
    if (start <? 0) || (end_ <? start) || (str_len plain <=? end_)
    then ("", Some (invalid_range start end_ (str_len plain)))
    else (section_of plain start end_, None))).
Proof.
  intros Hu Hk Hl Hz Hi Hh Hf. unfold readMaybeEncryptedObject. rewrite Hu, Hk, Nat.eqb_refl. cbv beta iota delta [negb].
  unfold os_ReadFile, mbind, M_bind, try, gets. rewrite fault_point_healthy by done. rewrite Hf.
  rewrite fault_point_healthy by done. cbv iota beta.
  assert (String.length (iv +:+ ctr_xor sseKey iv 0 plain) <? sseIVSize = false)%nat as ->.
  { apply Nat.ltb_ge. rewrite length_str_app, Hl. unfold sseIVSize. lia. }
  assert (str_take sseIVSize (iv +:+ ctr_xor sseKey iv 0 plain) = iv) as ->.
  { unfold sseIVSize. rewrite <-Hl. apply str_take_app. }
  rewrite Hz. rewrite wrap64_id by (unfold in_int64, int64_min, int64_max, str_len in *; lia).
  unfold range_of. assert (aes_NewCipher sseKey = Ok tt) as -> by by (unfold aes_NewCipher; rewrite Hk).
  set (se := match br with Some r => _ | None => _ end). destruct se as [start end_].
  destruct (_ || _) eqn:E; [done|]. apply range_test in E as (Hr1 & Hr2 & Hr3).
  rewrite fault_point_healthy by done. cbv beta iota zeta.
  pose proof (sse_section iv plain start end_ Hl ltac:(lia) Hr3 Hi) as Hsec. cbv zeta in Hsec.
  unfold sseIVSize. rewrite Hsec.
  match goal with |- context [(?a <? ?b)%nat] => destruct (Nat.ltb_spec a b) as [Hlt|_]; [|done] end.
  pose proof (length_section plain start end_ ltac:(lia) Hr3) as Hn.
  rewrite <-Hsec, str_drop_length in Hn. lia.
Qed.

Lemma sealed_reader iv src :
  rd_error (multi_reader [bytes_reader iv; cipher_reader sseKey iv src]) = rd_error src ∧
  (rd_error src = None →
   rd_bytes (multi_reader [bytes_reader iv; cipher_reader sseKey iv src]) =
   iv +:+ ctr_xor sseKey iv 0 (rd_bytes src)).
Proof.
  unfold cipher_reader. destruct src as [b [e|]]; simpl; [done|]. by rewrite str_app_nil_r.
Qed.

(** What a successful encrypted write does to the files. *)
Lemma write_encrypted_spec iv ref src w w' meta :
  roots_apart bs → write_encrypted bs sseKey iv ref src w = (w', Ok meta) →
  fs_files w' = <[ObjectPath bs ref := iv +:+ ctr_xor sseKey iv 0 (rd_bytes src)]> (fs_files w) ∧
  rd_error src = None ∧ ∃ at_, meta = object_meta ref (ObjectPath bs ref) (rd_bytes src) at_.
Proof.
  intros Hr. unfold write_encrypted. intros Hrun.
  apply M_bind_inv in Hrun as (w1 & [] & Hc & Hrun). unfold lift in Hc.
  apply M_bind_inv in Hrun as (w2 & base & Hw & [= <- <-]). injection Hc as <- _.
  pose proof (WriteObject_spec bs ref (multi_reader [bytes_reader iv; cipher_reader sseKey iv src]) (fs_files w) Hr w eq_refl) as Hs.
  rewrite Hw in Hs. cbn [fst snd is_ok negb write_outcome] in Hs. destruct Hs as [[HF Hsrc] Hm].
  destruct (Hm base eq_refl) as [at_ ->]. destruct (sealed_reader iv src) as [Her Hby].
  rewrite Her in Hsrc. rewrite Hby in HF by done. split_and!; [done..|]. by exists at_.
Qed.

(** C27: encrypted objects read back as they were written: after a successful
    encrypted write, in a world where calls no longer fail, reading with the same
    key gives the inclusive section of the plaintext for a range inside it and the
    whole of a non-empty object without a range, though the file holds a random
    counter and the ciphertext and reading starts at the block of the range. *)
Theorem sse_write_then_read iv ref src w w' meta obj br :
  roots_apart bs → String.length sseKey = 32%nat → String.length iv = 16%nat →
  in_int64 (str_len (rd_bytes src)) →
  write_encrypted bs sseKey iv ref src w = (w', Ok meta) → healthy w' →
  objectUsesSSE obj = true → ov_Size obj = om_Size meta →
  let '(start, end_) := range_of br (rd_bytes src) in
  0 ≤ start ≤ end_ → end_ < str_len (rd_bytes src) →
  readMaybeEncryptedObject sseKey (om_Path meta) obj br w' =
  (w', Ok (section_of (rd_bytes src) start end_, None)).
Proof.
  intros Hr Hk Hl Hi Hw Hh Hu Hz. destruct (write_encrypted_spec iv ref src w w' meta Hr Hw) as (HF & _ & at_ & ->).
  pose proof (readMaybeEncryptedObject_healthy (ObjectPath bs ref) obj br w' iv (rd_bytes src)
    Hu Hk Hl Hz Hi Hh ltac:(by rewrite HF, lookup_insert_eq)) as E.
  destruct (range_of br (rd_bytes src)) as [start end_]. intros Hr1 Hr2. simpl om_Path. rewrite E.
  assert ((start <? 0) || (end_ <? start) || (str_len (rd_bytes src) <=? end_) = false) as ->; [|done].
  apply range_test. lia.
Qed.
End sse_facts.

(** Advancing the counter by a number of blocks is addition modulo 2^128 of the
    big-endian counter, the carry running through all sixteen bytes. *)
Theorem advanceCTRIV_spec iv blocks :
  String.length iv = 16%nat → 0 ≤ blocks < 2 ^ 63 →
  String.length (advanceCTRIV iv blocks) = 16%nat ∧
  be_decode (advanceCTRIV iv blocks) = (be_decode iv + blocks) mod 2 ^ 128.
Proof.
  intros Hl Hb. split; [|apply advanceCTRIV_decode; [done|lia]].
  unfold advanceCTRIV. by rewrite length_str_rev, length_advance_bytes, length_str_rev.
Qed.

Lemma advanceCTRIV_spec_witness :
  be_decode (advanceCTRIV (str_repeat 16 (ascii_of_nat 255)) 3) = 2.
Proof.
  destruct (advanceCTRIV_spec (str_repeat 16 (ascii_of_nat 255)) 3) as [_ E];
    [reflexivity|lia|]. rewrite E. reflexivity.
Defined.

(** A stand-in cipher, for evaluation. *)
Definition ex_cipher : BlockCipher := {| aes_encrypt key b := b |}.

Section sse_witness.
#[local] Existing Instance ex_hashes.
#[local] Existing Instance ex_temp_names.
#[local] Existing Instance ex_cipher.

Definition ex_key : string := str_repeat 32 "k".
Definition ex_iv : string := str_repeat 16 (ascii_of_nat 254).
Definition ex_text : string := str_repeat 16 "a" +:+ str_repeat 16 "b" +:+ str_repeat 16 "c".
Definition ex_sealed : world * result ObjectMeta :=
  write_encrypted ex_bs ex_key ex_iv (mkObjectRef "b" "k" "v1") (bytes_reader ex_text) ex_world.
Definition ex_sse_object : ObjectVersion :=
  mkObjectVersion "b" "k" "v1" 48 "" "" "" "" "" "" {[ sseMetadataKey := sseAlgorithmAES256 ]} false 0.

Lemma ex_sealed_eq : ∃ meta, ex_sealed = (ex_sealed.1, Ok meta) ∧ om_Size meta = 48.
Proof.
  assert (match ex_sealed.2 with Ok m => om_Size m =? 48 | Err _ => false end = true) as E by by vm_compute.
  destruct ex_sealed as [w [meta|e]]; simpl in *; [|done]. exists meta. split; [done|]. by apply Z.eqb_eq.
Qed.

Lemma ex_sealed_healthy : healthy ex_sealed.1.
Proof. split; by vm_compute. Qed.

Lemma sse_write_then_read_witness :
  ∃ meta, readMaybeEncryptedObject ex_key (om_Path meta) ex_sse_object (Some (mkByteRange 30 33)) ex_sealed.1 =
          (ex_sealed.1, Ok ("bbcc", None)).
Proof.
  destruct ex_sealed_eq as (meta & E & Hz). exists meta.
  apply (sse_write_then_read ex_bs ex_key ex_iv (mkObjectRef "b" "k" "v1") (bytes_reader ex_text)
    ex_world ex_sealed.1 meta ex_sse_object (Some (mkByteRange 30 33)) ex_roots_apart);
    [reflexivity|reflexivity|split; vm_compute; discriminate|exact E|exact ex_sealed_healthy
    |reflexivity|by rewrite Hz|simpl; lia|vm_compute; reflexivity].
Defined.
End sse_witness.
