(* ===== verification/Heavy.v ===== *)
(** * The limiter of heavy operations (src/internal/server/heavy.go)

    Two counting channels, slots (running and queued) and workers (running), and a
    depth under a mutex that is reported outside of it.  Each request is a thread
    with its program counter; a step of a thread is one channel operation, one
    critical section or one report.  Theorems quantify over all interleavings and
    over when contexts are cancelled. *)
From S2P Require Import Prelude.

Inductive heavy_pc : Type :=
  | PIdle                    (* before Acquire *)
  | PAdjustUp                (* slot taken, before adjustDepth(1) *)
  | PReportUp (depth : Z)    (* mutex released, before depthUpdate *)
  | PWait                    (* at the second select *)
  | PCancel                  (* context done, before <-slots *)
  | PRun                     (* Acquire has returned nil: the operation runs *)
  | PRelease                 (* worker returned, before <-slots *)
  | PAdjustDown              (* slot returned, before adjustDepth(-1) *)
  | PReportDown (depth : Z)
  | PRefused                 (* ErrServerOverloaded *)
  | PDone.                   (* served, or cancelled while waiting *)

Record heavyOpLimiter := mkLimiter {
  hl_workers_cap : nat;
  hl_slots_cap : nat;
  hl_slots : nat;
  hl_workers : nat;
  hl_queueDepth : Z;
  hl_gauge : Z;
  hl_threads : list heavy_pc;
}.

(** [newHeavyOpLimiter], with the threads that will use it. *)
Definition newHeavyOpLimiter (workers queue : Z) (threads : nat) : heavyOpLimiter :=
  let workers := if workers <=? 0 then 4 else workers in
  let queue := if queue <? 0 then 0 else queue in
  mkLimiter (Z.to_nat workers) (Z.to_nat (workers + queue)) 0 0 0 0 (replicate threads PIdle).

Definition set_thread (i : nat) (pc : heavy_pc) (l : heavyOpLimiter) : heavyOpLimiter :=
  mkLimiter (hl_workers_cap l) (hl_slots_cap l) (hl_slots l) (hl_workers l)
    (hl_queueDepth l) (hl_gauge l) (<[i := pc]> (hl_threads l)).
Definition set_slots (n : nat) (l : heavyOpLimiter) : heavyOpLimiter :=
  mkLimiter (hl_workers_cap l) (hl_slots_cap l) n (hl_workers l)
    (hl_queueDepth l) (hl_gauge l) (hl_threads l).
Definition set_workers (n : nat) (l : heavyOpLimiter) : heavyOpLimiter :=
  mkLimiter (hl_workers_cap l) (hl_slots_cap l) (hl_slots l) n
    (hl_queueDepth l) (hl_gauge l) (hl_threads l).
Definition set_depth (d : Z) (l : heavyOpLimiter) : heavyOpLimiter :=
  mkLimiter (hl_workers_cap l) (hl_slots_cap l) (hl_slots l) (hl_workers l)
    d (hl_gauge l) (hl_threads l).
Definition set_gauge (d : Z) (l : heavyOpLimiter) : heavyOpLimiter :=
  mkLimiter (hl_workers_cap l) (hl_slots_cap l) (hl_slots l) (hl_workers l)
    (hl_queueDepth l) d (hl_threads l).

(** The critical section of [adjustDepth]. *)
Definition adjusted (delta : Z) (l : heavyOpLimiter) : Z :=
  let d := hl_queueDepth l + delta in if d <? 0 then 0 else d.

(** One step of thread [i]; [cancelled]: is its context done?  None: it blocks, or
    has nothing to do. *)
Definition heavy_step (i : nat) (cancelled : bool) (l : heavyOpLimiter) : option heavyOpLimiter :=
  pc ← hl_threads l !! i;
  match pc with
  | PIdle =>
    if (hl_slots l <? hl_slots_cap l)%nat
    then Some (set_thread i PAdjustUp (set_slots (S (hl_slots l)) l))
    else Some (set_thread i PRefused l)
  | PAdjustUp =>
    let d := adjusted 1 l in Some (set_thread i (PReportUp d) (set_depth d l))
  | PReportUp d => Some (set_thread i PWait (set_gauge d l))
  | PWait =>
    if cancelled then Some (set_thread i PCancel l)
    else if (hl_workers l <? hl_workers_cap l)%nat
    then Some (set_thread i PRun (set_workers (S (hl_workers l)) l))
    else None
  | PCancel | PRelease =>
    match hl_slots l with
    | O => None
    | S n => Some (set_thread i PAdjustDown (set_slots n l))
    end
  | PRun =>
    match hl_workers l with
    | O => None
    | S n => Some (set_thread i PRelease (set_workers n l))
    end
  | PAdjustDown =>
    let d := adjusted (-1) l in Some (set_thread i (PReportDown d) (set_depth d l))
  | PReportDown d => Some (set_thread i PDone (set_gauge d l))
  | PRefused | PDone => None
  end.

Inductive heavy_reachable (workers queue : Z) (threads : nat) : heavyOpLimiter → Prop :=
  | heavy_start : heavy_reachable workers queue threads (newHeavyOpLimiter workers queue threads)
  | heavy_next i cancelled l l' :
      heavy_reachable workers queue threads l → heavy_step i cancelled l = Some l' →
      heavy_reachable workers queue threads l'.

(** Runs of a schedule, for evaluation. *)
Fixpoint heavy_run (schedule : list (nat * bool)) (l : heavyOpLimiter) : option heavyOpLimiter :=
  match schedule with
  | [] => Some l
  | (i, c) :: rest => l' ← heavy_step i c l; heavy_run rest l'
  end.

(** ** The invariant *)
Definition holds_slot (pc : heavy_pc) : bool :=
  match pc with
  | PAdjustUp | PReportUp _ | PWait | PCancel | PRun | PRelease => true
  | _ => false
  end.
Definition holds_worker (pc : heavy_pc) : bool :=
  match pc with PRun => true | _ => false end.
Definition in_depth (pc : heavy_pc) : bool :=
  match pc with
  | PReportUp _ | PWait | PCancel | PRun | PRelease | PAdjustDown => true
  | _ => false
  end.

Fixpoint count {A} (p : A → bool) (l : list A) : nat :=
  match l with
  | [] => 0
  | x :: l => (if p x then 1 else 0) + count p l
  end%nat.

Record heavy_inv (workers queue : Z) (l : heavyOpLimiter) : Prop := {
  hi_slots : hl_slots l = count holds_slot (hl_threads l);
  hi_workers : hl_workers l = count holds_worker (hl_threads l);
  hi_depth : hl_queueDepth l = Z.of_nat (count in_depth (hl_threads l));
  hi_slots_cap : (hl_slots l ≤ hl_slots_cap l)%nat;
  hi_workers_cap : (hl_workers l ≤ hl_workers_cap l)%nat;
  hi_caps : let l0 := newHeavyOpLimiter workers queue 0 in
    hl_workers_cap l = hl_workers_cap l0 ∧ hl_slots_cap l = hl_slots_cap l0;
}.

Lemma count_insert {A} (p : A → bool) (l : list A) i x y :
  l !! i = Some x →
  (count p (<[i := y]> l) + (if p x then 1 else 0) = count p l + (if p y then 1 else 0))%nat.
Proof.
  revert i. induction l as [|z l IH]; intros [|i] Hi; simpl in *; simplify_eq; [lia|].
  specialize (IH i Hi). lia.
Qed.

Lemma count_pos {A} (p : A → bool) (l : list A) i x : l !! i = Some x → p x = true → (0 < count p l)%nat.
Proof.
  revert i. induction l as [|z l IH]; intros [|i] Hi Hp; simpl in *; simplify_eq; [rewrite Hp; lia|].
  specialize (IH i Hi Hp). lia.
Qed.

Lemma count_replicate {A} (p : A → bool) n x : p x = false → count p (replicate n x) = 0%nat.
Proof. intros Hp. induction n; simpl; [done|]. by rewrite Hp. Qed.

Lemma heavy_step_inv workers queue i cancelled l l' :
  heavy_inv workers queue l → heavy_step i cancelled l = Some l' → heavy_inv workers queue l'.
Proof.
  intros [Hs Hw Hd Hsc Hwc Hc] Hstep. unfold heavy_step in Hstep.
  destruct (hl_threads l !! i) as [pc|] eqn:Hi; [|done]. simpl in Hstep.
  assert (∀ y, count holds_slot (<[i := y]> (hl_threads l)) + (if holds_slot pc then 1 else 0) =
    count holds_slot (hl_threads l) + (if holds_slot y then 1 else 0))%nat as Cs by (intros; by apply count_insert).
  assert (∀ y, count holds_worker (<[i := y]> (hl_threads l)) + (if holds_worker pc then 1 else 0) =
    count holds_worker (hl_threads l) + (if holds_worker y then 1 else 0))%nat as Cw by (intros; by apply count_insert).
  assert (∀ y, count in_depth (<[i := y]> (hl_threads l)) + (if in_depth pc then 1 else 0) =
    count in_depth (hl_threads l) + (if in_depth y then 1 else 0))%nat as Cd by (intros; by apply count_insert).
  assert (in_depth pc = true → (0 < count in_depth (hl_threads l))%nat) as Cp by (intros; by eapply count_pos).
  destruct pc; simpl in *; try discriminate; unfold adjusted in *;
    repeat match type of Hstep with context [if ?b then _ else _] => destruct b eqn:? end;
    repeat match type of Hstep with context [match ?n with O => _ | S _ => _ end] => destruct n eqn:? end;
    simplify_eq; split; simpl;
    repeat match goal with
    | H : ∀ y : heavy_pc, _ |- context [<[_ := ?pc']> _] => specialize (H pc'); simpl in H
    end;
    rewrite ?Nat.ltb_lt, ?Z.ltb_lt in *; try done; lia.
Qed.

Lemma heavy_reachable_inv workers queue threads l :
  heavy_reachable workers queue threads l → heavy_inv workers queue l.
Proof.
  induction 1 as [|i c l l' _ IH Hstep]; [|by eapply heavy_step_inv].
  split; simpl; rewrite ?count_replicate by done; try done; lia.
Qed.

(** ** Progress *)
Definition finished (pc : heavy_pc) : bool :=
  match pc with PRefused | PDone => true | _ => false end.

(** Steps a thread may still take. *)
Definition pc_weight (pc : heavy_pc) : nat :=
  match pc with
  | PIdle => 9 | PAdjustUp => 8 | PReportUp _ => 7 | PWait => 6 | PRun => 5
  | PCancel | PRelease => 3 | PAdjustDown => 2 | PReportDown _ => 1
  | PRefused | PDone => 0
  end.

Fixpoint weight (l : list heavy_pc) : nat :=
  match l with [] => 0 | pc :: l => pc_weight pc + weight l end%nat.

Lemma weight_insert l i x y :
  l !! i = Some x → (weight (<[i := y]> l) + pc_weight x = weight l + pc_weight y)%nat.
Proof.
  revert i. induction l as [|z l IH]; intros [|i] Hi; simpl in *; simplify_eq; [lia|].
  specialize (IH i Hi). lia.
Qed.

Lemma heavy_step_weight i cancelled l l' :
  heavy_step i cancelled l = Some l' → (weight (hl_threads l') < weight (hl_threads l))%nat.
Proof.
  unfold heavy_step. destruct (hl_threads l !! i) as [pc|] eqn:Hi; [|done]. simpl.
  assert (∀ y, weight (<[i := y]> (hl_threads l)) + pc_weight pc =
    weight (hl_threads l) + pc_weight y)%nat as Hw by (intros; by apply weight_insert).
  intros Hstep. destruct pc; try discriminate; simpl in *;
    repeat match type of Hstep with context [if ?b then _ else _] => destruct b end;
    repeat match type of Hstep with context [match ?n with O => _ | S _ => _ end] => destruct n end;
    simplify_eq; simpl;
    match goal with |- context [<[_ := ?pc']> _] => specialize (Hw pc'); simpl in Hw end; lia.
Qed.

Lemma count_all_false {A} (p : A → bool) (l : list A) : Forall (λ x, p x = false) l → count p l = 0%nat.
Proof. induction 1 as [|x l Hx _ IH]; simpl; [done|]. by rewrite Hx. Qed.

Lemma count_some {A} (p : A → bool) (l : list A) : (0 < count p l)%nat → ∃ i x, l !! i = Some x ∧ p x = true.
Proof.
  induction l as [|z l IH]; simpl; [lia|]. destruct (p z) eqn:E; [by exists 0%nat, z|].
  intros H. destruct IH as (i & x & Hi & Hx); [lia|]. by exists (S i), x.
Qed.

Lemma count_le {A} (p q : A → bool) (l : list A) :
  (∀ x, p x = true → q x = true) → (count p l ≤ count q l)%nat.
Proof.
  intros Hpq. induction l as [|x l IH]; simpl; [done|].
  destruct (p x) eqn:E; [rewrite (Hpq x E)|destruct (q x)]; lia.
Qed.

(** A thread that is not finished can take a step, or waits while all workers are
    busy. *)
Lemma thread_steps workers queue l i pc :
  heavy_inv workers queue l → hl_threads l !! i = Some pc → finished pc = false →
  is_Some (heavy_step i false l) ∨ (pc = PWait ∧ hl_workers l = hl_workers_cap l).
Proof.
  intros [Hs Hw Hd Hsc Hwc Hc] Hi Hf. unfold heavy_step. rewrite Hi. simpl.
  pose proof (count_pos holds_slot _ _ _ Hi) as Ps. pose proof (count_pos holds_worker _ _ _ Hi) as Pw.
  destruct pc; simpl in *; try discriminate; try (left; by eauto);
    repeat case_match; try (left; by eauto);
    try (specialize (Ps eq_refl)); try (specialize (Pw eq_refl)); try lia.
  all: right; split; [done|]; rewrite ?Nat.ltb_ge in *; lia.
Qed.

Lemma workers_cap_pos workers queue l : heavy_inv workers queue l → (0 < hl_workers_cap l)%nat.
Proof.
  intros [_ _ _ _ _ [Hc _]]. rewrite Hc. simpl. destruct (Z.leb_spec workers 0); lia.
Qed.

Lemma some_thread_steps workers queue l i pc :
  heavy_inv workers queue l → hl_threads l !! i = Some pc → finished pc = false →
  ∃ j, is_Some (heavy_step j false l).
Proof.
  intros Hinv Hi Hf. destruct (thread_steps workers queue l i pc Hinv Hi Hf) as [?|[_ Hfull]]; [eauto|].
  pose proof (workers_cap_pos _ _ _ Hinv). destruct (count_some holds_worker (hl_threads l)) as (j & pc' & Hj & Hpc').
  { rewrite <-(hi_workers _ _ _ Hinv). lia. }
  exists j. destruct pc'; try discriminate.
  destruct (thread_steps workers queue l j PRun Hinv Hj eq_refl) as [?|[? _]]; [done|discriminate].
Qed.

(** ** Properties *)

(** For every interleaving and every cancellation, at most [workers] heavy
    operations run, at most [workers + queue] hold a slot, the depth is exactly the
    number of requests between their two adjustments (so the clamp at 0 never
    acts), and when no request is in flight the limiter is empty. *)
Theorem heavy_limits workers queue threads l :
  heavy_reachable workers queue threads l →
  let cap := newHeavyOpLimiter workers queue 0 in
  (count holds_worker (hl_threads l) ≤ hl_workers_cap cap)%nat ∧
  (count holds_slot (hl_threads l) ≤ hl_slots_cap cap)%nat ∧
  hl_queueDepth l = Z.of_nat (count in_depth (hl_threads l)) ∧
  (Forall (λ pc, pc = PIdle ∨ finished pc = true) (hl_threads l) →
   hl_slots l = 0%nat ∧ hl_workers l = 0%nat ∧ hl_queueDepth l = 0).
Proof.
  intros Hr. apply heavy_reachable_inv in Hr as [Hs Hw Hd Hsc Hwc [Hc1 Hc2]].
  simpl in *. split_and!; [lia|lia|done|]. intros Hall.
  assert (∀ p, (∀ pc, p pc = true → pc ≠ PIdle ∧ finished pc = false) →
    count p (hl_threads l) = 0%nat) as Hz.
  { intros p Hp. apply count_all_false. eapply Forall_impl; [exact Hall|].
    intros pc Hpc. destruct (p pc) eqn:E; [|done]. apply Hp in E as [? E]. destruct Hpc; congruence. }
  rewrite Hs, Hw, Hd, !Hz; [done|..]; by intros [].
Qed.

(** A request is refused only when all [workers + queue] slots are taken by
    others, and it then holds nothing. *)
Theorem heavy_refusal workers queue threads l i cancelled l' :
  heavy_reachable workers queue threads l →
  hl_threads l !! i = Some PIdle → heavy_step i cancelled l = Some l' →
  hl_threads l' !! i = Some PRefused ↔
  count holds_slot (hl_threads l) = hl_slots_cap (newHeavyOpLimiter workers queue 0).
Proof.
  intros Hr Hi Hstep. apply heavy_reachable_inv in Hr as [Hs _ _ Hsc _ [_ Hc]].
  unfold heavy_step in Hstep. rewrite Hi in Hstep. simpl in Hstep. rewrite <-Hc, <-Hs.
  pose proof (lookup_lt_Some _ _ _ Hi) as Hlt.
  destruct (Nat.ltb_spec (hl_slots l) (hl_slots_cap l)); simplify_eq; simpl;
    rewrite list_lookup_insert_eq by done; split; intros; simplify_eq; first [done|lia].
Qed.

(** C31: no deadlock and no lost wake-up: from every reachable state the threads have
    a schedule, without any cancellation, on which every request finishes; and no
    schedule is infinite, for every step lowers the total weight. *)
Theorem heavy_all_finish workers queue threads l :
  heavy_reachable workers queue threads l →
  ∃ schedule l', heavy_run schedule l = Some l' ∧
    Forall (λ pc, finished pc = true) (hl_threads l') ∧
    Forall (λ e, e.2 = false) schedule ∧
    (length schedule ≤ weight (hl_threads l))%nat.
Proof.
  intros Hr%heavy_reachable_inv. remember (weight (hl_threads l)) as n eqn:Hn.
  revert l Hr Hn. induction n as [n IH] using lt_wf_ind. intros l Hinv Hn.
  destruct (decide (Forall (λ pc, finished pc = true) (hl_threads l))) as [Hall|Hsome].
  { exists [], l. split_and!; [done..|simpl; lia]. }
  apply not_Forall_Exists, Exists_exists in Hsome as (pc & Hpc & Hf); [|apply _].
  apply list_elem_of_lookup in Hpc as [i Hi]. apply not_true_is_false in Hf.
  destruct (some_thread_steps workers queue l i pc Hinv Hi Hf) as [j [l1 Hj]].
  pose proof (heavy_step_weight _ _ _ _ Hj) as Hlt.
  destruct (IH (weight (hl_threads l1)) ltac:(lia) l1) as (sched & l' & Hrun & Hfin & Hc & Hlen);
    [by eapply heavy_step_inv|done|].
  exists ((j, false) :: sched), l'. simpl. rewrite Hj. split_and!; [done..|by constructor|lia].
Qed.

Lemma heavy_run_reachable workers queue threads s l l' :
  heavy_reachable workers queue threads l → heavy_run s l = Some l' →
  heavy_reachable workers queue threads l'.
Proof.
  revert l. induction s as [|[i c] s IH]; intros l Hl Hr; simpl in Hr; [by simplify_eq|].
  destruct (heavy_step i c l) as [l1|] eqn:E; [|done]. eapply IH; [|exact Hr]. by econstructor.
Qed.

(** Request 0 runs, request 1 waits; 0 returns its slot and lowers the depth to 1;
    1 runs to its end and reports 0; then 0 reports 1. *)
Definition stale_schedule : list (nat * bool) :=
  replicate 4 (0%nat, false) ++ replicate 3 (1%nat, false) ++ replicate 3 (0%nat, false) ++
  replicate 5 (1%nat, false) ++ [(0%nat, false)].

Definition stale_limiter : heavyOpLimiter := mkLimiter 1 2 0 0 0 1 [PDone; PDone].

Lemma stale_run : heavy_run stale_schedule (newHeavyOpLimiter 1 1 2) = Some stale_limiter.
Proof. vm_compute. reflexivity. Qed.

(** The reported depth may stay wrong: the report is made after the mutex is
    released, so two reports may arrive in the opposite order; here both requests
    are finished, the depth is 0 and the last report says 1. *)
Theorem heavy_gauge_stale :
  ∃ l, heavy_reachable 1 1 2 l ∧ Forall (λ pc, finished pc = true) (hl_threads l) ∧
    hl_queueDepth l = 0 ∧ hl_gauge l = 1.
Proof.
  exists stale_limiter. split; [|split; [by repeat constructor|done]].
  eapply heavy_run_reachable; [apply heavy_start|exact stale_run].
Qed.

(** ** Witnesses *)
Definition ex_limiter : heavyOpLimiter := mkLimiter 1 1 1 1 1 1 [PRun; PIdle].

Lemma ex_limiter_reachable : heavy_reachable 1 0 2 ex_limiter.
Proof.
  apply (heavy_run_reachable 1 0 2 (replicate 4 (0%nat, false)) (newHeavyOpLimiter 1 0 2));
    [apply heavy_start|vm_compute; reflexivity].
Qed.

Lemma heavy_limits_witness : (count holds_worker (hl_threads ex_limiter) ≤ 1)%nat.
Proof. apply (heavy_limits 1 0 2 ex_limiter ex_limiter_reachable). Defined.

Lemma heavy_refusal_witness :
  ∃ l', heavy_step 1 false ex_limiter = Some l' ∧ hl_threads l' !! 1%nat = Some PRefused.
Proof.
  eexists. split; [reflexivity|].
  apply (heavy_refusal 1 0 2 ex_limiter 1 false _ ex_limiter_reachable); reflexivity.
Defined.

Lemma heavy_all_finish_witness :
  ∃ schedule l', heavy_run schedule ex_limiter = Some l' ∧
    Forall (λ pc, finished pc = true) (hl_threads l').
Proof.
  destruct (heavy_all_finish 1 0 2 ex_limiter ex_limiter_reachable) as (s & l' & Hr & Hf & _).
  exists s, l'. split; [exact Hr|exact Hf].
Defined.
