(* ===== verification/Credentials.v ===== *)
(** * Credentials (src/internal/auth/credentials.go)

    The in-memory store of access keys: one record per key with the current secret,
    the previous one and the end of their overlap.  Every method runs under the
    store's lock, so a method is one step; [now] is what its clock reads. *)
From S2P Require Import Prelude GoStrings FileSystem Model Blob BlobFacts.

Definition ErrCredentialAlreadyExists : error := ErrSentinel "credential already exists".
Definition ErrCredentialNotFound : error := ErrSentinel "credential not found".
Definition ErrBootstrapAlreadyCompleted : error := ErrSentinel "bootstrap already completed".
Definition ErrInvalidCredentialInput : error := ErrSentinel "invalid credential input".

Definition CredentialStatusActive : string := "active".
Definition CredentialStatusDisabled : string := "disabled".

Record credentialRecord := mkCredential {
  cr_AccessKeyID : string;
  cr_SecretHash : string;
  cr_PreviousSecretHash : string;
  cr_PreviousSecretUntil : Z;
  cr_Status : string;
  cr_CreatedAt : Z;
  cr_RotatedAt : Z;
  cr_secret : string;
  cr_previousSecret : string;
}.

Abbreviation CredentialStore := (gmap string credentialRecord).

(** [NewCredentialStore] *)
Definition NewCredentialStore : CredentialStore := ∅.

Section credentials.
Context `{!Hashes}.

Definition hashSecret (secret : string) : string := hex_encode (sha256_sum secret).

(** [subtle.ConstantTimeCompare] is equality. *)
Definition compareSecret (secret expectedHash : string) : bool :=
  String.eqb (hashSecret secret) expectedHash.

Definition new_credential (accessKeyID secret : string) (now : Z) : credentialRecord :=
  mkCredential accessKeyID (hashSecret secret) "" zero_time CredentialStatusActive now zero_time secret "".

Definition BootstrapAdminCredential (now : Z) (accessKeyID secret : string) : M CredentialStore unit :=
  if String.eqb accessKeyID "" || String.eqb secret "" then throw ErrInvalidCredentialInput
  else creds ← get;
       if negb (size creds =? 0)%nat then throw ErrBootstrapAlreadyCompleted
       else put (<[accessKeyID := new_credential accessKeyID secret now]> creds).

Definition CreateCredential (now : Z) (accessKeyID secret : string) : M CredentialStore unit :=
  if String.eqb accessKeyID "" || String.eqb secret "" then throw ErrInvalidCredentialInput
  else creds ← get;
       match creds !! accessKeyID with
       | Some _ => throw ErrCredentialAlreadyExists
       | None => put (<[accessKeyID := new_credential accessKeyID secret now]> creds)
       end.

Definition rotated (now : Z) (newSecret : string) (overlap : Z) (rec : credentialRecord) : credentialRecord :=
  mkCredential (cr_AccessKeyID rec) (hashSecret newSecret) (cr_SecretHash rec) (now + overlap)
    (cr_Status rec) (cr_CreatedAt rec) now newSecret (cr_secret rec).

Definition RotateCredential (now : Z) (accessKeyID newSecret : string) (overlap : Z) : M CredentialStore unit :=
  if String.eqb accessKeyID "" || String.eqb newSecret "" then throw ErrInvalidCredentialInput
  else creds ← get;
       match creds !! accessKeyID with
       | None => throw ErrCredentialNotFound
       | Some rec => put (<[accessKeyID := rotated now newSecret overlap rec]> creds)
       end.

Definition with_status (status : string) (rec : credentialRecord) : credentialRecord :=
  mkCredential (cr_AccessKeyID rec) (cr_SecretHash rec) (cr_PreviousSecretHash rec)
    (cr_PreviousSecretUntil rec) status (cr_CreatedAt rec) (cr_RotatedAt rec) (cr_secret rec)
    (cr_previousSecret rec).

Definition SetStatus (accessKeyID status : string) : M CredentialStore unit :=
  creds ← get;
  match creds !! accessKeyID with
  | None => throw ErrCredentialNotFound
  | Some rec => put (<[accessKeyID := with_status status rec]> creds)
  end.

Definition previous_usable (rec : credentialRecord) (at_ : Z) : bool :=
  negb (String.eqb (cr_previousSecret rec) "") && (at_ <? cr_PreviousSecretUntil rec).

Definition VerifySecret (creds : CredentialStore) (accessKeyID secret : string) (at_ : Z) : bool :=
  match creds !! accessKeyID with
  | None => false
  | Some rec =>
    if negb (String.eqb (cr_Status rec) CredentialStatusActive) then false
    else if compareSecret secret (cr_SecretHash rec) then true
    else previous_usable rec at_ && compareSecret secret (cr_PreviousSecretHash rec)
  end.

(** The secrets, whether the key exists, whether it is active. *)
Definition resolveSecrets (creds : CredentialStore) (accessKeyID : string) (at_ : Z) : list string * bool * bool :=
  match creds !! accessKeyID with
  | None => ([], false, false)
  | Some rec =>
    if negb (String.eqb (cr_Status rec) CredentialStatusActive) then ([], true, false)
    else ([cr_secret rec] ++ (if previous_usable rec at_ then [cr_previousSecret rec] else []), true, true)
  end.

(** ** The operations as steps *)
Inductive cred_op :=
  | OpBootstrap (id secret : string)
  | OpCreate (id secret : string)
  | OpRotate (id newSecret : string) (overlap : Z)
  | OpSetStatus (id status : string).

Definition run_cred_op (now : Z) (op : cred_op) : M CredentialStore unit :=
  match op with
  | OpBootstrap id secret => BootstrapAdminCredential now id secret
  | OpCreate id secret => CreateCredential now id secret
  | OpRotate id newSecret overlap => RotateCredential now id newSecret overlap
  | OpSetStatus id status => SetStatus id status
  end.

Inductive creds_reachable : CredentialStore → Prop :=
  | creds_new : creds_reachable NewCredentialStore
  | creds_step now op creds : creds_reachable creds → creds_reachable (exec (run_cred_op now op) creds).

(** ** The invariant of a record *)
Definition wf_credential (id : string) (rec : credentialRecord) : Prop :=
  cr_AccessKeyID rec = id ∧ id ≠ "" ∧ cr_secret rec ≠ "" ∧ cr_SecretHash rec = hashSecret (cr_secret rec) ∧
  (cr_previousSecret rec ≠ "" → cr_PreviousSecretHash rec = hashSecret (cr_previousSecret rec)).

Definition wf_creds (creds : CredentialStore) : Prop := map_Forall wf_credential creds.

Lemma wf_put id rec creds : wf_creds creds → wf_credential id rec → wf_creds (<[id := rec]> creds).
Proof. intros Hc Hr. by apply map_Forall_insert_2. Qed.

Lemma wf_new_credential id secret now : id ≠ "" → secret ≠ "" → wf_credential id (new_credential id secret now).
Proof. intros. unfold wf_credential. by split_and!. Qed.

Lemma wf_run_cred_op now op : preserves wf_creds (run_cred_op now op).
Proof.
  intros creds Hwf.
  destruct op; unfold exec, run_cred_op, BootstrapAdminCredential, CreateCredential, RotateCredential,
    SetStatus, mbind, M_bind; simpl; repeat case_match; simplify_eq/=; try done;
    apply wf_put; try done;
    repeat match goal with
    | Hb : String.eqb _ _ || _ = false |- _ => apply orb_false_iff in Hb as [?%String.eqb_neq ?%String.eqb_neq]
    end; try (by apply wf_new_credential);
    match goal with Hl : creds !! _ = Some _ |- _ => destruct (Hwf _ _ Hl) as (? & ? & ? & ? & ?) end;
    unfold wf_credential; by split_and!.
Qed.

Lemma wf_reachable_creds creds : creds_reachable creds → wf_creds creds.
Proof. induction 1; [apply map_Forall_empty|by apply wf_run_cred_op]. Qed.

(** The two readers of a record look at the same secrets. *)
Lemma VerifySecret_resolve creds id secret at_ : wf_creds creds →
  VerifySecret creds id secret at_ = true ↔
  ∃ s, s ∈ (resolveSecrets creds id at_).1.1 ∧ hashSecret s = hashSecret secret.
Proof.
  intros Hwf. unfold VerifySecret, resolveSecrets. destruct (creds !! id) as [rec|] eqn:E; [|set_solver].
  destruct (Hwf _ _ E) as (_ & _ & _ & Hh & Hp).
  destruct (negb _); [set_solver|]. simpl. unfold compareSecret, previous_usable. rewrite Hh.
  destruct (String.eqb_spec (hashSecret secret) (hashSecret (cr_secret rec))) as [Es|Hne].
  { split; [|done]. intros _. exists (cr_secret rec). split; [left|done]. }
  destruct (String.eqb_spec (cr_previousSecret rec) "") as [->|Hprev]; simpl; [set_solver|].
  rewrite (Hp Hprev). destruct (at_ <? _); simpl; [|set_solver].
  rewrite String.eqb_eq. split.
  - intros Es. exists (cr_previousSecret rec). split; [set_solver|done].
  - intros (s & [->|[->|[]%elem_of_nil]%elem_of_cons]%elem_of_cons & Es); congruence.
Qed.

(** In every store the operations reach, each record is well formed (filed under
    its own key, with a secret, and with the digests of exactly the secrets it
    keeps), so that [VerifySecret], which compares digests, and [resolveSecrets],
    from which the signatures are computed, accept the same secrets at every
    instant, and neither accepts any for a key that is not active. *)
Theorem credentials_well_formed creds : creds_reachable creds →
  map_Forall wf_credential creds ∧
  (∀ id secret at_, VerifySecret creds id secret at_ = true ↔
     ∃ s, s ∈ (resolveSecrets creds id at_).1.1 ∧ hashSecret s = hashSecret secret) ∧
  (∀ id secret at_, (resolveSecrets creds id at_).2 = false → VerifySecret creds id secret at_ = false).
Proof.
  intros Hr%wf_reachable_creds. split; [done|]. split; [by intros; apply VerifySecret_resolve|].
  intros id secret at_. unfold resolveSecrets, VerifySecret.
  destruct (creds !! id) as [rec|]; [|done]. by destruct (negb _).
Qed.

(** Rotation: when it succeeds, the secrets that sign for the key are the new one
    and, strictly before the end of the overlap, the one that was current before;
    the secret before that one is dropped at once, even when its own overlap has not
    ended, and every other key resolves as before. *)
Theorem rotation_overlap creds now id newSecret overlap rec :
  creds_reachable creds → creds !! id = Some rec → newSecret ≠ "" →
  let creds' := exec (RotateCredential now id newSecret overlap) creds in
  eval (RotateCredential now id newSecret overlap) creds = Ok tt ∧
  (∀ at_, resolveSecrets creds' id at_ =
     if String.eqb (cr_Status rec) CredentialStatusActive
     then ([newSecret] ++ (if at_ <? now + overlap then [cr_secret rec] else []), true, true)
     else ([], true, false)) ∧
  (∀ id' at_, id' ≠ id → resolveSecrets creds' id' at_ = resolveSecrets creds id' at_).
Proof.
  intros Hr%wf_reachable_creds Hid Hnew.
  destruct (Hr _ _ Hid) as (_ & Hne & Hs & _ & _).
  unfold eval, exec, RotateCredential, mbind, M_bind.
  destruct (String.eqb_spec id "") as [|_]; [done|]. destruct (String.eqb_spec newSecret "") as [|_]; [done|].
  simpl. rewrite Hid. simpl. split; [done|]. split.
  - intros at_. unfold resolveSecrets. rewrite lookup_insert_eq. simpl.
    destruct (String.eqb (cr_Status rec) _); [|done]. unfold previous_usable. simpl.
    by destruct (String.eqb_spec (cr_secret rec) "").
  - intros id' at_ Hid'. unfold resolveSecrets. by rewrite lookup_insert_ne.
Qed.
End credentials.

(** ** Witnesses *)
Section witnesses.
#[local] Existing Instance ex_hashes.

Definition ex_creds : CredentialStore :=
  exec (run_cred_op 10 (OpRotate "ak" "s2" 100)) (exec (run_cred_op 0 (OpBootstrap "ak" "s1")) NewCredentialStore).

Lemma ex_creds_reachable : creds_reachable ex_creds.
Proof. do 2 apply creds_step. apply creds_new. Qed.

Definition ex_credential : credentialRecord :=
  rotated 10 "s2" 100 (new_credential "ak" "s1" 0).

Lemma ex_creds_lookup : ex_creds !! "ak" = Some ex_credential.
Proof. vm_compute. done. Qed.

Lemma credentials_well_formed_witness : VerifySecret ex_creds "ak" "s1" 109 = true.
Proof.
  apply (credentials_well_formed ex_creds ex_creds_reachable). exists "s1". split; [|done].
  vm_compute. right. left.
Defined.

(** The first secret is refused after the second rotation, although its own overlap
    lasts until 110. *)
Lemma rotation_overlap_witness :
  (resolveSecrets (exec (RotateCredential 20 "ak" "s3" 5) ex_creds) "ak" 24).1.1 = ["s3"; "s2"].
Proof.
  destruct (rotation_overlap ex_creds 20 "ak" "s3" 5 ex_credential ex_creds_reachable ex_creds_lookup)
    as (_ & H & _); [done|]. rewrite H. reflexivity.
Defined.
End witnesses.
