(* ===== verification/SigV4.v ===== *)
(** * Request signatures (src/internal/auth/sigv4.go, presign.go)

    Verification of AWS Signature Version 4, in the Authorization header or in the
    query, and the signing of URLs.  Verification rewrites the values of the signed
    headers in the request it is given ([canonicalHeaderValue] assigns to the slice
    of the header map), so the functions that read headers are actions on the
    request's header map.  [now n] is what the n-th reading of the clock within one
    verification returns. *)
From S2P Require Import Prelude GoStrings StringFacts Url Model FileSystem Blob.
From S2P Require Import Http Sse Calendar Credentials.

Definition ErrMissingAuthenticationToken : error := ErrSentinel "missing authentication token".
Definition ErrInvalidAccessKeyID : error := ErrSentinel "invalid access key id".
Definition ErrSignatureDoesNotMatch : error := ErrSentinel "signature does not match".
Definition ErrRequestTimeTooSkewed : error := ErrSentinel "request time too skewed".
Definition ErrInvalidRequest : error := ErrSentinel "invalid request".
Definition ErrAccessDenied : error := ErrSentinel "access denied".


(** [Verifier]; None is a verifier without a store. *)
Record Verifier := mkVerifier {
  vf_store : option CredentialStore;
  vf_maxSkew : Z;
  vf_service : string;
  vf_terminal : string;
}.

Definition NewVerifier (store : option CredentialStore) (maxSkew : Z) (service terminal : string) : Verifier :=
  mkVerifier store (if maxSkew <=? 0 then 15 * minute else maxSkew)
    (if String.eqb service "" then "s3" else service)
    (if String.eqb terminal "" then "aws4_request" else terminal).

Record credentialScope := mkScope {
  sc_Raw : string;
  sc_AccessKeyID : string;
  sc_Date : string;
  sc_Region : string;
  sc_Service : string;
  sc_Terminal : string;
}.

Record authHeader := mkAuthHeader {
  ah_Scope : credentialScope;
  ah_SignedHeaders : list string;
  ah_Signature : string;
}.

Definition parseCredentialScope (credential : string) : result credentialScope :=
  match Split credential "/" with
  | [a; d; rg; sv; tm] =>
    if String.eqb a "" || String.eqb d "" || String.eqb rg "" || String.eqb sv "" || String.eqb tm ""
    then Err ErrInvalidRequest
    else Ok (mkScope (Join [d; rg; sv; tm] "/") a d rg sv tm)
  | _ => Err ErrInvalidRequest
  end.

(** The parameters of the header, a later one in place of an earlier one of the same
    name; None when a part has no equals sign. *)
Definition add_auth_part (acc : option (gmap string string)) (part : string) : option (gmap string string) :=
  values ← acc;
  match SplitN (TrimSpace part) "=" 2 with
  | [k; v] => Some (<[k := v]> values)
  | _ => None
  end.

Definition parseAuthorizationHeader (header : string) : result authHeader :=
  if negb (HasPrefix header "AWS4-HMAC-SHA256 ") then Err ErrInvalidRequest
  else match fold_left add_auth_part (Split (TrimPrefix header "AWS4-HMAC-SHA256 ") ",") (Some ∅) with
  | None => Err ErrInvalidRequest
  | Some values =>
    match parseCredentialScope (default "" (values !! "Credential")) with
    | Err _ => Err ErrInvalidRequest
    | Ok scope =>
      let signedHeaders := Split (default "" (values !! "SignedHeaders")) ";" in
      if String.eqb (default "" (head signedHeaders)) "" then Err ErrInvalidRequest
      else let signature := default "" (values !! "Signature") in
           if String.eqb signature "" then Err ErrInvalidRequest
           else Ok (mkAuthHeader scope signedHeaders signature)
    end
  end.

Definition parseAmzDate (value : string) : option Z :=
  if String.eqb value "" then None else parse_amz value.

(** [now.Sub(requestTime)] saturates, and the negation of the least duration is
    itself. *)
Definition skewExceeded (v : Verifier) (now requestTime : Z) : bool :=
  let delta := saturate64 (now - requestTime) in
  let delta := if delta <? 0 then wrap64 (- delta) else delta in
  vf_maxSkew v <? delta.

(** ** The canonical request *)
Definition header_host (r : request) : string :=
  TrimSpace (if String.eqb (rq_Host r) "" then rq_URLHost r else rq_Host r).

Definition collapse (value : string) : string := Join (Fields value) " ".

Definition canonicalHeaderValue (r : request) (headerName : string) : M http_header (option string) :=
  if String.eqb headerName "host" then
    mret (if String.eqb (header_host r) "" then None else Some (header_host r))
  else h ← get;
       match h !! CanonicalHeaderKey headerName with
       | None | Some [] => mret None
       | Some values =>
         let values := collapse <$> values in
         put (<[CanonicalHeaderKey headerName := values]> h);;
         mret (Some (Join values ","))
       end.

Definition canonicalURI (r : request) : string :=
  if String.eqb (rq_EscapedPath r) "" then "/" else rq_EscapedPath r.

Definition awsEncode (value : string) : string :=
  ReplaceAll (ReplaceAll (ReplaceAll (QueryEscape value) "+" "%20") "*" "%2A") "%7E" "~".

Definition less_pair : string * string → string * string → bool :=
  less_by fst (λ x y, String.ltb x.2 y.2).

Section sigv4.
Context `{!Hashes, !GoRuntime}.

Definition query_pairs (presigned : bool) (entry : string * list string) : list (string * string) :=
  if presigned && EqualFold entry.1 "X-Amz-Signature" then []
  else pair entry.1 <$> sort_strings entry.2.

Definition canonicalQuery (values : url_values) (presigned : bool) : string :=
  let pairs := range_map values ≫= query_pairs presigned in
  Join ((λ p, awsEncode p.1 +:+ "=" +:+ awsEncode p.2) <$> sort_slice less_pair pairs) "&".

Fixpoint canonical_lines (r : request) (names : list string) : M http_header (list string) :=
  match names with
  | [] => mret []
  | name :: names =>
    if String.eqb name "" then throw ErrInvalidRequest
    else value ← canonicalHeaderValue r name;
         match value with
         | None => throw ErrSignatureDoesNotMatch
         | Some value => lines ← canonical_lines r names; mret ((name +:+ ":" +:+ value) :: lines)
         end
  end.

Definition normalized_headers (signedHeaders : list string) : list string :=
  sort_strings ((λ x, ToLower (TrimSpace x)) <$> signedHeaders).

Definition payload_hash (h : http_header) : string :=
  let value := header_get h "X-Amz-Content-Sha256" in
  if String.eqb value "" then "UNSIGNED-PAYLOAD" else value.

Definition newline : string := String (ascii_of_nat 10) "".

Definition buildCanonicalRequest (r : request) (signedHeaders : list string) (presigned : bool)
    : M http_header string :=
  let names := normalized_headers signedHeaders in
  lines ← canonical_lines r names;
  h ← get;
  mret (Join [rq_Method r; canonicalURI r; canonicalQuery (rq_Query r) presigned;
              Join lines newline +:+ newline; Join names ";"; payload_hash h] newline).

(** ** The signature *)
Definition hexSHA256 (payload : string) : string := hex_encode (sha256_sum payload).

Definition buildStringToSign (requestTime : Z) (scope canonicalRequest : string) : string :=
  Join ["AWS4-HMAC-SHA256"; format_amz requestTime; scope; hexSHA256 canonicalRequest] newline.

(** HMAC with the block size of SHA-256. *)
Fixpoint nul_bytes (n : nat) : string :=
  match n with O => "" | S n => String (ascii_of_nat 0) (nul_bytes n) end.

Definition hmac_key (key : string) : string :=
  let key := if (64 <? String.length key)%nat then sha256_sum key else key in
  key +:+ nul_bytes (64 - String.length key).

Definition hmacSHA256 (key data : string) : string :=
  let masked b := str_map (xor_byte (ascii_of_nat b)) (hmac_key key) in
  sha256_sum (masked 92%nat +:+ sha256_sum (masked 54%nat +:+ data)).

Definition signString (secret date region service terminal stringToSign : string) : string :=
  let kDate := hmacSHA256 ("AWS4" +:+ secret) date in
  let kRegion := hmacSHA256 kDate region in
  let kService := hmacSHA256 kRegion service in
  let kSigning := hmacSHA256 kService terminal in
  hex_encode (hmacSHA256 kSigning stringToSign).

Definition signed_with (scope : credentialScope) (stringToSign secret : string) : string :=
  signString secret (sc_Date scope) (sc_Region scope) (sc_Service scope) (sc_Terminal scope) stringToSign.

(** The end of both verifications: the secrets of the key, the canonical request and
    the comparison with each secret. *)
Definition check_signature (store : CredentialStore) (now : Z) (r : request) (scope : credentialScope)
    (requestTime : Z) (signedHeaders : list string) (presigned : bool) (signature : string)
    : M http_header unit :=
  let '(secrets, exists_, active) := resolveSecrets store (sc_AccessKeyID scope) now in
  if negb exists_ then throw ErrInvalidAccessKeyID
  else if negb active then throw ErrAccessDenied
  else canonicalRequest ← buildCanonicalRequest r signedHeaders presigned;
       let stringToSign := buildStringToSign requestTime (sc_Raw scope) canonicalRequest in
       if existsb (λ secret, String.eqb (signed_with scope stringToSign secret) signature) secrets
       then mret tt
       else throw ErrSignatureDoesNotMatch.

Definition verifyHeaderAuth (v : Verifier) (store : CredentialStore) (now : nat → Z) (r : request)
    : M http_header unit :=
  h ← get;
  authz ← lift (parseAuthorizationHeader (header_get h "Authorization"));
  match parseAmzDate (header_get h "X-Amz-Date") with
  | None => throw ErrInvalidRequest
  | Some requestTime =>
    if skewExceeded v (now 0%nat) requestTime then throw ErrRequestTimeTooSkewed
    else if negb (String.eqb (sc_Service (ah_Scope authz)) (vf_service v)) ||
            negb (String.eqb (sc_Terminal (ah_Scope authz)) (vf_terminal v)) then throw ErrInvalidRequest
    else check_signature store (now 1%nat) r (ah_Scope authz) requestTime (ah_SignedHeaders authz) false
           (ah_Signature authz)
  end.

Definition verifyPresignedURL (v : Verifier) (store : CredentialStore) (now : nat → Z) (r : request)
    : M http_header unit :=
  let params := rq_Query r in
  if negb (String.eqb (query_get params "X-Amz-Algorithm") "AWS4-HMAC-SHA256") then throw ErrInvalidRequest
  else match parseAmzDate (query_get params "X-Amz-Date") with
  | None => throw ErrInvalidRequest
  | Some requestTime =>
    if skewExceeded v (now 0%nat) requestTime then throw ErrRequestTimeTooSkewed
    else match Atoi (query_get params "X-Amz-Expires") with
    | None => throw ErrInvalidRequest
    | Some expiresSeconds =>
      if (expiresSeconds <=? 0) || (604800 <? expiresSeconds) then throw ErrInvalidRequest
      else if requestTime + expiresSeconds * second <? now 1%nat then throw ErrAccessDenied
      else match parseCredentialScope (query_get params "X-Amz-Credential") with
      | Err _ => throw ErrInvalidRequest
      | Ok scope =>
        if negb (String.eqb (sc_Service scope) (vf_service v)) ||
           negb (String.eqb (sc_Terminal scope) (vf_terminal v)) then throw ErrInvalidRequest
        else
        let signedHeaders := Split (query_get params "X-Amz-SignedHeaders") ";" in
        if String.eqb (default "" (head signedHeaders)) "" then throw ErrInvalidRequest
        else
        let signature := query_get params "X-Amz-Signature" in
        if String.eqb signature "" then throw ErrInvalidRequest
        else check_signature store (now 2%nat) r scope requestTime signedHeaders true signature
      end
    end
  end.

(** [VerifyRequest] *)
Definition VerifyRequest (v : option Verifier) (now : nat → Z) (r : request) : M http_header unit :=
  match v with
  | None => throw ErrAccessDenied
  | Some v =>
    match vf_store v with
    | None => throw ErrAccessDenied
    | Some store =>
      h ← get;
      if negb (String.eqb (header_get h "Authorization") "") then verifyHeaderAuth v store now r
      else if negb (String.eqb (query_get (rq_Query r) "X-Amz-Algorithm") "")
      then verifyPresignedURL v store now r
      else throw ErrMissingAuthenticationToken
    end
  end.

(** ** Signing a URL *)
Record PresignOptions := mkPresignOptions {
  po_Region : string;
  po_Service : string;
  po_Terminal : string;
  po_Expires : Z;
}.

Definition maxPresignExpiry : Z := 7 * 24 * hour.

Definition with_raw_query (r : request) (rawQuery : string) : request :=
  mkRequest (rq_Method r) (rq_Host r) (rq_Path r) (ParseQuery rawQuery) (rq_Header r) (rq_Body r)
    (rq_RequestID r) (rq_Principal r) (rq_Acquire r) (rq_EscapedPath r) rawQuery (rq_URLHost r)
    (rq_RemoteAddr r) (rq_TLS r).

Definition or_else (s d : string) : string := if String.eqb s "" then d else s.

(** The query before the signature. *)
Definition presign_query (q : url_values) (accessKeyID scope amzDate : string) (expires : Z) : url_values :=
  delete "X-Amz-Signature"
    (values_set "X-Amz-SignedHeaders" "host"
    (values_set "X-Amz-Expires" (FormatInt (Z.quot expires second))
    (values_set "X-Amz-Date" amzDate
    (values_set "X-Amz-Credential" (accessKeyID +:+ "/" +:+ scope)
    (values_set "X-Amz-Algorithm" "AWS4-HMAC-SHA256" q))))).

(** [PresignRequest] of a request with a URL, at the instant [signedAt]. *)
Definition PresignRequest (r : request) (accessKeyID secretAccessKey : string) (signedAt : Z)
    (opts : PresignOptions) : M http_header request :=
  if String.eqb (TrimSpace (rq_Method r)) "" then throw (Errorf "request method is required" [])
  else if String.eqb (TrimSpace accessKeyID) "" then throw (Errorf "access key id is required" [])
  else if String.eqb (TrimSpace secretAccessKey) "" then throw (Errorf "secret access key is required" [])
  else
  let expires := if po_Expires opts =? 0 then 15 * minute else po_Expires opts in
  if (expires <=? 0) || (maxPresignExpiry <? expires)
  then throw (Errorf "expires must be between 1s and %s" [FormatInt maxPresignExpiry])
  else
  let region := or_else (TrimSpace (po_Region opts)) "us-east-1" in
  let service := or_else (TrimSpace (po_Service opts)) "s3" in
  let terminal := or_else (TrimSpace (po_Terminal opts)) "aws4_request" in
  let date := format_date signedAt in
  let scope := Join [date; region; service; terminal] "/" in
  let r := with_raw_query r (Values_Encode
             (presign_query (ParseQuery (rq_RawQuery r)) accessKeyID scope (format_amz signedAt) expires)) in
  canonicalRequest ← buildCanonicalRequest r ["host"] true;
  let stringToSign := buildStringToSign signedAt scope canonicalRequest in
  let signature := signString secretAccessKey date region service terminal stringToSign in
  mret (with_raw_query r (Values_Encode (values_set "X-Amz-Signature" signature (ParseQuery (rq_RawQuery r))))).
End sigv4.
