(* ===== verification/SigV4Facts.v ===== *)
(** * Facts on canonical requests

    The encoding of the canonical query and what it determines, the collapsing of
    white space, and what the lines of signed headers are. *)
From S2P Require Import Prelude GoStrings StringFacts Url Model FileSystem Blob.
From S2P Require Import Http Sse Calendar Credentials SigV4.

(** ** [awsEncode] is the percent encoding of the specification *)
Fixpoint str_bind (f : ascii → string) (s : string) : string :=
  match s with
  | "" => ""
  | String c s => f c +:+ str_bind f s
  end.

(** Every byte but the unreserved ones as % and two upper-case hexadecimal digits. *)
Definition uri_byte (c : ascii) : string := if unreserved c then String c "" else percent c.
Definition uri_encode (s : string) : string := str_bind uri_byte s.

Lemma str_bind_app f s t : str_bind f (s +:+ t) = str_bind f s +:+ str_bind f t.
Proof. induction s as [|c s IH]; [done|]. rewrite str_app_cons. simpl. by rewrite IH, str_app_assoc. Qed.

Lemma str_bind_bind f g s : str_bind g (str_bind f s) = str_bind (λ c, str_bind g (f c)) s.
Proof. induction s as [|c s IH]; [done|]. simpl. by rewrite str_bind_app, IH. Qed.

Lemma str_bind_ext f g s : (∀ c, f c = g c) → str_bind f s = str_bind g s.
Proof. intros Hfg. induction s as [|c s IH]; [done|]. simpl. by rewrite Hfg, IH. Qed.

Lemma QueryEscape_bind s : QueryEscape s = str_bind escape_byte s.
Proof. induction s as [|c s IH]; [done|]. simpl. by rewrite IH. Qed.

Lemma replace_all_0 c s old new :
  replace_all 0 (String c s) old new =
  if HasPrefix (String c s) old then new +:+ replace_all (String.length old - 1) s old new
  else String c (replace_all 0 s old new).
Proof. done. Qed.

Lemma ReplaceAll_byte d new s :
  ReplaceAll s (String d "") new = str_bind (λ c, if Ascii.eqb d c then new else String c "") s.
Proof.
  unfold ReplaceAll. induction s as [|c s IH]; [done|].
  rewrite replace_all_0, HasPrefix_cons, HasPrefix_nil, andb_true_r.
  change (String.length (String d "") - 1)%nat with 0%nat. rewrite IH. simpl. by destruct (Ascii.eqb d c).
Qed.

Lemma escape_replaced c :
  str_bind (λ c, str_bind (λ c, if Ascii.eqb "*" c then "%2A" else String c "")
    (if Ascii.eqb "+" c then "%20" else String c "")) (escape_byte c) = uri_byte c.
Proof.
  apply String.eqb_eq. revert c. apply (bytes_check (λ c, String.eqb _ (uri_byte c))). vm_compute. done.
Qed.

Definition tilde_free (c : ascii) : bool :=
  match uri_byte c with
  | String p "" => negb (Ascii.eqb "%" p)
  | String p (String a (String b "")) =>
    negb (Ascii.eqb "%" a) && negb (Ascii.eqb "%" b) && negb (Ascii.eqb "7" a && Ascii.eqb "E" b)
  | _ => false
  end.

Lemma tilde_free_all c : tilde_free c = true.
Proof. revert c. apply bytes_check. vm_compute. done. Qed.

Lemma replace_not_here c s t :
  HasPrefix (String c s) "%7E" = false → replace_all 0 (String c s) "%7E" t = String c (replace_all 0 s "%7E" t).
Proof. intros Hp. by rewrite replace_all_0, Hp. Qed.

Lemma ReplaceAll_tilde s : ReplaceAll (uri_encode s) "%7E" "~" = uri_encode s.
Proof.
  unfold ReplaceAll, uri_encode. induction s as [|c s IH]; [done|]. simpl str_bind.
  pose proof (tilde_free_all c) as Hc. unfold tilde_free in Hc.
  destruct (uri_byte c) as [|p [|a [|b [|? ?]]]]; try done; rewrite ?str_app_cons, str_app_nil_l.
  - apply negb_true_iff in Hc. rewrite replace_not_here, IH; [done|]. by rewrite HasPrefix_cons, Hc.
  - apply andb_prop in Hc as [[Ha Hb]%andb_prop Hab].
    apply negb_true_iff in Ha, Hb, Hab.
    rewrite !replace_not_here, IH; [done|rewrite HasPrefix_cons..].
    + by rewrite Hb.
    + by rewrite Ha.
    + rewrite !HasPrefix_cons, HasPrefix_nil. destruct (Ascii.eqb "7" a), (Ascii.eqb "E" b); try done; apply andb_false_r.
Qed.

Lemma awsEncode_spec s : awsEncode s = uri_encode s.
Proof.
  unfold awsEncode. rewrite <- ReplaceAll_tilde. f_equal.
  rewrite !ReplaceAll_byte, QueryEscape_bind, !str_bind_bind. apply str_bind_ext, escape_replaced.
Qed.

Lemma uri_reads_back c t : QueryUnescape (uri_byte c +:+ t) = String c <$> QueryUnescape t.
Proof.
  assert (match uri_byte c with
    | String p "" => negb (Ascii.eqb p "%") && negb (Ascii.eqb p "+") && Ascii.eqb p c
    | String p (String a (String b "")) => Ascii.eqb p "%" &&
        match hex_value a, hex_value b with
        | Some x, Some y => Ascii.eqb (ascii_of_N (x * 16 + y)) c
        | _, _ => false
        end
    | _ => false
    end = true) as Hc by (revert c; apply bytes_check; vm_compute; done).
  destruct (uri_byte c) as [|p [|a [|b [|? ?]]]]; try done; rewrite ?str_app_cons, str_app_nil_l; simpl.
  - apply andb_prop in Hc as [[Hp Hq]%andb_prop Hc%Ascii.eqb_eq]. apply negb_true_iff in Hp, Hq. by rewrite Hp, Hq, Hc.
  - apply andb_prop in Hc as [Hp Hc]. rewrite Hp. destruct (hex_value a), (hex_value b); try done.
    apply Ascii.eqb_eq in Hc as ->. by destruct (QueryUnescape t).
Qed.

Lemma QueryUnescape_uri s : QueryUnescape (uri_encode s) = Some s.
Proof. induction s as [|c s IH]; [done|]. unfold uri_encode in *. simpl. by rewrite uri_reads_back, IH. Qed.

Lemma awsEncode_inj s t : awsEncode s = awsEncode t → s = t.
Proof.
  rewrite !awsEncode_spec. intros E. pose proof (QueryUnescape_uri s) as Hs.
  rewrite E, QueryUnescape_uri in Hs. congruence.
Qed.

Definition uri_char (c : ascii) : bool := unreserved c || Ascii.eqb c "%".
Lemma awsEncode_chars s : str_forall uri_char (awsEncode s) = true.
Proof.
  rewrite awsEncode_spec. unfold uri_encode. induction s as [|c s IH]; [done|]. simpl.
  rewrite str_forall_app, IH, andb_true_r. revert c. apply bytes_check. vm_compute. done.
Qed.

Lemma awsEncode_lacks d s : uri_char d = false → Contains (awsEncode s) (String d "") = false.
Proof. apply Contains_byte_forall, awsEncode_chars. Qed.

(** ** The canonical query *)
Section canonical_query.
Context `{!GoRuntime}.

Lemma less_pair_strict_weak : StrictWeak less_pair.
Proof.
  apply less_by_strict_weak. split; intros *; [apply string_ltb_asym|apply string_ltb_negtrans].
Qed.

Lemma less_pair_decides x y : less_pair x y = false → less_pair y x = false → x = y.
Proof.
  destruct x as [k x], y as [l y]. unfold less_pair, less_by. simpl.
  rewrite (String.eqb_sym l k). destruct (String.eqb_spec k l) as [->|Hne].
  - intros H1 H2. f_equal. by apply string_ltb_eq.
  - intros H1 H2. destruct Hne. by apply string_ltb_eq.
Qed.

Lemma sort_pairs_perm l l' : l ≡ₚ l' → sort_slice less_pair l = sort_slice less_pair l'.
Proof.
  intros Hp. apply sort_slice_unique.
  - apply less_pair_strict_weak.
  - by rewrite sort_slice_perm.
  - intros x y _ _. apply less_pair_decides.
  - apply sort_slice_sorted, less_pair_strict_weak.
Qed.

Definition encoded_pair (p : string * string) : string := awsEncode p.1 +:+ "=" +:+ awsEncode p.2.

Lemma encoded_pair_inj : Inj (=) (=) encoded_pair.
Proof.
  intros [k x] [l y]. unfold encoded_pair. simpl. rewrite !str_app_cons, !str_app_nil_l.
  intros E. apply split_at_byte in E as [->%awsEncode_inj ->%awsEncode_inj]; [done|by apply awsEncode_lacks..].
Qed.

Lemma encoded_pair_lacks p : Contains (encoded_pair p) "&" = false.
Proof.
  unfold encoded_pair. rewrite str_app_cons, str_app_nil_l, Contains_byte_app, Contains_byte.
  by rewrite !awsEncode_lacks.
Qed.

Lemma encoded_pairs_inj l l' :
  Join (encoded_pair <$> l) "&" = Join (encoded_pair <$> l') "&" → l = l'.
Proof.
  assert (∀ p, encoded_pair p ≠ "") as Hne by (intros p [_ [=]]%str_app_eq_nil).
  assert (∀ x m, Split (Join (encoded_pair <$> x :: m) "&") "&" = encoded_pair <$> x :: m) as Hsplit.
  { intros x m. apply Split_Join; [done|]. apply Forall_fmap, Forall_true, encoded_pair_lacks. }
  intros E. destruct l as [|x l], l' as [|x' l']; [done|..].
  - apply (f_equal (λ s, Split s "&")) in E. rewrite Hsplit in E. symmetry in E. injection E as E _. by destruct (Hne x').
  - apply (f_equal (λ s, Split s "&")) in E. rewrite Hsplit in E. injection E as E _. by destruct (Hne x).
  - apply (f_equal (λ s, Split s "&")) in E. rewrite !Hsplit in E.
    by apply (list_fmap_eq_inj encoded_pair encoded_pair_inj) in E.
Qed.

Definition signed_pairs (v : url_values) (presigned : bool) : list (string * string) :=
  range_map v ≫= query_pairs presigned.

Lemma canonicalQuery_eq v p : canonicalQuery v p = Join (encoded_pair <$> sort_slice less_pair (signed_pairs v p)) "&".
Proof. done. Qed.

Lemma canonicalQuery_pairs v v' p :
  canonicalQuery v p = canonicalQuery v' p ↔ signed_pairs v p ≡ₚ signed_pairs v' p.
Proof.
  rewrite !canonicalQuery_eq. split.
  - intros E%encoded_pairs_inj. by rewrite <- (sort_slice_perm less_pair (signed_pairs v p)), E, sort_slice_perm.
  - intros Hp. by rewrite (sort_pairs_perm _ _ Hp).
Qed.

(** The values of a key among pairs. *)
Definition values_of (k : string) (l : list (string * string)) : list string :=
  (filter (λ e, e.1 = k) l).*2.

Lemma values_of_app k l l' : values_of k (l ++ l') = values_of k l ++ values_of k l'.
Proof. unfold values_of. by rewrite filter_app, fmap_app. Qed.

#[export] Instance values_of_perm k : Proper (Permutation ==> Permutation) (values_of k).
Proof. intros l l' Hl. unfold values_of. by rewrite Hl. Qed.

Lemma values_of_pairs k l xs : values_of k (pair l <$> xs) = if decide (l = k) then xs else [].
Proof.
  unfold values_of. induction xs as [|x xs IH]; [by destruct (decide _)|].
  rewrite fmap_cons, filter_cons. simpl. destruct (decide (l = k)); [|done]. simpl. by f_equal.
Qed.

Lemma query_pairs_perm p k xs : p && EqualFold k "X-Amz-Signature" = false →
  query_pairs p (k, xs) ≡ₚ pair k <$> xs.
Proof. intros Hk. unfold query_pairs. simpl. rewrite Hk. unfold sort_strings. by rewrite merge_sort_Permutation. Qed.

Lemma values_of_others p k (l : list (string * list string)) :
  Forall (λ e, e.1 ≠ k) l → values_of k (l ≫= query_pairs p) = [].
Proof.
  induction 1 as [|[l' xs] l Hne _ IH]; [done|]. rewrite bind_cons, values_of_app, IH, app_nil_r.
  unfold query_pairs. simpl. destruct (p && _); [done|]. rewrite values_of_pairs.
  by rewrite decide_False.
Qed.

Lemma values_of_signed v p k : p && EqualFold k "X-Amz-Signature" = false →
  values_of k (signed_pairs v p) ≡ₚ default [] (v !! k).
Proof.
  intros Hk. unfold signed_pairs, range_map. rewrite range_order_perm.
  destruct (v !! k) as [xs|] eqn:E; simpl.
  - rewrite <- (insert_delete_id v k xs) by done. rewrite map_to_list_insert by apply lookup_delete_eq.
    rewrite bind_cons, values_of_app, (query_pairs_perm _ _ _ Hk), values_of_pairs, decide_True by done.
    rewrite values_of_others, app_nil_r; [done|]. apply Forall_forall. intros [l ys] Hin%elem_of_map_to_list Heq.
    simpl in Heq. subst l. by rewrite lookup_delete_eq in Hin.
  - rewrite values_of_others; [done|]. apply Forall_forall. intros [l ys] Hin%elem_of_map_to_list Heq.
    simpl in Heq. subst l. by rewrite E in Hin.
Qed.

(** The canonical query determines the values of every signed key, up to their
    order. *)
Lemma canonicalQuery_values v v' p k : canonicalQuery v p = canonicalQuery v' p →
  p && EqualFold k "X-Amz-Signature" = false → default [] (v !! k) ≡ₚ default [] (v' !! k).
Proof.
  intros Hp%canonicalQuery_pairs Hk. rewrite <- (values_of_signed v p k), <- (values_of_signed v' p k) by done.
  by rewrite Hp.
Qed.

(** The signature itself is not part of the canonical query of a signed URL. *)
Lemma canonicalQuery_signature v xs :
  canonicalQuery (<["X-Amz-Signature" := xs]> v) true = canonicalQuery (delete "X-Amz-Signature" v) true.
Proof.
  apply canonicalQuery_pairs. unfold signed_pairs, range_map. rewrite !range_order_perm.
  rewrite <- insert_delete_eq, map_to_list_insert by apply lookup_delete_eq. done.
Qed.
End canonical_query.

(** ** The signed headers *)
Lemma collapse_idem s : collapse (collapse s) = collapse s.
Proof. unfold collapse. by rewrite Fields_Join by apply Fields_words. Qed.

Lemma collapse_lacks d s : is_ascii_space d = true → d ≠ " "%char → Contains (collapse s) (String d "") = false.
Proof.
  intros Hd Hne. apply Join_lacks.
  - rewrite Contains_byte. by destruct (Ascii.eqb_spec d " ").
  - eapply Forall_impl; [apply Fields_words|]. intros w [_ Hw]. by apply solid_lacks with " ".
Qed.

(** The signed value of a header of a request. *)
Definition signed_value (r : request) (h : http_header) (name : string) : option string :=
  if String.eqb name "host" then (if String.eqb (header_host r) "" then None else Some (header_host r))
  else match h !! CanonicalHeaderKey name with
       | None | Some [] => None
       | Some values => Some (Join (collapse <$> values) ",")
       end.

(** [h'] is [h] with the values of some headers collapsed. *)
Definition partly (h h' : http_header) : Prop :=
  ∀ k, h' !! k = h !! k ∨ h' !! k = fmap collapse <$> h !! k.

Lemma partly_refl h : partly h h.
Proof. by left. Qed.

Lemma collapse_list_idem (vs : list string) : collapse <$> (collapse <$> vs) = collapse <$> vs.
Proof. rewrite <- list_fmap_compose. apply list_fmap_ext. intros. apply collapse_idem. Qed.

Lemma partly_trans h1 h2 h3 : partly h1 h2 → partly h2 h3 → partly h1 h3.
Proof.
  intros H12 H23 k. destruct (H12 k) as [E|E], (H23 k) as [E'|E']; rewrite E', E; eauto.
  right. destruct (h1 !! k); simpl; [|done]. by rewrite collapse_list_idem.
Qed.

Lemma signed_value_partly r h h' name : partly h h' → signed_value r h' name = signed_value r h name.
Proof.
  intros Hp. unfold signed_value. destruct (String.eqb name "host"); [done|].
  destruct (Hp (CanonicalHeaderKey name)) as [->| ->]; [done|].
  destruct (h !! CanonicalHeaderKey name) as [[|v vs]|]; [done| |done].
  change (Some (Join (collapse <$> (collapse <$> v :: vs)) ",") = Some (Join (collapse <$> v :: vs) ",")).
  by rewrite collapse_list_idem.
Qed.

Lemma canonicalHeaderValue_spec r name h : ∃ h',
  canonicalHeaderValue r name h = (h', Ok (signed_value r h name)) ∧ partly h h'.
Proof.
  unfold canonicalHeaderValue, signed_value.
  destruct (String.eqb name "host"); [by exists h; split; [|apply partly_refl]|].
  unfold mbind, M_bind. simpl.
  destruct (h !! CanonicalHeaderKey name) as [[|v vs]|] eqn:E; [by exists h; split; [|apply partly_refl]| |
    by exists h; split; [|apply partly_refl]].
  eexists. split; [done|]. intros k. destruct (decide (CanonicalHeaderKey name = k)) as [<-|Hne].
  - right. by rewrite lookup_insert_eq, E.
  - left. by rewrite lookup_insert_ne.
Qed.

Definition signed_line (r : request) (h : http_header) (name line : string) : Prop :=
  name ≠ "" ∧ ∃ value, signed_value r h name = Some value ∧ line = name +:+ ":" +:+ value.

Lemma canonical_lines_spec r names h : ∃ h' res, canonical_lines r names h = (h', res) ∧ partly h h' ∧
  (∀ lines, res = Ok lines → Forall2 (signed_line r h) names lines) ∧
  (Forall (λ n, n ≠ "" ∧ is_Some (signed_value r h n)) names → is_ok res = true).
Proof.
  revert h. induction names as [|n names IH]; intros h.
  { exists h, (Ok []). split; [done|]. split; [apply partly_refl|]. split; [by intros ? [= <-]|done]. }
  simpl. destruct (String.eqb_spec n "") as [->|Hn].
  { eexists h, _. split; [done|]. split; [apply partly_refl|]. split; [done|]. intros [[] _]%Forall_cons; done. }
  destruct (canonicalHeaderValue_spec r n h) as (h1 & Hrun & Hp1). unfold mbind, M_bind. rewrite Hrun. simpl.
  destruct (signed_value r h n) as [v|] eqn:Ev.
  - destruct (IH h1) as (h2 & res & -> & Hp2 & Hlines & Hok).
    assert (∀ m, signed_value r h1 m = signed_value r h m) as Hsame by (intros; by apply signed_value_partly).
    exists h2, (match res with Ok ls => Ok ((n +:+ ":" +:+ v) :: ls) | Err err => Err err end).
    split; [by destruct res|]. split; [by apply partly_trans with h1|]. split.
    + intros lines El. destruct res as [ls|]; [|done]. injection El as <-. constructor; [|].
      * split; [done|]. by exists v.
      * eapply Forall2_impl; [by apply Hlines|]. intros m line [Hm (v' & Hv & Hl)]. split; [done|].
        exists v'. by rewrite <- Hsame.
    + intros [_ Hall]%Forall_cons. destruct res as [ls|]; [done|]. simpl in *. apply Hok.
      eapply Forall_impl; [done|]. simpl. intros m. by rewrite Hsame.
  - eexists h1, _. split; [done|]. split; [done|]. split; [done|].
    intros [[_ [? Hs]] _]%Forall_cons. congruence.
Qed.
