(* ===== verification/SigV4Props.v ===== *)
(** * Properties of the request signatures

    What a signature covers, and that a signed URL verifies as long as it is fresh. *)
From S2P Require Import Prelude GoStrings StringFacts Url Model FileSystem Blob BlobFacts.
From S2P Require Import Http Sse Calendar Credentials SigV4 SigV4Facts.

Abbreviation lacks_newline s := (Contains s newline = false).

(** What the transport delivers: no line break in the method, the path, the host and
    the header values, and header names that are tokens. *)
Definition clean_request (r : request) : Prop :=
  lacks_newline (rq_Method r) ∧ lacks_newline (rq_EscapedPath r) ∧ lacks_newline (header_host r) ∧
  map_Forall (λ k vs, str_forall is_token_char k = true ∧ Forall (λ x, lacks_newline x) vs) (rq_Header r).

Section properties.
Context `{!Hashes, !GoRuntime}.

(** ** The parts of a canonical request *)
Definition canonical_text (r : request) (p : bool) (h : http_header) (names lines : list string) : string :=
  Join [rq_Method r; canonicalURI r; canonicalQuery (rq_Query r) p; Join lines newline +:+ newline;
        Join names ";"; payload_hash h] newline.

Lemma buildCanonicalRequest_spec r signedHeaders p h c h' :
  buildCanonicalRequest r signedHeaders p h = (h', Ok c) →
  partly h h' ∧ ∃ lines, Forall2 (signed_line r h) (normalized_headers signedHeaders) lines ∧
    c = canonical_text r p h' (normalized_headers signedHeaders) lines.
Proof.
  unfold buildCanonicalRequest. set (names := normalized_headers signedHeaders).
  destruct (canonical_lines_spec r names h) as (h1 & res & Hrun & Hp & Hlines & _).
  unfold mbind, M_bind. rewrite Hrun. destruct res as [lines|]; [|done]. simpl. intros [= <- <-].
  split; [done|]. exists lines. split; [by apply Hlines|done].
Qed.

Lemma CanonicalHeaderKey_token n :
  str_forall is_token_char (CanonicalHeaderKey n) = true → str_forall is_token_char n = true.
Proof. unfold CanonicalHeaderKey. by destruct (str_forall is_token_char n) eqn:E; [|congruence]. Qed.

Lemma signed_name_token r n v : clean_request r → signed_value r (rq_Header r) n = Some v →
  str_forall is_token_char n = true ∧ lacks_newline v.
Proof.
  intros (_ & _ & Hhost & Hh). unfold signed_value.
  destruct (String.eqb_spec n "host") as [->|Hne].
  - destruct (String.eqb (header_host r) ""); [done|]. by intros [= <-].
  - destruct (rq_Header r !! CanonicalHeaderKey n) as [[|x xs]|] eqn:E; [done| |done].
    intros Ev. assert (v = Join (collapse <$> x :: xs) ",") as -> by congruence.
    destruct (Hh _ _ E) as [Ht _]. split; [by apply CanonicalHeaderKey_token|].
    apply Join_lacks; [done|]. apply Forall_fmap, Forall_true. intros y. by apply collapse_lacks.
Qed.

(** The names and lines of a clean request. *)
Definition clean_lines (r : request) (names lines : list string) : Prop :=
  Forall2 (signed_line r (rq_Header r)) names lines.

Lemma clean_lines_lack r names lines : clean_request r → clean_lines r names lines →
  Forall (λ n, str_forall is_token_char n = true) names ∧ Forall (λ x, lacks_newline x) lines.
Proof.
  intros Hr. induction 1 as [|n line names lines [_ (v & Hv & ->)] _ [IH1 IH2]]; [done|].
  destruct (signed_name_token r n v Hr Hv) as [Hn Hnv]. split; constructor; [done..| |done].
  rewrite str_app_cons, str_app_nil_l. unfold newline. rewrite Contains_byte_app, Contains_byte.
  rewrite (Contains_byte_forall is_token_char) by done. done.
Qed.

Lemma token_names_inj ns ms :
  Forall (λ n, str_forall is_token_char n = true) ns → Forall (λ n, str_forall is_token_char n = true) ms →
  ns ≠ [] → ms ≠ [] → Join ns ";" = Join ms ";" → ns = ms.
Proof.
  intros Hn Hm Hne Hme E. apply (f_equal (λ s, Split s ";")) in E.
  rewrite !Split_Join in E; try done; (eapply Forall_impl; [done|]); intros x Hx;
    by apply (Contains_byte_forall is_token_char).
Qed.

Lemma payload_hash_lacks r h : clean_request r → partly (rq_Header r) h → lacks_newline (payload_hash h).
Proof.
  intros (_ & _ & _ & Hh) Hp. unfold payload_hash. destruct (String.eqb_spec (header_get h "X-Amz-Content-Sha256") ""); [done|].
  unfold header_get. set (k := CanonicalHeaderKey _).
  destruct (Hp k) as [->| ->]; destruct (rq_Header r !! k) as [[|x xs]|] eqn:E; try done; simpl.
  - destruct (Hh _ _ E) as [_ Hx]. by inversion Hx.
  - by apply collapse_lacks.
Qed.

Lemma canonicalQuery_lacks v p : lacks_newline (canonicalQuery v p).
Proof.
  unfold canonicalQuery. apply Join_lacks; [done|]. apply Forall_fmap, Forall_true. intros e. simpl.
  unfold newline. rewrite str_app_cons, str_app_nil_l, Contains_byte_app, Contains_byte.
  by rewrite !awsEncode_lacks.
Qed.

Lemma Join_append_newline lines : lines ≠ [] → Join lines newline +:+ newline = Join (lines ++ [""]) newline.
Proof.
  induction lines as [|x lines IH]; [done|]. intros _. destruct lines as [|y lines]; [done|].
  change (Join (x :: y :: lines) newline) with (x +:+ newline +:+ Join (y :: lines) newline).
  change (Join ((x :: y :: lines) ++ [""]) newline) with (x +:+ newline +:+ Join ((y :: lines) ++ [""]) newline).
  rewrite <- IH by done. by rewrite !str_app_assoc.
Qed.

Lemma Join_app d ns ms : ns ≠ [] → ms ≠ [] →
  Join (ns ++ ms) d = Join ns d +:+ d +:+ Join ms d.
Proof.
  intros Hn Hm. induction ns as [|x ns IH]; [done|]. destruct ns as [|y ns].
  - simpl. by destruct ms.
  - change (Join ((x :: y :: ns) ++ ms) d) with (x +:+ d +:+ Join ((y :: ns) ++ ms) d).
    rewrite IH by done. change (Join (x :: y :: ns) d) with (x +:+ d +:+ Join (y :: ns) d).
    by rewrite !str_app_assoc.
Qed.

(** A canonical text as the join of its lines. *)
Lemma canonical_text_lines r p h names lines : lines ≠ [] →
  canonical_text r p h names lines =
  Join ([rq_Method r; canonicalURI r; canonicalQuery (rq_Query r) p] ++ lines ++ [""; Join names ";"; payload_hash h])
    newline.
Proof.
  intros Hl. unfold canonical_text. rewrite Join_append_newline by done.
  change (lines ++ [""; Join names ";"; payload_hash h]) with (lines ++ ([""] ++ [Join names ";"; payload_hash h])).
  rewrite (app_assoc lines).
  change [rq_Method r; canonicalURI r; canonicalQuery (rq_Query r) p; Join (lines ++ [""]) newline;
    Join names ";"; payload_hash h] with
    ([rq_Method r; canonicalURI r; canonicalQuery (rq_Query r) p] ++ [Join (lines ++ [""]) newline] ++
     [Join names ";"; payload_hash h]).
  rewrite !(Join_app newline) by (try done; by destruct lines). done.
Qed.

Lemma canonicalURI_lacks r : clean_request r → lacks_newline (canonicalURI r).
Proof. intros (_ & Hp & _). unfold canonicalURI. by destruct (String.eqb _ _). Qed.

Lemma Join_names_lacks names : Forall (λ n, str_forall is_token_char n = true) names → lacks_newline (Join names ";").
Proof.
  intros Hn. apply Join_lacks; [done|]. eapply Forall_impl; [done|]. intros x Hx.
  by apply (Contains_byte_forall is_token_char).
Qed.

Lemma canonical_text_inj r1 r2 p h1 h2 names1 names2 lines1 lines2 :
  clean_request r1 → clean_request r2 → partly (rq_Header r1) h1 → partly (rq_Header r2) h2 →
  clean_lines r1 names1 lines1 → clean_lines r2 names2 lines2 → names1 ≠ [] → names2 ≠ [] →
  canonical_text r1 p h1 names1 lines1 = canonical_text r2 p h2 names2 lines2 →
  rq_Method r1 = rq_Method r2 ∧ canonicalURI r1 = canonicalURI r2 ∧
  canonicalQuery (rq_Query r1) p = canonicalQuery (rq_Query r2) p ∧
  names1 = names2 ∧ lines1 = lines2 ∧ payload_hash h1 = payload_hash h2.
Proof.
  intros Hr1 Hr2 Hp1 Hp2 Hl1 Hl2 Hn1 Hn2.
  assert (lines1 ≠ [] ∧ lines2 ≠ []) as [Hne1 Hne2].
  { split; intros ->; [inversion Hl1|inversion Hl2]; by subst. }
  destruct (clean_lines_lack _ _ _ Hr1 Hl1) as [Ht1 Hx1], (clean_lines_lack _ _ _ Hr2 Hl2) as [Ht2 Hx2].
  rewrite !canonical_text_lines by done. intros E.
  apply (f_equal (λ s, Split s newline)) in E.
  assert (∀ r h names lines, clean_request r → partly (rq_Header r) h →
    Forall (λ n, str_forall is_token_char n = true) names → Forall (λ x, lacks_newline x) lines →
    Forall (λ x, lacks_newline x) ([rq_Method r; canonicalURI r; canonicalQuery (rq_Query r) p] ++ lines ++
      [""; Join names ";"; payload_hash h])) as Hall.
  { intros r h names lines Hr Hp Ht Hx. rewrite !Forall_app. split_and!; [|done|].
    - repeat constructor; [by destruct Hr|by apply canonicalURI_lacks|apply canonicalQuery_lacks].
    - repeat constructor; [by apply Join_names_lacks|by apply payload_hash_lacks with r]. }
  unfold newline in E at 1 2 3 4. rewrite !Split_Join in E; [|try done; by apply Hall..].
  apply app_inj_1 in E as [E0 E]; [|done]. apply app_inj_2 in E as [El E1]; [|done].
  injection E0 as Em Eu Eq. injection E1 as En Eh.
  split_and!; try done. by apply token_names_inj.
Qed.


(** ** Signed URLs *)
Lemma add_value_nonempty k x v : map_Forall (λ _ xs, xs ≠ []) v → map_Forall (λ _ xs, xs ≠ []) (add_value k x v).
Proof. intros Hv. apply map_Forall_insert_2; [|done]. by destruct (default [] (v !! k)). Qed.

Lemma ParseQuery_nonempty q : map_Forall (λ _ xs, xs ≠ []) (ParseQuery q).
Proof.
  unfold ParseQuery. generalize (map_Forall_empty (M := gmap string) (λ _ (xs : list string), xs ≠ [])).
  generalize (∅ : url_values). induction (Split q "&") as [|x l IH]; intros v Hv; [done|]. simpl. apply IH.
  unfold parse_piece. destruct (_ || _); [done|]. destruct (Cut x "=") as [[k y] b].
  destruct (QueryUnescape k), (QueryUnescape y); try done. by apply add_value_nonempty.
Qed.

Lemma presign_query_nonempty q id scope d n :
  map_Forall (λ _ xs, xs ≠ []) q → map_Forall (λ _ xs, xs ≠ []) (presign_query q id scope d n).
Proof. intros Hq. apply map_Forall_delete. by repeat (apply map_Forall_insert_2; [done|]). Qed.

(** Signing the host header alone. *)
Definition host_text (r : request) (h : http_header) : string :=
  canonical_text r true h ["host"] ["host:" +:+ header_host r].

Lemma build_host r h : buildCanonicalRequest r ["host"] true h =
  (h, if String.eqb (header_host r) "" then Err ErrSignatureDoesNotMatch else Ok (host_text r h)).
Proof.
  unfold buildCanonicalRequest. change (normalized_headers ["host"]) with ["host"].
  unfold canonical_lines, canonicalHeaderValue, mbind, M_bind. simpl.
  by destruct (String.eqb (header_host r) "").
Qed.

(** The server's view of a request that a client sends. *)
Definition delivers (sent got : request) : Prop :=
  rq_Method got = rq_Method sent ∧ rq_EscapedPath got = rq_EscapedPath sent ∧
  rq_Query got = ParseQuery (rq_RawQuery sent) ∧ header_host got = header_host sent ∧
  payload_hash (rq_Header got) = payload_hash (rq_Header sent) ∧
  header_get (rq_Header got) "Authorization" = "".

Definition presign_expires (opts : PresignOptions) : Z :=
  if po_Expires opts =? 0 then 15 * minute else po_Expires opts.
Definition presign_region opts : string := or_else (TrimSpace (po_Region opts)) "us-east-1".
Definition presign_service opts : string := or_else (TrimSpace (po_Service opts)) "s3".
Definition presign_terminal opts : string := or_else (TrimSpace (po_Terminal opts)) "aws4_request".
Definition presign_scope opts signedAt : string :=
  Join [format_date signedAt; presign_region opts; presign_service opts; presign_terminal opts] "/".

Definition presigned_query (r : request) (id : string) (signedAt : Z) (opts : PresignOptions) : url_values :=
  presign_query (ParseQuery (rq_RawQuery r)) id (presign_scope opts signedAt) (format_amz signedAt) (presign_expires opts).

Lemma PresignRequest_inv r id secret signedAt opts signed :
  eval (PresignRequest r id secret signedAt opts) (rq_Header r) = Ok signed →
  let unsigned := with_raw_query r (Values_Encode (presigned_query r id signedAt opts)) in
  0 < presign_expires opts ≤ maxPresignExpiry ∧ id ≠ "" ∧ header_host r ≠ "" ∧
  signed = with_raw_query unsigned (Values_Encode (values_set "X-Amz-Signature"
    (signString secret (format_date signedAt) (presign_region opts) (presign_service opts) (presign_terminal opts)
      (buildStringToSign signedAt (presign_scope opts signedAt) (host_text unsigned (rq_Header r))))
    (ParseQuery (rq_RawQuery unsigned)))).
Proof.
  unfold eval, PresignRequest. destruct (String.eqb (TrimSpace (rq_Method r)) ""); [done|].
  destruct (String.eqb_spec (TrimSpace id) "") as [|Hid]; [done|].
  destruct (String.eqb (TrimSpace secret) ""); [done|].
  fold (presign_expires opts). destruct ((presign_expires opts <=? 0) || _) eqn:Hexp; [done|].
  cbv zeta. fold (presign_region opts) (presign_service opts) (presign_terminal opts).
  fold (presign_scope opts signedAt). fold (presigned_query r id signedAt opts).
  unfold mbind, M_bind. rewrite build_host.
  change (header_host (with_raw_query r _)) with (header_host r).
  destruct (String.eqb_spec (header_host r) "") as [|Hhost]; [done|]. intros [= <-].
  split; [lia|]. split; [by intros ->|]. split; [done|]. reflexivity.
Qed.

Lemma format_amz_seconds t : format_amz (t / second * second) = format_amz t.
Proof. unfold format_amz, format_date. by rewrite Z.div_mul. Qed.

Ltac query_lookup :=
  unfold query_get, presigned_query, presign_query, values_set;
  repeat first [rewrite lookup_insert_eq | rewrite lookup_insert_ne by done | rewrite lookup_delete_ne by done].

Lemma delivered_query r id signedAt opts sig :
  ParseQuery (Values_Encode (values_set "X-Amz-Signature" sig
    (ParseQuery (Values_Encode (presigned_query r id signedAt opts))))) =
  <["X-Amz-Signature" := [sig]]> (presigned_query r id signedAt opts).
Proof.
  assert (map_Forall (λ _ xs, xs ≠ []) (presigned_query r id signedAt opts)) as Hq
    by (apply presign_query_nonempty, ParseQuery_nonempty).
  rewrite !ParseQuery_Encode; [done..|]. rewrite ParseQuery_Encode by done. by apply map_Forall_insert_2.
Qed.

(** The parts of a scope that a URL can be signed for. *)
Definition scope_part (s : string) : Prop := s ≠ "" ∧ Contains s "/" = false.

Lemma parse_scope id d rg sv tm :
  Forall scope_part [id; d; rg; sv; tm] →
  parseCredentialScope (id +:+ "/" +:+ Join [d; rg; sv; tm] "/") =
  Ok (mkScope (Join [d; rg; sv; tm] "/") id d rg sv tm).
Proof.
  intros Hall. change (id +:+ "/" +:+ Join [d; rg; sv; tm] "/") with (Join [id; d; rg; sv; tm] "/").
  unfold parseCredentialScope. rewrite Split_Join; [|done|eapply Forall_impl; [done|by intros ? []]].
  apply Forall_cons in Hall as [[Hid _] Hall]. apply Forall_cons in Hall as [[Hd _] Hall].
  apply Forall_cons in Hall as [[Hrg _] Hall]. apply Forall_cons in Hall as [[Hsv _] Hall].
  apply Forall_cons in Hall as [[Htm _] _].
  by repeat match goal with Hs : ?s ≠ "" |- _ => apply String.eqb_neq in Hs; rewrite Hs; clear Hs end.
Qed.

Lemma signString_nonempty secret d rg sv tm s : signString secret d rg sv tm s ≠ "".
Proof.
  unfold signString. intros E. apply (f_equal String.length) in E. rewrite hex_encode_length in E.
  unfold hmacSHA256 in E. rewrite sha256_length in E. done.
Qed.

Lemma host_text_delivered r got id signedAt opts sig :
  let unsigned := with_raw_query r (Values_Encode (presigned_query r id signedAt opts)) in
  delivers (with_raw_query unsigned (Values_Encode (values_set "X-Amz-Signature" sig (ParseQuery (rq_RawQuery unsigned))))) got →
  host_text got (rq_Header got) = host_text unsigned (rq_Header r).
Proof.
  intros unsigned (Em & Ep & Eq & Eh & Eph & _). simpl in *. rewrite delivered_query in Eq.
  unfold host_text, canonical_text, canonicalURI. rewrite Em, Ep, Eq, Eh, Eph.
  rewrite canonicalQuery_signature. unfold unsigned. simpl.
  change (header_host (with_raw_query _ _)) with (header_host r).
  rewrite ParseQuery_Encode by (apply presign_query_nonempty, ParseQuery_nonempty).
  unfold presigned_query, presign_query. by rewrite delete_delete_eq.
Qed.

Lemma skewExceeded_spec v now t : Z.abs (now - t) ≤ int64_max →
  skewExceeded v now t = (vf_maxSkew v <? Z.abs (now - t)).
Proof.
  intros Ha. unfold skewExceeded, saturate64. unfold int64_max, int64_min in *.
  rewrite Z.min_r, Z.max_r by lia. destruct (Z.ltb_spec (now - t) 0).
  - rewrite wrap64_id by (unfold in_int64, int64_min, int64_max; lia). f_equal. lia.
  - f_equal. lia.
Qed.

Lemma resolve_known store id at_ s : s ∈ (resolveSecrets store id at_).1.1 →
  resolveSecrets store id at_ = ((resolveSecrets store id at_).1.1, true, true).
Proof. unfold resolveSecrets. destruct (store !! id) as [rec|]; [|set_solver]. by destruct (negb _); [set_solver|]. Qed.

Lemma check_signature_host store now r scope requestTime signature secret :
  secret ∈ (resolveSecrets store (sc_AccessKeyID scope) now).1.1 → header_host r ≠ "" →
  signature = signed_with scope (buildStringToSign requestTime (sc_Raw scope) (host_text r (rq_Header r))) secret →
  check_signature store now r scope requestTime ["host"] true signature (rq_Header r) = (rq_Header r, Ok tt).
Proof.
  intros Hs Hh Hsig. unfold check_signature. rewrite (resolve_known _ _ _ _ Hs). cbn [negb].
  unfold mbind, M_bind. rewrite build_host. apply String.eqb_neq in Hh. rewrite Hh.
  rewrite (proj2 (existsb_exists _ _)); [done|]. exists secret. split; [by apply list_elem_of_In|].
  rewrite Hsig. apply String.eqb_refl.
Qed.

Lemma delivered_params r id signedAt opts sig :
  let q := <["X-Amz-Signature" := [sig]]> (presigned_query r id signedAt opts) in
  query_get q "X-Amz-Algorithm" = "AWS4-HMAC-SHA256" ∧ query_get q "X-Amz-Date" = format_amz signedAt ∧
  query_get q "X-Amz-Expires" = FormatInt (Z.quot (presign_expires opts) second) ∧
  query_get q "X-Amz-Credential" = id +:+ "/" +:+ presign_scope opts signedAt ∧
  query_get q "X-Amz-SignedHeaders" = "host" ∧ query_get q "X-Amz-Signature" = sig.
Proof. cbv zeta. split_and!; by query_lookup. Qed.

Lemma presigned_verifies v store now r id secret signedAt opts signed got :
  eval (PresignRequest r id secret signedAt opts) (rq_Header r) = Ok signed →
  delivers signed got →
  year_0 ≤ signedAt < year_10000 → second ≤ presign_expires opts →
  Forall scope_part [id; presign_region opts; presign_service opts; presign_terminal opts] →
  presign_service opts = vf_service v → presign_terminal opts = vf_terminal v →
  vf_store v = Some store → secret ∈ (resolveSecrets store id (now 2%nat)).1.1 →
  let t := signedAt / second * second in
  Z.abs (now 0%nat - t) ≤ int64_max →
  VerifyRequest (Some v) now got (rq_Header got) =
    (rq_Header got,
     if vf_maxSkew v <? Z.abs (now 0%nat - t) then Err ErrRequestTimeTooSkewed
     else if t + Z.quot (presign_expires opts) second * second <? now 1%nat then Err ErrAccessDenied
     else Ok tt).
Proof.
  intros Hsign Hgot Hyear Hexp Hscope Hsv Htm Hstore Hsecret t Hskew.
  apply PresignRequest_inv in Hsign as (Hmax & Hid & Hhost & Esigned). cbv zeta in Esigned.
  set (sig := signString _ _ _ _ _ _) in Esigned. subst signed.
  pose proof (host_text_delivered _ _ _ _ _ _ Hgot) as Htext. cbv zeta in Htext.
  destruct Hgot as (_ & _ & Eq & Eh & _ & Ea). simpl rq_RawQuery in Eq. rewrite delivered_query in Eq.
  change (header_host (with_raw_query _ _)) with (header_host r) in Eh.
  unfold VerifyRequest. rewrite Hstore. unfold mbind at 1, M_bind at 1. simpl get. cbv iota beta.
  rewrite Ea. cbn [String.eqb negb]. rewrite Eq.
  destruct (delivered_params r id signedAt opts sig) as (Halg & Hdate & Hexpires & Hcred & Hnames & Hsig).
  unfold verifyPresignedURL. rewrite Eq. cbv zeta.
  rewrite Halg, Hdate, Hexpires, Hcred, Hnames, Hsig. change (String.eqb "AWS4-HMAC-SHA256" "") with false.
  rewrite String.eqb_refl. cbn [negb].
  unfold parseAmzDate. rewrite (proj2 (String.eqb_neq _ _) (format_amz_nonempty signedAt)), parse_format_amz by done.
  fold t. rewrite skewExceeded_spec by done. destruct (vf_maxSkew v <? _); [done|].
  assert (1 ≤ Z.quot (presign_expires opts) second ≤ 604800) as Hq.
  { unfold maxPresignExpiry, hour in Hmax. rewrite Z.quot_div_nonneg by (unfold second in *; lia).
    split; [apply Z.div_le_lower_bound|apply Z.div_le_upper_bound]; unfold second in *; lia. }
  unfold Atoi. rewrite ParseInt_FormatInt by (unfold in_int64, int64_min, int64_max; lia).
  destruct (Z.leb_spec (Z.quot (presign_expires opts) second) 0); [lia|].
  destruct (Z.ltb_spec 604800 (Z.quot (presign_expires opts) second)); [lia|]. cbn [orb].
  destruct (_ <? now 1%nat); [done|].
  apply Forall_cons in Hscope as [Hid' Hscope].
  unfold presign_scope at 1. rewrite parse_scope by (constructor; [done|]; constructor; [|done];
    destruct (format_date_chars signedAt); split; [done|by apply (Contains_byte_forall date_char)]).
  cbn [sc_Service sc_Terminal]. rewrite Hsv, Htm, !String.eqb_refl. cbn [negb orb].
  change (Split "host" ";") with ["host"]. cbn [head default String.eqb].
  assert (String.eqb sig "" = false) as -> by (apply String.eqb_neq, signString_nonempty).
  change (String.eqb (default "" (Some "host")) "") with false. cbv iota.
  apply check_signature_host with secret; [done|by rewrite Eh|].
  rewrite Htext. unfold signed_with, buildStringToSign. cbn [sc_Raw sc_Date sc_Region sc_Service sc_Terminal].
  unfold t. rewrite format_amz_seconds. rewrite <- Hsv, <- Htm. reflexivity.
Qed.

(** C16: a URL signed with a secret of an active key is accepted by the verifier
    exactly while the clock is within the allowed skew of the signing time and not
    past the expiry, whatever the other parameters of the query, and the request
    reaches the handler with its headers unchanged; outside it is refused as skewed
    or as expired. *)
Theorem presign_then_verify v store now r id secret signedAt opts signed got :
  eval (PresignRequest r id secret signedAt opts) (rq_Header r) = Ok signed →
  delivers signed got →
  year_0 ≤ signedAt < year_10000 → second ≤ presign_expires opts →
  Forall scope_part [id; presign_region opts; presign_service opts; presign_terminal opts] →
  presign_service opts = vf_service v → presign_terminal opts = vf_terminal v →
  vf_store v = Some store → secret ∈ (resolveSecrets store id (now 2%nat)).1.1 →
  let t := signedAt / second * second in
  Z.abs (now 0%nat - t) ≤ int64_max →
  VerifyRequest (Some v) now got (rq_Header got) =
    (rq_Header got,
     if vf_maxSkew v <? Z.abs (now 0%nat - t) then Err ErrRequestTimeTooSkewed
     else if t + Z.quot (presign_expires opts) second * second <? now 1%nat then Err ErrAccessDenied
     else Ok tt).
Proof. apply presigned_verifies. Qed.

(** The body is no part of what is verified, whatever payload digest is signed. *)
Definition with_body (r : request) (body : reader) : request :=
  mkRequest (rq_Method r) (rq_Host r) (rq_Path r) (rq_Query r) (rq_Header r) body (rq_RequestID r)
    (rq_Principal r) (rq_Acquire r) (rq_EscapedPath r) (rq_RawQuery r) (rq_URLHost r) (rq_RemoteAddr r) (rq_TLS r).

Theorem verification_ignores_body v now r body h :
  VerifyRequest v now (with_body r body) h = VerifyRequest v now r h.
Proof.
  unfold VerifyRequest. destruct v as [v|]; [|done]. destruct (vf_store v); [|done].
  assert (∀ names h, canonical_lines (with_body r body) names h = canonical_lines r names h) as Hlines.
  { induction names as [|n names IH]; intros h'; [done|]. simpl. destruct (String.eqb n ""); [done|].
    unfold mbind, M_bind. change (canonicalHeaderValue (with_body r body)) with (canonicalHeaderValue r).
    destruct (canonicalHeaderValue r n h') as [h1 [[x|]|]]; [|done|done]. by rewrite IH. }
  assert (∀ names p h, buildCanonicalRequest (with_body r body) names p h = buildCanonicalRequest r names p h) as Hbuild.
  { intros. unfold buildCanonicalRequest, mbind, M_bind. by rewrite Hlines. }
  assert (∀ store t scope rt names p sig h, check_signature store t (with_body r body) scope rt names p sig h =
    check_signature store t r scope rt names p sig h) as Hcheck.
  { intros. unfold check_signature. destruct (resolveSecrets _ _ _) as [[secrets []] []]; [|done..].
    cbn [negb]. unfold mbind, M_bind. by rewrite Hbuild. }
  unfold mbind, M_bind. cbn [get]. destruct (negb _).
  - unfold verifyHeaderAuth, mbind, M_bind. cbn [get]. destruct (lift _ h) as [h1 [authz|]]; [|done].
    destruct (parseAmzDate _); [|done]. do 2 (case_match; [done|]). apply Hcheck.
  - change (rq_Query (with_body r body)) with (rq_Query r). destruct (negb _); [|done].
    unfold verifyPresignedURL. change (rq_Query (with_body r body)) with (rq_Query r).
    cbv zeta. destruct (negb _); [done|]. destruct (parseAmzDate _); [|done].
    destruct (skewExceeded _ _ _); [done|]. destruct (Atoi _); [|done]. destruct (_ || _); [done|].
    destruct (_ <? _); [done|]. destruct (parseCredentialScope _); [|done]. destruct (_ || _); [done|].
    do 2 (destruct (String.eqb _ ""); [done|]). apply Hcheck.
Qed.
End properties.

(** ** Witnesses and scenarios *)
Fixpoint mix (acc : Z) (s : string) : Z :=
  match s with
  | "" => acc
  | String c s => mix ((acc * 31 + byte_Z c + 1) mod 4294967296) s
  end.

Definition mixing_sum (s : string) : string := str_take 32 (be_encode 4 (mix 17 s) +:+ str_repeat 32 "0").

Lemma mixing_sum_length s : String.length (mixing_sum s) = 32%nat.
Proof. unfold mixing_sum. apply str_take_length. rewrite length_str_app, str_repeat_length. lia. Qed.

(** Digests that depend on every byte. *)
Definition mixing_hashes : Hashes := {|
  sha256_sum := mixing_sum;
  sha1_sum s := str_take 20 (mixing_sum s);
  md5_sum s := str_take 16 (mixing_sum s);
  crc32_sum s := str_take 4 (mixing_sum s);
  crc32c_sum s := str_take 4 (mixing_sum s);
  sha256_length := mixing_sum_length;
|}.

Section witnesses.
#[local] Existing Instance mixing_hashes.
#[local] Existing Instance go_runtime_ref.

Definition ex_key_store : CredentialStore :=
  exec (BootstrapAdminCredential 0 "AK" "secret") NewCredentialStore.
Definition ex_verifier : Verifier := NewVerifier (Some ex_key_store) 0 "" "".

Definition ex_get_request (rawQuery : string) (headers : http_header) : request :=
  mkRequest "GET" "s3.local" "/photos/a b" (ParseQuery rawQuery) headers (bytes_reader "") "" "" (Ok tt)
    "/photos/a%20b" rawQuery "" "" false.

Definition ex_signed_at : Z := 1740668000 * second + 5.
Definition ex_options (expires : Z) : PresignOptions := mkPresignOptions "" "" "" expires.
Definition ex_signed_url (at_ expires : Z) : request :=
  match eval (PresignRequest (ex_get_request "versionId=v1" ∅) "AK" "secret" at_ (ex_options expires)) ∅ with
  | Ok r => r
  | Err _ => ex_get_request "" ∅
  end.

(** Ten minutes after the signing, within the skew and the expiry. *)
Definition ex_ten_minutes_later (n : nat) : Z := ex_signed_at + 10 * minute.

Lemma ex_url_signed : eval (PresignRequest (ex_get_request "versionId=v1" ∅) "AK" "secret" ex_signed_at
  (ex_options hour)) ∅ = Ok (ex_signed_url ex_signed_at hour).
Proof. vm_compute. reflexivity. Qed.

Lemma ex_url_delivers : delivers (ex_signed_url ex_signed_at hour) (ex_signed_url ex_signed_at hour).
Proof. do 2 (split; [reflexivity|]). split; [vm_compute; reflexivity|]. do 2 (split; [reflexivity|]). vm_compute. reflexivity. Qed.

Lemma ex_scope_parts : Forall scope_part
  ["AK"; presign_region (ex_options hour); presign_service (ex_options hour); presign_terminal (ex_options hour)].
Proof. vm_compute. repeat constructor; done. Qed.

Lemma ex_secret_resolves : "secret" ∈ (resolveSecrets ex_key_store "AK" (ex_ten_minutes_later 2%nat)).1.1.
Proof. vm_compute. left. Qed.

Lemma presign_then_verify_witness :
  eval (VerifyRequest (Some ex_verifier) ex_ten_minutes_later (ex_signed_url ex_signed_at hour)) ∅ = Ok tt.
Proof.
  pose proof (presign_then_verify ex_verifier ex_key_store ex_ten_minutes_later (ex_get_request "versionId=v1" ∅) "AK" "secret"
    ex_signed_at (ex_options hour) (ex_signed_url ex_signed_at hour) (ex_signed_url ex_signed_at hour)
    ex_url_signed ex_url_delivers) as Hv.
  specialize (Hv ltac:(split; vm_compute; congruence) ltac:(vm_compute; congruence) ex_scope_parts eq_refl eq_refl
    eq_refl ex_secret_resolves).
  unfold eval. change (rq_Header (ex_signed_url ex_signed_at hour)) with (∅ : http_header) in Hv.
  cbv zeta in Hv. rewrite Hv by (vm_compute; congruence). reflexivity.
Defined.

(** A URL signed for an hour is refused as skewed after twenty minutes. *)
Theorem presigned_url_ends_with_the_skew :
  eval (VerifyRequest (Some ex_verifier) (λ _, ex_signed_at + 20 * minute) (ex_signed_url ex_signed_at hour)) ∅ =
  Err ErrRequestTimeTooSkewed.
Proof. vm_compute. reflexivity. Qed.

(** A URL dated in the year 9999 is accepted today: the distance to the clock
    saturates at the least duration, whose negation is itself, and no bound on the
    expiry applies. *)
Theorem far_future_url_never_expires :
  let url := ex_signed_url (253402300000 * second) minute in
  eval (VerifyRequest (Some ex_verifier) (λ _, ex_signed_at) url) ∅ = Ok tt ∧
  eval (VerifyRequest (Some ex_verifier) (λ _, ex_signed_at + 1000000 * hour) url) ∅ = Ok tt.
Proof. vm_compute. split; reflexivity. Qed.

(** The same request with a space more in a header value. *)
Definition ex_noted (note : string) : request :=
  ex_get_request "versionId=v1" {["X-Amz-Meta-Note" := [note]]}.
Definition ex_signed_names : list string := ["host"; "X-Amz-Meta-Note"].
Definition ex_canonical : string :=
  match eval (buildCanonicalRequest (ex_noted "a b") ex_signed_names false) (rq_Header (ex_noted "a b")) with
  | Ok c => c
  | Err _ => ""
  end.

Lemma ex_noted_clean note : lacks_newline note → clean_request (ex_noted note).
Proof. intros Hn. do 3 (split; [done|]). apply map_Forall_singleton. split; [done|]. by constructor. Qed.

Lemma ex_noted_builds : 
  buildCanonicalRequest (ex_noted "a b") ex_signed_names false (rq_Header (ex_noted "a b")) =
    ({["X-Amz-Meta-Note" := ["a b"]]}, Ok ex_canonical) ∧
  buildCanonicalRequest (ex_noted " a  b") ex_signed_names false (rq_Header (ex_noted " a  b")) =
    ({["X-Amz-Meta-Note" := ["a b"]]}, Ok ex_canonical).
Proof. vm_compute. split; reflexivity. Qed.


(** Verification itself changes the values of the signed headers: what is stored of
    a PUT with this header is another text than the client sent. *)
Theorem verification_rewrites_headers :
  let r := ex_noted " a  b" in
  exec (buildCanonicalRequest r ex_signed_names false) (rq_Header r) = {["X-Amz-Meta-Note" := ["a b"]]}.
Proof. vm_compute. reflexivity. Qed.
End witnesses.
