(* ===== verification/PersonalTokens.v ===== *)
(** * Personal access tokens (src/internal/auth/pat.go, pat_manager.go)

    Tokens [s000pat.<claims>.<mac>], and the manager that keeps the issued ones to
    list and to revoke them.  [id] is what [randomTokenID] draws (empty when the
    system's random source fails). *)
From S2P Require Import Prelude GoStrings StringFacts Base64 Model FileSystem Blob BlobFacts Listing.
From S2P Require Import Http Sse Calendar Credentials SigV4.

Definition ErrInvalidPersonalAccessToken : error := ErrSentinel "invalid personal access token".
Definition ErrExpiredPersonalAccessToken : error := ErrSentinel "personal access token expired".
Definition ErrMissingPATSigningKey : error := ErrSentinel "pat signing key is required".
Definition ErrPersonalAccessTokenNotFound : error := ErrSentinel "personal access token not found".

Definition personalAccessTokenPrefix : string := "s000pat".

Record personalAccessTokenClaims := mkClaims {
  cl_TokenID : string;
  cl_Subject : string;
  cl_ExpiresAt : Z;
  cl_IssuedAt : Z;
}.

(** [t.Unix()] *)
Definition unix (t : Z) : Z := t / second.

Section tokens.
Context `{!Hashes, !GoRuntime, !JsonCodec personalAccessTokenClaims}.

Definition signPersonalAccessTokenPayload (payloadEncoded signingKey : string) : string :=
  b64_encode RawURLEncoding (hmacSHA256 signingKey payloadEncoded).

Definition token_claims (subject : string) (now ttl : Z) (tokenID : string) : personalAccessTokenClaims :=
  mkClaims (TrimSpace tokenID) (TrimSpace subject) (unix (now + ttl)) (unix now).

Definition createPersonalAccessTokenWithID (subject signingKey : string) (now ttl : Z) (tokenID : string)
    : result string :=
  if String.eqb (TrimSpace subject) "" || String.eqb (TrimSpace tokenID) "" || (ttl <=? 0)
  then Err ErrInvalidCredentialInput
  else if String.eqb signingKey "" then Err ErrMissingPATSigningKey
  else let payloadEncoded := b64_encode RawURLEncoding (json_Marshal (token_claims subject now ttl tokenID)) in
       Ok (Join [personalAccessTokenPrefix; payloadEncoded;
                 signPersonalAccessTokenPayload payloadEncoded signingKey] ".").

Definition CreatePersonalAccessToken (subject signingKey : string) (now ttl : Z) (id : string) : result string :=
  if String.eqb id "" then Err ErrInvalidPersonalAccessToken
  else createPersonalAccessTokenWithID subject signingKey now ttl id.

Definition splitPersonalAccessToken (token : string) : result (string * string) :=
  match Split token "." with
  | [prefix; payload; sig] =>
    if negb (String.eqb prefix personalAccessTokenPrefix) || String.eqb payload "" || String.eqb sig ""
    then Err ErrInvalidPersonalAccessToken else Ok (payload, sig)
  | _ => Err ErrInvalidPersonalAccessToken
  end.

Definition decode_claims (payloadEncoded : string) : option personalAccessTokenClaims :=
  payload ← b64_decode RawURLEncoding payloadEncoded; json_Unmarshal payload.

Definition VerifyPersonalAccessToken (token signingKey : string) (now : Z) : result string :=
  if String.eqb signingKey "" then Err ErrMissingPATSigningKey
  else match splitPersonalAccessToken token with
  | Err err => Err err
  | Ok (payloadEncoded, sigEncoded) =>
    if negb (String.eqb sigEncoded (signPersonalAccessTokenPayload payloadEncoded signingKey))
    then Err ErrInvalidPersonalAccessToken
    else match decode_claims payloadEncoded with
    | None => Err ErrInvalidPersonalAccessToken
    | Some claims =>
      if String.eqb (TrimSpace (cl_Subject claims)) "" || String.eqb (TrimSpace (cl_TokenID claims)) ""
         || (cl_ExpiresAt claims <=? 0)
      then Err ErrInvalidPersonalAccessToken
      else if cl_ExpiresAt claims <=? unix now then Err ErrExpiredPersonalAccessToken
      else Ok (TrimSpace (cl_Subject claims))
    end
  end.

Definition PersonalAccessTokenSubject (token : string) : string :=
  match splitPersonalAccessToken token with
  | Err _ => ""
  | Ok (payloadEncoded, _) =>
    match decode_claims payloadEncoded with
    | None => ""
    | Some claims => TrimSpace (cl_Subject claims)
    end
  end.

(** ** The manager *)
Record IssuedPersonalAccessToken := mkIssued {
  is_ID : string;
  is_Label : string;
  is_Subject : string;
  is_CreatedAt : Z;
  is_ExpiresAt : Z;
  is_Revoked : bool;
  is_RevokedAt : Z;
}.

Record issuedPATRecord := mkPATRecord {
  pr_issued : IssuedPersonalAccessToken;
  pr_tokenHash : string;
}.

Record PersonalAccessTokenManager := mkManager {
  pm_signingKey : string;
  pm_issued : gmap string issuedPATRecord;
}.

Definition NewPersonalAccessTokenManager (signingKey : string) : PersonalAccessTokenManager :=
  mkManager signingKey ∅.

Definition with_issued (issued : gmap string issuedPATRecord) (m : PersonalAccessTokenManager)
    : PersonalAccessTokenManager := mkManager (pm_signingKey m) issued.

Definition tokenFingerprint (token : string) : string := hex_encode (sha256_sum token).

Definition Issue (now : Z) (id subject : string) (ttl : Z) (label : string)
    : M PersonalAccessTokenManager (string * IssuedPersonalAccessToken) :=
  m ← get;
  token ← lift (createPersonalAccessTokenWithID subject (pm_signingKey m) now ttl id);
  let issued := mkIssued id (TrimSpace label) (TrimSpace subject) now (now + ttl) false zero_time in
  put (with_issued (<[id := mkPATRecord issued (tokenFingerprint token)]> (pm_issued m)) m);;
  mret (token, issued).

(** The loop over the records stops at the first with the token's digest. *)
Fixpoint find_hash (hash : string) (records : list (string * issuedPATRecord)) : option issuedPATRecord :=
  match records with
  | [] => None
  | (_, rec) :: records => if String.eqb (pr_tokenHash rec) hash then Some rec else find_hash hash records
  end.

Definition Verify (m : PersonalAccessTokenManager) (now : Z) (token : string) : result string :=
  match VerifyPersonalAccessToken token (pm_signingKey m) now with
  | Err err => Err err
  | Ok subject =>
    match find_hash (tokenFingerprint token) (range_map (pm_issued m)) with
    | Some rec => if is_Revoked (pr_issued rec) then Err ErrInvalidPersonalAccessToken else Ok subject
    | None => Ok subject
    end
  end.

Definition revoked (now : Z) (rec : issuedPATRecord) : issuedPATRecord :=
  let i := pr_issued rec in
  mkPATRecord (mkIssued (is_ID i) (is_Label i) (is_Subject i) (is_CreatedAt i) (is_ExpiresAt i) true now)
    (pr_tokenHash rec).

Definition Revoke (now : Z) (tokenID : string) : M PersonalAccessTokenManager unit :=
  m ← get;
  match pm_issued m !! TrimSpace tokenID with
  | None => throw ErrPersonalAccessTokenNotFound
  | Some rec =>
    if is_Revoked (pr_issued rec) then mret tt
    else put (with_issued (<[TrimSpace tokenID := revoked now rec]> (pm_issued m)) m)
  end.

Definition less_issued (x y : IssuedPersonalAccessToken) : bool :=
  if is_CreatedAt x =? is_CreatedAt y then String.ltb (is_ID x) (is_ID y) else is_CreatedAt y <? is_CreatedAt x.

Definition ListTokens (m : PersonalAccessTokenManager) : list IssuedPersonalAccessToken :=
  sort_slice less_issued ((λ e, pr_issued e.2) <$> range_map (pm_issued m)).

(** ** The operations as steps *)
Inductive token_op :=
  | OpIssue (id subject : string) (ttl : Z) (label : string)
  | OpRevoke (tokenID : string).

Definition run_token_op (now : Z) (op : token_op) (m : PersonalAccessTokenManager) : PersonalAccessTokenManager :=
  match op with
  | OpIssue id subject ttl label => exec (Issue now id subject ttl label) m
  | OpRevoke tokenID => exec (Revoke now tokenID) m
  end.

Definition run_token_ops (ops : list (Z * token_op)) (m : PersonalAccessTokenManager) : PersonalAccessTokenManager :=
  fold_left (λ m e, run_token_op e.1 e.2 m) ops m.
End tokens.

(** ** Tokens verify until they expire *)
Lemma raw_url_char_not_dot n : Ascii.eqb "." (b64_char RawURLEncoding n) = false.
Proof.
  destruct (N.ltb_spec n 62) as [Hn|Hn].
  - assert (forallb (λ n, negb (Ascii.eqb "." (b64_char RawURLEncoding (N.of_nat n)))) (seq 0 62) = true) as Ha
      by (vm_compute; done).
    rewrite forallb_forall in Ha. specialize (Ha (N.to_nat n)). rewrite N2Nat.id in Ha.
    apply negb_true_iff, Ha, in_seq. lia.
  - unfold b64_char. destruct (N.ltb_spec n 26), (N.ltb_spec n 52), (N.ltb_spec n 62); try lia.
    by destruct (n =? 62)%N.
Qed.

Lemma raw_url_no_dot s : Contains (b64_encode RawURLEncoding s) "." = false.
Proof.
  assert (∀ n s, (String.length s < n)%nat → Contains (b64_encode RawURLEncoding s) "." = false) as Hall.
  { clear s. intros n. induction n as [|n IH]; intros s Hs; [lia|].
    destruct s as [|a [|b [|c s]]]; [done|..]; cbn [b64_encode];
      change (pad RawURLEncoding _) with ""; rewrite !Contains_byte, !raw_url_char_not_dot; try done.
    cbn [orb]. apply IH. simpl in Hs. lia. }
  apply (Hall (S (String.length s))). lia.
Qed.

Lemma b64_nonempty enc s : s ≠ "" → b64_encode enc s ≠ "".
Proof. by destruct s as [|a [|b [|c s]]]. Qed.

Section token_properties.
Context `{!Hashes, !GoRuntime, !JsonCodec personalAccessTokenClaims}.

Lemma split_created payload key :
  payload ≠ "" → Contains payload "." = false →
  splitPersonalAccessToken (Join [personalAccessTokenPrefix; payload; signPersonalAccessTokenPayload payload key] ".") =
  Ok (payload, signPersonalAccessTokenPayload payload key).
Proof.
  intros Hne Hdot. unfold splitPersonalAccessToken.
  assert (signPersonalAccessTokenPayload payload key ≠ "") as Hsig.
  { apply b64_nonempty. intros E. apply (f_equal String.length) in E.
    unfold hmacSHA256 in E. by rewrite sha256_length in E. }
  rewrite Split_Join; [|done|].
  - rewrite String.eqb_refl. apply String.eqb_neq in Hne, Hsig. by rewrite Hne, Hsig.
  - repeat constructor; [done|]. apply raw_url_no_dot.
Qed.

Lemma created_token subject key now ttl id token :
  createPersonalAccessTokenWithID subject key now ttl id = Ok token →
  TrimSpace subject ≠ "" ∧ TrimSpace id ≠ "" ∧ 0 < ttl ∧ key ≠ "" ∧
  let payload := b64_encode RawURLEncoding (json_Marshal (token_claims subject now ttl id)) in
  token = Join [personalAccessTokenPrefix; payload; signPersonalAccessTokenPayload payload key] ".".
Proof.
  unfold createPersonalAccessTokenWithID. destruct (_ || _) eqn:Eb; [done|].
  apply orb_false_iff in Eb as [[Hs Hi]%orb_false_iff Ht].
  destruct (String.eqb_spec key ""); [done|]. intros [= <-].
  split_and!; [by apply String.eqb_neq|by apply String.eqb_neq|lia|done|done].
Qed.

Lemma verify_created subject key now ttl id token at_ :
  createPersonalAccessTokenWithID subject key now ttl id = Ok token →
  json_representable (token_claims subject now ttl id) → 0 < unix (now + ttl) →
  VerifyPersonalAccessToken token key at_ =
    (if unix (now + ttl) <=? unix at_ then Err ErrExpiredPersonalAccessToken else Ok (TrimSpace subject)) ∧
  PersonalAccessTokenSubject token = TrimSpace subject.
Proof.
  intros (Hs & Hid & Httl & Hkey & ->)%created_token Hrep Hexp. cbv zeta.
  set (payload := b64_encode _ _).
  assert (splitPersonalAccessToken (Join [personalAccessTokenPrefix; payload;
    signPersonalAccessTokenPayload payload key] ".") = Ok (payload, signPersonalAccessTokenPayload payload key)) as Hsplit.
  { apply split_created; [apply b64_nonempty, json_nonempty|apply raw_url_no_dot]. }
  assert (decode_claims payload = Some (token_claims subject now ttl id)) as Hdec.
  { unfold decode_claims, payload. rewrite b64_round_trip. simpl. by apply json_round_trip. }
  unfold VerifyPersonalAccessToken, PersonalAccessTokenSubject. rewrite Hsplit, Hdec.
  apply String.eqb_neq in Hkey. rewrite Hkey, String.eqb_refl. cbn [negb token_claims cl_Subject cl_TokenID cl_ExpiresAt].
  rewrite !TrimSpace_idem. apply String.eqb_neq in Hs, Hid. rewrite Hs, Hid.
  destruct (Z.leb_spec (unix (now + ttl)) 0); [lia|]. done.
Qed.


(** ** Revocation *)
Definition draws (id : string) (op : token_op) : bool :=
  match op with OpIssue id' _ _ _ => String.eqb id' id | OpRevoke _ => false end.
Definition revokes (id : string) (op : token_op) : bool :=
  match op with OpIssue _ _ _ _ => false | OpRevoke id' => String.eqb (TrimSpace id') id end.

(** The record of an id: its digest and whether it is revoked. *)
Definition recorded (m : PersonalAccessTokenManager) (id hash : string) (b : bool) : Prop :=
  ∃ rec, pm_issued m !! id = Some rec ∧ pr_tokenHash rec = hash ∧ is_Revoked (pr_issued rec) = b.

Lemma run_token_op_recorded now op m id hash b :
  draws id op = false → recorded m id hash b → recorded (run_token_op now op m) id hash (b || revokes id op).
Proof.
  intros Hd (rec & Hrec & Hh & Hb). destruct op as [id' subject ttl label|id']; simpl in *.
  - rewrite orb_false_r. unfold exec, Issue, mbind, M_bind. simpl.
    destruct (createPersonalAccessTokenWithID _ _ _ _ _); simpl; [|by exists rec].
    exists rec. split; [|done]. simpl. apply String.eqb_neq in Hd. by rewrite lookup_insert_ne.
  - unfold exec, Revoke, mbind, M_bind. simpl. destruct (String.eqb_spec (TrimSpace id') id) as [->|Hne].
    + rewrite Hrec, orb_true_r. destruct (is_Revoked (pr_issued rec)) eqn:Er; simpl; [by exists rec|].
      exists (revoked now rec). simpl. by rewrite lookup_insert_eq.
    + rewrite orb_false_r. destruct (pm_issued m !! TrimSpace id') as [rec'|]; simpl; [|by exists rec].
      destruct (is_Revoked (pr_issued rec')); simpl; [by exists rec|]. exists rec. simpl. by rewrite lookup_insert_ne.
Qed.

Lemma run_token_op_key now op m : pm_signingKey (run_token_op now op m) = pm_signingKey m.
Proof.
  destruct op; simpl; unfold exec, Issue, Revoke, mbind, M_bind; simpl.
  - by destruct (createPersonalAccessTokenWithID _ _ _ _ _).
  - destruct (pm_issued m !! _) as [rec|]; [|done]. by destruct (is_Revoked _).
Qed.

Lemma run_token_ops_recorded ops m id hash b :
  Forall (λ e, draws id e.2 = false) ops → recorded m id hash b →
  recorded (run_token_ops ops m) id hash (b || existsb (λ e, revokes id e.2) ops) ∧
  pm_signingKey (run_token_ops ops m) = pm_signingKey m.
Proof.
  intros Hops. revert m b. induction Hops as [|[now op] ops Hop _ IH]; intros m b Hm; simpl.
  - by rewrite orb_false_r.
  - simpl in Hop. destruct (IH (run_token_op now op m) (b || revokes id op)) as [Hr Hk].
    + by apply run_token_op_recorded.
    + rewrite orb_assoc. split; [done|]. by rewrite Hk, run_token_op_key.
Qed.

Lemma find_hash_unique hash (l : list (string * issuedPATRecord)) id rec :
  (id, rec) ∈ l → pr_tokenHash rec = hash →
  (∀ id' rec', (id', rec') ∈ l → pr_tokenHash rec' = hash → rec' = rec) → find_hash hash l = Some rec.
Proof.
  intros Hin Hh Hu. induction l as [|[i r] l IH]; [by apply elem_of_nil in Hin|]. simpl.
  destruct (String.eqb_spec (pr_tokenHash r) hash) as [E|Hne].
  - f_equal. apply (Hu i); [left|done].
  - apply elem_of_cons in Hin as [[= -> ->]|Hin]; [done|]. apply IH; [done|]. intros i' r' Hin'. apply (Hu i'). by right.
Qed.

(** C34: from the moment it is issued, and through any operations of the manager that
    do not draw its id again, a token verifies for its subject while it is neither
    expired nor revoked; a revocation of its id, at any point, refuses it for good.
    (Digests of different tokens are taken to differ.) *)
Theorem token_revocation m m1 now id subject ttl label token issued ops at_ :
  Issue now id subject ttl label m = (m1, Ok (token, issued)) →
  json_representable (token_claims subject now ttl id) → 0 < unix (now + ttl) →
  Forall (λ e, draws id e.2 = false) ops →
  let m2 := run_token_ops ops m1 in
  (∀ id' rec', pm_issued m2 !! id' = Some rec' → pr_tokenHash rec' = tokenFingerprint token → id' = id) →
  Verify m2 at_ token =
    if unix (now + ttl) <=? unix at_ then Err ErrExpiredPersonalAccessToken
    else if existsb (λ e, revokes id e.2) ops then Err ErrInvalidPersonalAccessToken
    else Ok (TrimSpace subject).
Proof.
  intros Hissue Hrep Hexp Hops m2 Hunique. unfold Issue, mbind, M_bind in Hissue. simpl in Hissue.
  destruct (createPersonalAccessTokenWithID subject (pm_signingKey m) now ttl id) as [tok|] eqn:Ecreate; [|done].
  simpl in Hissue. injection Hissue as <- <- _.
  set (m1 := with_issued _ m) in m2.
  destruct (run_token_ops_recorded ops m1 id (tokenFingerprint tok) false Hops) as [(rec & Hrec & Hh & Hb) Hkey].
  { eexists. unfold m1. simpl. by rewrite lookup_insert_eq. }
  fold m2 in Hrec, Hkey. unfold Verify. rewrite Hkey. change (pm_signingKey m1) with (pm_signingKey m).
  destruct (verify_created _ _ _ _ _ _ at_ Ecreate Hrep Hexp) as [-> _].
  destruct (_ <=? _); [done|].
  rewrite (find_hash_unique _ _ id rec).
  - rewrite Hb. simpl. by destruct (existsb _ ops).
  - by apply elem_of_range_map.
  - done.
  - intros id' rec' Hin Hh'. apply elem_of_range_map in Hin. pose proof (Hunique _ _ Hin Hh') as ->. congruence.
Qed.

(** A manager made anew with the key, as at the start of the process, knows of no
    revocation. *)
Lemma new_manager_forgets key at_ token :
  Verify (NewPersonalAccessTokenManager key) at_ token = VerifyPersonalAccessToken token key at_.
Proof.
  unfold Verify. simpl. destruct (VerifyPersonalAccessToken token key at_); [|done].
  by assert (range_map (∅ : gmap string issuedPATRecord) = []) as ->
    by (apply Permutation_nil_r; unfold range_map; by rewrite range_order_perm, map_to_list_empty).
Qed.
End token_properties.

(** ** Witnesses *)
Section witnesses.
#[local] Existing Instance ex_hashes.
#[local] Existing Instance go_runtime_ref.

(** A text form of the claims, for evaluation. *)
Definition claims_text (c : personalAccessTokenClaims) : string :=
  Join [cl_TokenID c; cl_Subject c; FormatInt (cl_ExpiresAt c); FormatInt (cl_IssuedAt c)] "|".

Definition read_claims (s : string) : option personalAccessTokenClaims :=
  match Split s "|" with
  | [i; sub; x; y] => x ← ParseInt x; y ← ParseInt y; Some (mkClaims i sub x y)
  | _ => None
  end.

Definition plain_claims (c : personalAccessTokenClaims) : Prop :=
  Contains (cl_TokenID c) "|" = false ∧ Contains (cl_Subject c) "|" = false ∧
  Contains (FormatInt (cl_ExpiresAt c)) "|" = false ∧ Contains (FormatInt (cl_IssuedAt c)) "|" = false ∧
  in_int64 (cl_ExpiresAt c) ∧ in_int64 (cl_IssuedAt c).

Lemma claims_text_nonempty c : claims_text c ≠ "".
Proof. intros [_ [=]]%str_app_eq_nil. Qed.

Lemma read_claims_text c : plain_claims c → read_claims (claims_text c) = Some c.
Proof.
  intros (Hi & Hs & Hx & Hy & Rx & Ry). unfold read_claims, claims_text.
  rewrite Split_Join; [|done|by repeat constructor]. rewrite !ParseInt_FormatInt by done. by destruct c.
Qed.

#[local] Instance ex_claims_codec : JsonCodec personalAccessTokenClaims := {|
  json_Marshal := claims_text;
  json_Unmarshal := read_claims;
  json_nonempty := claims_text_nonempty;
  json_representable := plain_claims;
  json_round_trip := read_claims_text;
|}.

Definition ex_token : string :=
  match createPersonalAccessTokenWithID " ada " "key" (1000 * second) (60 * second) "0a1b" with
  | Ok t => t
  | Err _ => ""
  end.

Lemma ex_token_created :
  createPersonalAccessTokenWithID " ada " "key" (1000 * second) (60 * second) "0a1b" = Ok ex_token.
Proof. vm_compute. done. Qed.

Lemma ex_token_claims : plain_claims (token_claims " ada " (1000 * second) (60 * second) "0a1b").
Proof. vm_compute. split_and!; done. Qed.


Definition ex_issue := Issue (1000 * second) "0a1b" " ada " (60 * second) "laptop" (NewPersonalAccessTokenManager "key").
Definition ex_issued : IssuedPersonalAccessToken :=
  mkIssued "0a1b" "laptop" "ada" (1000 * second) (1060 * second) false zero_time.
Definition ex_ops : list (Z * token_op) :=
  [(1010 * second, OpIssue "ffff" "bob" second "x"); (1020 * second, OpRevoke " 0a1b ")].

Lemma ex_issue_ok : ex_issue = (ex_issue.1, Ok (ex_token, ex_issued)).
Proof. vm_compute. done. Qed.

Lemma ex_ops_keep : Forall (λ e, draws "0a1b" e.2 = false) ex_ops.
Proof. by repeat constructor. Qed.

Lemma ex_unique : ∀ id' rec', pm_issued (run_token_ops ex_ops ex_issue.1) !! id' = Some rec' →
  pr_tokenHash rec' = tokenFingerprint ex_token → id' = "0a1b".
Proof.
  intros id' rec' Hrec Hh. apply elem_of_map_to_list in Hrec.
  assert (forallb (λ e, negb (String.eqb (pr_tokenHash e.2) (tokenFingerprint ex_token)) || String.eqb e.1 "0a1b")
    (map_to_list (pm_issued (run_token_ops ex_ops ex_issue.1))) = true) as Hall by (vm_compute; done).
  rewrite forallb_forall in Hall. apply list_elem_of_In, Hall in Hrec. simpl in Hrec. rewrite Hh in Hrec.
  rewrite String.eqb_refl in Hrec. by apply String.eqb_eq in Hrec.
Qed.

Lemma token_revocation_witness :
  Verify (run_token_ops ex_ops ex_issue.1) (1030 * second) ex_token = Err ErrInvalidPersonalAccessToken.
Proof.
  rewrite (token_revocation _ _ _ _ _ _ _ _ _ ex_ops (1030 * second) ex_issue_ok ex_token_claims eq_refl ex_ops_keep ex_unique).
  reflexivity.
Defined.

(** The same token after a restart. *)
Theorem revocation_lost_at_restart :
  Verify (run_token_ops ex_ops ex_issue.1) (1030 * second) ex_token = Err ErrInvalidPersonalAccessToken ∧
  Verify (NewPersonalAccessTokenManager "key") (1030 * second) ex_token = Ok "ada".
Proof. vm_compute. split; reflexivity. Qed.
End witnesses.
