(* ===== verification/Observability.v ===== *)
(** * Metrics and traces (src/internal/observability)

    The collector of request metrics with its histogram of latencies in float64, its
    counts by minute and its Prometheus text, and the traceparent header.  The text of
    a float64 (%g) is a parameter; a collector that is nil does nothing and is not
    modelled. *)
From Stdlib Require Import SpecFloat.
From S2P Require Import Prelude GoStrings StringFacts Base64 Model Http Calendar Duration SigV4 PersonalTokens.

(** ** The collector *)

(** [latencyBuckets], as the compiler reads the decimals: thousandths. *)
Definition thousandths (n : Z) : float64 := f64_div (f64_of n) (f64_of 1000).
Definition latencyBuckets : list float64 :=
  thousandths <$> [1; 5; 10; 25; 50; 100; 250; 500; 1000; 2500; 5000; 10000].

Definition requestTrendWindowMinutes : Z := 20.

(** Counters are uint64; minutes are counted from 1970. *)
Record Collector := mkCollector {
  co_requestTotal : Z;
  co_requestErrorTotal : Z;
  co_request4xxTotal : Z;
  co_request5xxTotal : Z;
  co_requestBytesIn : Z;
  co_requestBytesOut : Z;
  co_latencyCount : Z;
  co_latencySum : float64;
  co_latencyBucketCnt : list Z;
  co_workerQueueDepth : gmap string Z;
  co_requestByMinute : gmap Z Z;
  co_errorByMinute : gmap Z Z;
}.

Definition NewCollector : Collector :=
  mkCollector 0 0 0 0 0 0 0 (S754_zero false) (replicate (length latencyBuckets) 0) ∅ ∅ ∅.

Definition wrapU64 (n : Z) : Z := n mod 2 ^ 64.
Definition succU64 (n : Z) : Z := wrapU64 (n + 1).

(** [time.Duration.Seconds] *)
Definition Seconds (d : Z) : float64 :=
  SFadd 53 1024 (f64_of (Z.quot d second)) (f64_div (f64_of (Z.rem d second)) (f64_of 1000000000)).

Definition minute_of (now : Z) : Z := unix now `quot` 60.

(** A count by minute, and the minutes that are kept. *)
Definition count_minute (m : Z) (counts : gmap Z Z) : gmap Z Z := <[m := succU64 (default 0 (counts !! m))]> counts.
Definition kept_minutes (now : Z) (counts : gmap Z Z) : gmap Z Z :=
  filter (λ e, now - requestTrendWindowMinutes * 3 ≤ e.1) counts.

Definition ObserveRequest (now status latency bytesIn bytesOut : Z) (c : Collector) : Collector :=
  let nowMinute := minute_of now in
  let failed := 400 <=? status in
  let seconds := Seconds latency in
  mkCollector
    (succU64 (co_requestTotal c))
    (if failed then succU64 (co_requestErrorTotal c) else co_requestErrorTotal c)
    (if failed && (status <? 500) then succU64 (co_request4xxTotal c) else co_request4xxTotal c)
    (if 500 <=? status then succU64 (co_request5xxTotal c) else co_request5xxTotal c)
    (if 0 <? bytesIn then wrapU64 (co_requestBytesIn c + bytesIn) else co_requestBytesIn c)
    (if 0 <? bytesOut then wrapU64 (co_requestBytesOut c + bytesOut) else co_requestBytesOut c)
    (succU64 (co_latencyCount c))
    (SFadd 53 1024 (co_latencySum c) seconds)
    (zip_with (λ b n, if SFleb seconds b then succU64 n else n) latencyBuckets (co_latencyBucketCnt c))
    (co_workerQueueDepth c)
    (kept_minutes nowMinute (count_minute nowMinute (co_requestByMinute c)))
    (kept_minutes nowMinute (if failed then count_minute nowMinute (co_errorByMinute c) else co_errorByMinute c)).

Definition SetWorkerQueueDepth (worker : string) (depth : Z) (c : Collector) : Collector :=
  mkCollector (co_requestTotal c) (co_requestErrorTotal c) (co_request4xxTotal c) (co_request5xxTotal c)
    (co_requestBytesIn c) (co_requestBytesOut c) (co_latencyCount c) (co_latencySum c) (co_latencyBucketCnt c)
    (<[worker := Z.max 0 depth]> (co_workerQueueDepth c)) (co_requestByMinute c) (co_errorByMinute c).

(** The first bound with at least the wanted share of the observations below it. *)
Fixpoint first_bound (target : Z) (bounds : list (float64 * Z)) : option float64 :=
  match bounds with
  | [] => None
  | (b, count) :: bounds => if target <=? count then Some b else first_bound target bounds
  end.

Definition histogramQuantileFromCumulative (cumulative : list Z) (total : Z) (q : float64) : float64 :=
  if (total =? 0) || (length cumulative =? 0)%nat then S754_zero false
  else
    let target := f64_trunc (f64_mul (f64_of total) q) in
    let target := if target =? 0 then 1 else target in
    default (List.last latencyBuckets (S754_zero false)) (first_bound target (zip latencyBuckets cumulative)).

Definition requestTrend (now : Z) (buckets : gmap Z Z) (window : Z) : list Z :=
  let start := minute_of now - window + 1 in
  (λ i, default 0 (buckets !! (start + Z.of_nat i))) <$> seq 0 (Z.to_nat window).

Record RequestSnapshot := mkRequestSnapshot {
  sn_RequestTotal : Z;
  sn_RequestErrorTotal : Z;
  sn_Request4xxTotal : Z;
  sn_Request5xxTotal : Z;
  sn_RequestBytesIn : Z;
  sn_RequestBytesOut : Z;
  sn_LatencyCount : Z;
  sn_LatencySumSeconds : float64;
  sn_LatencyP95Seconds : float64;
  sn_RequestsPerMinute : list Z;
  sn_ErrorsPerMinute : list Z;
}.

Definition CollectorSnapshot (now : Z) (c : Collector) : RequestSnapshot :=
  mkRequestSnapshot (co_requestTotal c) (co_requestErrorTotal c) (co_request4xxTotal c) (co_request5xxTotal c)
    (co_requestBytesIn c) (co_requestBytesOut c) (co_latencyCount c) (co_latencySum c)
    (histogramQuantileFromCumulative (co_latencyBucketCnt c) (co_latencyCount c) (thousandths 950))
    (requestTrend now (co_requestByMinute c) requestTrendWindowMinutes)
    (requestTrend now (co_errorByMinute c) requestTrendWindowMinutes).

(** ** The Prometheus text *)
Class FloatFormat := { format_g : float64 → string }.

Section render.
Context `{!FloatFormat} `{!GoRuntime}.

Definition metric_header (name help type : string) : string :=
  "# HELP " +:+ name +:+ " " +:+ help +:+ newline +:+ "# TYPE " +:+ name +:+ " " +:+ type +:+ newline.
Definition sample (name value : string) : string := name +:+ " " +:+ value +:+ newline.
Definition quoted (s : string) : string := String "034" (s +:+ String "034" "").
Definition counter (name help : string) (value : Z) : string :=
  metric_header name help "counter" +:+ sample name (FormatInt value).

Definition RenderPrometheus (c : Collector) : string :=
  counter "s000_requests_total" "Total HTTP requests." (co_requestTotal c) +:+
  counter "s000_request_errors_total" "Total HTTP requests with status >= 400." (co_requestErrorTotal c) +:+
  counter "s000_request_bytes_in_total" "Total request bytes in." (co_requestBytesIn c) +:+
  counter "s000_request_bytes_out_total" "Total response bytes out." (co_requestBytesOut c) +:+
  metric_header "s000_request_latency_seconds" "Request latency histogram." "histogram" +:+
  Join (zip_with (λ bound n, sample ("s000_request_latency_seconds_bucket{le=" +:+ quoted (format_g bound) +:+ "}") (FormatInt n))
    latencyBuckets (co_latencyBucketCnt c)) "" +:+
  sample ("s000_request_latency_seconds_bucket{le=" +:+ quoted "+Inf" +:+ "}") (FormatInt (co_latencyCount c)) +:+
  sample "s000_request_latency_seconds_sum" (format_g (co_latencySum c)) +:+
  sample "s000_request_latency_seconds_count" (FormatInt (co_latencyCount c)) +:+
  metric_header "s000_worker_queue_depth" "Current worker queue depth by worker." "gauge" +:+
  Join ((λ worker, sample ("s000_worker_queue_depth{worker=" +:+ quoted worker +:+ "}")
      (FormatInt (default 0 (co_workerQueueDepth c !! worker)))) <$>
    sort_slice String.ltb (range_map (co_workerQueueDepth c)).*1) "".
End render.

(** ** Traces *)
Record TraceContext := mkTraceContext {
  tc_TraceID : string;
  tc_SpanID : string;
  tc_TraceParent : string;
}.

Definition hex_lower (c : ascii) : bool :=
  let n := N_of_ascii c in ((48 <=? n) && (n <=? 57) || (97 <=? n) && (n <=? 102))%N.

Definition isHex (v : string) (len : nat) : bool :=
  (String.length v =? len)%nat && forallb hex_lower (list_ascii_of_string v).

Definition ParseTraceparentHeader (header : string) : option TraceContext :=
  let parts := Split (ToLower (TrimSpace header)) "-" in
  match parts with
  | [version; traceID; spanID; flags] =>
    if negb (isHex version 2) || negb (isHex traceID 32) || negb (isHex spanID 16) || negb (isHex flags 2) then None
    else if String.eqb traceID "00000000000000000000000000000000" || String.eqb spanID "0000000000000000" then None
    else Some (mkTraceContext traceID spanID (Join parts "-"))
  | _ => None
  end.

(** [WithTraceContext]: what a context carries afterwards. *)
Definition WithTraceContext (ctx : option TraceContext) (trace : TraceContext) : option TraceContext :=
  let norm s := ToLower (TrimSpace s) in
  let trace := mkTraceContext (norm (tc_TraceID trace)) (norm (tc_SpanID trace)) (norm (tc_TraceParent trace)) in
  if String.eqb (tc_TraceID trace) "" && String.eqb (tc_SpanID trace) "" && String.eqb (tc_TraceParent trace) ""
  then ctx else Some trace.

Definition TraceContextFromContext (ctx : option TraceContext) : TraceContext := default (mkTraceContext "" "" "") ctx.

Example trace_ex :
  ParseTraceparentHeader "00-4BF92F3577b34da6a3ce929d0e0e4736-00f067aa0ba902b7-01 " =
    Some (mkTraceContext "4bf92f3577b34da6a3ce929d0e0e4736" "00f067aa0ba902b7" "00-4bf92f3577b34da6a3ce929d0e0e4736-00f067aa0ba902b7-01") ∧
  ParseTraceparentHeader "00-00000000000000000000000000000000-00f067aa0ba902b7-01" = None ∧ ParseTraceparentHeader "bad-header" = None.
Proof. vm_compute. split_and!; reflexivity. Qed.

(** ** What the figures say *)
Record observation := mkObservation {
  ob_now : Z;
  ob_status : Z;
  ob_latency : Z;
  ob_bytesIn : Z;
  ob_bytesOut : Z;
}.

Definition observe (c : Collector) (o : observation) : Collector :=
  ObserveRequest (ob_now o) (ob_status o) (ob_latency o) (ob_bytesIn o) (ob_bytesOut o) c.
Definition observed (l : list observation) : Collector := fold_left observe l NewCollector.

Definition count_of (p : observation → bool) (l : list observation) : Z := Z.of_nat (length (List.filter p l)).

Lemma count_of_snoc p l o : count_of p (l ++ [o]) = if p o then count_of p l + 1 else count_of p l.
Proof. unfold count_of. rewrite List.filter_app, length_app. simpl. destruct (p o); simpl; lia. Qed.
Lemma count_of_bound p l : 0 ≤ count_of p l ≤ Z.of_nat (length l).
Proof. unfold count_of. pose proof (List.filter_length_le p l). lia. Qed.
Lemma count_of_mono p q l : (∀ o, p o = true → q o = true) → count_of p l ≤ count_of q l.
Proof.
  intros Hpq. induction l as [|o l IH] using rev_ind; [done|]. rewrite !count_of_snoc.
  destruct (p o) eqn:Ep; [rewrite (Hpq _ Ep)|destruct (q o)]; lia.
Qed.

Lemma succU64_count p l o : Z.of_nat (length (l ++ [o])) < 2 ^ 64 → succU64 (count_of p l) = count_of p l + 1.
Proof.
  rewrite length_app. simpl. intros Hl. pose proof (count_of_bound p l). unfold succU64, wrapU64. apply Z.mod_small. lia.
Qed.

Lemma observed_snoc l o : observed (l ++ [o]) = observe (observed l) o.
Proof. unfold observed. by rewrite fold_left_app. Qed.

Definition all_of (o : observation) : bool := true.
Definition failed_of (o : observation) : bool := 400 <=? ob_status o.
Definition client_of (o : observation) : bool := (400 <=? ob_status o) && (ob_status o <? 500).
Definition server_of (o : observation) : bool := 500 <=? ob_status o.
Definition within (b : float64) (o : observation) : bool := SFleb (Seconds (ob_latency o)) b.
Definition in_minute (p : observation → bool) (m : Z) (o : observation) : bool := p o && (minute_of (ob_now o) =? m).

Record counted (l : list observation) (c : Collector) : Prop := {
  counted_total : co_requestTotal c = count_of all_of l;
  counted_errors : co_requestErrorTotal c = count_of failed_of l;
  counted_4xx : co_request4xxTotal c = count_of client_of l;
  counted_5xx : co_request5xxTotal c = count_of server_of l;
  counted_latency : co_latencyCount c = count_of all_of l;
  counted_buckets : co_latencyBucketCnt c = (λ b, count_of (within b) l) <$> latencyBuckets;
}.

Lemma counter_step p l o n : Z.of_nat (length (l ++ [o])) < 2 ^ 64 → n = count_of p l →
  (if p o then succU64 n else n) = count_of p (l ++ [o]).
Proof. intros Hl ->. rewrite count_of_snoc. destruct (p o); [by eapply succU64_count|done]. Qed.

Lemma buckets_step l o bs : Z.of_nat (length (l ++ [o])) < 2 ^ 64 →
  zip_with (λ b n, if within b o then succU64 n else n) bs ((λ b, count_of (within b) l) <$> bs) =
  (λ b, count_of (within b) (l ++ [o])) <$> bs.
Proof. intros Hl. induction bs as [|b bs IH]; [done|]. csimpl. by rewrite IH, (counter_step (within b) l o _ Hl eq_refl). Qed.

Lemma observed_counted l : Z.of_nat (length l) < 2 ^ 64 → counted l (observed l).
Proof.
  induction l as [|o l IH] using rev_ind; [by split; vm_compute|]. intros Hl.
  destruct IH as [Ht He H4 H5 Hc Hb]; [rewrite length_app in Hl; lia|]. rewrite observed_snoc.
  split; cbn [observe ObserveRequest co_requestTotal co_requestErrorTotal co_request4xxTotal co_request5xxTotal co_latencyCount co_latencyBucketCnt].
  - exact (counter_step all_of l o _ Hl Ht).
  - exact (counter_step failed_of l o _ Hl He).
  - exact (counter_step client_of l o _ Hl H4).
  - exact (counter_step server_of l o _ Hl H5).
  - exact (counter_step all_of l o _ Hl Hc).
  - rewrite Hb. exact (buckets_step l o _ Hl).
Qed.

(** *** By minute *)
Lemma kept_lookup now m counts : now - requestTrendWindowMinutes * 3 ≤ m → kept_minutes now counts !! m = counts !! m.
Proof.
  intros Hm. unfold kept_minutes. rewrite map_lookup_filter. destruct (counts !! m) as [n|]; simpl; [|done].
  by rewrite option_guard_True.
Qed.

(** The count of a minute is kept as long as no observation is an hour later. *)
Definition minutes_counted (p : observation → bool) (l : list observation) (counts : gmap Z Z) : Prop :=
  ∀ m, (∀ o, o ∈ l → minute_of (ob_now o) - 60 ≤ m) → default 0 (counts !! m) = count_of (in_minute p m) l.

Lemma minutes_step p l o counts : Z.of_nat (length (l ++ [o])) < 2 ^ 64 → minutes_counted p l counts →
  minutes_counted p (l ++ [o]) (kept_minutes (minute_of (ob_now o))
    (if p o then count_minute (minute_of (ob_now o)) counts else counts)).
Proof.
  intros Hl Hc m Hm. rewrite kept_lookup by (apply Hm; set_solver). rewrite count_of_snoc. unfold in_minute at 1.
  assert (Hc' : ∀ m', m' = m → default 0 (counts !! m') = count_of (in_minute p m') l) by (intros ? ->; apply Hc; set_solver).
  destruct (p o); simpl; [|by apply Hc']. destruct (Z.eqb_spec (minute_of (ob_now o)) m) as [<-|Hne].
  - unfold count_minute. rewrite lookup_insert_eq. simpl. rewrite Hc' by done. by eapply succU64_count.
  - unfold count_minute. rewrite lookup_insert_ne by done. by apply Hc'.
Qed.

Lemma observed_minutes l : Z.of_nat (length l) < 2 ^ 64 →
  minutes_counted all_of l (co_requestByMinute (observed l)) ∧ minutes_counted failed_of l (co_errorByMinute (observed l)).
Proof.
  induction l as [|o l IH] using rev_ind; [by split|]. intros Hl.
  destruct IH as [Ha Hf]; [rewrite length_app in Hl; lia|]. rewrite observed_snoc.
  split; [exact (minutes_step all_of l o _ Hl Ha)|exact (minutes_step failed_of l o _ Hl Hf)].
Qed.

Lemma trend_counts p l counts now : minutes_counted p l counts → (∀ o, o ∈ l → ob_now o ≤ now) →
  requestTrend now counts requestTrendWindowMinutes =
  (λ i, count_of (in_minute p (minute_of now - 19 + Z.of_nat i)) l) <$> seq 0 20.
Proof.
  intros Hc Hl. unfold requestTrend. apply list_fmap_ext. intros j i Hi%lookup_seq. simpl.
  replace (minute_of now - requestTrendWindowMinutes + 1 + Z.of_nat i) with (minute_of now - 19 + Z.of_nat i)
    by (unfold requestTrendWindowMinutes; lia).
  apply Hc. intros o Ho. assert (minute_of (ob_now o) ≤ minute_of now); [|lia].
  unfold minute_of, unix. apply Z.quot_le_mono; [lia|]. apply Z.div_le_mono; [done|]. by apply Hl.
Qed.

(** *** The bounds of the histogram *)
Lemma SFleb_widen s m1 e1 m2 e2 :
  SFleb (S754_finite false m1 e1) (S754_finite false m2 e2) = true →
  SFleb s (S754_finite false m1 e1) = true → SFleb s (S754_finite false m2 e2) = true.
Proof.
  unfold SFleb, SFcompare. destruct s as [[]|[]| |[] m e]; try done.
  destruct (Z.compare_spec e1 e2), (Z.compare_spec e e1), (Z.compare_spec e e2); try lia; try done.
  change (Pos.compare_cont Eq ?a ?b) with (Pos.compare a b).
  destruct (Pos.compare_spec m1 m2), (Pos.compare_spec m m1), (Pos.compare_spec m m2); try lia; done.
Qed.

Lemma within_next i b b' o : latencyBuckets !! i = Some b → latencyBuckets !! S i = Some b' →
  within b o = true → within b' o = true.
Proof.
  unfold within. generalize (Seconds (ob_latency o)). intros s.
  do 11 (destruct i as [|i]; [vm_compute (latencyBuckets !! _); intros [= <-] [= <-]; apply SFleb_widen; vm_compute; reflexivity|]).
  vm_compute (latencyBuckets !! _). by destruct i.
Qed.

Lemma first_bound_spec target bs cs : length bs = length cs →
  match first_bound target (zip bs cs) with
  | Some b => ∃ i n, bs !! i = Some b ∧ cs !! i = Some n ∧ target ≤ n ∧ Forall (λ n, n < target) (take i cs)
  | None => Forall (λ n, n < target) cs
  end.
Proof.
  revert cs. induction bs as [|b bs IH]; intros [|n cs] Hl; try done; simpl in *; [constructor|].
  destruct (Z.leb_spec target n) as [Hn|Hn]; [exists O, n; by split_and!|].
  specialize (IH cs ltac:(lia)). destruct (first_bound target (zip bs cs)) as [b'|]; [|by constructor].
  destruct IH as (i & n' & Hb & Hc & Ht & Hf). exists (S i), n'. split_and!; try done. by constructor.
Qed.


(** The histogram is cumulative - each bucket counts the requests within its bound,
    no fewer than the one before and no more than there were - and the 95th percentile
    is the first bound within which 95 of 100 requests were, or the last bound. *)
Theorem latency_histogram l now : Z.of_nat (length l) < 2 ^ 64 → l ≠ [] →
  let c := observed l in
  let target := Z.max 1 (f64_trunc (f64_mul (f64_of (Z.of_nat (length l))) (thousandths 950))) in
  (∀ i b b' n n', latencyBuckets !! i = Some b → latencyBuckets !! S i = Some b' →
     co_latencyBucketCnt c !! i = Some n → co_latencyBucketCnt c !! S i = Some n' → n ≤ n' ≤ co_latencyCount c) ∧
  ∃ i b n, latencyBuckets !! i = Some b ∧ co_latencyBucketCnt c !! i = Some n ∧
    sn_LatencyP95Seconds (CollectorSnapshot now c) = b ∧ n = count_of (within b) l ∧
    (target ≤ n ∨ i = 11%nat) ∧ Forall (λ n, n < target) (take i (co_latencyBucketCnt c)).
Proof.
  intros Hl Hne c target. destruct (observed_counted l Hl) as [_ _ _ _ Hc Hb]. fold c in Hc, Hb.
  assert (Hall : count_of all_of l = Z.of_nat (length l)).
  { clear. unfold count_of. f_equal. induction l as [|o l IH]; simpl; congruence. }
  rewrite Hb, Hc. split.
  - intros i b b' n n' Hi Hi'. rewrite !list_lookup_fmap, Hi, Hi'. intros [= <-] [= <-]. split.
    + apply count_of_mono. intros o. by apply (within_next i).
    + rewrite Hall. apply count_of_bound.
  - cbn [sn_LatencyP95Seconds CollectorSnapshot]. rewrite Hb, Hc, Hall. unfold histogramQuantileFromCumulative.
    rewrite length_fmap. destruct (Z.eqb_spec (Z.of_nat (length l)) 0) as [E|_]; [destruct l; done|].
    change ((length latencyBuckets =? 0)%nat) with false. simpl orb. cbv iota zeta.
    set (t := f64_trunc _) in *. assert (Ht : (if t =? 0 then 1 else t) = target).
    { unfold target. assert (0 ≤ t) by (unfold t, f64_trunc; repeat case_match; try lia; apply Z.div_pos; lia).
      destruct (Z.eqb_spec t 0); lia. }
    rewrite Ht. pose proof (first_bound_spec target latencyBuckets ((λ b, count_of (within b) l) <$> latencyBuckets)) as Hf.
    rewrite length_fmap in Hf. specialize (Hf eq_refl). destruct (first_bound _ _) as [b|].
    + destruct Hf as (i & n & Hi & Hn & Hle & Hfa). exists i, b, n. split_and!; try done; [|by left].
      rewrite list_lookup_fmap, Hi in Hn. by injection Hn as <-.
    + exists 11%nat. eexists _, _. split_and!; [reflexivity|reflexivity|reflexivity|reflexivity|by right|]. by apply Forall_take.
Qed.

(** ** Three requests *)
Definition ex_observations : list observation :=
  [mkObservation 0 200 (2 * millisecond) 10 20; mkObservation (70 * second) 404 (30 * millisecond) (-1) 5;
   mkObservation (61 * minute) 503 (20 * second) 0 7].

Lemma ex_observed_before : ∀ o, o ∈ ex_observations → ob_now o ≤ 62 * minute.
Proof. intros o Ho. unfold ex_observations in Ho. rewrite !elem_of_cons, elem_of_nil in Ho. destruct_or! Ho; subst; done. Qed.


Lemma latency_histogram_witness :
  let c := observed ex_observations in
  co_latencyBucketCnt c = [0; 1; 1; 1; 2; 2; 2; 2; 2; 2; 2; 2] ∧
  ∃ i b n, latencyBuckets !! i = Some b ∧ co_latencyBucketCnt c !! i = Some n ∧
    sn_LatencyP95Seconds (CollectorSnapshot 0 c) = b ∧ n = count_of (within b) ex_observations ∧
    (2 ≤ n ∨ i = 11%nat) ∧ Forall (λ n, n < 2) (take i (co_latencyBucketCnt c)).
Proof.
  intros c. split; [vm_compute; reflexivity|].
  apply (latency_histogram ex_observations 0); [reflexivity|discriminate].
Defined.

Example render_ex :
  let f : FloatFormat := {| format_g _ := "?" |} in
  let text := @RenderPrometheus f go_runtime_ref (SetWorkerQueueDepth "lifecycle" (-1) (observed ex_observations)) in
  Contains text ("s000_requests_total 3" +:+ newline) = true ∧
  HasSuffix text ("s000_worker_queue_depth{worker=" +:+ quoted "lifecycle" +:+ "} 0" +:+ newline) = true.
Proof. vm_compute. split; reflexivity. Qed.
