(* ===== verification/Protector.v ===== *)
(** * The protector against repeated authentication failures (src/internal/server/security.go)

    A window of failures and a block per client identity.  The methods run under the
    protector's lock. *)
From S2P Require Import Prelude GoStrings Model Http Calendar SigV4.

Record authFailureState := mkFailures {
  af_windowStart : Z;
  af_failures : Z;
  af_blockedUntil : Z;
}.

Record authFailureProtector := mkProtector {
  ap_threshold : Z;
  ap_window : Z;
  ap_blockFor : Z;
  ap_state : gmap string authFailureState;
}.

Definition newAuthFailureProtector (threshold window blockFor : Z) : authFailureProtector :=
  mkProtector (if threshold <=? 0 then 20 else threshold) (if window <=? 0 then minute else window)
    (if blockFor <=? 0 then 5 * minute else blockFor) ∅.

Definition with_failures (identity : string) (st : authFailureState) (p : authFailureProtector)
    : authFailureProtector :=
  mkProtector (ap_threshold p) (ap_window p) (ap_blockFor p) (<[identity := st]> (ap_state p)).

Definition no_failures : authFailureState := mkFailures zero_time 0 zero_time.

Definition IsBlocked (identity : string) (now : Z) (p : authFailureProtector) : authFailureProtector * bool :=
  match ap_state p !! identity with
  | None => (p, false)
  | Some st =>
    if af_blockedUntil st <? now
    then (with_failures identity (mkFailures (af_windowStart st) (af_failures st) zero_time) p, false)
    else (p, negb (af_blockedUntil st =? zero_time))
  end.

Definition RecordFailure (identity : string) (now : Z) (p : authFailureProtector) : authFailureProtector :=
  let st := default no_failures (ap_state p !! identity) in
  let st := if (af_windowStart st =? zero_time) || (ap_window p <? saturate64 (now - af_windowStart st))
            then mkFailures now 0 (af_blockedUntil st) else st in
  let st := mkFailures (af_windowStart st) (wrap64 (af_failures st + 1)) (af_blockedUntil st) in
  let st := if ap_threshold p <? af_failures st
            then mkFailures (af_windowStart st) (af_failures st) (now + ap_blockFor p) else st in
  with_failures identity st p.

Definition RecordSuccess (identity : string) (p : authFailureProtector) : authFailureProtector :=
  mkProtector (ap_threshold p) (ap_window p) (ap_blockFor p) (delete identity (ap_state p)).

(** One request with wrong credentials: refused unseen when the identity is blocked,
    otherwise verified and recorded.  The answer is whether it was verified. *)
Definition failed_attempt (identity : string) (now : Z) (p : authFailureProtector) : authFailureProtector * bool :=
  let '(p, blocked) := IsBlocked identity now p in
  if blocked then (p, false) else (RecordFailure identity now p, true).

Fixpoint failed_attempts (identity : string) (times : list Z) (p : authFailureProtector)
    : authFailureProtector * list bool :=
  match times with
  | [] => (p, [])
  | t :: times => let '(p, b) := failed_attempt identity t p in
                  let '(p, bs) := failed_attempts identity times p in (p, b :: bs)
  end.

(** ** The number of attempts that are verified *)
Definition settings (p : authFailureProtector) : Z * Z * Z := (ap_threshold p, ap_window p, ap_blockFor p).

(** [k] failures of the identity since [start], and no block. *)
Definition counting (identity : string) (start k : Z) (p : authFailureProtector) : Prop :=
  ap_state p !! identity = Some (mkFailures start k zero_time).

Definition blocked_from (identity : string) (start : Z) (p : authFailureProtector) : Prop :=
  ∃ st, ap_state p !! identity = Some st ∧ start + ap_blockFor p ≤ af_blockedUntil st.

Lemma failed_attempt_blocked identity start now p :
  blocked_from identity start p → zero_time < start + ap_blockFor p → now ≤ start + ap_blockFor p →
  failed_attempt identity now p = (p, false).
Proof.
  intros (st & Hst & Hb) Hz Hnow. unfold failed_attempt, IsBlocked. rewrite Hst.
  destruct (Z.ltb_spec (af_blockedUntil st) now); [lia|].
  destruct (Z.eqb_spec (af_blockedUntil st) zero_time); [lia|]. done.
Qed.

Lemma failed_attempts_blocked identity start times p :
  blocked_from identity start p → zero_time < start + ap_blockFor p →
  Forall (λ t, t ≤ start + ap_blockFor p) times →
  failed_attempts identity times p = (p, replicate (length times) false).
Proof.
  intros Hb Hz Hall. induction Hall as [|t times Ht _ IH]; [done|]. simpl.
  by rewrite (failed_attempt_blocked identity start), IH.
Qed.

Lemma failed_attempt_counts identity start k now p :
  counting identity start k p → zero_time < start → 0 ≤ k ≤ ap_threshold p → ap_threshold p < int64_max →
  start ≤ now → now - start ≤ ap_window p → ap_window p ≤ int64_max →
  ∃ p', failed_attempt identity now p = (p', true) ∧ settings p' = settings p ∧
    if k <? ap_threshold p then counting identity start (k + 1) p' else blocked_from identity start p'.
Proof.
  intros Hc Hz Hk Hmax Hnow Hw Hw64. unfold failed_attempt, IsBlocked. rewrite Hc.
  cbn [af_blockedUntil af_windowStart af_failures]. destruct (Z.ltb_spec zero_time now); [|lia].
  eexists. split; [done|]. split; [done|].
  unfold counting, blocked_from, RecordFailure, with_failures. cbn [ap_state ap_threshold ap_window ap_blockFor].
  rewrite !lookup_insert_eq. cbn [default from_option id af_windowStart af_failures af_blockedUntil].
  destruct (Z.eqb_spec start zero_time); [lia|].
  unfold saturate64, int64_min, int64_max in *. rewrite Z.min_r, Z.max_r by lia.
  destruct (Z.ltb_spec (ap_window p) (now - start)); [lia|]. cbn [orb].
  cbn [af_windowStart af_failures af_blockedUntil].
  rewrite wrap64_id by (unfold in_int64, int64_min, int64_max; lia).
  destruct (Z.ltb_spec k (ap_threshold p)).
  - destruct (Z.ltb_spec (ap_threshold p) (k + 1)); [lia|done].
  - destruct (Z.ltb_spec (ap_threshold p) (k + 1)); [|lia]. eexists. split; [done|]. simpl. lia.
Qed.

Lemma failed_attempts_counting identity start times k p :
  counting identity start k p → zero_time < start → 0 ≤ k ≤ ap_threshold p → ap_threshold p < int64_max →
  0 < ap_blockFor p → ap_window p ≤ int64_max →
  Forall (λ t, start ≤ t ≤ start + Z.min (ap_window p) (ap_blockFor p)) times →
  (failed_attempts identity times p).2 =
    let n := Z.to_nat (ap_threshold p + 1 - k) in
    replicate (length times `min` n) true ++ replicate (length times - n) false.
Proof.
  intros Hc Hz Hk Hmax Hbl Hw Hall. revert k p Hc Hk Hmax Hbl Hw Hall.
  induction times as [|t times IH]; intros k p Hc Hk Hmax Hbl Hw Hall; [done|].
  apply Forall_cons in Hall as [Ht Hall].
  destruct (failed_attempt_counts identity start k t p) as (p' & Hrun & Hset & Hp'); [done..|lia|lia|done|].
  injection Hset as Eth Ew Eb. simpl. rewrite Hrun. destruct (Z.ltb_spec k (ap_threshold p)) as [Hlt|Hge].
  - specialize (IH (k + 1) p' Hp'). rewrite Eth, Ew, Eb in IH. specialize (IH ltac:(lia) Hmax Hbl Hw Hall).
    destruct (failed_attempts identity times p') as [p'' bs]. simpl in *. rewrite IH.
    replace (Z.to_nat (ap_threshold p + 1 - k)) with (S (Z.to_nat (ap_threshold p + 1 - (k + 1)))) by lia. done.
  - assert (failed_attempts identity times p' = (p', replicate (length times) false)) as ->.
    { apply (failed_attempts_blocked identity start); [done|lia|]. eapply Forall_impl; [done|]. simpl. intros x Hx. rewrite Eb. lia. }
    replace (Z.to_nat (ap_threshold p + 1 - k)) with 1%nat by lia. simpl.
    by rewrite Nat.min_0_r, Nat.sub_0_r.
Qed.


(** Other identities are not affected. *)
Lemma failed_attempt_other identity other now p : other ≠ identity →
  ap_state (failed_attempt identity now p).1 !! other = ap_state p !! other.
Proof.
  intros Hne. unfold failed_attempt, IsBlocked. destruct (ap_state p !! identity) as [st|] eqn:E.
  - destruct (_ <? now); simpl; [by rewrite !lookup_insert_ne by congruence|].
    destruct (negb _); simpl; [done|]. by rewrite lookup_insert_ne by congruence.
  - simpl. by rewrite lookup_insert_ne by congruence.
Qed.

Definition ex_protector : authFailureProtector := newAuthFailureProtector 3 0 0.

