(* ===== verification/Policy.v ===== *)
(** * Bucket policies for anonymous requests (src/internal/server/middleware.go)

    The policy document as its JSON value, the custom decoding of its statements, and
    the evaluation for a request without credentials.  The JSON syntax itself
    (encoding/json) is the class [JsonSyntax]. *)
From S2P Require Import Prelude GoStrings StringFacts.

Inductive json :=
  | JNull
  | JBool (b : bool)
  | JNumber (text : string)
  | JString (s : string)
  | JArray (items : list json)
  | JObject (members : list (string * json)).

Class JsonSyntax := { json_parse : string → option json }.

Record bucketPolicyStatement := mkStatement {
  ps_Effect : string;
  ps_Principal : list string;
  ps_Action : list string;
  ps_Resource : list string;
}.

Definition no_statement : bucketPolicyStatement := mkStatement "" [] [] [].

(** The members of an object as a map: of equal keys the last one stays. *)
Definition json_map {A} (members : list (string * A)) : gmap string A :=
  fold_left (λ m e, <[e.1 := e.2]> m) members ∅.

Section decoding.
Context `{!GoRuntime}.

(** A list of strings, in which null leaves the empty string. *)
Definition string_item (j : json) : option string :=
  match j with
  | JString s => Some s
  | JNull => Some ""
  | _ => None
  end.

(** [bucketPolicyValues.UnmarshalJSON] into a value that holds [cur]; nested values
    that do not decode are passed over. *)
Fixpoint unmarshal_values (cur : list string) (j : json) {struct j} : option (list string) :=
  match j with
  | JString s => Some [s]
  | JNull => Some [""]
  | JArray items => mapM string_item items
  | JObject members =>
    let nested := (fix go (ms : list (string * json)) : list (string * option (list string)) :=
      match ms with
      | [] => []
      | (k, v) :: ms => (k, unmarshal_values [] v) :: go ms
      end) members in
    Some (cur ++ (range_map (json_map nested) ≫= λ e, default [] e.2))
  | JBool _ | JNumber _ => None
  end.

(** One member of a statement; names match without regard to case. *)
Definition set_member (stmt : bucketPolicyStatement) (name : string) (v : json) : option bucketPolicyStatement :=
  if EqualFold name "Effect" then
    match v with
    | JString s => Some (mkStatement s (ps_Principal stmt) (ps_Action stmt) (ps_Resource stmt))
    | JNull => Some stmt
    | _ => None
    end
  else if EqualFold name "Principal" then
    x ← unmarshal_values (ps_Principal stmt) v;
    Some (mkStatement (ps_Effect stmt) x (ps_Action stmt) (ps_Resource stmt))
  else if EqualFold name "Action" then
    x ← unmarshal_values (ps_Action stmt) v;
    Some (mkStatement (ps_Effect stmt) (ps_Principal stmt) x (ps_Resource stmt))
  else if EqualFold name "Resource" then
    x ← unmarshal_values (ps_Resource stmt) v;
    Some (mkStatement (ps_Effect stmt) (ps_Principal stmt) (ps_Action stmt) x)
  else Some stmt.

Definition unmarshal_statement (j : json) : option bucketPolicyStatement :=
  match j with
  | JNull => Some no_statement
  | JObject members => fold_left (λ acc e, stmt ← acc; set_member stmt e.1 e.2) members (Some no_statement)
  | _ => None
  end.

(** [bucketPolicyDocument.UnmarshalJSON]: one statement or a list. *)
Definition unmarshal_policy (j : json) : option (list bucketPolicyStatement) :=
  match j with
  | JNull => Some []
  | JObject members =>
    match snd <$> last (filter (λ e, EqualFold e.1 "Statement" = true) members) with
    | None => Some []
    | Some (JArray items) => mapM unmarshal_statement items
    | Some v => stmt ← unmarshal_statement v; Some [stmt]
    end
  | _ => None
  end.
End decoding.

(** ** Evaluation *)
Definition policyPatternMatches (pattern value : string) : bool :=
  if String.eqb pattern "*" || String.eqb pattern value then true
  else if HasSuffix pattern "*" then HasPrefix value (TrimSuffix pattern "*")
  else false.

Definition values_contain (v : list string) (want : string) : bool := existsb (λ got, String.eqb got want) v.
Definition values_match (v : list string) (want : string) : bool := existsb (λ p, policyPatternMatches p want) v.

Definition matchesAnonymous (s : bucketPolicyStatement) (action resource : string) : bool :=
  values_contain (ps_Principal s) "*" && values_match (ps_Action s) action && values_match (ps_Resource s) resource.

(** The loop over the statements. *)
Fixpoint evaluate (allowed : bool) (stmts : list bucketPolicyStatement) (action resource : string) : bool :=
  match stmts with
  | [] => allowed
  | stmt :: stmts =>
    if negb (matchesAnonymous stmt action resource) then evaluate allowed stmts action resource
    else if EqualFold (ps_Effect stmt) "Deny" then false
    else evaluate (allowed || EqualFold (ps_Effect stmt) "Allow") stmts action resource
  end.

Section evaluation.
Context `{!GoRuntime, !JsonSyntax}.

Definition bucketPolicyAllowsAnonymous (document action resource : string) : bool :=
  match json_parse document ≫= unmarshal_policy with
  | None => false
  | Some stmts => evaluate false stmts action resource
  end.

(** ** An explicit denial wins *)
Lemma evaluate_spec allowed stmts action resource :
  evaluate allowed stmts action resource = true ↔
  (allowed = true ∨ ∃ s, s ∈ stmts ∧ matchesAnonymous s action resource = true ∧ EqualFold (ps_Effect s) "Allow" = true) ∧
  ∀ s, s ∈ stmts → matchesAnonymous s action resource = true → EqualFold (ps_Effect s) "Deny" = false.
Proof.
  revert allowed. induction stmts as [|st stmts IH]; intros allowed; simpl.
  { split; [intros ->; split; [by left|set_solver]|]. intros [[?|(s & Hs & _)] _]; [done|set_solver]. }
  destruct (matchesAnonymous st action resource) eqn:Hm; cbn [negb].
  - destruct (EqualFold (ps_Effect st) "Deny") eqn:Hd.
    + split; [done|]. intros [_ Hall]. rewrite (Hall st) in Hd; [done|left|done].
    + rewrite IH. split.
      * intros [Hallow Hall]. split.
        -- destruct Hallow as [Ha|(s & Hs & Hrest)]; [|right; exists s; split; [by right|done]].
           apply orb_true_iff in Ha as [->|Ha]; [by left|]. right. exists st. split; [left|done].
        -- intros s [->|Hs]%elem_of_cons; [done|]. by apply Hall.
      * intros [Hallow Hall]. split; [|intros s Hs; apply Hall; by right].
        destruct Hallow as [->|(s & [->|Hs]%elem_of_cons & Hsm & Hse)]; [by left| |right; by exists s].
        left. by rewrite Hse, orb_true_r.
  - rewrite IH. split; intros [Hallow Hall]; (split; [|]).
    + destruct Hallow as [?|(s & Hs & Hrest)]; [by left|]. right. exists s. split; [by right|done].
    + intros s [->|Hs]%elem_of_cons; [congruence|]. by apply Hall.
    + destruct Hallow as [?|(s & [->|Hs]%elem_of_cons & Hsm & Hse)]; [by left|congruence|]. right. by exists s.
    + intros s Hs. apply Hall. by right.
Qed.

Lemma pattern_spec pattern value :
  policyPatternMatches pattern value = true ↔
  pattern = value ∨ ∃ p t, pattern = p +:+ "*" ∧ value = p +:+ t.
Proof.
  unfold policyPatternMatches. destruct (String.eqb_spec pattern "*") as [->|Hstar].
  { split; [|done]. intros _. right. by exists "", value. }
  destruct (String.eqb_spec pattern value) as [->|Hne]; [by split; [left|]|]. cbn [orb].
  destruct (HasSuffix pattern "*") eqn:Hs.
  - apply HasSuffix_spec in Hs as [p ->].
    assert (TrimSuffix (p +:+ "*") "*" = p) as ->.
    { unfold TrimSuffix. rewrite (proj2 (HasSuffix_spec _ _)) by eauto.
      rewrite length_str_app. simpl. rewrite Nat.add_sub. apply str_take_app. }
    rewrite HasPrefix_spec. split.
    + intros [t ->]. right. by exists p, t.
    + intros [?|(p' & t & E & ->)]; [done|]. exists t. f_equal.
      apply (f_equal String.rev) in E. rewrite !str_rev_snoc in E. injection E as E.
      apply (f_equal String.rev) in E. by rewrite !str_rev_involutive in E.
  - split; [done|]. intros [?|(p & t & -> & _)]; [done|].
    assert (HasSuffix (p +:+ "*") "*" = true) by (apply HasSuffix_spec; eauto). congruence.
Qed.

(** C32: a policy admits an anonymous request exactly when its document decodes, some
    statement for everyone that matches action and resource allows, and none that
    matches denies, in whatever order they stand; a pattern matches its own text and,
    when it ends in a star, every text that starts with what precedes the star. *)
Theorem policy_deny_overrides document action resource :
  (bucketPolicyAllowsAnonymous document action resource = true ↔
   ∃ stmts, (json_parse document ≫= unmarshal_policy) = Some stmts ∧
     (∃ s, s ∈ stmts ∧ matchesAnonymous s action resource = true ∧ EqualFold (ps_Effect s) "Allow" = true) ∧
     ∀ s, s ∈ stmts → matchesAnonymous s action resource = true → EqualFold (ps_Effect s) "Deny" = false) ∧
  ∀ pattern value, policyPatternMatches pattern value = true ↔
    pattern = value ∨ ∃ p t, pattern = p +:+ "*" ∧ value = p +:+ t.
Proof.
  split; [|apply pattern_spec]. unfold bucketPolicyAllowsAnonymous.
  destruct (json_parse document ≫= unmarshal_policy) as [stmts|].
  - rewrite evaluate_spec. split.
    + intros [[?|Hex] Hall]; [done|]. by exists stmts.
    + intros (? & [= <-] & Hex & Hall). split; [by right|done].
  - split; [done|]. by intros (? & ? & _).
Qed.
End evaluation.
