(* ===== verification/S3State.v ===== *)
(** * The state and the vocabulary of the S3 API (src/internal/server)

    What a handler works on: the metadata store, the file system of the blob
    store, the source of random bytes, the events emitted so far and the response
    being written.  The documents of encoding/xml and encoding/json are data; how
    they are encoded and decoded is the library's. *)
From S2P Require Import Prelude GoStrings Base64 Model MemoryStore FileSystem Blob Listing Http.

(** ** Documents the handlers decode *)
Record corsRuleXML := mkCorsRuleXML {
  cx_AllowedOrigins : list string;
  cx_AllowedMethods : list string;
  cx_AllowedHeaders : list string;
  cx_ExposeHeaders : list string;
  cx_MaxAgeSeconds : Z;
}.

Record publicAccessXML := mkPublicAccessXML {
  px_BlockPublicACLs : bool;
  px_IgnorePublicACLs : bool;
  px_BlockPublicPolicy : bool;
  px_RestrictPublicBuckets : bool;
}.

(** The website document; a routing rule has the fields of the metadata model. *)
Record websiteXML := mkWebsiteXML {
  wx_Suffix : string;
  wx_ErrorKey : string;
  wx_RedirectHost : string;
  wx_RedirectProtocol : string;
  wx_RoutingRules : list BucketWebsiteRoutingRule;
}.

Record deleteObjectXML := mkDeleteObjectXML {
  dx_Key : string;
  dx_VersionID : string;
}.

Record deleteRequestXML := mkDeleteRequestXML {
  dx_Quiet : bool;
  dx_Objects : list deleteObjectXML;
}.

Record completePartXML := mkCompletePartXML {
  px_PartNumber : Z;
  px_ETag : string;
}.

Record objectRetentionXML := mkObjectRetentionXML {
  rx_Mode : string;
  rx_RetainUntilDate : string;
}.

Record notificationTargetXML := mkNotificationTargetXML {
  nt_ID : string;
  nt_Queue : string;
  nt_Topic : string;
  nt_Function : string;
  nt_Endpoint : string;
  nt_URL : string;
  nt_Events : list string;
}.

Record notificationConfigurationXML := mkNotificationConfigurationXML {
  nc_Queues : list notificationTargetXML;
  nc_Topics : list notificationTargetXML;
  nc_Lambdas : list notificationTargetXML;
}.

Record replicationRuleXML := mkReplicationRuleXML {
  rr_ID : string;
  rr_Status : string;
  rr_Prefix : string;
  rr_FilterPrefix : string;
  rr_Bucket : string;
  rr_Endpoint : string;
  rr_URL : string;
}.

(** encoding/xml and encoding/json on the documents the handlers read: a decoder on
    a body, [Unmarshal] of bytes, the error that reading all tokens ends with
    (None for [io.EOF]), [json.Valid]. *)
Class RequestCodecs := {
  xml_tokens_error : string → option error;
  json_Valid : string → bool;
  xml_Decode_website : reader → option websiteXML;
  xml_Decode_cors : reader → option (list corsRuleXML);
  xml_Decode_publicAccess : reader → option publicAccessXML;
  xml_Decode_delete : reader → option deleteRequestXML;
  xml_Decode_retention : reader → option objectRetentionXML;
  xml_Decode_legalHold : reader → option string;
  xml_Unmarshal_versioning : string → option string;
  xml_Unmarshal_complete : string → option (list completePartXML);
  xml_Unmarshal_notification : string → option notificationConfigurationXML;
  xml_Unmarshal_replication : string → option (list replicationRuleXML);
}.

(** ** Documents the handlers encode *)
Record partItem := mkPartItem {
  pi_PartNumber : Z;
  pi_ETag : string;
  pi_Size : Z;
  pi_ChecksumCRC32 : string;
  pi_ChecksumCRC32C : string;
  pi_ChecksumSHA1 : string;
  pi_ChecksumSHA256 : string;
}.

Record listPartsResult := mkListPartsResult {
  pr_Bucket : string;
  pr_Key : string;
  pr_UploadID : string;
  pr_PartNumberMarker : Z;
  pr_NextPartNumberMarker : Z;
  pr_MaxParts : Z;
  pr_IsTruncated : bool;
  pr_Parts : list partItem;
}.

Record uploadEntry := mkUploadEntry {
  ue_Key : string;
  ue_UploadID : string;
  ue_Initiated : string;
}.

Record listUploadsResult := mkListUploadsResult {
  ur_Bucket : string;
  ur_KeyMarker : string;
  ur_UploadIDMarker : string;
  ur_NextKeyMarker : string;
  ur_NextUploadIDMarker : string;
  ur_MaxUploads : Z;
  ur_IsTruncated : bool;
  ur_Uploads : list uploadEntry;
}.

Record deleteError := mkDeleteError {
  de_Key : string;
  de_Code : string;
  de_Message : string;
}.

Record completeResult := mkCompleteResult {
  co_Location : string;
  co_Bucket : string;
  co_Key : string;
  co_ETag : string;
  co_CRC32 : string;
  co_CRC32C : string;
  co_SHA1 : string;
  co_SHA256 : string;
}.

Inductive s3_doc : Type :=
  | DocError (code message resource requestID : string)
  | DocListBuckets (items : list (string * string))
  | DocLocation (region : string)
  | DocVersioning (status : string)
  | DocListObjects (out : listResult)
  | DocListVersions (out : listVersionsResult)
  | DocWebsite (cfg : websiteXML)
  | DocCORS (rules : list corsRuleXML)
  | DocPublicAccess (cfg : publicAccessXML)
  | DocACL
  | DocTagging
  | DocNotification (cfg : notificationConfigurationXML)
  | DocRetention (cfg : objectRetentionXML)
  | DocLegalHold (status : string)
  | DocDelete (deleted : list deleteObjectXML) (errors : list deleteError)
  | DocCopy (etag lastModified : string)
  | DocInitiate (bucket key uploadID : string)
  | DocListParts (out : listPartsResult)
  | DocListUploads (out : listUploadsResult)
  | DocComplete (out : completeResult).

(** ** Events *)
Record AuditEvent := mkAuditEvent {
  ae_At : Z;
  ae_Action : string;
  ae_Outcome : string;
  ae_RequestID : string;
  ae_Principal : string;
  ae_Bucket : string;
  ae_Key : string;
  ae_Reason : string;
}.

Record s3NotificationRecord := mkNotificationRecord {
  nr_EventVersion : string;
  nr_EventSource : string;
  nr_EventTime : string;
  nr_EventName : string;
  nr_BucketName : string;
  nr_Key : string;
  nr_Size : Z;
  nr_ETag : string;
  nr_VersionID : string;
}.

(** What a handler starts in the background ([go ...]) or hands to the sink. *)
Inductive s3_event : Type :=
  | EvAudit (e : AuditEvent)
  | EvNotify (endpoint : string) (record : s3NotificationRecord)
  | EvReplicate (endpoint dstBucket : string) (obj : ObjectVersion).

(** crypto/rand: the bytes of the n-th draw of a process, or its error. *)
Class Randomness := {
  rand_Read : nat → nat → result string;
  rand_Read_length n k b : rand_Read n k = Ok b → String.length b = k;
}.

(** [s3API]; [api_ready] is false when the store or the blob store is nil. *)
Record s3API := mkS3API {
  api_ready : bool;
  api_domain : string;
  api_blob : blobStore;
  api_region : string;
  api_auditEnabled : bool;
  api_sseKey : string;
}.

Definition newS3API (ready : bool) (domain : string) (bs : blobStore) (region : string)
    (auditEnabled : bool) (sseKey : string) : s3API :=
  mkS3API ready domain bs (if String.eqb region "" then "us-east-1" else region)
    auditEnabled sseKey.

Record s3_state (P : Type) := mkS3State {
  s3_store : memoryBackedStore P;
  s3_world : world;
  s3_draws : nat;
  s3_events : list s3_event;
  s3_resp : response s3_doc;
}.
Arguments mkS3State {_} _ _ _ _ _.
Arguments s3_store {_} _.
Arguments s3_world {_} _.
Arguments s3_draws {_} _.
Arguments s3_events {_} _.
Arguments s3_resp {_} _.

Record s3ErrorSpec := mkS3Error {
  se_StatusCode : Z;
  se_Code : string;
  se_Message : string;
  se_Resource : string;
}.

Section handlers.
Context {P : Type}.
Abbreviation HM := (M (s3_state P)).

(** Calls on the parts of the state; the handler sees the error. *)
Definition on_store {A} (m : M (memoryBackedStore P) A) : HM (result A) := λ s,
  let '(st, r) := m (s3_store s) in
  (mkS3State st (s3_world s) (s3_draws s) (s3_events s) (s3_resp s), Ok r).

Definition query_store {A} (f : memoryBackedStore P → result A) : HM (result A) := λ s,
  (s, Ok (f (s3_store s))).

Definition on_blob {A} (m : M world A) : HM (result A) := λ s,
  let '(w, r) := m (s3_world s) in
  (mkS3State (s3_store s) w (s3_draws s) (s3_events s) (s3_resp s), Ok r).

(** [time.Now().UTC()] *)
Definition s3_now : HM Z := λ s, (s, Ok (fs_clock (s3_world s))).

Definition rand_bytes `{!Randomness} (n : nat) : HM (result string) := λ s,
  (mkS3State (s3_store s) (s3_world s) (S (s3_draws s)) (s3_events s) (s3_resp s),
   Ok (rand_Read (s3_draws s) n)).

Definition emit (e : s3_event) : HM unit := λ s,
  (mkS3State (s3_store s) (s3_world s) (s3_draws s) (s3_events s ++ [e]) (s3_resp s), Ok tt).

Definition on_resp (f : response s3_doc → response s3_doc) : HM unit := λ s,
  (mkS3State (s3_store s) (s3_world s) (s3_draws s) (s3_events s) (f (s3_resp s)), Ok tt).

Definition setHeader (key value : string) : HM unit := on_resp (rs_set_header key value).
Definition updHeader (f : http_header → http_header) : HM unit :=
  on_resp (λ w, mkResponse (rs_Status w) (f (rs_Header w)) (rs_Sent w) (rs_Body w)).
Definition WriteHeader (status : Z) : HM unit := on_resp (rs_write_header status).
Definition Write (p : payload s3_doc) : HM unit := on_resp (rs_write p).

Definition writeXML (status : Z) (doc : s3_doc) : HM unit :=
  setHeader "Content-Type" "application/xml" ;;
  WriteHeader status ;;
  Write (PDoc doc).

Definition writeS3Error (r : request) (spec : s3ErrorSpec) : HM unit :=
  setHeader "Content-Type" "application/xml" ;;
  WriteHeader (se_StatusCode spec) ;;
  Write (PDoc (DocError (se_Code spec) (se_Message spec) (se_Resource spec) (rq_RequestID r))).

Definition bucket_resource (bucket : string) : string := "/" +:+ bucket.
Definition object_resource (bucket key : string) : string := "/" +:+ bucket +:+ "/" +:+ key.

Definition NoSuchBucket (bucket : string) : s3ErrorSpec :=
  mkS3Error StatusNotFound "NoSuchBucket" "The specified bucket does not exist."
    (bucket_resource bucket).
Definition NoSuchKey (bucket key : string) : s3ErrorSpec :=
  mkS3Error StatusNotFound "NoSuchKey" "The specified key does not exist."
    (object_resource bucket key).
Definition NoSuchUpload (bucket key : string) : s3ErrorSpec :=
  mkS3Error StatusNotFound "NoSuchUpload" "The specified multipart upload does not exist."
    (object_resource bucket key).
Definition MalformedXML (resource : string) : s3ErrorSpec :=
  mkS3Error StatusBadRequest "MalformedXML" "The XML you provided was not well-formed." resource.
Definition InternalError (message resource : string) : s3ErrorSpec :=
  mkS3Error StatusInternalServerError "InternalError" message resource.
Definition MethodNotAllowed (resource : string) : s3ErrorSpec :=
  mkS3Error StatusMethodNotAllowed "MethodNotAllowed" "Method not allowed." resource.
Definition InvalidArgument (message resource : string) : s3ErrorSpec :=
  mkS3Error StatusBadRequest "InvalidArgument" message resource.
Definition InvalidRequest (message resource : string) : s3ErrorSpec :=
  mkS3Error StatusBadRequest "InvalidRequest" message resource.

Definition emitAudit (a : s3API) (r : request) (action outcome bucket key reason : string) : HM unit :=
  if api_auditEnabled a then
    now ← s3_now;
    emit (EvAudit (mkAuditEvent now action outcome (rq_RequestID r) (rq_Principal r) bucket key reason))
  else mret tt.

(** [runHeavy]: [rq_Acquire] is what the limiter answers to this request. *)
Definition runHeavy (r : request) (bucket key : string) (fn : HM unit) : HM unit :=
  match rq_Acquire r with
  | Err _ => writeS3Error r (mkS3Error StatusServiceUnavailable "SlowDown"
               "Server is overloaded. Please retry shortly." (object_resource bucket key))
  | Ok _ => fn
  end.

(** [fmt.Sprintf("%d-%s", now, hex(b))]; a failed draw leaves the bytes zero. *)
Definition newVersionID `{!Randomness} : HM string :=
  b ← rand_bytes 8;
  now ← s3_now;
  let bytes := match b with Ok b => b | Err _ => String.concat "" (replicate 8 (String (ascii_of_nat 0) "")) end in
  mret (FormatInt now +:+ "-" +:+ hex_encode bytes).
End handlers.

(** [io.ReadAll(body)], and of [io.LimitReader(body, limit)]. *)
Definition io_ReadAll (body : reader) : result string :=
  match rd_error body with
  | Some e => Err e
  | None => Ok (rd_bytes body)
  end.

Definition io_ReadAllLimit (limit : Z) (body : reader) : result string :=
  if limit <=? str_len (rd_bytes body) then Ok (str_take (Z.to_nat limit) (rd_bytes body))
  else io_ReadAll body.

Definition isWellFormedXML `{!RequestCodecs} (value : string) : bool :=
  match xml_tokens_error value with None => true | Some _ => false end.

Definition splitCSV (value : string) : list string :=
  if String.eqb (TrimSpace value) "" then []
  else List.filter (λ part, negb (String.eqb part "")) (TrimSpace <$> Split value ",").
