(* ===== verification/S3Events.v ===== *)
(** * Notifications and replication (src/internal/server/notification.go, replication.go)

    The matching of the bucket's configuration against an event and what is
    started in the background for it. *)
From S2P Require Import Prelude GoStrings Model MemoryStore FileSystem Blob Http Sse S3State.

Definition notificationTargets (cfg : notificationConfigurationXML) : list notificationTargetXML :=
  nc_Queues cfg ++ nc_Topics cfg ++ nc_Lambdas cfg.

Definition is_http_url (value : string) : bool :=
  HasPrefix value "http://" || HasPrefix value "https://".

Definition targetEndpoint (target : notificationTargetXML) : string :=
  match List.find is_http_url (TrimSpace <$> [nt_Endpoint target; nt_URL target; nt_Queue target;
          nt_Topic target; nt_Function target]) with
  | Some value => value
  | None => ""
  end.

Definition notificationEventMatches (events : list string) (eventName : string) : bool :=
  match events with
  | [] => true
  | _ => List.existsb (λ event, let event := TrimSpace event in
           String.eqb event eventName ||
           (HasSuffix event ":*" && HasPrefix eventName (TrimSuffix event "*"))) events
  end.

Definition replicationRuleMatches (rule : replicationRuleXML) (key : string) : bool :=
  if negb (EqualFold (TrimSpace (rr_Status rule)) "Enabled") then false
  else
    let prefix := if String.eqb (rr_FilterPrefix rule) "" then rr_Prefix rule else rr_FilterPrefix rule in
    String.eqb prefix "" || HasPrefix key prefix.

(** The endpoint and bucket of a rule, when it has both. *)
Definition replicationTarget (rule : replicationRuleXML) : option (string * string) :=
  let endpoint := TrimSpace (rr_Endpoint rule) in
  let endpoint := if String.eqb endpoint "" then TrimSpace (rr_URL rule) else endpoint in
  let dstBucket := TrimSpace (rr_Bucket rule) in
  if String.eqb endpoint "" || String.eqb dstBucket "" then None else Some (endpoint, dstBucket).

Section events.
Context `{!GoRuntime} `{!TimeFormats} `{!RequestCodecs} {P : Type} `{!StatePersister P}.
Abbreviation HM := (M (s3_state P)).

Definition notificationEnvelope (now : Z) (eventName : string) (obj : ObjectVersion)
    : s3NotificationRecord :=
  mkNotificationRecord "2.1" "aws:s3" (format_RFC3339 now) eventName (ov_Bucket obj) (ov_Key obj)
    (ov_Size obj) (ov_ETag obj) (ov_VersionID obj).

Definition emitObjectNotification (eventName : string) (obj : ObjectVersion) : HM unit :=
  r ← query_store (GetBucketNotification (ov_Bucket obj));
  match r with
  | Err _ => mret tt
  | Ok cfg =>
    if negb (bn_Enabled cfg) || String.eqb (TrimSpace (bn_Document cfg)) "" then mret tt
    else match xml_Unmarshal_notification (bn_Document cfg) with
    | None => mret tt
    | Some parsed =>
      now ← s3_now;
      let payload := notificationEnvelope now eventName obj in
      forM (notificationTargets parsed) (λ target,
        let endpoint := targetEndpoint target in
        if String.eqb endpoint "" || negb (notificationEventMatches (nt_Events target) eventName)
        then mret tt
        else emit (EvNotify endpoint payload))
    end
  end.

Definition emitReplication (obj : ObjectVersion) : HM unit :=
  r ← query_store (GetBucketReplication (ov_Bucket obj));
  match r with
  | Err _ => mret tt
  | Ok cfg =>
    if negb (br_Enabled cfg) || String.eqb (TrimSpace (br_Document cfg)) "" then mret tt
    else match xml_Unmarshal_replication (br_Document cfg) with
    | None => mret tt
    | Some rules =>
      forM rules (λ rule,
        if negb (replicationRuleMatches rule (ov_Key obj)) then mret tt
        else match replicationTarget rule with
             | None => mret tt
             | Some (endpoint, dstBucket) => emit (EvReplicate endpoint dstBucket obj)
             end)
    end
  end.

(** [notificationConfigurationXML{}] *)
Definition no_notifications : notificationConfigurationXML :=
  mkNotificationConfigurationXML [] [] [].

Definition handlePutBucketNotification (r : request) (bucket : string) : HM unit :=
  b ← query_store (GetBucket bucket);
  match b with
  | Err _ => writeS3Error r (NoSuchBucket bucket)
  | Ok _ =>
    match io_ReadAllLimit (1024 * 1024 + 1) (rq_Body r) with
    | Err _ => writeS3Error r (MalformedXML (bucket_resource bucket))
    | Ok body =>
      if negb (isWellFormedXML body) then writeS3Error r (MalformedXML (bucket_resource bucket))
      else if negb (String.eqb (TrimSpace body) "") &&
              negb (bool_decide (is_Some (xml_Unmarshal_notification body)))
      then writeS3Error r (MalformedXML (bucket_resource bucket))
      else
        res ← on_store (PutBucketNotification (mkBucketNotification bucket body true));
        match res with
        | Err _ => writeS3Error r (InternalError "Put bucket notification failed." (bucket_resource bucket))
        | Ok _ => WriteHeader StatusOK
        end
    end
  end.

Definition handleGetBucketNotification (r : request) (bucket : string) : HM unit :=
  c ← query_store (GetBucketNotification bucket);
  match c with
  | Err e =>
    if errors_Is e ErrNotFound then writeXML StatusOK (DocNotification no_notifications)
    else writeS3Error r (InternalError "Get bucket notification failed." (bucket_resource bucket))
  | Ok cfg =>
    setHeader "Content-Type" "application/xml" ;;
    WriteHeader StatusOK ;;
    Write (PBytes (bn_Document cfg))
  end.

(** [if err := ...; err != nil && !errors.Is(err, ErrNotFound)]: the deletions of
    configurations. *)
Definition delete_config (r : request) (bucket message : string)
    (del : M (memoryBackedStore P) unit) : HM unit :=
  res ← on_store del;
  match res with
  | Err e => if errors_Is e ErrNotFound then WriteHeader StatusNoContent
             else writeS3Error r (InternalError message (bucket_resource bucket))
  | Ok _ => WriteHeader StatusNoContent
  end.

Definition handleDeleteBucketNotification (r : request) (bucket : string) : HM unit :=
  delete_config r bucket "Delete bucket notification failed." (DeleteBucketNotification bucket).

Definition handlePutBucketReplication (r : request) (bucket : string) : HM unit :=
  b ← query_store (GetBucket bucket);
  match b with
  | Err _ => writeS3Error r (NoSuchBucket bucket)
  | Ok _ =>
    match io_ReadAllLimit (1024 * 1024 + 1) (rq_Body r) with
    | Err _ => writeS3Error r (MalformedXML (bucket_resource bucket))
    | Ok body =>
      if negb (isWellFormedXML body) then writeS3Error r (MalformedXML (bucket_resource bucket))
      else match xml_Unmarshal_replication body with
      | None | Some [] => writeS3Error r (MalformedXML (bucket_resource bucket))
      | Some _ =>
        res ← on_store (PutBucketReplication (mkBucketReplication bucket body true));
        match res with
        | Err _ => writeS3Error r (InternalError "Put bucket replication failed." (bucket_resource bucket))
        | Ok _ => WriteHeader StatusOK
        end
      end
    end
  end.

Definition handleGetBucketReplication (r : request) (bucket : string) : HM unit :=
  c ← query_store (GetBucketReplication bucket);
  match c with
  | Err e =>
    if errors_Is e ErrNotFound
    then writeS3Error r (mkS3Error StatusNotFound "ReplicationConfigurationNotFoundError"
           "The replication configuration was not found." (bucket_resource bucket))
    else writeS3Error r (InternalError "Get bucket replication failed." (bucket_resource bucket))
  | Ok cfg =>
    setHeader "Content-Type" "application/xml" ;;
    WriteHeader StatusOK ;;
    Write (PBytes (br_Document cfg))
  end.

Definition handleDeleteBucketReplication (r : request) (bucket : string) : HM unit :=
  delete_config r bucket "Delete bucket replication failed." (DeleteBucketReplication bucket).
End events.
