(* ===== verification/S3Bucket.v ===== *)
(** * Bucket requests (src/internal/server/s3_api.go)

    Configurations, ACLs, creation, deletion, versioning and listings of buckets. *)
From S2P Require Import Prelude GoStrings Model MemoryStore FileSystem Blob Listing Http Sse.
From S2P Require Import S3State S3Events.

(** [validateWebsiteRoutingRule]: the message of the first failing check. *)
Definition status_in (value : string) (lo hi : Z) : bool :=
  match Atoi value with Some n => (lo <=? n) && (n <=? hi) | None => false end.

Definition validateWebsiteRoutingRule (rule : BucketWebsiteRoutingRule) : result unit :=
  let redirect := rr_Redirect rule in
  let condition := rr_Condition rule in
  if negb (String.eqb (wr_Protocol redirect) "") && negb (String.eqb (wr_Protocol redirect) "http")
     && negb (String.eqb (wr_Protocol redirect) "https")
  then Err (Errorf "routing rule redirect protocol must be http or https" [])
  else if negb (String.eqb (wr_ReplaceKeyPrefixWith redirect) "")
     && negb (String.eqb (wr_ReplaceKeyWith redirect) "")
  then Err (Errorf "routing rule redirect cannot set both ReplaceKeyPrefixWith and ReplaceKeyWith" [])
  else if String.eqb (wr_HostName redirect) "" && String.eqb (wr_Protocol redirect) ""
     && String.eqb (wr_ReplaceKeyPrefixWith redirect) "" && String.eqb (wr_ReplaceKeyWith redirect) ""
     && String.eqb (wr_HTTPRedirectCode redirect) ""
  then Err (Errorf "routing rule redirect requires at least one redirect field" [])
  else if negb (String.eqb (rc_HttpErrorCodeReturnedEquals condition) "")
     && negb (status_in (rc_HttpErrorCodeReturnedEquals condition) 100 599)
  then Err (Errorf "routing rule condition HttpErrorCodeReturnedEquals must be a valid HTTP status code" [])
  else if negb (String.eqb (wr_HTTPRedirectCode redirect) "")
     && negb (status_in (wr_HTTPRedirectCode redirect) 300 399)
  then Err (Errorf "routing rule HttpRedirectCode must be a valid 3xx status code" [])
  else Ok tt.

(** The fields of a decoded rule, trimmed. *)
Definition trim_rule (rule : BucketWebsiteRoutingRule) : BucketWebsiteRoutingRule :=
  let c := rr_Condition rule in
  let d := rr_Redirect rule in
  mkRoutingRule
    (mkRoutingCondition (TrimSpace (rc_KeyPrefixEquals c)) (TrimSpace (rc_HttpErrorCodeReturnedEquals c)))
    (mkWebsiteRedirect (TrimSpace (wr_HostName d)) (TrimSpace (ToLower (wr_Protocol d)))
       (TrimSpace (wr_ReplaceKeyPrefixWith d)) (TrimSpace (wr_ReplaceKeyWith d))
       (TrimSpace (wr_HTTPRedirectCode d))).

(** The loop over the rules: all of them trimmed, or the first failing check. *)
Fixpoint routing_rules (rules : list BucketWebsiteRoutingRule) : result (list BucketWebsiteRoutingRule) :=
  match rules with
  | [] => Ok []
  | rr :: rules =>
    let rule := trim_rule rr in
    _ ← validateWebsiteRoutingRule rule;
    rest ← routing_rules rules;
    Ok (rule :: rest)
  end.

Definition isSupportedCannedACL (value : string) : bool :=
  let v := ToLower value in
  List.existsb (String.eqb v) ["private"; "public-read"; "public-read-write"; "authenticated-read";
    "bucket-owner-read"; "bucket-owner-full-control"].

(** The loop of [handleListMultipartUploads]. *)
Fixpoint uploads_loop `{!TimeFormats} (maxUploads : Z) (uploads : list MultipartUpload)
    (out : listUploadsResult) : listUploadsResult :=
  match uploads with
  | [] => out
  | upload :: rest =>
    if negb (String.eqb (ur_KeyMarker out) "") &&
       (String.ltb (mu_Key upload) (ur_KeyMarker out) ||
        (String.eqb (mu_Key upload) (ur_KeyMarker out) &&
         negb (String.ltb (ur_UploadIDMarker out) (mu_UploadID upload))))
    then uploads_loop maxUploads rest out
    else if Z.of_nat (length (ur_Uploads out)) =? maxUploads
    then
      match last (ur_Uploads out) with
      | Some entry => mkListUploadsResult (ur_Bucket out) (ur_KeyMarker out) (ur_UploadIDMarker out)
          (ue_Key entry) (ue_UploadID entry) (ur_MaxUploads out) true (ur_Uploads out)
      | None => out
      end
    else uploads_loop maxUploads rest
      (mkListUploadsResult (ur_Bucket out) (ur_KeyMarker out) (ur_UploadIDMarker out)
        (ur_NextKeyMarker out) (ur_NextUploadIDMarker out) (ur_MaxUploads out) (ur_IsTruncated out)
        (ur_Uploads out ++ [mkUploadEntry (mu_Key upload) (mu_UploadID upload)
           (format_RFC3339 (mu_InitiatedAt upload))]))
  end.

(** [strconv.Atoi] within bounds, for the query parameters that are checked. *)
Definition parse_bounded (raw : string) (default_ : Z) (hi : option Z) : option Z :=
  if String.eqb raw "" then Some default_
  else match Atoi raw with
       | Some n => if (n <? 0) || match hi with Some m => m <? n | None => false end then None else Some n
       | None => None
       end.

Section buckets.
Context `{!GoRuntime} `{!TimeFormats} `{!RequestCodecs} `{!JsonCodec listV2ContinuationToken}.
Context {P : Type} `{!StatePersister P}.
Abbreviation HM := (M (s3_state P)).
Variable a : s3API.

(** [if _, err := a.store.GetBucket(...); err != nil] *)
Definition with_bucket (r : request) (bucket : string) (k : Bucket → HM unit) : HM unit :=
  b ← query_store (GetBucket bucket);
  match b with
  | Err _ => writeS3Error r (NoSuchBucket bucket)
  | Ok b => k b
  end.

(** [if err := a.store.Put...; err != nil] at the end of the handlers that store a
    configuration. *)
Definition put_config (r : request) (bucket message : string) (status : Z)
    (put_ : M (memoryBackedStore P) unit) : HM unit :=
  res ← on_store put_;
  match res with
  | Err _ => writeS3Error r (InternalError message (bucket_resource bucket))
  | Ok _ => WriteHeader status
  end.

(** The handlers that read a configuration: its own error when it is missing. *)
Definition get_config {A} (r : request) (bucket code missing message : string)
    (get_ : memoryBackedStore P → result A) (k : A → HM unit) : HM unit :=
  c ← query_store get_;
  match c with
  | Err e =>
    if errors_Is e ErrNotFound
    then writeS3Error r (mkS3Error StatusNotFound code missing (bucket_resource bucket))
    else writeS3Error r (InternalError message (bucket_resource bucket))
  | Ok cfg => k cfg
  end.

Definition handlePutBucketWebsite (r : request) (bucket : string) : HM unit :=
  let fail message := writeS3Error r (InvalidRequest message (bucket_resource bucket)) in
  with_bucket r bucket (λ _,
    match xml_Decode_website (rq_Body r) with
    | None => writeS3Error r (mkS3Error StatusBadRequest "MalformedXML"
        "The XML you provided was not well-formed or did not validate against our published schema."
        (bucket_resource bucket))
    | Some in_ =>
      let idx := TrimSpace (wx_Suffix in_) in
      let errDoc := TrimSpace (wx_ErrorKey in_) in
      let redirectHost := TrimSpace (wx_RedirectHost in_) in
      let redirectProto := TrimSpace (ToLower (wx_RedirectProtocol in_)) in
      if String.eqb idx "" && String.eqb redirectHost "" && (length (wx_RoutingRules in_) =? 0)%nat
      then fail "Website configuration requires IndexDocument or RedirectAllRequestsTo."
      else if negb (String.eqb redirectProto "") && negb (String.eqb redirectProto "http")
              && negb (String.eqb redirectProto "https")
      then fail "Redirect protocol must be http or https."
      else match routing_rules (wx_RoutingRules in_) with
      | Err (Errorf message _) => fail message
      | Err _ => fail ""
      | Ok routingRules =>
        put_config r bucket "Put website configuration failed." StatusOK
          (PutBucketWebsite (mkBucketWebsiteConfig bucket idx errDoc redirectHost redirectProto
             routingRules true true))
      end
    end).

Definition handleGetBucketWebsite (r : request) (bucket : string) : HM unit :=
  with_bucket r bucket (λ _,
    get_config r bucket "NoSuchWebsiteConfiguration"
      "The specified bucket does not have a website configuration."
      "Get website configuration failed." (GetBucketWebsite bucket) (λ cfg,
      writeXML StatusOK (DocWebsite (mkWebsiteXML (bw_IndexDocument cfg) (bw_ErrorDocument cfg)
        (bw_RedirectAllHost cfg)
        (if String.eqb (bw_RedirectAllHost cfg) "" then "" else bw_RedirectAllProtocol cfg)
        (bw_RoutingRules cfg))))).

Definition handleDeleteBucketWebsite (r : request) (bucket : string) : HM unit :=
  with_bucket r bucket (λ _,
    delete_config r bucket "Delete website configuration failed." (DeleteBucketWebsite bucket)).

Definition handlePutBucketCORS (r : request) (bucket : string) : HM unit :=
  with_bucket r bucket (λ _,
    match xml_Decode_cors (rq_Body r) with
    | None | Some [] => writeS3Error r (MalformedXML (bucket_resource bucket))
    | Some (rule :: _) =>
      if (length (cx_AllowedOrigins rule) =? 0)%nat || (length (cx_AllowedMethods rule) =? 0)%nat
      then writeS3Error r (InvalidRequest "CORSRule requires AllowedOrigin and AllowedMethod."
             (bucket_resource bucket))
      else put_config r bucket "Put bucket CORS failed." StatusOK
        (PutBucketCORS (mkBucketCORSConfig bucket (Join (cx_AllowedOrigins rule) ",")
           (Join (cx_AllowedMethods rule) ",") (Join (cx_AllowedHeaders rule) ",")
           (Join (cx_ExposeHeaders rule) ",") (cx_MaxAgeSeconds rule) true))
    end).

Definition handleGetBucketCORS (r : request) (bucket : string) : HM unit :=
  get_config r bucket "NoSuchCORSConfiguration" "The CORS configuration does not exist."
    "Get bucket CORS failed." (GetBucketCORS bucket) (λ cfg,
    writeXML StatusOK (DocCORS [mkCorsRuleXML (splitCSV (bc_AllowedOrigins cfg))
      (splitCSV (bc_AllowedMethods cfg)) (splitCSV (bc_AllowedHeaders cfg))
      (splitCSV (bc_ExposeHeaders cfg)) (bc_MaxAgeSeconds cfg)])).

Definition handleDeleteBucketCORS (r : request) (bucket : string) : HM unit :=
  delete_config r bucket "Delete bucket CORS failed." (DeleteBucketCORS bucket).

Definition handlePutBucketPolicy (r : request) (bucket : string) : HM unit :=
  let malformed := writeS3Error r (mkS3Error StatusBadRequest "MalformedPolicy"
    "The policy document is not valid JSON." (bucket_resource bucket)) in
  with_bucket r bucket (λ _,
    match io_ReadAll (rq_Body r) with
    | Err _ => malformed
    | Ok body =>
      if negb (json_Valid body) then malformed
      else put_config r bucket "Put bucket policy failed." StatusNoContent
             (PutBucketPolicy (mkBucketPolicy bucket body true))
    end).

Definition handleGetBucketPolicy (r : request) (bucket : string) : HM unit :=
  get_config r bucket "NoSuchBucketPolicy" "The bucket policy does not exist."
    "Get bucket policy failed." (GetBucketPolicy bucket) (λ cfg,
    setHeader "Content-Type" "application/json" ;;
    WriteHeader StatusOK ;;
    Write (PBytes (bp_Document cfg))).

Definition handleDeleteBucketPolicy (r : request) (bucket : string) : HM unit :=
  delete_config r bucket "Delete bucket policy failed." (DeleteBucketPolicy bucket).

Definition handlePutPublicAccessBlock (r : request) (bucket : string) : HM unit :=
  with_bucket r bucket (λ _,
    match xml_Decode_publicAccess (rq_Body r) with
    | None => writeS3Error r (MalformedXML (bucket_resource bucket))
    | Some in_ =>
      put_config r bucket "Put public access block failed." StatusOK
        (PutBucketPublicAccessBlock (mkBucketPublicAccessBlock bucket (px_BlockPublicACLs in_)
           (px_IgnorePublicACLs in_) (px_BlockPublicPolicy in_) (px_RestrictPublicBuckets in_)))
    end).

Definition handleGetPublicAccessBlock (r : request) (bucket : string) : HM unit :=
  get_config r bucket "NoSuchPublicAccessBlockConfiguration"
    "The public access block configuration was not found."
    "Get public access block failed." (GetBucketPublicAccessBlock bucket) (λ cfg,
    writeXML StatusOK (DocPublicAccess (mkPublicAccessXML (pab_BlockPublicACLs cfg)
      (pab_IgnorePublicACLs cfg) (pab_BlockPublicPolicy cfg) (pab_RestrictPublicBuckets cfg)))).

Definition handleDeletePublicAccessBlock (r : request) (bucket : string) : HM unit :=
  delete_config r bucket "Delete public access block failed." (DeleteBucketPublicAccessBlock bucket).

Definition handlePutBucketLifecycle (r : request) (bucket : string) : HM unit :=
  with_bucket r bucket (λ _,
    match io_ReadAll (rq_Body r) with
    | Err _ => writeS3Error r (MalformedXML (bucket_resource bucket))
    | Ok body =>
      if negb (isWellFormedXML body) then writeS3Error r (MalformedXML (bucket_resource bucket))
      else put_config r bucket "Put bucket lifecycle failed." StatusOK
             (PutBucketLifecycle (mkBucketLifecycle bucket body true))
    end).

Definition handleGetBucketLifecycle (r : request) (bucket : string) : HM unit :=
  get_config r bucket "NoSuchLifecycleConfiguration" "The lifecycle configuration does not exist."
    "Get bucket lifecycle failed." (GetBucketLifecycle bucket) (λ cfg,
    setHeader "Content-Type" "application/xml" ;;
    WriteHeader StatusOK ;;
    Write (PBytes (bl_Document cfg))).

Definition handleDeleteBucketLifecycle (r : request) (bucket : string) : HM unit :=
  delete_config r bucket "Delete bucket lifecycle failed." (DeleteBucketLifecycle bucket).

(** The existence checks of the ACL handlers: of the bucket when the key is empty. *)
Definition acl_target (r : request) (bucket key : string) (k : HM unit) : HM unit :=
  if String.eqb key "" then with_bucket r bucket (λ _, k)
  else
    o ← query_store (GetObjectVersion bucket key (query_get (rq_Query r) "versionId"));
    match o with
    | Ok obj => if ov_DeleteMarker obj then writeS3Error r (NoSuchKey bucket key) else k
    | Err _ => writeS3Error r (NoSuchKey bucket key)
    end.

Definition handleGetACL (r : request) (bucket key : string) : HM unit :=
  acl_target r bucket key (writeXML StatusOK DocACL).

Definition handlePutACL (r : request) (bucket key : string) : HM unit :=
  acl_target r bucket key
    (let acl := TrimSpace (header_get (rq_Header r) "x-amz-acl") in
     if negb (String.eqb acl "") && negb (isSupportedCannedACL acl)
     then writeS3Error r (mkS3Error StatusNotImplemented "NotImplemented"
            "The requested ACL is not supported." (rq_Path r))
     else WriteHeader StatusOK).

Definition handleCreateBucket (r : request) (bucket : string) : HM unit :=
  now ← s3_now;
  res ← on_store (CreateBucket (mkBucket bucket now (api_region a) "Suspended"));
  match res with
  | Err e =>
    if bool_decide (e = ErrConflict)
    then writeS3Error r (mkS3Error StatusConflict "BucketAlreadyOwnedByYou"
           "Your previous request to create the named bucket succeeded and you already own it."
           (bucket_resource bucket))
    else writeS3Error r (InternalError "Create bucket failed." (bucket_resource bucket))
  | Ok _ => WriteHeader StatusOK
  end.

Definition handleListBuckets (r : request) : HM unit :=
  res ← query_store ListBuckets;
  match res with
  | Err _ => writeS3Error r (InternalError "List buckets failed." "/")
  | Ok buckets =>
    writeXML StatusOK (DocListBuckets ((λ b, (b_Name b, format_RFC3339 (b_CreatedAt b))) <$> buckets))
  end.

Definition handleDeleteBucket (r : request) (bucket : string) : HM unit :=
  o ← query_store (ListObjects bucket);
  match o with
  | Err _ =>
    emitAudit a r "bucket.delete" "deny" bucket "" "NoSuchBucket" ;;
    writeS3Error r (NoSuchBucket bucket)
  | Ok (_ :: _) =>
    emitAudit a r "bucket.delete" "deny" bucket "" "BucketNotEmpty" ;;
    writeS3Error r (mkS3Error StatusConflict "BucketNotEmpty"
      "The bucket you tried to delete is not empty." (bucket_resource bucket))
  | Ok [] =>
    res ← on_store (DeleteBucket bucket);
    match res with
    | Err _ =>
      emitAudit a r "bucket.delete" "error" bucket "" "InternalError" ;;
      writeS3Error r (InternalError "Delete bucket failed." (bucket_resource bucket))
    | Ok _ =>
      emitAudit a r "bucket.delete" "allow" bucket "" "" ;;
      WriteHeader StatusNoContent
    end
  end.

Definition handleGetBucketLocation (r : request) (bucket : string) : HM unit :=
  with_bucket r bucket (λ b, writeXML StatusOK (DocLocation (b_Region b))).

Definition handlePutBucketVersioning (r : request) (bucket : string) : HM unit :=
  match io_ReadAll (rq_Body r) with
  | Err _ => writeS3Error r (mkS3Error StatusBadRequest "MalformedXML"
               "Could not read request body." (bucket_resource bucket))
  | Ok body =>
    match xml_Unmarshal_versioning body with
    | None => writeS3Error r (MalformedXML (bucket_resource bucket))
    | Some status =>
      if negb (String.eqb status "Enabled") && negb (String.eqb status "Suspended")
      then writeS3Error r (InvalidRequest "Unsupported versioning status." (bucket_resource bucket))
      else
        res ← on_store (UpdateBucketVersioning bucket status);
        match res with
        | Err _ => writeS3Error r (NoSuchBucket bucket)
        | Ok _ => WriteHeader StatusOK
        end
    end
  end.

Definition handleGetBucketVersioning (r : request) (bucket : string) : HM unit :=
  with_bucket r bucket (λ b, writeXML StatusOK (DocVersioning (b_VersioningStatus b))).

(** For a store without [ListObjectsV2] (the page of a store with it is
    [list_page_pager]). *)
Definition handleListObjectsV2 (r : request) (bucket : string) : HM unit :=
  let q := rq_Query r in
  let prefix := query_get q "prefix" in
  let delimiter := query_get q "delimiter" in
  let maxKeys := parse_max_keys (query_get q "max-keys") in
  let continuation := query_get q "continuation-token" in
  match decodeListContinuationToken continuation prefix delimiter with
  | Err _ => writeS3Error r (InvalidArgument "Invalid continuation-token." (bucket_resource bucket))
  | Ok startAfter =>
    o ← query_store (ListObjects bucket);
    match o with
    | Err _ => writeS3Error r (NoSuchBucket bucket)
    | Ok objects =>
      writeXML StatusOK (DocListObjects (list_page_objects objects startAfter
        (empty_listResult bucket prefix delimiter maxKeys continuation)))
    end
  end.

Definition handleListObjectVersions (r : request) (bucket : string) : HM unit :=
  v ← query_store (ListObjectVersions bucket);
  match v with
  | Err _ => writeS3Error r (NoSuchBucket bucket)
  | Ok versions =>
    let q := rq_Query r in
    writeXML StatusOK (DocListVersions (list_versions_page versions bucket (query_get q "prefix")
      (query_get q "key-marker") (query_get q "version-id-marker")
      (parse_max_keys (query_get q "max-keys"))))
  end.

Definition handleListMultipartUploads (r : request) (bucket : string) : HM unit :=
  let q := rq_Query r in
  u ← query_store (ListMultipartUploads bucket (query_get q "prefix"));
  match u with
  | Err _ => writeS3Error r (NoSuchBucket bucket)
  | Ok uploads =>
    match parse_bounded (query_get q "max-uploads") 1000 (Some 1000) with
    | None => writeS3Error r (InvalidArgument "Invalid max-uploads." (bucket_resource bucket))
    | Some maxUploads =>
      let out truncated := mkListUploadsResult bucket (query_get q "key-marker")
        (query_get q "upload-id-marker") "" "" maxUploads truncated [] in
      writeXML StatusOK (DocListUploads
        (if maxUploads =? 0 then out (bool_decide (uploads ≠ []))
         else uploads_loop maxUploads uploads (out false)))
    end
  end.
End buckets.
