(* ===== verification/S3Object.v ===== *)
(** * Object requests (src/internal/server/s3_api.go, object_lock.go)

    PUT, GET, HEAD, DELETE, copy, batch deletion, tagging, retention and legal hold, and
    the lock: retention and legal hold are entries of the object's metadata. *)
From S2P Require Import Prelude GoStrings Base64 Model MemoryStore FileSystem Blob Listing Http AwsChunked Sse.
From S2P Require Import S3State S3Events S3Bucket.

(** ** Object lock *)
Definition lockRetentionModeKey : string := "__s000_retention_mode".
Definition lockRetentionRetainUntilKey : string := "__s000_retention_retain_until".
Definition lockLegalHoldKey : string := "__s000_legal_hold".

Section lock.
Context `{!GoRuntime} `{!TimeFormats} {P : Type}.

Definition objectLocked (obj : ObjectVersion) (now : Z) : bool :=
  if bool_decide (ov_Metadata obj = ∅) then false
  else if EqualFold (meta_get (ov_Metadata obj) lockLegalHoldKey) "ON" then true
  else match parse_RFC3339 (TrimSpace (meta_get (ov_Metadata obj) lockRetentionRetainUntilKey)) with
       | Some until => now <? until
       | None => false
       end.

Definition writeObjectLockedError (r : request) : M (s3_state P) unit :=
  writeS3Error r (mkS3Error StatusForbidden "AccessDenied"
    "Object is protected by object lock retention or legal hold." (rq_Path r)).

Definition set_unless_empty (header value : string) (h : http_header) : http_header :=
  if String.eqb value "" then h else header_set header value h.

Definition retentionHeaders (obj : ObjectVersion) (h : http_header) : http_header :=
  let m := ov_Metadata obj in
  set_unless_empty "x-amz-object-lock-legal-hold" (TrimSpace (meta_get m lockLegalHoldKey))
    (set_unless_empty "x-amz-object-lock-retain-until-date"
      (TrimSpace (meta_get m lockRetentionRetainUntilKey))
      (set_unless_empty "x-amz-object-lock-mode" (TrimSpace (meta_get m lockRetentionModeKey)) h)).

Definition putRetentionMetadata (obj : ObjectVersion) (mode : string) (retainUntil : Z)
    : gmap string string :=
  <[lockRetentionRetainUntilKey := format_RFC3339 retainUntil]>
    (<[lockRetentionModeKey := mode]> (copyStringMap (ov_Metadata obj))).

Definition putLegalHoldMetadata (obj : ObjectVersion) (status : string) : gmap string string :=
  <[lockLegalHoldKey := status]> (copyStringMap (ov_Metadata obj)).
End lock.

(** ** Objects *)
(** ** Helpers *)

(** [for k, values := range h] *)
Definition collectUserMetadata `{!GoRuntime} (h : http_header) : gmap string string :=
  fold_left (λ out '(k, values),
    let low := ToLower k in
    if HasPrefix low "x-amz-meta-" then <[TrimPrefix low "x-amz-meta-" := Join values ","]> out
    else out) (range_map h) ∅.

Definition copyMetadata `{!GoRuntime} (in_ : gmap string string) : gmap string string :=
  copyStringMap in_.

Definition etagListMatches (value etag : string) : bool :=
  let value := TrimSpace value in
  String.eqb value "*" ||
  List.existsb (λ part, String.eqb (Trim (TrimSpace part) (ascii_of_nat 34)) etag) (Split value ",").

Definition checksum_headers (crc32 crc32c sha1 sha256 : string) : list (string * string) :=
  [("x-amz-checksum-crc32", crc32); ("x-amz-checksum-crc32c", crc32c);
   ("x-amz-checksum-sha1", sha1); ("x-amz-checksum-sha256", sha256)].

(** Does every checksum header of the request match?  (The loop is over a map; any
    order finds a mismatch.) *)
Definition checksums_match (r : request) (checks : list (string * string)) : bool :=
  forallb (λ '(header, actual),
    let expected := TrimSpace (header_get (rq_Header r) header) in
    String.eqb expected "" || String.eqb expected actual) checks.

Definition setObjectChecksumHeaders (crc32 crc32c sha1 sha256 : string) (h : http_header) : http_header :=
  set_unless_empty "x-amz-checksum-sha256" sha256 (set_unless_empty "x-amz-checksum-sha1" sha1
    (set_unless_empty "x-amz-checksum-crc32c" crc32c (set_unless_empty "x-amz-checksum-crc32" crc32 h))).

Definition parseRange (header : string) (size : Z) : result ByteRange :=
  if negb (HasPrefix header "bytes=") then Err (Errorf "invalid range" [])
  else match SplitN (TrimPrefix header "bytes=") "-" 2 with
  | [s; e] =>
    match ParseInt s, ParseInt e with
    | Some start, Some end_ =>
      if (start <? 0) || (end_ <? start) || (size <=? end_) then Err (Errorf "invalid range" [])
      else Ok (mkByteRange start end_)
    | _, _ => Err (Errorf "strconv.ParseInt" [])
    end
  | _ => Err (Errorf "invalid range" [])
  end.

(** The version a handler stores for a written blob. *)
Definition object_of_blob (bucket key versionID etag : string) (metadata : gmap string string)
    (m : ObjectMeta) : ObjectVersion :=
  mkObjectVersion bucket key versionID (om_Size m) etag (om_SHA256B64 m) (om_SHA1B64 m)
    (om_CRC32B64 m) (om_CRC32CB64 m) (om_Path m) metadata false (om_CreatedAt m).

Section objects.
Context `{!GoRuntime} `{!TimeFormats} `{!RequestCodecs} `{!Randomness}.
Context `{!Hashes} `{!TempNames} `{!BlockCipher}.
Context {P : Type} `{!StatePersister P}.
Abbreviation HM := (M (s3_state P)).
Variable a : s3API.

Definition validateChecksumHeaders (r : request) (checks : list (string * string)) : HM bool :=
  if checksums_match r checks then mret true
  else
    writeS3Error r (mkS3Error StatusBadRequest "BadDigest"
      "The checksum you specified did not match what we received." (rq_Path r)) ;;
    mret false.

(** None: the request is answered; otherwise, is encryption asked for? *)
Definition validateSSEHeaders (r : request) (bucket key : string) : HM (option bool) :=
  let '(requested, alg) := sseRequested r in
  if negb requested then mret (Some false)
  else if negb (String.eqb alg sseAlgorithmAES256) then
    writeS3Error r (InvalidArgument "Unsupported server-side encryption algorithm."
      (object_resource bucket key)) ;; mret None
  else if negb (String.length (api_sseKey a) =? 32)%nat then
    writeS3Error r (InvalidRequest "SSE-S3 is not configured." (object_resource bucket key)) ;;
    mret None
  else mret (Some true).

Definition writeMaybeEncryptedObject (ref : ObjectRef) (src : reader) (encrypted : bool)
    : HM (result ObjectMeta) :=
  if negb encrypted then on_blob (WriteObject (api_blob a) ref src)
  else
    iv ← rand_bytes sseIVSize;
    match iv with
    | Err e => mret (Err (ErrWrap "generate sse iv: %w" [] e))
    | Ok iv => on_blob (write_encrypted (api_blob a) (api_sseKey a) iv ref src)
    end.

Definition PreconditionFailed (r : request) : s3ErrorSpec :=
  mkS3Error StatusPreconditionFailed "PreconditionFailed"
    "At least one of the pre-conditions you specified did not hold." (rq_Path r).

(** 304 for a plain GET or HEAD, 412 otherwise. *)
Definition not_modified (r : request) (prefix : string) : HM unit :=
  if String.eqb prefix "" && (String.eqb (rq_Method r) "GET" || String.eqb (rq_Method r) "HEAD")
  then WriteHeader StatusNotModified
  else writeS3Error r (PreconditionFailed r).

Definition objectConditionsPass (r : request) (obj : ObjectVersion) (prefix : string) : HM bool :=
  let h name := header_get (rq_Header r) (prefix +:+ name) in
  if negb (String.eqb (h "if-match") "") && negb (etagListMatches (h "if-match") (ov_ETag obj))
  then writeS3Error r (PreconditionFailed r) ;; mret false
  else if negb (String.eqb (h "if-none-match") "") && etagListMatches (h "if-none-match") (ov_ETag obj)
  then not_modified r prefix ;; mret false
  else if negb (String.eqb (h "if-modified-since") "") &&
          match http_ParseTime (h "if-modified-since") with
          | Some when => negb (when <? ov_CreatedAt obj)
          | None => false
          end
  then not_modified r prefix ;; mret false
  else if negb (String.eqb (h "if-unmodified-since") "") &&
          match http_ParseTime (h "if-unmodified-since") with
          | Some when => when <? ov_CreatedAt obj
          | None => false
          end
  then writeS3Error r (PreconditionFailed r) ;; mret false
  else mret true.

(** [versionID := "null"; if Enabled { versionID = newVersionID() }] *)
Definition write_versionID (b : Bucket) : HM string :=
  if String.eqb (b_VersioningStatus b) "Enabled" then newVersionID else mret "null".

(** Is the version about to be replaced locked? *)
Definition overwrite_locked (bucket key versionID : string) : HM bool :=
  if String.eqb versionID "null" then
    existing ← query_store (GetObjectVersion bucket key "null");
    now ← s3_now;
    mret match existing with Ok obj => objectLocked obj now | Err _ => false end
  else mret false.

Definition delete_blob (ref : ObjectRef) : HM unit :=
  on_blob (blob_DeleteObject (api_blob a) ref true) ;; mret tt.

(** The Content-MD5 header against what was received: the error to answer. *)
Definition check_md5 (r : request) (bucket key md5hex : string) : option s3ErrorSpec :=
  let md5Header := header_get (rq_Header r) "Content-MD5" in
  if String.eqb md5Header "" then None
  else match b64_decode StdEncoding md5Header with
  | None => Some (mkS3Error StatusBadRequest "InvalidDigest"
              "The Content-MD5 you specified is invalid." (object_resource bucket key))
  | Some expected =>
    if String.eqb expected (default "" (hex_decode md5hex)) then None
    else Some (mkS3Error StatusBadRequest "BadDigest"
           "The Content-MD5 you specified did not match what we received."
           (object_resource bucket key))
  end.

Definition handlePutObject (r : request) (bucket key : string) : HM unit :=
  runHeavy r bucket key (with_bucket r bucket (λ b,
    versionID ← write_versionID b;
    locked ← overwrite_locked bucket key versionID;
    if (locked : bool) then writeObjectLockedError r else
    sse ← validateSSEHeaders r bucket key;
    match sse with
    | None => mret tt
    | Some encrypted =>
      let ref := mkObjectRef bucket key versionID in
      w ← writeMaybeEncryptedObject ref (requestObjectBody r) encrypted;
      match w with
      | Err _ => writeS3Error r (InternalError "Object write failed." (object_resource bucket key))
      | Ok blobMeta =>
        match check_md5 r bucket key (om_MD5Hex blobMeta) with
        | Some spec => delete_blob ref ;; writeS3Error r spec
        | None =>
          ok ← validateChecksumHeaders r (checksum_headers (om_CRC32B64 blobMeta)
                 (om_CRC32CB64 blobMeta) (om_SHA1B64 blobMeta) (om_SHA256B64 blobMeta));
          if negb ok then delete_blob ref
          else
            let objectMeta := object_of_blob bucket key versionID (om_MD5Hex blobMeta)
              (markSSEMetadata (collectUserMetadata (rq_Header r)) encrypted) blobMeta in
            p ← on_store (PutObjectVersion objectMeta);
            match p with
            | Err _ =>
              delete_blob ref ;;
              writeS3Error r (InternalError "Metadata write failed." (object_resource bucket key))
            | Ok _ =>
              setHeader "ETag" (quotedETag (om_MD5Hex blobMeta)) ;;
              updHeader (setSSEHeader objectMeta) ;;
              updHeader (setObjectChecksumHeaders (om_CRC32B64 blobMeta) (om_CRC32CB64 blobMeta)
                (om_SHA1B64 blobMeta) (om_SHA256B64 blobMeta)) ;;
              WriteHeader StatusOK ;;
              emitObjectNotification "ObjectCreated:Put" objectMeta ;;
              emitReplication objectMeta
            end
        end
      end
    end)).

(** [for k, v := range obj.Metadata] *)
Definition set_user_metadata (m : gmap string string) (h : http_header) : http_header :=
  fold_left (λ h '(k, v), if HasPrefix k "__s000_" then h else header_set ("x-amz-meta-" +:+ k) v h)
    (range_map m) h.

(** The object's bytes to the response; what failed is not reported. *)
Definition stream_object (obj : ObjectVersion) (br : option ByteRange) : HM unit :=
  res ← on_blob (readMaybeEncryptedObject (api_sseKey a) (ov_StoragePath obj) obj br);
  match res with
  | Ok (bytes, _) => Write (PBytes bytes)
  | Err _ => mret tt
  end.

Definition handleGetObject (r : request) (bucket key : string) (headOnly : bool) : HM unit :=
  o ← query_store (GetObjectVersion bucket key (query_get (rq_Query r) "versionId"));
  match o with
  | Err _ => writeS3Error r (NoSuchKey bucket key)
  | Ok obj =>
    if ov_DeleteMarker obj then writeS3Error r (NoSuchKey bucket key)
    else
      pass ← objectConditionsPass r obj "";
      if negb pass then mret tt
      else
        setHeader "ETag" (quotedETag (ov_ETag obj)) ;;
        updHeader (setObjectChecksumHeaders (ov_ChecksumCRC32 obj) (ov_ChecksumCRC32C obj)
          (ov_ChecksumSHA1 obj) (ov_ChecksumSHA256 obj)) ;;
        updHeader (setSSEHeader obj) ;;
        updHeader (retentionHeaders obj) ;;
        setHeader "Last-Modified" (format_http (ov_CreatedAt obj)) ;;
        updHeader (set_user_metadata (ov_Metadata obj)) ;;
        if headOnly then WriteHeader StatusOK
        else
          let rangeHeader := header_get (rq_Header r) "Range" in
          if negb (String.eqb rangeHeader "") then
            match parseRange rangeHeader (ov_Size obj) with
            | Err _ => writeS3Error r (mkS3Error StatusRequestedRangeNotSatisfiable "InvalidRange"
                "The requested range is not satisfiable." (object_resource bucket key))
            | Ok br => WriteHeader StatusPartialContent ;; stream_object obj (Some br)
            end
          else WriteHeader StatusOK ;; stream_object obj None
  end.

Definition version_ref (v : ObjectVersion) : ObjectRef :=
  mkObjectRef (ov_Bucket v) (ov_Key v) (ov_VersionID v).

Definition is_ErrNotFound (e : error) : bool := bool_decide (e = ErrNotFound).

(** The body of the loop over the removed versions. *)
Definition remove_version (v : ObjectVersion) : HM unit :=
  delete_blob (version_ref v) ;;
  emitObjectNotification "ObjectRemoved:Delete" v.

(** [DELETE ?versionId=v] *)
Definition delete_one_version (r : request) (bucket key versionID : string) : HM unit :=
  o ← query_store (GetObjectVersion bucket key versionID);
  now ← s3_now;
  if match o with Ok obj => objectLocked obj now | Err _ => false end then
    emitAudit a r "object.delete" "deny" bucket key "ObjectLocked" ;;
    writeObjectLockedError r
  else
    removed ← on_store (DeleteObjectVersion bucket key versionID);
    match removed with
    | Err e =>
      if errors_Is e ErrNotFound then
        emitAudit a r "object.delete" "allow" bucket key "" ;;
        WriteHeader StatusNoContent
      else
        emitAudit a r "object.delete" "error" bucket key "InternalError" ;;
        writeS3Error r (InternalError "Delete object version failed." (object_resource bucket key))
    | Ok v =>
      (if ov_DeleteMarker v then mret tt else delete_blob (version_ref v)) ;;
      emitAudit a r "object.delete" "allow" bucket key "" ;;
      WriteHeader StatusNoContent ;;
      emitObjectNotification "ObjectRemoved:Delete" v
    end.

Definition handleDeleteObject (r : request) (bucket key : string) : HM unit :=
  b ← query_store (GetBucket bucket);
  match b with
  | Err _ =>
    emitAudit a r "object.delete" "deny" bucket key "NoSuchBucket" ;;
    writeS3Error r (NoSuchBucket bucket)
  | Ok b =>
    let versionID := query_get (rq_Query r) "versionId" in
    if negb (String.eqb versionID "") then delete_one_version r bucket key versionID
    else if String.eqb (b_VersioningStatus b) "Enabled" then
      id ← newVersionID;
      now ← s3_now;
      on_store (DeleteObject bucket key id now) ;;
      emitAudit a r "object.delete" "allow" bucket key "" ;;
      WriteHeader StatusNoContent ;;
      emitObjectNotification "ObjectRemoved:DeleteMarkerCreated" (delete_marker bucket key id now)
    else
      o ← query_store (GetObjectVersion bucket key "");
      now ← s3_now;
      if match o with Ok obj => objectLocked obj now | Err _ => false end then
        emitAudit a r "object.delete" "deny" bucket key "ObjectLocked" ;;
        writeObjectLockedError r
      else
        removed ← on_store (DeleteAllObjectVersions bucket key);
        match removed with
        | Err e =>
          if is_ErrNotFound e then
            emitAudit a r "object.delete" "allow" bucket key "" ;;
            WriteHeader StatusNoContent
          else
            emitAudit a r "object.delete" "error" bucket key "InternalError" ;;
            writeS3Error r (InternalError "Delete object failed." (object_resource bucket key))
        | Ok versions =>
          forM versions remove_version ;;
          emitAudit a r "object.delete" "allow" bucket key "" ;;
          WriteHeader StatusNoContent
        end
  end.
End objects.
