(* ===== verification/S3ObjectOps.v ===== *)
(** * More object requests (src/internal/server/s3_api.go)

    Tagging, retention, legal hold, batch deletion and copy. *)
From S2P Require Import Prelude GoStrings Base64 Model MemoryStore FileSystem Blob Listing Http.
From S2P Require Import AwsChunked Sse S3State S3Object S3Events S3Bucket.

(** ** Reading a batch deletion: what the loop has collected *)
Record delete_acc := mkDeleteAcc {
  da_Deleted : list deleteObjectXML;
  da_Errors : list deleteError;
}.

Definition acc_error (key code message : string) (acc : delete_acc) : delete_acc :=
  mkDeleteAcc (da_Deleted acc) (da_Errors acc ++ [mkDeleteError key code message]).
Definition acc_deleted (d : deleteObjectXML) (acc : delete_acc) : delete_acc :=
  mkDeleteAcc (da_Deleted acc ++ [d]) (da_Errors acc).

Section objects.
Context `{!GoRuntime} `{!TimeFormats} `{!RequestCodecs} `{!Randomness}.
Context `{!Hashes} `{!TempNames} `{!BlockCipher}.
Context {P : Type} `{!StatePersister P}.
Abbreviation HM := (M (s3_state P)).
Variable a : s3API.

(** [obj, err := GetObjectVersion(versionId); if err != nil || obj.DeleteMarker],
    then the id of the version found. *)
Definition with_object (r : request) (bucket key : string) (k : ObjectVersion → string → HM unit)
    : HM unit :=
  let versionID := query_get (rq_Query r) "versionId" in
  o ← query_store (GetObjectVersion bucket key versionID);
  match o with
  | Ok obj =>
    if ov_DeleteMarker obj then writeS3Error r (NoSuchKey bucket key)
    else k obj (if String.eqb versionID "" then ov_VersionID obj else versionID)
  | Err _ => writeS3Error r (NoSuchKey bucket key)
  end.

(** [if err := a.store...; err != nil { 500 }; 200] *)
Definition put_or_500 (r : request) (bucket key message : string)
    (m : M (memoryBackedStore P) unit) : HM unit :=
  res ← on_store m;
  match res with
  | Err _ => writeS3Error r (InternalError message (object_resource bucket key))
  | Ok _ => WriteHeader StatusOK
  end.

Definition handleObjectTagging (r : request) (bucket key : string) : HM unit :=
  with_object r bucket key (λ obj versionID,
    if String.eqb (rq_Method r) "PUT" then
      match io_ReadAll (rq_Body r) with
      | Err _ => writeS3Error r (MalformedXML (object_resource bucket key))
      | Ok body =>
        if negb (isWellFormedXML body) then writeS3Error r (MalformedXML (object_resource bucket key))
        else put_or_500 r bucket key "Put object tagging failed."
               (PutObjectTagging (mkObjectTagging bucket key versionID body))
      end
    else if String.eqb (rq_Method r) "GET" then
      c ← query_store (GetObjectTagging bucket key versionID);
      match c with
      | Err e =>
        if errors_Is e ErrNotFound then writeXML StatusOK DocTagging
        else writeS3Error r (InternalError "Get object tagging failed." (object_resource bucket key))
      | Ok cfg =>
        setHeader "Content-Type" "application/xml" ;;
        WriteHeader StatusOK ;;
        Write (PBytes (ot_Document cfg))
      end
    else if String.eqb (rq_Method r) "DELETE" then
      res ← on_store (DeleteObjectTagging bucket key versionID);
      match res with
      | Err e =>
        if errors_Is e ErrNotFound then WriteHeader StatusNoContent
        else writeS3Error r (InternalError "Delete object tagging failed." (object_resource bucket key))
      | Ok _ => WriteHeader StatusNoContent
      end
    else writeS3Error r (MethodNotAllowed (object_resource bucket key))).

Definition handleObjectRetention (r : request) (bucket key : string) : HM unit :=
  with_object r bucket key (λ obj versionID,
    if String.eqb (rq_Method r) "PUT" then
      match xml_Decode_retention (rq_Body r) with
      | None => writeS3Error r (MalformedXML (object_resource bucket key))
      | Some req =>
        let mode := ToUpper (TrimSpace (rx_Mode req)) in
        if negb (String.eqb mode "GOVERNANCE") && negb (String.eqb mode "COMPLIANCE")
        then writeS3Error r (InvalidRequest "Retention mode must be GOVERNANCE or COMPLIANCE."
               (object_resource bucket key))
        else
          now ← s3_now;
          match parse_RFC3339 (TrimSpace (rx_RetainUntilDate req)) with
          | Some until =>
            if negb (now <? until)
            then writeS3Error r (InvalidRequest "RetainUntilDate must be a future RFC3339 timestamp."
                   (object_resource bucket key))
            else put_or_500 r bucket key "Put object retention failed."
                   (UpdateObjectMetadata bucket key versionID (putRetentionMetadata obj mode until))
          | None => writeS3Error r (InvalidRequest "RetainUntilDate must be a future RFC3339 timestamp."
                      (object_resource bucket key))
          end
      end
    else if String.eqb (rq_Method r) "GET" then
      writeXML StatusOK (DocRetention (mkObjectRetentionXML
        (meta_get (ov_Metadata obj) lockRetentionModeKey)
        (meta_get (ov_Metadata obj) lockRetentionRetainUntilKey)))
    else writeS3Error r (MethodNotAllowed (object_resource bucket key))).

Definition handleObjectLegalHold (r : request) (bucket key : string) : HM unit :=
  with_object r bucket key (λ obj versionID,
    if String.eqb (rq_Method r) "PUT" then
      match xml_Decode_legalHold (rq_Body r) with
      | None => writeS3Error r (MalformedXML (object_resource bucket key))
      | Some raw =>
        let status := ToUpper (TrimSpace raw) in
        if negb (String.eqb status "ON") && negb (String.eqb status "OFF")
        then writeS3Error r (InvalidRequest "Legal hold status must be ON or OFF."
               (object_resource bucket key))
        else put_or_500 r bucket key "Put object legal hold failed."
               (UpdateObjectMetadata bucket key versionID (putLegalHoldMetadata obj status))
      end
    else if String.eqb (rq_Method r) "GET" then
      writeXML StatusOK (DocLegalHold (meta_get (ov_Metadata obj) lockLegalHoldKey))
    else writeS3Error r (MethodNotAllowed (object_resource bucket key))).

(** ** Batch deletion *)

(** Is the version the entry names protected?  With versioning enabled and no
    version id there is nothing to check. *)
Definition entry_locked (b : Bucket) (bucket key versionID : string) : HM bool :=
  if negb (String.eqb versionID "") || negb (String.eqb (b_VersioningStatus b) "Enabled") then
    o ← query_store (GetObjectVersion bucket key versionID);
    now ← s3_now;
    mret match o with Ok obj => objectLocked obj now | Err _ => false end
  else mret false.

(** The deletion of one entry: the error it ends with. *)
Definition delete_entry (b : Bucket) (bucket key versionID : string) : HM (result unit) :=
  if String.eqb (b_VersioningStatus b) "Enabled" && String.eqb versionID "" then
    id ← newVersionID;
    now ← s3_now;
    on_store (DeleteObject bucket key id now)
  else
    removed ← on_store (DeleteAllObjectVersions bucket key);
    match removed with
    | Err e => mret (Err e)
    | Ok versions => forM versions (remove_version a) ;; mret (Ok tt)
    end.

Fixpoint delete_loop (b : Bucket) (bucket : string) (quiet : bool) (objects : list deleteObjectXML)
    (acc : delete_acc) : HM delete_acc :=
  match objects with
  | [] => mret acc
  | obj :: rest =>
    let key := TrimSpace (dx_Key obj) in
    if String.eqb key "" then
      delete_loop b bucket quiet rest (acc_error "" "InvalidRequest" "Object key is required." acc)
    else
      locked ← entry_locked b bucket key (dx_VersionID obj);
      if (locked : bool) then
        delete_loop b bucket quiet rest (acc_error key "AccessDenied"
          "Object is protected by object lock retention or legal hold." acc)
      else
        err ← delete_entry b bucket key (dx_VersionID obj);
        if match err with Err e => negb (errors_Is e ErrNotFound) | Ok _ => false end then
          delete_loop b bucket quiet rest (acc_error key "InternalError" "Delete object failed." acc)
        else
          delete_loop b bucket quiet rest
            (if quiet then acc else acc_deleted (mkDeleteObjectXML key (dx_VersionID obj)) acc)
  end.

Definition handleDeleteObjects (r : request) (bucket : string) : HM unit :=
  with_bucket r bucket (λ b,
    match xml_Decode_delete (rq_Body r) with
    | None => writeS3Error r (MalformedXML (bucket_resource bucket))
    | Some in_ =>
      out ← delete_loop b bucket (dx_Quiet in_) (dx_Objects in_) (mkDeleteAcc [] []);
      writeXML StatusOK (DocDelete (da_Deleted out) (da_Errors out))
    end).

(** ** Copy

    The source is read through a pipe that is closed without an error, so the
    destination is written from the bytes delivered, and the read's error is
    examined afterwards.  (The pipe's writer is not run when the handler returns
    before reading from it.) *)
Definition handleCopyObject (r : request) (bucket key : string) : HM unit :=
  runHeavy r bucket key (
    match SplitN (TrimPrefix (header_get (rq_Header r) "X-Amz-Copy-Source") "/") "/" 2 with
    | [srcBucket; srcKey] =>
      o ← query_store (GetLatestObjectVersion srcBucket srcKey);
      match o with
      | Err _ => writeS3Error r (NoSuchKey srcBucket srcKey)
      | Ok srcObj =>
        if ov_DeleteMarker srcObj then writeS3Error r (NoSuchKey srcBucket srcKey) else
        pass ← objectConditionsPass r srcObj "x-amz-copy-source-";
        if negb pass then mret tt else
        sse ← validateSSEHeaders a r bucket key;
        match sse with
        | None => mret tt
        | Some encrypted =>
          with_bucket r bucket (λ dstBucket,
            versionID ← write_versionID dstBucket;
            locked ← overwrite_locked bucket key versionID;
            if (locked : bool) then writeObjectLockedError r else
            let ref := mkObjectRef bucket key versionID in
            piped ← on_blob (readMaybeEncryptedObject (api_sseKey a) (ov_StoragePath srcObj) srcObj None);
            let '(bytes, readErr) := match piped with Ok p => p | Err e => ("", Some e) end in
            w ← writeMaybeEncryptedObject a ref (bytes_reader bytes) encrypted;
            match w with
            | Err _ => writeS3Error r (InternalError "Copy object failed." (object_resource bucket key))
            | Ok blobMeta =>
              match readErr with
              | Some _ =>
                delete_blob a ref ;;
                writeS3Error r (InternalError "Copy source read failed." (object_resource bucket key))
              | None =>
                let objectMeta := object_of_blob bucket key versionID (om_MD5Hex blobMeta)
                  (markSSEMetadata (copyMetadata (ov_Metadata srcObj)) encrypted) blobMeta in
                p ← on_store (PutObjectVersion objectMeta);
                match p with
                | Err _ =>
                  delete_blob a ref ;;
                  writeS3Error r (InternalError "Copy metadata write failed." (object_resource bucket key))
                | Ok _ =>
                  writeXML StatusOK (DocCopy (quotedETag (om_MD5Hex blobMeta))
                    (format_RFC3339 (om_CreatedAt blobMeta))) ;;
                  emitObjectNotification "ObjectCreated:Copy" objectMeta ;;
                  emitReplication objectMeta
                end
              end
            end)
        end
      end
    | _ => writeS3Error r (InvalidRequest "Invalid copy source." (object_resource bucket key))
    end).
End objects.
