(* ===== verification/S3Multipart.v ===== *)
(** * Multipart uploads (src/internal/server/s3_api.go) *)
From S2P Require Import Prelude GoStrings Base64 Model MemoryStore FileSystem Blob Listing Http.
From S2P Require Import AwsChunked Sse S3State S3Object S3Events S3Bucket.

Definition maxMultipartParts : Z := 10000.
Definition minMultipartPartSize : Z := 5 * 1024 * 1024.

Definition trim_quotes (etag : string) : string := Trim etag (ascii_of_nat 34).

(** [calculateMultipartETag]: the digest of the decoded part digests, those that do
    not decode left out. *)
Definition calculateMultipartETag `{!Hashes} (partETags : list string) : string :=
  hex_encode (md5_sum (Join (omap (λ etag, hex_decode (trim_quotes etag)) partETags) "")) +:+ "-" +:+
  FormatInt (Z.of_nat (length partETags)).

(** [storedByNumber] *)
Definition stored_by_number (parts : list MultipartPart) : gmap Z MultipartPart :=
  fold_left (λ m p, <[mp_PartNumber p := p]> m) parts ∅.

(** The checks on the listed parts, in order: the first failing one.  [prev]: the
    number of the part before. *)
Fixpoint check_parts (bucket key : string) (stored : gmap Z MultipartPart) (prev : option Z)
    (parts : list completePartXML) : option s3ErrorSpec :=
  match parts with
  | [] => None
  | part :: rest =>
    let invalid code message :=
      Some (mkS3Error StatusBadRequest code message (object_resource bucket key)) in
    if match prev with Some p => px_PartNumber part <=? p | None => false end
    then invalid "InvalidPartOrder" "The list of parts was not in ascending order."
    else match stored !! px_PartNumber part with
    | None => invalid "InvalidPart" "One or more of the specified parts could not be found."
    | Some s =>
      if negb (String.eqb (trim_quotes (px_ETag part)) (mp_ETag s))
      then invalid "InvalidPart" "One or more of the specified part ETags did not match."
      else if bool_decide (rest ≠ []) && (mp_Size s <? minMultipartPartSize)
      then invalid "EntityTooSmall" "Your proposed upload is smaller than the minimum allowed object size."
      else check_parts bucket key stored (Some (px_PartNumber part)) rest
    end
  end.

(** The loop of [handleListParts]. *)
Fixpoint parts_loop (marker maxParts : Z) (parts : list MultipartPart) (out : listPartsResult)
    : listPartsResult :=
  match parts with
  | [] => out
  | p :: rest =>
    if mp_PartNumber p <=? marker then parts_loop marker maxParts rest out
    else if Z.of_nat (length (pr_Parts out)) =? maxParts
    then match last (pr_Parts out) with
         | Some item => mkListPartsResult (pr_Bucket out) (pr_Key out) (pr_UploadID out)
             (pr_PartNumberMarker out) (pi_PartNumber item) (pr_MaxParts out) true (pr_Parts out)
         | None => out
         end
    else parts_loop marker maxParts rest
      (mkListPartsResult (pr_Bucket out) (pr_Key out) (pr_UploadID out) (pr_PartNumberMarker out)
        (pr_NextPartNumberMarker out) (pr_MaxParts out) (pr_IsTruncated out)
        (pr_Parts out ++ [mkPartItem (mp_PartNumber p) (quotedETag (mp_ETag p)) (mp_Size p)
           (mp_ChecksumCRC32 p) (mp_ChecksumCRC32C p) (mp_ChecksumSHA1 p) (mp_ChecksumSHA256 p)]))
  end.

Section multipart.
Context `{!GoRuntime} `{!TimeFormats} `{!RequestCodecs} `{!Randomness}.
Context `{!Hashes} `{!TempNames} `{!BlockCipher}.
Context {P : Type} `{!StatePersister P}.
Abbreviation HM := (M (s3_state P)).
Variable a : s3API.

Definition handleCreateMultipartUpload (r : request) (bucket key : string) : HM unit :=
  uploadID ← newVersionID;
  sse ← validateSSEHeaders a r bucket key;
  match sse with
  | None => mret tt
  | Some encrypted =>
    now ← s3_now;
    c ← on_store (CreateMultipartUpload (mkMultipartUpload uploadID bucket key
          (if encrypted then sseAlgorithmAES256 else "") now));
    match c with
    | Err _ => writeS3Error r (InternalError "Create multipart upload failed." (object_resource bucket key))
    | Ok _ =>
      d ← on_blob (blob_CreateMultipartUpload (api_blob a) uploadID);
      match d with
      | Err _ =>
        on_store (DeleteMultipartUpload uploadID) ;;
        writeS3Error r (InternalError "Create multipart upload staging failed." (object_resource bucket key))
      | Ok _ =>
        (if (encrypted : bool) then setHeader "x-amz-server-side-encryption" sseAlgorithmAES256 else mret tt) ;;
        writeXML StatusOK (DocInitiate bucket key uploadID)
      end
    end
  end.

(** [upload, parts, err := GetMultipartUpload(uploadID)] with the check that it is
    of this bucket and key. *)
Definition find_upload (bucket key uploadID : string)
    : HM (option (MultipartUpload * list MultipartPart)) :=
  u ← query_store (GetMultipartUpload uploadID);
  mret match u with
       | Ok (upload, parts) =>
         if String.eqb (mu_Bucket upload) bucket && String.eqb (mu_Key upload) key
         then Some (upload, parts) else None
       | Err _ => None
       end.

Definition part_of_blob (uploadID : string) (partNumber : Z) (m : MultipartPartMeta) : MultipartPart :=
  mkMultipartPart uploadID partNumber (mm_MD5Hex m) (mm_Size m) (mm_SHA256B64 m) (mm_SHA1B64 m)
    (mm_CRC32B64 m) (mm_CRC32CB64 m) (mm_Path m) (mm_CreatedAt m).

Definition handleUploadPart (r : request) (bucket key uploadID : string) : HM unit :=
  runHeavy r bucket key (
    let bad := writeS3Error r (InvalidArgument "partNumber must be between 1 and 10000."
                 (object_resource bucket key)) in
    match Atoi (query_get (rq_Query r) "partNumber") with
    | None => bad
    | Some partNumber =>
      if (partNumber <=? 0) || (maxMultipartParts <? partNumber) then bad else
      u ← find_upload bucket key uploadID;
      match u with
      | None => writeS3Error r (NoSuchUpload bucket key)
      | Some _ =>
        w ← on_blob (WriteMultipartPart (api_blob a) uploadID partNumber (requestObjectBody r));
        match w with
        | Err _ => writeS3Error r (InternalError "Upload part failed." (object_resource bucket key))
        | Ok meta =>
          ok ← validateChecksumHeaders r (checksum_headers (mm_CRC32B64 meta) (mm_CRC32CB64 meta)
                 (mm_SHA1B64 meta) (mm_SHA256B64 meta));
          if negb ok then
            on_blob (blob_AbortMultipartUpload (api_blob a) uploadID) ;; mret tt
          else
            p ← on_store (UpsertMultipartPart (part_of_blob uploadID partNumber meta));
            match p with
            | Err _ =>
              on_blob (blob_AbortMultipartUpload (api_blob a) uploadID) ;;
              writeS3Error r (InternalError "Upload part metadata failed." (object_resource bucket key))
            | Ok _ =>
              setHeader "ETag" (quotedETag (mm_MD5Hex meta)) ;;
              updHeader (setObjectChecksumHeaders (mm_CRC32B64 meta) (mm_CRC32CB64 meta)
                (mm_SHA1B64 meta) (mm_SHA256B64 meta)) ;;
              WriteHeader StatusOK
            end
        end
      end
    end).

Definition handleListParts (r : request) (bucket key uploadID : string) : HM unit :=
  u ← find_upload bucket key uploadID;
  match u with
  | None => writeS3Error r (NoSuchUpload bucket key)
  | Some (_, parts) =>
    match parse_bounded (query_get (rq_Query r) "part-number-marker") 0 None with
    | None => writeS3Error r (InvalidArgument "Invalid part-number-marker." (object_resource bucket key))
    | Some marker =>
      match parse_bounded (query_get (rq_Query r) "max-parts") 1000 (Some 1000) with
      | None => writeS3Error r (InvalidArgument "Invalid max-parts." (object_resource bucket key))
      | Some maxParts =>
        let out truncated := mkListPartsResult bucket key uploadID marker 0 maxParts truncated [] in
        writeXML StatusOK (DocListParts
          (if maxParts =? 0 then out (bool_decide (parts ≠ []))
           else parts_loop marker maxParts parts (out false)))
      end
    end
  end.

(** The three ways the blob is assembled. *)
Definition assemble (upload : MultipartUpload) (stored : gmap Z MultipartPart) (uploadID : string)
    (orderedParts : list Z) (ref : ObjectRef) : HM (result ObjectMeta) :=
  if String.eqb (mu_SSEAlgorithm upload) sseAlgorithmAES256 then
    iv ← rand_bytes sseIVSize;
    on_blob (CompleteMultipartUploadWithWriter (api_blob a) uploadID orderedParts (λ src,
      match iv with
      | Err e => throw (ErrWrap "generate sse iv: %w" [] e)
      | Ok iv => write_encrypted (api_blob a) (api_sseKey a) iv ref src
      end))
  else match orderedParts with
  | [partNumber] =>
    let s := default (mkMultipartPart "" 0 "" 0 "" "" "" "" "" zero_time) (stored !! partNumber) in
    on_blob (PromoteMultipartPart (api_blob a) uploadID (mp_PartNumber s) ref
      (mkMultipartPartMeta "" 0 "" (mp_Size s) (mp_ETag s) "" (mp_ChecksumSHA256 s) (mp_ChecksumSHA1 s)
        (mp_ChecksumCRC32 s) (mp_ChecksumCRC32C s) (mp_CreatedAt s)))
  | _ => on_blob (CompleteMultipartUpload (api_blob a) uploadID orderedParts ref)
  end.

Definition handleCompleteMultipartUpload (r : request) (bucket key uploadID : string) : HM unit :=
  runHeavy r bucket key (
    u ← find_upload bucket key uploadID;
    match u with
    | None => writeS3Error r (NoSuchUpload bucket key)
    | Some (upload, storedParts) =>
      match io_ReadAll (rq_Body r) with
      | Err _ => writeS3Error r (mkS3Error StatusBadRequest "MalformedXML"
                   "Could not read request body." (object_resource bucket key))
      | Ok body =>
        match xml_Unmarshal_complete body with
        | None | Some [] => writeS3Error r (MalformedXML (object_resource bucket key))
        | Some parts =>
          if maxMultipartParts <? Z.of_nat (length parts)
          then writeS3Error r (mkS3Error StatusBadRequest "TooManyParts"
                 "Multipart uploads cannot contain more than 10000 parts." (object_resource bucket key))
          else
          let stored := stored_by_number storedParts in
          match check_parts bucket key stored None parts with
          | Some spec => writeS3Error r spec
          | None =>
            with_bucket r bucket (λ b,
              versionID ← write_versionID b;
              locked ← overwrite_locked bucket key versionID;
              if (locked : bool) then writeObjectLockedError r else
              let ref := mkObjectRef bucket key versionID in
              let encrypted := String.eqb (mu_SSEAlgorithm upload) sseAlgorithmAES256 in
              w ← assemble upload stored uploadID (px_PartNumber <$> parts) ref;
              match w with
              | Err _ => writeS3Error r (InternalError "Complete multipart upload failed."
                           (object_resource bucket key))
              | Ok objMeta =>
                let multipartETag := calculateMultipartETag ((λ p, trim_quotes (px_ETag p)) <$> parts) in
                let objectMeta := object_of_blob bucket key versionID multipartETag
                  (markSSEMetadata ∅ encrypted) objMeta in
                p ← on_store (PutObjectVersion objectMeta);
                match p with
                | Err _ =>
                  delete_blob a ref ;;
                  writeS3Error r (InternalError "Complete multipart metadata write failed."
                    (object_resource bucket key))
                | Ok _ =>
                  on_store (DeleteMultipartUpload uploadID) ;;
                  updHeader (setObjectChecksumHeaders (om_CRC32B64 objMeta) (om_CRC32CB64 objMeta)
                    (om_SHA1B64 objMeta) (om_SHA256B64 objMeta)) ;;
                  updHeader (setSSEHeader objectMeta) ;;
                  writeXML StatusOK (DocComplete (mkCompleteResult (object_resource bucket key) bucket key
                    (quotedETag multipartETag) (om_CRC32B64 objMeta) (om_CRC32CB64 objMeta)
                    (om_SHA1B64 objMeta) (om_SHA256B64 objMeta))) ;;
                  emitObjectNotification "ObjectCreated:CompleteMultipartUpload" objectMeta ;;
                  emitReplication objectMeta
                end
              end)
          end
        end
      end
    end).

Definition handleAbortMultipartUpload (r : request) (bucket key uploadID : string) : HM unit :=
  u ← find_upload bucket key uploadID;
  match u with
  | None =>
    emitAudit a r "multipart.abort" "allow" bucket key "" ;;
    WriteHeader StatusNoContent
  | Some _ =>
    on_blob (blob_AbortMultipartUpload (api_blob a) uploadID) ;;
    on_store (DeleteMultipartUpload uploadID) ;;
    emitAudit a r "multipart.abort" "allow" bucket key "" ;;
    WriteHeader StatusNoContent
  end.
End multipart.
