(* ===== verification/S3Router.v ===== *)
(** * Routing (src/internal/server/handler.go, s3_api.go)

    From a request to its bucket and key, and to the handler. *)
From S2P Require Import Prelude GoStrings Model MemoryStore FileSystem Blob Listing Http Sse.
From S2P Require Import S3State S3Object S3Events S3Bucket S3ObjectOps S3Multipart.

(** [net.SplitHostPort] as the handler uses it: the host part, when there is exactly
    one colon outside of brackets; None for its errors. *)
Fixpoint count_char (c : ascii) (s : string) : nat :=
  match s with
  | "" => 0
  | String d s => (if Ascii.eqb c d then 1 else 0) + count_char c s
  end%nat.

Definition SplitHostPort (hostport : string) : option (string * string) :=
  if HasPrefix hostport "[" then
    match Index hostport "]" with
    | None => None
    | Some e =>
      let rest := str_drop (S e) hostport in
      let host := str_take (e - 1) (str_drop 1 hostport) in
      if HasPrefix rest ":" && (count_char ":" rest =? 1)%nat
         && negb (Contains (host +:+ rest) "[") && negb (Contains rest "]")
      then Some (host, str_drop 1 rest) else None
    end
  else if (count_char ":" hostport =? 1)%nat && negb (Contains hostport "[") && negb (Contains hostport "]")
  then let '(h, p, _) := Cut hostport ":" in Some (h, p)
  else None.

Definition parseVirtualHostStyle (r : request) (domain : string) : option (string * string) :=
  if String.eqb (rq_Host r) "" then None
  else
    let host := match SplitHostPort (rq_Host r) with Some (h, _) => h | None => rq_Host r end in
    if String.eqb domain "" then None
    else if negb (HasSuffix host ("." +:+ domain)) then None
    else
      let bucket := TrimSuffix host ("." +:+ domain) in
      if String.eqb bucket "" || Contains bucket "." then None
      else Some (bucket, TrimPrefix (rq_Path r) "/").

Definition bucketAndKey (r : request) (domain : string) : option (string * string) :=
  match parseVirtualHostStyle r domain with
  | Some bk => Some bk
  | None =>
    match Split (TrimPrefix (rq_Path r) "/") "/" with
    | [] => None
    | "" :: _ => None
    | bucket :: rest => Some (bucket, Join rest "/")
    end
  end.

Section router.
Context `{!GoRuntime} `{!TimeFormats} `{!RequestCodecs} `{!Randomness}.
Context `{!JsonCodec listV2ContinuationToken} `{!Hashes} `{!TempNames} `{!BlockCipher}.
Context {P : Type} `{!StatePersister P}.
Abbreviation HM := (M (s3_state P)).
Variable a : s3API.

(** The cases of the switch, in order: method, query flag, handler. *)
Definition bucket_routes : list (string * string * (request → string → HM unit)) :=
  [("PUT", "website", handlePutBucketWebsite);
   ("GET", "website", handleGetBucketWebsite);
   ("DELETE", "website", handleDeleteBucketWebsite);
   ("POST", "delete", handleDeleteObjects a);
   ("PUT", "cors", handlePutBucketCORS);
   ("GET", "cors", handleGetBucketCORS);
   ("DELETE", "cors", handleDeleteBucketCORS);
   ("PUT", "policy", handlePutBucketPolicy);
   ("GET", "policy", handleGetBucketPolicy);
   ("DELETE", "policy", handleDeleteBucketPolicy);
   ("PUT", "publicAccessBlock", handlePutPublicAccessBlock);
   ("GET", "publicAccessBlock", handleGetPublicAccessBlock);
   ("DELETE", "publicAccessBlock", handleDeletePublicAccessBlock);
   ("PUT", "lifecycle", handlePutBucketLifecycle);
   ("GET", "lifecycle", handleGetBucketLifecycle);
   ("DELETE", "lifecycle", handleDeleteBucketLifecycle);
   ("PUT", "notification", handlePutBucketNotification);
   ("GET", "notification", handleGetBucketNotification);
   ("DELETE", "notification", handleDeleteBucketNotification);
   ("PUT", "replication", handlePutBucketReplication);
   ("GET", "replication", handleGetBucketReplication);
   ("DELETE", "replication", handleDeleteBucketReplication);
   ("GET", "acl", λ r bucket, handleGetACL r bucket "");
   ("PUT", "acl", λ r bucket, handlePutACL r bucket "");
   ("PUT", "versioning", handlePutBucketVersioning);
   ("GET", "versioning", handleGetBucketVersioning);
   ("GET", "versions", handleListObjectVersions);
   ("GET", "location", handleGetBucketLocation);
   ("GET", "uploads", handleListMultipartUploads)].

(** The handler of the first case that matches. *)
Definition find_route (r : request)
    (routes : list (string * string * (request → string → HM unit)))
    : option (request → string → HM unit) :=
  snd <$> List.find (λ '(method, flag, _),
    String.eqb (rq_Method r) method && hasQueryFlag (rq_Query r) flag) routes.

Definition handleBucketRequest (r : request) (bucket : string) : HM unit :=
  match find_route r bucket_routes with
  | Some h => h r bucket
  | None =>
    if String.eqb (rq_Method r) "GET" && String.eqb (query_get (rq_Query r) "list-type") "2"
    then handleListObjectsV2 r bucket
    else if String.eqb (rq_Method r) "PUT" then handleCreateBucket a r bucket
    else if String.eqb (rq_Method r) "DELETE" then handleDeleteBucket a r bucket
    else writeS3Error r (MethodNotAllowed (bucket_resource bucket))
  end.

Definition handleMultipartWithUploadID (r : request) (bucket key : string) : HM unit :=
  let uploadID := query_get (rq_Query r) "uploadId" in
  if String.eqb uploadID "" then
    writeS3Error r (InvalidRequest "uploadId is required." (object_resource bucket key))
  else if String.eqb (rq_Method r) "PUT" && negb (String.eqb (query_get (rq_Query r) "partNumber") "")
  then handleUploadPart a r bucket key uploadID
  else if String.eqb (rq_Method r) "GET" then handleListParts r bucket key uploadID
  else if String.eqb (rq_Method r) "POST" then handleCompleteMultipartUpload a r bucket key uploadID
  else if String.eqb (rq_Method r) "DELETE" then handleAbortMultipartUpload a r bucket key uploadID
  else writeS3Error r (MethodNotAllowed (object_resource bucket key)).

Definition handleObjectRequest (r : request) (bucket key : string) : HM unit :=
  with_bucket r bucket (λ _,
    let q := rq_Query r in
    if String.eqb (rq_Method r) "PUT" &&
       negb (String.eqb (header_get (rq_Header r) "X-Amz-Copy-Source") "")
    then handleCopyObject a r bucket key
    else if hasQueryFlag q "acl" then
      (if String.eqb (rq_Method r) "GET" then handleGetACL r bucket key
       else if String.eqb (rq_Method r) "PUT" then handlePutACL r bucket key
       else writeS3Error r (MethodNotAllowed (object_resource bucket key)))
    else if hasQueryFlag q "tagging" then handleObjectTagging r bucket key
    else if hasQueryFlag q "retention" then handleObjectRetention r bucket key
    else if hasQueryFlag q "legal-hold" then handleObjectLegalHold r bucket key
    else if hasQueryFlag q "uploadId" then handleMultipartWithUploadID r bucket key
    else if String.eqb (rq_Method r) "POST" && hasQueryFlag q "uploads"
    then handleCreateMultipartUpload a r bucket key
    else if String.eqb (rq_Method r) "PUT" then handlePutObject a r bucket key
    else if String.eqb (rq_Method r) "GET" then handleGetObject a r bucket key false
    else if String.eqb (rq_Method r) "HEAD" then handleGetObject a r bucket key true
    else if String.eqb (rq_Method r) "DELETE" then handleDeleteObject a r bucket key
    else writeS3Error r (MethodNotAllowed (object_resource bucket key))).

Definition ServeHTTP (r : request) : HM unit :=
  if negb (api_ready a) then
    writeS3Error r (mkS3Error StatusServiceUnavailable "ServiceUnavailable"
      "Metadata/blob storage is not initialized." (rq_Path r))
  else if String.eqb (rq_Path r) "/" && String.eqb (rq_Method r) "GET" then handleListBuckets r
  else match bucketAndKey r (api_domain a) with
  | None => writeS3Error r (mkS3Error StatusNotFound "NoSuchBucket"
              "The specified bucket does not exist." (rq_Path r))
  | Some (bucket, key) =>
    if String.eqb key "" then handleBucketRequest r bucket
    else handleObjectRequest r bucket key
  end.
End router.
