(* ===== verification/NetHttp.v ===== *)
(** * Redirects, errors and the request multiplexer (net/http, path)

    What the handlers use of [http.Redirect], [http.Error], [path.Clean] and
    [http.ServeMux]. *)
From S2P Require Import Prelude GoStrings Url Model MemoryStore FileSystem Blob Listing Http Sse S3State.

(** ** Paths *)
Definition clean_step (stack : list string) (seg : string) : list string :=
  if String.eqb seg "" || String.eqb seg "." then stack
  else if String.eqb seg ".." then removelast stack
  else stack ++ [seg].

(** [path.Clean] of a path that starts with a slash. *)
Definition path_Clean (p : string) : string :=
  "/" +:+ Join (fold_left clean_step (Split (str_drop 1 p) "/") []) "/".

(** [cleanPath] of net/http: the trailing slash stays. *)
Definition cleanPath (p : string) : string :=
  if String.eqb p "" then "/"
  else let p := if HasPrefix p "/" then p else "/" +:+ p in
       let np := path_Clean p in
       if HasSuffix p "/" && negb (String.eqb np "/") then np +:+ "/" else np.

(** [path.Ext]: from the last dot of the last element. *)
Fixpoint ext_rev (rev acc : string) : string :=
  match rev with
  | "" => ""
  | String c rev =>
    if Ascii.eqb c "/" then ""
    else if Ascii.eqb c "." then String c acc
    else ext_rev rev (String c acc)
  end.
Definition path_Ext (p : string) : string := ext_rev (String.rev p) "".

Example clean_ex : cleanPath "/a//b/./c/../d/" = "/a/b/d/" ∧ cleanPath "/.." = "/" ∧ path_Ext "x/y.tar.gz" = ".gz" ∧
  path_Ext "a.b/c" = "".
Proof. vm_compute. done. Qed.

(** [path.Base] *)
Definition path_Base (p : string) : string :=
  if String.eqb p "" then "."
  else let trimmed := trim_right_char "/" p in
       let last := List.last (Split trimmed "/") "" in
       if String.eqb trimmed "" then "/" else last.

(** ** URLs that begin with one slash (net/url) *)
Definition path_plain (c : ascii) : bool :=
  unreserved c || match Index "$&+,/:;=@" (String c "") with Some _ => true | None => false end.
Definition segment_plain (c : ascii) : bool :=
  unreserved c || match Index "$&+:=@" (String c "") with Some _ => true | None => false end.
Definition fragment_plain (c : ascii) : bool :=
  path_plain c || match Index "?!()*" (String c "") with Some _ => true | None => false end.

Fixpoint escape_unless (plain : ascii → bool) (s : string) : string :=
  match s with
  | "" => ""
  | String c s => (if plain c then String c "" else percent c) +:+ escape_unless plain s
  end.

(** [url.PathEscape] *)
Definition PathEscape (s : string) : string := escape_unless segment_plain s.

(** The characters [EscapedPath] leaves in a path as it was written. *)
Definition valid_encoded (plain : ascii → bool) (s : string) : bool :=
  str_forall (λ c, plain c || match Index "!'()*[]%" (String c "") with Some _ => true | None => false end) s.

(** What [url.Parse] makes of such a text; a raw form is kept where escaping the
    decoded one would not give it back. *)
Record local_url := mkLocalURL {
  lu_Path : string;
  lu_RawPath : string;
  lu_ForceQuery : bool;
  lu_RawQuery : string;
  lu_Fragment : string;
  lu_RawFragment : string;
}.

Definition control_char (c : ascii) : bool := (N_of_ascii c <? 32)%N || (N_of_ascii c =? 127)%N.

Definition url_Parse (s : string) : option local_url :=
  let '(u, frag, _) := Cut s "#" in
  let '(p, query, found) := Cut u "?" in
  if negb (str_forall (λ c, negb (control_char c)) u) then None
  else match PathUnescape p, PathUnescape frag with
       | Some path, Some fragment =>
         Some (mkLocalURL path (if String.eqb (escape_unless path_plain path) p then "" else p)
                 (found && String.eqb query "") query fragment
                 (if String.eqb (escape_unless fragment_plain fragment) frag then "" else frag))
       | _, _ => None
       end.

Definition escaped_or_raw (plain : ascii → bool) (text raw : string) : string :=
  if negb (String.eqb raw "") && valid_encoded plain raw && bool_decide (PathUnescape raw = Some text) then raw
  else escape_unless plain text.

(** [u.String()] *)
Definition url_String (u : local_url) : string :=
  escaped_or_raw path_plain (lu_Path u) (lu_RawPath u) +:+
  (if lu_ForceQuery u || negb (String.eqb (lu_RawQuery u) "") then "?" +:+ lu_RawQuery u else "") +:+
  (if String.eqb (lu_Fragment u) "" then "" else "#" +:+ escaped_or_raw fragment_plain (lu_Fragment u) (lu_RawFragment u)).

Example url_ex : PathEscape "a b/c?" = "a%20b%2Fc%3F" ∧ path_Base "/a/b/" = "b" ∧ path_Base "//" = "/" ∧
  (url_String <$> url_Parse "/app/x%2Fy?a=1#top") = Some "/app/x%2Fy?a=1#top" ∧
  (url_String <$> url_Parse "/x%2Fy z") = Some "/x/y%20z" ∧ url_Parse "/%zz" = None.
Proof. vm_compute. done. Qed.

(** ** Answers *)
Fixpoint hexEscapeNonASCII (s : string) : string :=
  match s with
  | "" => ""
  | String c s =>
    let n := N_of_ascii c in
    (if (128 <=? n)%N then String "%" (String (hex_digit (n / 16)) (String (hex_digit (n mod 16)) "")) else String c "")
      +:+ hexEscapeNonASCII s
  end.

(** The Location of [http.Redirect] for a target that starts with a scheme or a
    slash: a path is cleaned, unless the target is no URL. *)
Definition redirect_location (target : string) : string :=
  if HasPrefix target "/" && negb (HasPrefix target "//") && bool_decide (is_Some (url_Parse target)) then
    let '(p, query, found) := Cut target "?" in
    let cleaned := path_Clean p in
    let cleaned := if HasSuffix p "/" && negb (HasSuffix cleaned "/") then cleaned +:+ "/" else cleaned in
    if found then cleaned +:+ "?" +:+ query else cleaned
  else target.

Section answers.
Context `{!GoRuntime} {P : Type}.
Abbreviation HM := (M (s3_state P)).

Definition header_of : HM http_header := λ s, (s, Ok (rs_Header (s3_resp s))).

Definition http_Redirect (r : request) (target : string) (code : Z) : HM unit :=
  h ← header_of;
  let hadCT := match h !! "Content-Type" with Some _ => true | None => false end in
  setHeader "Location" (hexEscapeNonASCII (redirect_location target)) ;;
  (if negb hadCT && (String.eqb (rq_Method r) "GET" || String.eqb (rq_Method r) "HEAD")
   then setHeader "Content-Type" "text/html; charset=utf-8" else mret tt) ;;
  WriteHeader code ;;
  (if negb hadCT && String.eqb (rq_Method r) "GET"
   then Write (PBytes (Sprintf "<a href=%q>%s</a>." [redirect_location target; FormatInt code])) else mret tt).

Definition http_Error (message : string) (code : Z) : HM unit :=
  updHeader (delete "Content-Length") ;;
  setHeader "Content-Type" "text/plain; charset=utf-8" ;;
  setHeader "X-Content-Type-Options" "nosniff" ;;
  WriteHeader code ;;
  Write (PBytes (message +:+ String (ascii_of_nat 10) "")).

Definition http_NotFound : HM unit := http_Error "404 page not found" StatusNotFound.
End answers.
