(* ===== verification/Website.v ===== *)
(** * Bucket websites (src/internal/server/website_handler.go)

    Anonymous reads of a bucket as a website: index and error documents, redirects,
    routing rules. *)
From S2P Require Import Prelude GoStrings Url Model MemoryStore FileSystem Blob Listing Http Sse.
From S2P Require Import S3State S3Object S3Events S3Bucket S3Router NetHttp.

(** [WebsiteHandler]; it is ready when it has both stores. *)
Record WebsiteHandler := mkWebsiteHandler {
  wh_ready : bool;
  wh_blob : blobStore;
  wh_domain : string;
  wh_sseKey : string;
}.

Definition NewWebsiteHandlerWithSSE (ready : bool) (bs : blobStore) (domain sseKey : string) : WebsiteHandler :=
  mkWebsiteHandler ready bs (TrimSpace domain) sseKey.

(** [mime.TypeByExtension], which reads the system's tables. *)
Class MimeTypes := { TypeByExtension : string → string }.

Definition StatusMovedPermanently : Z := 301.
Definition StatusFound : Z := 302.

Definition decodePath (s : string) : string := default s (PathUnescape s).

(** [resolveBucketAndKey] *)
Definition resolve_path_style (r : request) : option (string * string) :=
  let p := TrimPrefix (rq_EscapedPath r) "/" in
  if String.eqb p "" then None
  else let parts := SplitN p "/" 2 in
       let bucket := decodePath (default "" (head parts)) in
       if String.eqb bucket "" then None
       else Some (bucket, default "" (decodePath <$> parts !! 1%nat)).

Definition resolveBucketAndKey (h : WebsiteHandler) (r : request) : option (string * string) :=
  let host := match SplitHostPort (rq_Host r) with Some (x, _) => x | None => rq_Host r end in
  let host := TrimSpace (ToLower host) in
  let suffix := "." +:+ ToLower (wh_domain h) in
  if negb (String.eqb (wh_domain h) "") && HasSuffix host suffix && negb (String.eqb (TrimSuffix host suffix) "")
  then Some (TrimSuffix host suffix, decodePath (TrimPrefix (rq_EscapedPath r) "/"))
  else resolve_path_style r.

Definition websiteIndexDocument (index : string) : string :=
  let index := TrimSpace index in if String.eqb index "" then "index.html" else index.

Definition resolveWebsiteKey (key index : string) : string :=
  let index := websiteIndexDocument index in
  if String.eqb key "" then index else if HasSuffix key "/" then key +:+ index else key.

Definition with_query (target rawQuery : string) : string :=
  if String.eqb rawQuery "" then target else target +:+ "?" +:+ rawQuery.

Definition request_protocol (protocol : string) (r : request) : string :=
  let protocol := TrimSpace protocol in
  if String.eqb protocol "" then (if rq_TLS r then "https" else "http") else protocol.

Definition redirectURL (r : request) (cfg : BucketWebsiteConfig) : string :=
  let pathPart := if String.eqb (rq_EscapedPath r) "" then "/" else rq_EscapedPath r in
  with_query (request_protocol (bw_RedirectAllProtocol cfg) r +:+ "://" +:+ bw_RedirectAllHost cfg +:+ pathPart)
    (rq_RawQuery r).

Definition matchesRoutingRule (cond : BucketWebsiteRoutingCondition) (key : string) (status : Z) : bool :=
  if negb (String.eqb (rc_KeyPrefixEquals cond) "") && negb (HasPrefix key (rc_KeyPrefixEquals cond)) then false
  else if negb (String.eqb (rc_HttpErrorCodeReturnedEquals cond) "") &&
          ((status <=? 0) || negb (String.eqb (rc_HttpErrorCodeReturnedEquals cond) (FormatInt status))) then false
  else true.

Definition redirect_key (key : string) (rule : BucketWebsiteRoutingRule) : string :=
  let redirect := rr_Redirect rule in
  if negb (String.eqb (wr_ReplaceKeyWith redirect) "") then wr_ReplaceKeyWith redirect
  else if negb (String.eqb (wr_ReplaceKeyPrefixWith redirect) "") then
    let prefix := rc_KeyPrefixEquals (rr_Condition rule) in
    let tail := if negb (String.eqb prefix "") && HasPrefix key prefix then TrimPrefix key prefix else key in
    wr_ReplaceKeyPrefixWith redirect +:+ tail
  else key.

Definition redirectURLFromRule (r : request) (key : string) (rule : BucketWebsiteRoutingRule) : option string :=
  let redirect := rr_Redirect rule in
  let host := TrimSpace (wr_HostName redirect) in
  let host := if String.eqb host ""
              then match SplitHostPort (rq_Host r) with Some (x, _) => x | None => rq_Host r end
              else host in
  if String.eqb host "" then None
  else Some (with_query (request_protocol (wr_Protocol redirect) r +:+ "://" +:+ host +:+ "/" +:+
                         TrimPrefix (redirect_key key rule) "/") (rq_RawQuery r)).

Definition rule_status (rule : BucketWebsiteRoutingRule) : Z :=
  match Atoi (wr_HTTPRedirectCode (rr_Redirect rule)) with
  | Some n => if (300 <=? n) && (n <=? 399) then n else StatusMovedPermanently
  | None => StatusMovedPermanently
  end.

(** [applyRoutingRule]: the first rule that matches and has a target. *)
Fixpoint applyRoutingRule (r : request) (rules : list BucketWebsiteRoutingRule) (key : string) (status : Z)
    : option (string * Z) :=
  match rules with
  | [] => None
  | rule :: rules =>
    if negb (matchesRoutingRule (rr_Condition rule) key status) then applyRoutingRule r rules key status
    else match redirectURLFromRule r key rule with
    | None => applyRoutingRule r rules key status
    | Some target => Some (target, rule_status rule)
    end
  end.

Section website.
Context `{!GoRuntime} `{!MimeTypes} `{!BlockCipher} {P : Type}.
Abbreviation HM := (M (s3_state P)).
Variable h : WebsiteHandler.

Definition lookupObject (bucket key : string) : HM (result ObjectVersion) :=
  if String.eqb key "" then mret (Err ErrNotFound)
  else query_store (GetLatestObjectVersion bucket key).

Definition content_type (key : string) (obj : ObjectVersion) : string :=
  let v := TrimSpace (meta_get (ov_Metadata obj) "content-type") in
  let ctype := if String.eqb v "" then "application/octet-stream" else v in
  if String.eqb ctype "application/octet-stream" then
    let ext := ToLower (path_Ext key) in
    let inferred := if String.eqb ext "" then "" else TypeByExtension ext in
    if String.eqb inferred "" then ctype else inferred
  else ctype.

Definition writeObject (r : request) (key : string) (obj : ObjectVersion) (status : Z) : HM unit :=
  setHeader "Content-Type" (content_type key obj) ;;
  setHeader "Content-Length" (FormatInt (ov_Size obj)) ;;
  setHeader "ETag" (quotedETag (ov_ETag obj)) ;;
  WriteHeader status ;;
  (if String.eqb (rq_Method r) "HEAD" then mret tt
   else stream_object (mkS3API true "" (wh_blob h) "" false (wh_sseKey h)) obj None).

Definition redirectToDirectoryPath (r : request) : HM unit :=
  http_Redirect r (with_query (rq_EscapedPath r +:+ "/") (rq_RawQuery r)) StatusFound.

(** The answer when no object was found. *)
Definition serve_missing (r : request) (cfg : BucketWebsiteConfig) (bucket key : string) : HM unit :=
  match applyRoutingRule r (bw_RoutingRules cfg) key StatusNotFound with
  | Some (target, code) => http_Redirect r target code
  | None =>
    if String.eqb (bw_ErrorDocument cfg) "" then http_NotFound
    else e ← lookupObject bucket (bw_ErrorDocument cfg);
         match e with
         | Ok errObj => writeObject r (bw_ErrorDocument cfg) errObj StatusNotFound
         | Err _ => http_NotFound
         end
  end.

(** The answer of a bucket whose website is enabled and public. *)
Definition serve_website (r : request) (cfg : BucketWebsiteConfig) (bucket key : string) : HM unit :=
  if negb (String.eqb (bw_RedirectAllHost cfg) "") then http_Redirect r (redirectURL r cfg) StatusMovedPermanently
  else match applyRoutingRule r (bw_RoutingRules cfg) key 0 with
  | Some (target, code) => http_Redirect r target code
  | None =>
    let resolved := resolveWebsiteKey key (bw_IndexDocument cfg) in
    o ← lookupObject bucket resolved;
    match o with
    | Ok obj => writeObject r resolved obj StatusOK
    | Err _ =>
      dir ← (if negb (String.eqb key "") && negb (HasSuffix key "/")
             then lookupObject bucket (key +:+ "/" +:+ websiteIndexDocument (bw_IndexDocument cfg))
             else mret (Err ErrNotFound));
      match dir with
      | Ok _ => redirectToDirectoryPath r
      | Err _ =>
        o ← (if negb (String.eqb resolved key) then lookupObject bucket key else mret (Err ErrNotFound));
        match o with
        | Ok obj => writeObject r resolved obj StatusOK
        | Err _ => serve_missing r cfg bucket key
        end
      end
    end
  end.

Definition website_ServeHTTP (r : request) : HM unit :=
  if negb (String.eqb (rq_Method r) "GET") && negb (String.eqb (rq_Method r) "HEAD")
  then WriteHeader StatusMethodNotAllowed
  else if negb (wh_ready h) then http_Error "website service unavailable" StatusServiceUnavailable
  else match resolveBucketAndKey h r with
  | None => http_NotFound
  | Some (bucket, key) =>
    cfg ← query_store (GetBucketWebsite bucket);
    match cfg with
    | Err _ => http_NotFound
    | Ok cfg =>
      if negb (bw_Enabled cfg) || negb (bw_PublicRead cfg) then http_NotFound
      else serve_website r cfg bucket key
    end
  end.
End website.
