(* ===== verification/S3Facts.v ===== *)
(** * Facts about handlers

    Which handlers answer, and what they leave alone. *)
From S2P Require Import Prelude GoStrings Model MemoryStore FileSystem Blob Listing Http Sse.
From S2P Require Import S3State S3Object S3Events S3Bucket S3ObjectOps S3Multipart.
From S2P Require Import S3Router.

Section logic.
Context {P : Type}.
Abbreviation HM := (M (s3_state P)).

Definition status (s : s3_state P) : option Z := rs_Status (s3_resp s).

(** The action returns, and a status once written stays. *)
Definition safe {A} (m : HM A) : Prop := ∀ s,
  (∃ a, (m s).2 = Ok a) ∧ (is_Some (status s) → is_Some (status (m s).1)).

(** The action returns with a status written. *)
Definition answers {A} (m : HM A) : Prop := ∀ s,
  (∃ a, (m s).2 = Ok a) ∧ is_Some (status (m s).1).

(** The action returns, and where its result is not [ok] it has answered. *)
Definition decides {A} (ok : A → bool) (m : HM A) : Prop := ∀ s,
  ∃ a, (m s).2 = Ok a ∧ (is_Some (status s) → is_Some (status (m s).1)) ∧
       (ok a = false → is_Some (status (m s).1)).

Lemma answers_safe {A} (m : HM A) : answers m → safe m.
Proof. intros Hm s. destruct (Hm s). by split. Qed.

Lemma safe_ret {A} (a : A) : safe (mret a).
Proof. intros s. split; [by eexists|done]. Qed.

Lemma safe_bind {A B} (m : HM A) (f : A → HM B) : safe m → (∀ a, safe (f a)) → safe (mbind f m).
Proof.
  intros Hm Hf s. destruct (Hm s) as [[a Ha] Hs]. unfold mbind, M_bind.
  destruct (m s) as [s' r]. simpl in *. subst. destruct (Hf a s') as [Hr Hs']. split; [done|]. auto.
Qed.

Lemma answers_bind_r {A B} (m : HM A) (f : A → HM B) :
  safe m → (∀ a, answers (f a)) → answers (mbind f m).
Proof.
  intros Hm Hf s. destruct (Hm s) as [[a Ha] Hs]. unfold mbind, M_bind.
  destruct (m s) as [s' r]. simpl in *. subst. apply Hf.
Qed.

Lemma answers_bind_l {A B} (m : HM A) (f : A → HM B) :
  answers m → (∀ a, safe (f a)) → answers (mbind f m).
Proof.
  intros Hm Hf s. destruct (Hm s) as [[a Ha] Hs]. unfold mbind, M_bind.
  destruct (m s) as [s' r]. simpl in *. subst. destruct (Hf a s') as [Hr Hs']. split; [done|]. auto.
Qed.

Lemma answers_bind_decides {A B} ok (m : HM A) (f : A → HM B) :
  decides ok m → (∀ a, ok a = true → answers (f a)) → (∀ a, ok a = false → safe (f a)) →
  answers (mbind f m).
Proof.
  intros Hm Ht Hf s. destruct (Hm s) as (a & Ha & Hs & Hd). unfold mbind, M_bind.
  destruct (m s) as [s' r]. simpl in *. subst. destruct (ok a) eqn:E; [by apply Ht|].
  destruct (Hf a E s') as [Hr Hs']. split; [done|]. auto.
Qed.

Lemma safe_on_resp f :
  (∀ w, is_Some (rs_Status w) → is_Some (rs_Status (f w))) → safe (on_resp f : HM unit).
Proof. intros Hf s. split; [by eexists|]. apply Hf. Qed.

Lemma safe_setHeader k v : safe (setHeader k v : HM unit).
Proof. by apply safe_on_resp. Qed.
Lemma safe_updHeader f : safe (updHeader f : HM unit).
Proof. by apply safe_on_resp. Qed.
Lemma answers_WriteHeader c : answers (WriteHeader c : HM unit).
Proof. intros s. split; [by eexists|]. apply rs_write_header_status. Qed.
Lemma answers_Write p : answers (Write p : HM unit).
Proof. intros s. split; [by eexists|]. simpl. apply rs_write_header_status. Qed.
Lemma safe_query_store {A} (f : memoryBackedStore P → result A) : safe (query_store f).
Proof. intros s. split; [by eexists|done]. Qed.
Lemma safe_on_store {A} (m : M (memoryBackedStore P) A) : safe (on_store m).
Proof. intros s. unfold on_store. destruct (m (s3_store s)). split; [by eexists|done]. Qed.
Lemma safe_on_blob {A} (m : M world A) : safe (on_blob m : HM (result A)).
Proof. intros s. unfold on_blob. destruct (m (s3_world s)). split; [by eexists|done]. Qed.
Lemma safe_now : safe (s3_now : HM Z).
Proof. intros s. split; [by eexists|done]. Qed.
Lemma safe_emit e : safe (emit e : HM unit).
Proof. intros s. split; [by eexists|done]. Qed.
Lemma safe_rand_bytes `{!Randomness} n : safe (rand_bytes n : HM (result string)).
Proof. intros s. split; [by eexists|done]. Qed.

Lemma safe_forM {A} (l : list A) (body : A → HM unit) :
  (∀ x, safe (body x)) → safe (forM l body).
Proof.
  intros Hb. induction l as [|x l IH]; [apply safe_ret|]. apply safe_bind; [done|]. by intros [].
Qed.

Lemma answers_writeXML c d : answers (writeXML c d : HM unit).
Proof.
  apply answers_bind_r; [apply safe_setHeader|]. intros _. apply answers_bind_r; [|intros _; apply answers_Write].
  apply answers_safe, answers_WriteHeader.
Qed.
Lemma answers_writeS3Error r spec : answers (writeS3Error r spec : HM unit).
Proof.
  apply answers_bind_r; [apply safe_setHeader|]. intros _. apply answers_bind_r; [|intros _; apply answers_Write].
  apply answers_safe, answers_WriteHeader.
Qed.
End logic.

Create HintDb answers.
#[export] Hint Resolve safe_ret safe_setHeader safe_updHeader answers_WriteHeader answers_Write
  safe_query_store safe_on_store safe_on_blob safe_now safe_emit safe_rand_bytes
  answers_writeXML answers_writeS3Error : answers.

(** Follows the structure of a handler. *)
Ltac answer_step :=
  cbv zeta;
  match goal with
  | |- answers (match ?x with _ => _ end) => destruct x
  | |- safe (match ?x with _ => _ end) => destruct x
  | |- safe (mbind _ _) => apply safe_bind; [|intros]
  | |- safe (forM _ _) => apply safe_forM; intros
  | |- answers (runHeavy _ _ _ _) => unfold runHeavy
  | |- answers (mbind _ _) =>
      first [apply answers_bind_l; [solve [auto with answers]|intros]
            |apply answers_bind_r; [|intros]]
  | |- safe _ => solve [auto with answers]
  | |- safe _ => apply answers_safe
  | |- answers _ => solve [auto with answers]
  end.
Ltac answer := repeat answer_step.

Section handlers.
Context `{!GoRuntime} `{!TimeFormats} `{!RequestCodecs} `{!Randomness}.
Context `{!JsonCodec listV2ContinuationToken} `{!Hashes} `{!TempNames} `{!BlockCipher}.
Context {P : Type} `{!StatePersister P}.
Abbreviation HM := (M (s3_state P)).
Variable a : s3API.

Lemma safe_emitAudit r act out b k reason : safe (emitAudit a r act out b k reason : HM unit).
Proof. unfold emitAudit. answer. Qed.
Lemma safe_newVersionID : safe (newVersionID : HM string).
Proof. unfold newVersionID. answer. Qed.
Lemma safe_emitObjectNotification e o : safe (emitObjectNotification e o : HM unit).
Proof. unfold emitObjectNotification. answer. Qed.
Lemma safe_emitReplication o : safe (emitReplication o : HM unit).
Proof. unfold emitReplication. answer. Qed.
Lemma safe_write_versionID b : safe (write_versionID b : HM string).
Proof. unfold write_versionID. destruct (String.eqb _ _); [apply safe_newVersionID|answer]. Qed.
Lemma safe_overwrite_locked b k v : safe (overwrite_locked b k v : HM bool).
Proof. unfold overwrite_locked. answer. Qed.
Lemma safe_delete_blob ref : safe (delete_blob a ref : HM unit).
Proof. unfold delete_blob. answer. Qed.
Lemma safe_writeMaybe ref src e : safe (writeMaybeEncryptedObject a ref src e : HM (result ObjectMeta)).
Proof. unfold writeMaybeEncryptedObject. answer. Qed.
Lemma safe_stream_object o br : safe (stream_object a o br : HM unit).
Proof. unfold stream_object. answer; apply answers_safe, answers_Write. Qed.
Lemma safe_find_upload b k u : safe (find_upload b k u : HM _).
Proof. unfold find_upload. answer. Qed.
Lemma safe_assemble u st id ns ref : safe (assemble a u st id ns ref : HM _).
Proof. unfold assemble. answer. Qed.
#[local] Hint Resolve safe_emitAudit safe_newVersionID safe_emitObjectNotification
  safe_emitReplication safe_write_versionID safe_overwrite_locked safe_delete_blob
  safe_writeMaybe safe_stream_object safe_find_upload safe_assemble : answers.
Lemma safe_remove_version v : safe (remove_version a v : HM unit).
Proof. unfold remove_version. answer. Qed.
#[local] Hint Resolve safe_remove_version : answers.

Lemma answers_delete_config r b msg (m : M (memoryBackedStore P) unit) :
  answers (delete_config r b msg m : HM unit).
Proof. unfold delete_config. answer. Qed.
Lemma answers_put_config r b msg c (m : M (memoryBackedStore P) unit) :
  answers (put_config r b msg c m : HM unit).
Proof. unfold put_config. answer. Qed.
Lemma answers_get_config {A} r b code missing msg (g : memoryBackedStore P → result A)
    (k : A → HM unit) : (∀ x, answers (k x)) → answers (get_config r b code missing msg g k).
Proof. intros Hk. unfold get_config. answer; auto. Qed.
Lemma answers_with_bucket r b (k : Bucket → HM unit) :
  (∀ x, answers (k x)) → answers (with_bucket r b k).
Proof. intros Hk. unfold with_bucket. answer; auto. Qed.
Lemma answers_acl_target r b key (k : HM unit) : answers k → answers (acl_target r b key k).
Proof. intros Hk. unfold acl_target. answer; auto. by apply answers_with_bucket. Qed.
Lemma answers_with_object r b k (f : ObjectVersion → string → HM unit) :
  (∀ o v, answers (f o v)) → answers (with_object r b k f).
Proof. intros Hf. unfold with_object. answer; auto. Qed.
Lemma answers_put_or_500 r b k msg (m : M (memoryBackedStore P) unit) :
  answers (put_or_500 r b k msg m : HM unit).
Proof. unfold put_or_500. answer. Qed.
Lemma answers_locked_error r : answers (writeObjectLockedError r : HM unit).
Proof. apply answers_writeS3Error. Qed.
Lemma answers_not_modified r p : answers (not_modified r p : HM unit).
Proof. unfold not_modified. answer. Qed.

Lemma decides_ret {A} (ok : A → bool) (x : A) : ok x = true → decides ok (mret x : HM A).
Proof. intros Hx s. exists x. split; [done|]. split; [done|]. congruence. Qed.
Lemma decides_answered {A} (ok : A → bool) (m : HM unit) (x : A) :
  answers m → decides ok (m ;; mret x).
Proof.
  intros Hm s. destruct (Hm s) as [[u Hu] Hs]. exists x. unfold mbind, M_bind.
  destruct (m s) as [s' r]. simpl in *. subst. done.
Qed.

Lemma decides_validateSSE r b k :
  decides (λ o, bool_decide (is_Some o)) (validateSSEHeaders a r b k : HM (option bool)).
Proof.
  unfold validateSSEHeaders. destruct (sseRequested r) as [req alg].
  repeat case_match; first [by apply decides_ret | apply decides_answered; auto with answers].
Qed.
Lemma decides_validateChecksum r l : decides (λ b : bool, b) (validateChecksumHeaders r l : HM bool).
Proof.
  unfold validateChecksumHeaders.
  case_match; first [by apply decides_ret | apply decides_answered; auto with answers].
Qed.
Lemma decides_conditions r o p : decides (λ b : bool, b) (objectConditionsPass r o p : HM bool).
Proof.
  unfold objectConditionsPass.
  repeat case_match; first [by apply decides_ret
    | apply decides_answered; auto using answers_not_modified with answers].
Qed.

#[local] Hint Resolve answers_delete_config answers_put_config answers_put_or_500
  answers_locked_error answers_not_modified : answers.

(** The steps where a helper may have answered. *)
Ltac decide_sse := eapply answers_bind_decides;
  [apply decides_validateSSE|intros [?|] ?; [|done]|intros [?|] ?; [done|]].
Ltac decide_bool lem := eapply answers_bind_decides;
  [apply lem|intros ? ->; cbn [negb]|intros ? ->; cbn [negb]; answer].

Lemma answers_handlePutObject r b k : answers (handlePutObject a r b k : HM unit).
Proof.
  unfold handlePutObject, runHeavy. destruct (rq_Acquire r); [|auto with answers].
  apply answers_with_bucket. intros bkt. answer_step; [answer|]. answer_step; [answer|].
  answer_step; [apply answers_locked_error|]. decide_sse; [|answer].
  answer_step; [answer|]. answer_step; [|answer]. answer_step; [answer|].
  decide_bool decides_validateChecksum. answer.
Qed.

Lemma answers_handleGetObject r b k h : answers (handleGetObject a r b k h : HM unit).
Proof.
  unfold handleGetObject. answer_step; [answer|]. answer_step; [|answer]. answer_step; [answer|].
  decide_bool decides_conditions. answer.
Qed.

Lemma answers_handleDeleteObject r b k : answers (handleDeleteObject a r b k : HM unit).
Proof.
  unfold handleDeleteObject, delete_one_version. answer.
Qed.

Lemma answers_handleCopyObject r b k : answers (handleCopyObject a r b k : HM unit).
Proof.
  unfold handleCopyObject, runHeavy. destruct (rq_Acquire r); [|auto with answers].
  destruct (SplitN _ _ _) as [|sb [|sk [|]]]; [answer..| |answer].
  answer_step; [answer|]. answer_step; [|answer]. answer_step; [answer|].
  decide_bool decides_conditions. decide_sse; [|answer].
  apply answers_with_bucket. intros bkt. answer.
Qed.

Lemma answers_handleObjectTagging r b k : answers (handleObjectTagging r b k : HM unit).
Proof. apply answers_with_object. intros. answer. Qed.
Lemma answers_handleObjectRetention r b k : answers (handleObjectRetention r b k : HM unit).
Proof. apply answers_with_object. intros. answer. Qed.
Lemma answers_handleObjectLegalHold r b k : answers (handleObjectLegalHold r b k : HM unit).
Proof. apply answers_with_object. intros. answer. Qed.

Lemma safe_delete_loop b bucket quiet objs acc : safe (delete_loop a b bucket quiet objs acc : HM _).
Proof.
  revert acc. induction objs as [|o objs IH]; intros acc; simpl; [answer|].
  unfold entry_locked, delete_entry. answer; apply IH.
Qed.

Lemma answers_handleDeleteObjects r b : answers (handleDeleteObjects a r b : HM unit).
Proof.
  apply answers_with_bucket. intros bkt. answer_step; [|answer].
  apply answers_bind_r; [apply safe_delete_loop|intros; answer].
Qed.

Lemma answers_handleCreateMultipartUpload r b k :
  answers (handleCreateMultipartUpload a r b k : HM unit).
Proof. unfold handleCreateMultipartUpload. answer_step; [answer|]. decide_sse; answer. Qed.
Lemma answers_handleUploadPart r b k u : answers (handleUploadPart a r b k u : HM unit).
Proof.
  unfold handleUploadPart, runHeavy. destruct (rq_Acquire r); [|auto with answers].
  cbv zeta. destruct (Atoi _); [|answer]. answer_step; [answer|]. answer_step; [answer|].
  answer_step; [|answer]. answer_step; [answer|]. answer_step; [|answer].
  decide_bool decides_validateChecksum. answer.
Qed.
Lemma answers_handleListParts r b k u : answers (handleListParts r b k u : HM unit).
Proof. unfold handleListParts. answer. Qed.
Lemma answers_handleComplete r b k u : answers (handleCompleteMultipartUpload a r b k u : HM unit).
Proof.
  unfold handleCompleteMultipartUpload, runHeavy. destruct (rq_Acquire r); [|auto with answers].
  answer_step; [answer|]. answer_step; [|answer]. answer_step. answer_step; [|answer].
  answer_step; [|answer]. answer_step; [answer|]. answer_step; [answer|]. answer_step; [answer|].
  apply answers_with_bucket. intros bkt. answer.
Qed.
Lemma answers_handleAbort r b k u : answers (handleAbortMultipartUpload a r b k u : HM unit).
Proof. unfold handleAbortMultipartUpload. answer. Qed.

Lemma routes_answer :
  Forall (λ '(_, _, h), ∀ (r : request) (b : string), answers (h r b : HM unit)) (bucket_routes a).
Proof.
  unfold bucket_routes.
  repeat (apply Forall_cons; split; [intros r b|]); [..|apply Forall_nil; done].
  all: unfold handlePutBucketWebsite, handleGetBucketWebsite, handleDeleteBucketWebsite,
    handlePutBucketCORS, handleGetBucketCORS, handleDeleteBucketCORS,
    handlePutBucketPolicy, handleGetBucketPolicy, handleDeleteBucketPolicy,
    handlePutPublicAccessBlock, handleGetPublicAccessBlock, handleDeletePublicAccessBlock,
    handlePutBucketLifecycle, handleGetBucketLifecycle, handleDeleteBucketLifecycle,
    handlePutBucketNotification, handleGetBucketNotification, handleDeleteBucketNotification,
    handlePutBucketReplication, handleGetBucketReplication, handleDeleteBucketReplication,
    handleGetACL, handlePutACL, handlePutBucketVersioning, handleGetBucketVersioning,
    handleListObjectVersions, handleGetBucketLocation, handleListMultipartUploads.
  all: first [apply answers_handleDeleteObjects | idtac].
  all: repeat (first [apply answers_with_bucket; intros | apply answers_acl_target
    | apply answers_get_config; intros]); answer.
Qed.

Lemma answers_bucket_request r b : answers (handleBucketRequest a r b : HM unit).
Proof.
  unfold handleBucketRequest. destruct (find_route r (bucket_routes a)) as [h|] eqn:E.
  - unfold find_route in E. destruct (List.find _ _) as [[[m f] h']|] eqn:Ef; [|done].
    injection E as <-. apply find_some in Ef as [Hin _].
    pose proof routes_answer as Hr. rewrite Forall_forall in Hr.
    by apply (Hr (m, f, h') (proj2 (list_elem_of_In _ _) Hin)).
  - unfold handleListObjectsV2, handleCreateBucket, handleDeleteBucket. answer.
Qed.

Lemma answers_object_request r b k : answers (handleObjectRequest a r b k : HM unit).
Proof.
  apply answers_with_bucket. intros _. unfold handleMultipartWithUploadID, handleGetACL, handlePutACL.
  repeat case_match; auto using answers_handleCopyObject, answers_handleObjectTagging,
    answers_handleObjectRetention, answers_handleObjectLegalHold, answers_handleUploadPart,
    answers_handleListParts, answers_handleComplete, answers_handleAbort,
    answers_handleCreateMultipartUpload, answers_handlePutObject, answers_handleGetObject,
    answers_handleDeleteObject, answers_writeS3Error.
  all: apply answers_acl_target; answer.
Qed.
End handlers.
