(* ===== verification/S3Frames.v ===== *)
(** * What handlers touch

    Quiet steps (events and random draws only), mild steps (the response too), the
    state after a successful PUT, reading back what was written, and the frame of
    the writes: everything but the version they write. *)
From S2P Require Import Prelude GoStrings StringFacts Base64 Model MemoryStore MemoryStoreFacts.
From S2P Require Import MemoryStoreProps FileSystem Blob BlobFacts Listing Http AwsChunked Sse.
From S2P Require Import S3State S3Object S3Events S3Bucket S3ObjectOps S3Multipart.
From S2P Require Import S3Router S3Facts.

(** ** Steps that leave the store, the files and the response alone *)
Section quiet.
Context {P : Type}.
Abbreviation HM := (M (s3_state P)).

Record same_core (s s' : s3_state P) : Prop := {
  sc_store : s3_store s' = s3_store s;
  sc_world : s3_world s' = s3_world s;
  sc_resp : s3_resp s' = s3_resp s;
}.

Definition quiet {A} (m : HM A) : Prop := ∀ s, ∃ s' a, m s = (s', Ok a) ∧ same_core s s'.

Lemma same_core_refl s : same_core s s.
Proof. done. Qed.
Lemma same_core_trans s1 s2 s3 : same_core s1 s2 → same_core s2 s3 → same_core s1 s3.
Proof. intros [] []. split; congruence. Qed.

Lemma quiet_ret {A} (a : A) : quiet (mret a).
Proof. intros s. by exists s, a. Qed.
Lemma quiet_bind {A B} (m : HM A) (f : A → HM B) : quiet m → (∀ a, quiet (f a)) → quiet (mbind f m).
Proof.
  intros Hm Hf s. destruct (Hm s) as (s1 & x & E & Hs). destruct (Hf x s1) as (s2 & y & E2 & Hs2).
  exists s2, y. unfold mbind, M_bind. rewrite E. split; [done|]. by eapply same_core_trans.
Qed.
Lemma quiet_query {A} (f : memoryBackedStore P → result A) : quiet (query_store f).
Proof. intros s. by eexists s, _. Qed.
Lemma quiet_now : quiet s3_now.
Proof. intros s. by eexists s, _. Qed.
Lemma quiet_emit e : quiet (emit e).
Proof. intros s. by eexists _, _. Qed.
Lemma quiet_rand `{!Randomness} n : quiet (rand_bytes n).
Proof. intros s. by eexists _, _. Qed.
Lemma quiet_forM {A} (l : list A) (body : A → HM unit) : (∀ x, quiet (body x)) → quiet (forM l body).
Proof.
  intros Hb. induction l as [|x l IH]; [apply quiet_ret|]. apply quiet_bind; [done|]. by intros [].
Qed.

(** Going on after a quiet step. *)
Lemma bind_quiet {A B} (m : HM A) (f : A → HM B) s :
  quiet m → ∃ s1 a, m s = (s1, Ok a) ∧ same_core s s1 ∧ mbind f m s = f a s1.
Proof.
  intros Hm. destruct (Hm s) as (s1 & x & E & Hs). exists s1, x. split_and!; [done..|].
  unfold mbind, M_bind. by rewrite E.
Qed.

Lemma quiet_exec (m : HM unit) s : quiet m → same_core s (exec m s).
Proof. intros Hm. destruct (Hm s) as (s' & x & E & Hs). unfold exec. by rewrite E. Qed.

Lemma status_writeS3Error r spec (s : s3_state P) :
  status s = None → status (exec (writeS3Error r spec) s) = Some (se_StatusCode spec) ∧
  s3_store (exec (writeS3Error r spec) s) = s3_store s ∧
  s3_world (exec (writeS3Error r spec) s) = s3_world s.
Proof.
  unfold status. destruct s as [st w d e [c h sent body]]. simpl. intros ->. done.
Qed.
End quiet.

(** A request answered with an error was not answered with a success. *)
Ltac refused Hr :=
  match type of Hr with
  | status (exec (writeS3Error ?r ?spec) ?s) = _ =>
      let E := fresh in assert (status s = None) as E by assumption;
      rewrite (proj1 (status_writeS3Error r spec s E)) in Hr
  end.


Create HintDb quiet.
#[export] Hint Resolve quiet_ret quiet_bind quiet_query quiet_now quiet_emit quiet_rand quiet_forM : quiet.

Ltac quiet_solve :=
  repeat match goal with
  | |- quiet (mbind _ _) => apply quiet_bind; [|intros]
  | |- quiet (match ?x with _ => _ end) => destruct x
  | |- quiet (forM _ _) => apply quiet_forM; intros
  | |- _ => solve [auto with quiet]
  end.

Section s3.
Context `{!GoRuntime} `{!TimeFormats} `{!RequestCodecs} `{!Randomness}.
Context `{!JsonCodec listV2ContinuationToken} `{!Hashes} `{!TempNames} `{!BlockCipher}.
Context {P : Type} `{!StatePersister P}.
Abbreviation HM := (M (s3_state P)).
Variable a : s3API.

Lemma quiet_emitAudit r act out b k reason : quiet (emitAudit a r act out b k reason : HM unit).
Proof. unfold emitAudit. quiet_solve. Qed.
Lemma quiet_newVersionID : quiet (newVersionID : HM string).
Proof. unfold newVersionID. quiet_solve. Qed.
Lemma quiet_write_versionID b : quiet (write_versionID b : HM string).
Proof. unfold write_versionID. destruct (String.eqb _ _); [apply quiet_newVersionID|quiet_solve]. Qed.
Lemma quiet_overwrite_locked b k v : quiet (overwrite_locked b k v : HM bool).
Proof. unfold overwrite_locked. quiet_solve. Qed.
Lemma quiet_emitObjectNotification e o : quiet (emitObjectNotification e o : HM unit).
Proof. unfold emitObjectNotification. quiet_solve. Qed.
Lemma quiet_emitReplication o : quiet (emitReplication o : HM unit).
Proof. unfold emitReplication. quiet_solve. Qed.

(** ** Answers *)

(** A fresh request on a state. *)
Definition fresh (s : s3_state P) : s3_state P :=
  mkS3State (s3_store s) (s3_world s) (s3_draws s) (s3_events s) new_response.

Definition serve (h : HM unit) (s : s3_state P) : s3_state P := exec h (fresh s).

Lemma exec_bind_quiet {A B} (m : HM A) (f : A → HM B) s :
  quiet m → ∃ s1 x, m s = (s1, Ok x) ∧ same_core s s1 ∧ exec (mbind f m) s = exec (f x) s1.
Proof.
  intros Hm. destruct (bind_quiet m f s Hm) as (s1 & x & E & Hs & Eb). exists s1, x.
  unfold exec. rewrite Eb. done.
Qed.

Lemma exec_on_store {A B} (m : M (memoryBackedStore P) A) (f : result A → HM B) s :
  exec (mbind f (on_store m)) s =
  exec (f (m (s3_store s)).2)
    (mkS3State (m (s3_store s)).1 (s3_world s) (s3_draws s) (s3_events s) (s3_resp s)).
Proof. unfold exec, mbind, M_bind, on_store. by destruct (m (s3_store s)). Qed.

Lemma exec_on_blob {A B} (m : M world A) (f : result A → HM B) s :
  exec (mbind f (on_blob m)) s =
  exec (f (m (s3_world s)).2)
    (mkS3State (s3_store s) (m (s3_world s)).1 (s3_draws s) (s3_events s) (s3_resp s)).
Proof. unfold exec, mbind, M_bind, on_blob. by destruct (m (s3_world s)). Qed.

Lemma exec_on_resp {B} (g : response s3_doc → response s3_doc) (f : unit → HM B) s :
  exec (mbind f (on_resp g)) s =
  exec (f tt) (mkS3State (s3_store s) (s3_world s) (s3_draws s) (s3_events s) (g (s3_resp s))).
Proof. done. Qed.

Lemma exec_query {A B} (g : memoryBackedStore P → result A) (f : result A → HM B) s :
  exec (mbind f (query_store g)) s = exec (f (g (s3_store s))) s.
Proof. done. Qed.


Lemma validateSSE_cases r b k (s : s3_state P) :
  (∃ enc, validateSSEHeaders a r b k s = (s, Ok (Some enc)) ∧
     (enc = true → String.length (api_sseKey a) = 32%nat)) ∨
  (∃ spec, validateSSEHeaders a r b k s = (exec (writeS3Error r spec) s, Ok None) ∧
     se_StatusCode spec = StatusBadRequest).
Proof.
  unfold validateSSEHeaders. destruct (sseRequested r) as [req alg].
  destruct req; simpl negb; cbv iota; [|left; by exists false].
  destruct (String.eqb alg sseAlgorithmAES256); simpl negb; cbv iota; [|right; by eexists].
  destruct (Nat.eqb_spec (String.length (api_sseKey a)) 32); simpl negb; cbv iota; [|right; by eexists].
  left. by exists true.
Qed.

(** What a successful write of an object's bytes is, in plain or encrypted. *)
Definition wrote (ref : ObjectRef) (src : reader) (enc : bool) (w w' : world) (m : ObjectMeta) : Prop :=
  if enc then String.length (api_sseKey a) = 32%nat ∧ ∃ iv, String.length iv = 16%nat ∧
    write_encrypted (api_blob a) (api_sseKey a) iv ref src w = (w', Ok m)
  else WriteObject (api_blob a) ref src w = (w', Ok m).

Lemma writeMaybe_cases ref src enc (s : s3_state P) :
  (enc = true → String.length (api_sseKey a) = 32%nat) →
  ∃ s' res, writeMaybeEncryptedObject a ref src enc s = (s', Ok res) ∧
    s3_store s' = s3_store s ∧ s3_resp s' = s3_resp s ∧
    (∀ m, res = Ok m → wrote ref src enc (s3_world s) (s3_world s') m).
Proof.
  intros Hk. unfold writeMaybeEncryptedObject, wrote. destruct enc; cbn [negb].
  - unfold mbind at 1, M_bind at 1. simpl.
    destruct (rand_Read (s3_draws s) sseIVSize) as [iv|e] eqn:Er.
    + unfold on_blob. simpl. destruct (write_encrypted _ _ iv ref src (s3_world s)) as [w' res] eqn:Ew.
      eexists _, res. split_and!; [done..|]. intros m ->. split; [auto|]. exists iv.
      split; [by eapply rand_Read_length|done].
    + eexists _, _. split_and!; [reflexivity..|]. intros m [=].
  - unfold on_blob. destruct (WriteObject _ _ _ _) as [w' res] eqn:Ew. eexists _, res.
    split_and!; [reflexivity..|]. by intros m ->.
Qed.

(** The state after a successful PUT. *)
Record put_effect (r : request) (b k : string) (s s' : s3_state P)
    (bkt : Bucket) (vid : string) (enc : bool) (m : ObjectMeta) : Prop := {
  pe_bucket : GetBucket b (s3_store s) = Ok bkt;
  pe_null : b_VersioningStatus bkt ≠ "Enabled" → vid = "null";
  pe_wrote : wrote (mkObjectRef b k vid) (requestObjectBody r) enc (s3_world s) (s3_world s') m;
  pe_md5 : check_md5 r b k (om_MD5Hex m) = None;
  pe_checksums : checksums_match r (checksum_headers (om_CRC32B64 m) (om_CRC32CB64 m)
    (om_SHA1B64 m) (om_SHA256B64 m)) = true;
  pe_unlocked : vid = "null" → ∀ obj, GetObjectVersion b k "null" (s3_store s) = Ok obj →
    objectLocked obj (fs_clock (s3_world s)) = false;
  pe_stored : PutObjectVersion (object_of_blob b k vid (om_MD5Hex m)
      (markSSEMetadata (collectUserMetadata (rq_Header r)) enc) m) (s3_store s) = (s3_store s', Ok tt);
}.

Lemma write_versionID_null bkt (s s1 : s3_state P) vid :
  write_versionID bkt s = (s1, Ok vid) → b_VersioningStatus bkt ≠ "Enabled" → vid = "null".
Proof.
  unfold write_versionID. intros E Hne. apply String.eqb_neq in Hne. rewrite Hne in E.
  unfold mret, M_ret in E. by simplify_eq.
Qed.

Lemma overwrite_locked_run b k vid (s s1 : s3_state P) (l : bool) :
  overwrite_locked b k vid s = (s1, Ok l) → l = false → vid = "null" →
  ∀ obj, GetObjectVersion b k "null" (s3_store s) = Ok obj →
    objectLocked obj (fs_clock (s3_world s)) = false.
Proof.
  unfold overwrite_locked. intros E Hl -> obj Hobj. rewrite String.eqb_refl in E.
  unfold mbind, M_bind, query_store, s3_now, mret, M_ret in E. rewrite Hobj in E. congruence.
Qed.

Lemma exec_bind_eq {A B} (m : HM A) (f : A → HM B) s s1 x :
  m s = (s1, Ok x) → exec (mbind f m) s = exec (f x) s1.
Proof. unfold exec, mbind, M_bind. by intros ->. Qed.

Lemma exec_ret {A} (x : A) (s : s3_state P) : exec (mret x) s = s.
Proof. done. Qed.

(** Deleting the blob touches only the files. *)
Definition after_delete (ref : ObjectRef) (s : s3_state P) : s3_state P :=
  mkS3State (s3_store s) (blob_DeleteObject (api_blob a) ref true (s3_world s)).1 (s3_draws s)
    (s3_events s) (s3_resp s).

Lemma exec_delete_blob {B} ref (f : unit → HM B) s :
  exec (mbind f (delete_blob a ref)) s = exec (f tt) (after_delete ref s).
Proof.
  unfold delete_blob, after_delete, exec, mbind, M_bind, on_blob.
  by destruct (blob_DeleteObject (api_blob a) ref true (s3_world s)).
Qed.

Lemma exec_delete_blob_last ref s : exec (delete_blob a ref) s = after_delete ref s.
Proof.
  unfold delete_blob, after_delete, exec, mbind, M_bind, on_blob.
  by destruct (blob_DeleteObject (api_blob a) ref true (s3_world s)).
Qed.

Lemma check_md5_code r b k hex spec : check_md5 r b k hex = Some spec → se_StatusCode spec = StatusBadRequest.
Proof. unfold check_md5. repeat case_match; intros; by simplify_eq. Qed.

Lemma exec_after_error {A B} r spec (x : A) (f : A → HM B) s :
  exec (mbind f (writeS3Error r spec ;; mret x)) s = exec (f x) (exec (writeS3Error r spec) s).
Proof. done. Qed.

(** [Hr]: the status an error writes is the one asked for. *)
Lemma handlePutObject_ok r b k (s : s3_state P) :
  status s = None → status (exec (handlePutObject a r b k) s) = Some StatusOK →
  ∃ bkt vid enc m, put_effect r b k s (exec (handlePutObject a r b k) s) bkt vid enc m.
Proof.
  intros Hs. unfold handlePutObject, runHeavy.
  destruct (rq_Acquire r); [|intros H'; refused H'; discriminate H'].
  unfold with_bucket. rewrite exec_query.
  destruct (GetBucket b (s3_store s)) as [bkt|e] eqn:Eb;
    [|intros H'; refused H'; discriminate H'].
  match goal with |- context [exec (mbind ?f (write_versionID bkt)) s] =>
    destruct (exec_bind_quiet (write_versionID bkt) f s (quiet_write_versionID bkt))
      as (s1 & vid & Ev & [C1 C2 C3] & ->) end.
  match goal with |- context [exec (mbind ?f (overwrite_locked b k vid)) s1] =>
    destruct (exec_bind_quiet (overwrite_locked b k vid) f s1 (quiet_overwrite_locked b k vid))
      as (s2 & l & El & [D1 D2 D3] & ->) end.
  assert (status s2 = None) as Hs2 by (unfold status in *; congruence).
  destruct l; [unfold writeObjectLockedError; intros H'; refused H'; discriminate H'|].
  destruct (validateSSE_cases r b k s2) as [(enc & E & Hk)|(spec & E & Hc)]; rewrite (exec_bind_eq _ _ _ _ _ E).
  2:{ rewrite exec_ret. intros H'. refused H'. rewrite Hc in H'. discriminate H'. }
  destruct (writeMaybe_cases (mkObjectRef b k vid) (requestObjectBody r) enc s2 Hk)
    as (s3 & res & E3 & W1 & W2 & W3). rewrite (exec_bind_eq _ _ _ _ _ E3).
  assert (status s3 = None) as Hs3 by (unfold status in *; congruence).
  destruct res as [m|e]; [|intros H'; refused H'; discriminate H'].
  destruct (check_md5 r b k (om_MD5Hex m)) as [spec|] eqn:Em.
  { rewrite exec_delete_blob. intros H'. refused H'.
    rewrite (check_md5_code _ _ _ _ _ Em) in H'. discriminate H'. }
  unfold validateChecksumHeaders. destruct (checksums_match r _) eqn:Ec.
  2:{ rewrite exec_after_error. cbn [negb]. rewrite exec_delete_blob_last. intros H'.
      change (status (exec (writeS3Error r (mkS3Error StatusBadRequest "BadDigest"
        "The checksum you specified did not match what we received." (rq_Path r))) s3) = Some StatusOK) in H'.
      refused H'; discriminate H'. }
  rewrite (exec_bind_eq (mret true) _ s3 s3 true) by done. cbn [negb].
  rewrite exec_on_store. set (v := object_of_blob _ _ _ _ _ _).
  destruct (PutObjectVersion v (s3_store s3)) as [st' res] eqn:Ep. cbn [fst snd].
  destruct res as [[]|e].
  2:{ rewrite exec_delete_blob. intros H'. refused H'; discriminate H'. }
  intros _. exists bkt, vid, enc, m. set (s' := exec _ _).
  assert (s3_store s' = st' ∧ s3_world s' = s3_world s3) as [Hst Hw].
  { subst s'. unfold setHeader, updHeader, WriteHeader. rewrite !exec_on_resp.
    match goal with |- context [exec (mbind ?f (emitObjectNotification ?e ?o)) ?s0] =>
      destruct (exec_bind_quiet (emitObjectNotification e o) f s0 (quiet_emitObjectNotification e o))
        as (s5 & [] & _ & [F1 F2 F3] & ->) end.
    destruct (quiet_exec (emitReplication v) s5 (quiet_emitReplication v)) as [G1 G2 G3].
    rewrite G1, G2, F1, F2. done. }
  split.
  - done.
  - by eapply write_versionID_null.
  - rewrite Hw. rewrite <-C2, <-D2. by apply W3.
  - done.
  - done.
  - intros Hn. rewrite <-C1, <-C2. by eapply overwrite_locked_run.
  - rewrite Hst. unfold v in Ep. rewrite W1, D1, C1 in Ep. done.
Qed.

(** ** What a write touches *)

(** Everything but the version [ref] is as it was: the files of all other object
    versions and the metadata of all other versions. *)
Definition others_kept (ref : ObjectRef) (s s' : s3_state P) : Prop :=
  (∀ ref', ObjectPath (api_blob a) ref' ≠ ObjectPath (api_blob a) ref →
     fs_files (s3_world s') !! ObjectPath (api_blob a) ref' =
     fs_files (s3_world s) !! ObjectPath (api_blob a) ref') ∧
  (∀ b k id, id ≠ "" → mkObjectRef b k id ≠ ref →
     GetObjectVersion b k id (s3_store s') = GetObjectVersion b k id (s3_store s)).

Definition frames {A} (ref : ObjectRef) (m : HM A) : Prop := ∀ s, others_kept ref s (m s).1.

Lemma others_kept_trans ref s1 s2 s3 :
  others_kept ref s1 s2 → others_kept ref s2 s3 → others_kept ref s1 s3.
Proof. intros [Ha Hb] [Hc Hd]. split; intros; [rewrite Hc, Ha|rewrite Hd, Hb]; done. Qed.

Lemma frames_bind {A B} ref (m : HM A) (f : A → HM B) :
  frames ref m → (∀ x, frames ref (f x)) → frames ref (mbind f m).
Proof.
  intros Hm Hf s. specialize (Hm s). unfold mbind, M_bind. destruct (m s) as [s' [x|e]]; [|done].
  eapply others_kept_trans; [exact Hm|apply Hf].
Qed.

Lemma frames_quiet {A} ref (m : HM A) : quiet m → frames ref m.
Proof. intros Hm s. destruct (Hm s) as (s' & x & -> & [E1 E2 _]). simpl. split; intros; congruence. Qed.

Lemma frames_on_resp ref g : frames ref (on_resp g : HM unit).
Proof. intros s. by split. Qed.

Lemma frames_on_blob {A} ref (m : M world A) :
  (∀ w ref', ObjectPath (api_blob a) ref' ≠ ObjectPath (api_blob a) ref →
     fs_files (m w).1 !! ObjectPath (api_blob a) ref' = fs_files w !! ObjectPath (api_blob a) ref') →
  frames ref (on_blob m : HM (result A)).
Proof.
  intros Hm s. unfold on_blob. specialize (Hm (s3_world s)). destruct (m (s3_world s)). by split.
Qed.

Lemma frames_on_store {A} ref (m : M (memoryBackedStore P) A) :
  (∀ st b k id, id ≠ "" → mkObjectRef b k id ≠ ref →
     GetObjectVersion b k id (m st).1 = GetObjectVersion b k id st) →
  frames ref (on_store m : HM (result A)).
Proof.
  intros Hm s. unfold on_store. specialize (Hm (s3_store s)). destruct (m (s3_store s)). by split.
Qed.

Lemma frames_writeS3Error ref r spec : frames ref (writeS3Error r spec : HM unit).
Proof. repeat (apply frames_bind; [apply frames_on_resp|intros]). apply frames_on_resp. Qed.
Lemma frames_writeXML ref c d : frames ref (writeXML c d : HM unit).
Proof. repeat (apply frames_bind; [apply frames_on_resp|intros]). apply frames_on_resp. Qed.

Lemma WriteObject_frame ref src w ref' :
  roots_apart (api_blob a) → ObjectPath (api_blob a) ref' ≠ ObjectPath (api_blob a) ref →
  fs_files (WriteObject (api_blob a) ref src w).1 !! ObjectPath (api_blob a) ref' =
  fs_files w !! ObjectPath (api_blob a) ref'.
Proof.
  intros Hr Hne. pose proof (WriteObject_spec (api_blob a) ref src (fs_files w) Hr w eq_refl) as [Ho _].
  cbv beta in Ho. destruct (WriteObject (api_blob a) ref src w) as [w' res]. simpl in *.
  unfold write_outcome in Ho. destruct (negb (is_ok res)).
  - destruct Ho as [[->|(tmp & x & Ht & ->)]|[-> _]]; [done| |by rewrite lookup_insert_ne].
    rewrite lookup_insert_ne; [done|]. intros ->. by eapply (ObjectPath_not_temp (api_blob a) ref').
  - destruct Ho as [-> _]. by rewrite lookup_insert_ne.
Qed.

Lemma write_encrypted_frame iv ref src w ref' :
  roots_apart (api_blob a) → ObjectPath (api_blob a) ref' ≠ ObjectPath (api_blob a) ref →
  fs_files (write_encrypted (api_blob a) (api_sseKey a) iv ref src w).1 !! ObjectPath (api_blob a) ref' =
  fs_files w !! ObjectPath (api_blob a) ref'.
Proof.
  intros Hr Hne. unfold write_encrypted, mbind, M_bind, lift. destruct (aes_NewCipher _); [|done].
  pose proof (WriteObject_frame ref (multi_reader [bytes_reader iv; cipher_reader (api_sseKey a) iv src]) w ref' Hr Hne) as E.
  destruct (WriteObject _ _ _ w) as [w' [m|e]]; done.
Qed.

Lemma frames_writeMaybe ref src enc :
  roots_apart (api_blob a) → frames ref (writeMaybeEncryptedObject a ref src enc : HM (result ObjectMeta)).
Proof.
  intros Hr. unfold writeMaybeEncryptedObject. destruct enc; cbn [negb].
  - apply frames_bind; [apply frames_quiet, quiet_rand|]. intros [iv|e]; [|apply frames_quiet, quiet_ret].
    apply frames_on_blob. intros. by apply write_encrypted_frame.
  - apply frames_on_blob. intros. by apply WriteObject_frame.
Qed.

Lemma frames_delete_blob ref : frames ref (delete_blob a ref : HM unit).
Proof.
  apply frames_bind; [|intros; apply frames_quiet, quiet_ret]. apply frames_on_blob. intros w ref' Hne.
  apply blob_DeleteObject_spec; [done|]. rewrite ObjectPath_length. lia.
Qed.

Lemma PutObjectVersion_frame v (st : memoryBackedStore P) b k id :
  id ≠ "" → mkObjectRef b k id ≠ version_ref v →
  GetObjectVersion b k id (PutObjectVersion v st).1 = GetObjectVersion b k id st.
Proof.
  intros Hid Hne. pose proof (PutObjectVersion_spec st v) as (_ & _ & Hs & Ho).
  destruct (decide ((b, k) = (ov_Bucket v, ov_Key v))) as [Heq|Hbk]; [|by apply Ho].
  injection Heq as -> ->. apply Hs; [done|]. intros ->. by apply Hne.
Qed.

Lemma frames_put v : frames (version_ref v) (on_store (PutObjectVersion v) : HM (result unit)).
Proof. apply frames_on_store. intros. by apply PutObjectVersion_frame. Qed.

Lemma frames_validateSSE ref r b k : frames ref (validateSSEHeaders a r b k : HM (option bool)).
Proof.
  intros s. destruct (validateSSE_cases r b k s) as [(enc & -> & _)|(spec & -> & _)]; [by split|].
  apply (frames_writeS3Error ref r spec s).
Qed.

Lemma frames_validateChecksum ref r l : frames ref (validateChecksumHeaders r l : HM bool).
Proof.
  unfold validateChecksumHeaders. destruct (checksums_match r l); [apply frames_quiet, quiet_ret|].
  apply frames_bind; [apply frames_writeS3Error|intros; apply frames_quiet, quiet_ret].
Qed.

Lemma frames_conditions ref r o p : frames ref (objectConditionsPass r o p : HM bool).
Proof.
  unfold objectConditionsPass, not_modified.
  repeat case_match; try (apply frames_quiet, quiet_ret);
    repeat (apply frames_bind; [|intros; apply frames_quiet, quiet_ret]);
    first [apply frames_writeS3Error | apply frames_on_resp].
Qed.

Create HintDb frames.
#[local] Hint Resolve frames_writeS3Error frames_writeXML frames_on_resp frames_delete_blob
  frames_validateSSE frames_validateChecksum frames_conditions : frames.

Ltac frame_step :=
  cbv zeta;
  match goal with
  | |- frames _ (match ?x with _ => _ end) => destruct x
  | |- frames _ (runHeavy _ _ _ _) => unfold runHeavy
  | |- frames _ (with_bucket _ _ _) => unfold with_bucket
  | |- frames _ (setHeader _ _) => apply frames_on_resp
  | |- frames _ (updHeader _) => apply frames_on_resp
  | |- frames _ (WriteHeader _) => apply frames_on_resp
  | |- frames _ (mbind _ _) => apply frames_bind; [|intros]
  | |- frames _ (query_store _) => apply frames_quiet, quiet_query
  | |- frames _ (mret _) => apply frames_quiet, quiet_ret
  | |- frames _ (emitObjectNotification _ _) => apply frames_quiet, quiet_emitObjectNotification
  | |- frames _ (emitReplication _) => apply frames_quiet, quiet_emitReplication
  | |- frames _ (on_store (PutObjectVersion ?v)) => apply (frames_put v)
  | |- frames _ (writeMaybeEncryptedObject _ _ _ _) => by apply frames_writeMaybe
  | |- frames _ (writeObjectLockedError _) => apply frames_writeS3Error
  | |- _ => solve [auto with frames]
  end.
Ltac frame := repeat frame_step.

(** The id a write to the bucket uses. *)
Definition write_id_ok (b : string) (s : s3_state P) (vid : string) : Prop :=
  ∀ bkt, GetBucket b (s3_store s) = Ok bkt →
    if String.eqb (b_VersioningStatus bkt) "Enabled"
    then ∃ draws, vid = FormatInt (fs_clock (s3_world s)) +:+ "-" +:+ draws
    else vid = "null".

Lemma write_versionID_ok b bkt (s s0 s1 : s3_state P) vid :
  GetBucket b (s3_store s) = Ok bkt → s3_world s0 = s3_world s →
  write_versionID bkt s0 = (s1, Ok vid) → write_id_ok b s vid.
Proof.
  intros Hb Hw E bkt' Hb'. rewrite Hb in Hb'. injection Hb' as <-. unfold write_versionID in E.
  destruct (String.eqb _ _).
  - unfold newVersionID, mbind, M_bind, rand_bytes, s3_now, mret, M_ret in E. simpl in E. rewrite Hw in E.
    injection E as _ <-. eauto.
  - unfold mret, M_ret in E. by simplify_eq.
Qed.

Lemma write_id_exists b (s : s3_state P) : ∃ vid, write_id_ok b s vid.
Proof.
  unfold write_id_ok. destruct (GetBucket b (s3_store s)) as [bkt|err]; [|by exists ""].
  destruct (String.eqb (b_VersioningStatus bkt) "Enabled") eqn:E.
  - exists (FormatInt (fs_clock (s3_world s)) +:+ "-" +:+ ""). intros bkt' [= <-]. rewrite E. eauto.
  - exists "null". intros bkt' [= <-]. by rewrite E.
Qed.

(** A handler that is framed whatever id it would draw. *)
Lemma framed_any_id b k (h : HM unit) (s : s3_state P) :
  (∀ ref, frames ref h) → ∃ vid, write_id_ok b s vid ∧ others_kept (mkObjectRef b k vid) s (exec h s).
Proof. intros Hh. destruct (write_id_exists b s) as [vid Hv]. exists vid. split; [done|]. apply Hh. Qed.

(** Steps that at most write to the response. *)
Definition same_data (s s' : s3_state P) : Prop :=
  s3_store s' = s3_store s ∧ s3_world s' = s3_world s.

Definition mild {A} (m : HM A) : Prop := ∀ s, ∃ s' x, m s = (s', Ok x) ∧ same_data s s'.

Lemma mild_quiet {A} (m : HM A) : quiet m → mild m.
Proof. intros Hm s. destruct (Hm s) as (s' & x & E & [C1 C2 _]). by exists s', x. Qed.

Lemma mild_conditions r o p : mild (objectConditionsPass r o p : HM bool).
Proof.
  intros s. unfold objectConditionsPass, not_modified. repeat case_match; by eexists _, _.
Qed.

Lemma mild_validateSSE r b k : mild (validateSSEHeaders a r b k : HM (option bool)).
Proof.
  intros s. destruct (validateSSE_cases r b k s) as [(enc & E & _)|(spec & E & _)].
  - by eexists _, _.
  - by eexists _, _.
Qed.

Lemma exec_bind_mild {A B} (m : HM A) (f : A → HM B) s :
  mild m → ∃ s' x, m s = (s', Ok x) ∧ same_data s s' ∧ exec (mbind f m) s = exec (f x) s'.
Proof.
  intros Hm. destruct (Hm s) as (s' & x & E & Hd). exists s', x. split_and!; [done..|].
  by apply exec_bind_eq.
Qed.

Lemma same_data_kept ref s s' : same_data s s' → others_kept ref s s'.
Proof. intros [E1 E2]. split; intros; congruence. Qed.

Lemma same_data_trans s1 s2 s3 : same_data s1 s2 → same_data s2 s3 → same_data s1 s3.
Proof. intros [] []. split; congruence. Qed.

Lemma framed_from b k (h : HM unit) (s s0 : s3_state P) :
  same_data s s0 → (∀ ref, frames ref h) →
  ∃ vid, write_id_ok b s vid ∧ others_kept (mkObjectRef b k vid) s (exec h s0).
Proof.
  intros Hd Hh. destruct (write_id_exists b s) as [vid Hv]. exists vid. split; [done|].
  eapply others_kept_trans; [by apply same_data_kept|apply Hh].
Qed.

(** Drawing the id, then a part that is framed by it. *)
Lemma framed_drawn b k bkt (f : string → HM unit) (s s0 : s3_state P) :
  GetBucket b (s3_store s) = Ok bkt → same_data s s0 →
  (∀ vid, frames (mkObjectRef b k vid) (f vid)) →
  ∃ vid, write_id_ok b s vid ∧
    others_kept (mkObjectRef b k vid) s (exec (mbind f (write_versionID bkt)) s0).
Proof.
  intros Hb [Hst Hw] Hf.
  destruct (exec_bind_quiet (write_versionID bkt) f s0 (quiet_write_versionID bkt))
    as (s1 & vid & Ev & [C1 C2 C3] & ->).
  exists vid. split; [by eapply write_versionID_ok|].
  eapply others_kept_trans; [|apply Hf]. split; intros; congruence.
Qed.

Ltac refused_framed := apply framed_from; [done|intros; frame].

(** The part of a handler from the destination's bucket on. *)
Lemma framed_with_bucket r b k (f : Bucket → string → HM unit) (s s0 : s3_state P) :
  same_data s s0 → (∀ bkt vid, frames (mkObjectRef b k vid) (f bkt vid)) →
  ∃ vid, write_id_ok b s vid ∧ others_kept (mkObjectRef b k vid) s
    (exec (with_bucket r b (λ bkt, vid ← write_versionID bkt; f bkt vid)) s0).
Proof.
  intros Hd Hf. unfold with_bucket. rewrite exec_query. rewrite (proj1 Hd).
  destruct (GetBucket b (s3_store s)) as [bkt|err] eqn:Eb; [|refused_framed].
  by apply framed_drawn.
Qed.

Lemma same_data_refl s : same_data s s.
Proof. done. Qed.

Lemma put_frames r b k (s : s3_state P) :
  roots_apart (api_blob a) →
  ∃ vid, write_id_ok b s vid ∧ others_kept (mkObjectRef b k vid) s (exec (handlePutObject a r b k) s).
Proof.
  intros Hr. unfold handlePutObject, runHeavy. destruct (rq_Acquire r); [|refused_framed].
  apply framed_with_bucket; [done|]. intros bkt vid. apply frames_bind.
  { apply frames_quiet, quiet_overwrite_locked. }
  intros locked. frame.
Qed.

Lemma frames_silent {A} ref (m : M world A) : silent m → frames ref (on_blob m : HM (result A)).
Proof. intros Hm. apply frames_on_blob. intros w ref' _. by rewrite Hm. Qed.

Lemma silent_readMaybe path obj br : silent (readMaybeEncryptedObject (api_sseKey a) path obj br).
Proof.
  unfold readMaybeEncryptedObject. destruct (negb (objectUsesSSE obj)); [apply silent_ReadObject|].
  destruct (negb _); [apply silent_ret|]. apply silent_bind.
  { apply silent_try. unfold os_ReadFile. auto with silent. }
  intros [content|err]; [|apply silent_ret]. apply silent_bind; [auto with silent|].
  intros [[]|err]; [|apply silent_ret]. destruct (_ <? _)%nat; [apply silent_ret|].
  cbv zeta. destruct (match br with Some r => _ | None => _ end) as [start end_].
  destruct (_ || _); [apply silent_ret|]. destruct (aes_NewCipher _); [|apply silent_ret].
  apply silent_bind; [auto with silent|]. intros [[]|err]; [|apply silent_ret].
  destruct (_ <? _)%nat; apply silent_ret.
Qed.

Lemma copy_frames r b k (s : s3_state P) :
  roots_apart (api_blob a) →
  ∃ vid, write_id_ok b s vid ∧ others_kept (mkObjectRef b k vid) s (exec (handleCopyObject a r b k) s).
Proof.
  intros Hr. unfold handleCopyObject, runHeavy. destruct (rq_Acquire r); [|refused_framed].
  destruct (SplitN _ _ _) as [|sb [|sk [|]]]; [refused_framed..| |refused_framed].
  rewrite exec_query. destruct (GetLatestObjectVersion sb sk (s3_store s)) as [obj|err]; [|refused_framed].
  destruct (ov_DeleteMarker obj); [refused_framed|].
  match goal with |- context [exec (mbind ?f (objectConditionsPass r obj ?p)) s] =>
    destruct (exec_bind_mild _ f s (mild_conditions r obj p)) as (s1 & pass & _ & D1 & ->) end.
  destruct pass; cbn [negb]; [|refused_framed].
  match goal with |- context [exec (mbind ?f (validateSSEHeaders a r b k)) s1] =>
    destruct (exec_bind_mild _ f s1 (mild_validateSSE r b k)) as (s2 & sse & _ & D2 & ->) end.
  pose proof (same_data_trans _ _ _ D1 D2) as D.
  destruct sse as [enc|]; [|refused_framed].
  apply framed_with_bucket; [done|]. intros bkt vid. apply frames_bind.
  { apply frames_quiet, quiet_overwrite_locked. }
  intros locked. destruct locked; [frame|]. cbv zeta.
  apply frames_bind; [apply frames_silent, silent_readMaybe|]. intros piped.
  destruct (match piped with Ok p => p | Err e => ("", Some e) end) as [bytes readErr]. frame.
Qed.

(** ** Completing an upload *)
Definition file_frame {A} (ref : ObjectRef) (m : M world A) : Prop :=
  ∀ w ref', ObjectPath (api_blob a) ref' ≠ ObjectPath (api_blob a) ref →
    fs_files (m w).1 !! ObjectPath (api_blob a) ref' = fs_files w !! ObjectPath (api_blob a) ref'.

Lemma file_frame_bind {A B} ref (m : M world A) (f : A → M world B) :
  file_frame ref m → (∀ x, file_frame ref (f x)) → file_frame ref (mbind f m).
Proof.
  intros Hm Hf w ref' Hne. unfold mbind, M_bind. specialize (Hm w ref' Hne).
  destruct (m w) as [w' [x|err]]; [|done]. simpl in *. by rewrite <-Hm, <-(Hf x w' ref' Hne).
Qed.

Lemma file_frame_silent {A} ref (m : M world A) : silent m → file_frame ref m.
Proof. intros Hm w ref' _. by rewrite Hm. Qed.

Lemma file_frame_guard {A} ref (m : M world A) msg :
  file_frame ref m → file_frame ref (guard_io m no_cleanup msg).
Proof.
  intros Hm w ref' Hne. specialize (Hm w ref' Hne). unfold guard_io, ignore, no_cleanup, mbind, M_bind, try.
  by destruct (m w) as [w' [x|err]].
Qed.

Lemma file_frame_RemoveAll ref id :
  staging_apart (api_blob a) → file_frame ref (os_RemoveAll (multipartUploadDir (api_blob a) id)).
Proof.
  intros Hs w ref' _. rewrite os_RemoveAll_spec, ObjectPath_not_staged by done.
  by rewrite andb_false_r.
Qed.

Lemma file_frame_Rename ref id n :
  staging_apart (api_blob a) →
  file_frame ref (os_Rename (multipartPartPath (api_blob a) id n) (ObjectPath (api_blob a) ref)).
Proof.
  intros Hs w ref' Hne. unfold os_Rename, mbind, M_bind, get. pose proof (silent_fault_point w) as Hf.
  destruct (fault_point w) as [w1 [[]|err]]; simpl in *; [|by rewrite Hf]. rewrite <-Hf.
  destruct (fs_files w1 !! multipartPartPath (api_blob a) id n) eqn:E; [|done].
  case_bool_decide; [|done]. simpl. rewrite lookup_insert_ne by done. rewrite lookup_delete_ne; [done|].
  intros Heq. pose proof (ObjectPath_not_staged (api_blob a) ref' id Hs) as Hn.
  rewrite <-Heq in Hn. unfold in_dir, multipartPartPath in Hn. by rewrite below_join, orb_true_r in Hn.
Qed.

Lemma file_frame_complete ref id ns write :
  staging_apart (api_blob a) → (∀ src, file_frame ref (write src)) →
  file_frame ref (CompleteMultipartUploadWithWriter (api_blob a) id ns write).
Proof.
  intros Hs Hw. unfold CompleteMultipartUploadWithWriter. destruct ns as [|n ns].
  { apply file_frame_silent, silent_throw. }
  apply file_frame_bind; [apply file_frame_silent, silent_open_parts|]. intros rs.
  apply file_frame_bind; [apply Hw|]. intros m.
  apply file_frame_bind; [|intros; apply file_frame_silent, silent_ret].
  apply file_frame_guard, file_frame_RemoveAll, Hs.
Qed.

Lemma file_frame_promote ref id n part :
  staging_apart (api_blob a) → file_frame ref (PromoteMultipartPart (api_blob a) id n ref part).
Proof.
  intros Hs. unfold PromoteMultipartPart. cbv zeta.
  apply file_frame_bind; [apply file_frame_guard, file_frame_silent, silent_MkdirAll|intros _].
  apply file_frame_bind; [apply file_frame_guard, file_frame_Rename, Hs|intros _].
  apply file_frame_bind; [apply file_frame_guard, file_frame_silent, silent_syncParentDir|intros _].
  apply file_frame_bind; [apply file_frame_guard, file_frame_RemoveAll, Hs|intros _].
  apply file_frame_bind; [apply file_frame_silent, silent_blob_now|intros now].
  apply file_frame_silent, silent_ret.
Qed.

Lemma frames_assemble u stored id ns ref :
  roots_apart (api_blob a) → staging_apart (api_blob a) →
  frames ref (assemble a u stored id ns ref : HM (result ObjectMeta)).
Proof.
  intros Hr Hs. unfold assemble. destruct (String.eqb _ _).
  - apply frames_bind; [apply frames_quiet, quiet_rand|]. intros iv. apply frames_on_blob.
    apply file_frame_complete; [done|]. intros src. destruct iv; [|apply file_frame_silent, silent_throw].
    intros w ref' Hne. by apply write_encrypted_frame.
  - assert (∀ l, frames ref (on_blob (CompleteMultipartUpload (api_blob a) id l ref) : HM (result ObjectMeta))) as Hc.
    { intros l. apply frames_on_blob, file_frame_complete; [done|]. intros src w ref' Hne.
      by apply WriteObject_frame. }
    destruct ns as [|n [|n' ns]]; [apply Hc| |apply Hc].
    apply frames_on_blob, file_frame_promote, Hs.
Qed.

Lemma DeleteMultipartUpload_objects id (st : memoryBackedStore P) :
  st_objects (ms_st (DeleteMultipartUpload id st).1) = st_objects (ms_st st).
Proof.
  unfold DeleteMultipartUpload, change_and_persist, mbind, M_bind, on_st, persistLocked.
  destruct (tx_DeleteMultipartUpload id (ms_st st)) as [st' res] eqn:Et.
  assert (st_objects st' = st_objects (ms_st st)) as E'.
  { unfold tx_DeleteMultipartUpload in Et. repeat case_match; by simplify_eq. }
  destruct res; [|done]. simpl. destruct (ms_persister st); [|done]. by destruct (Save _ _).
Qed.

Lemma frames_delete_upload ref id : frames ref (on_store (DeleteMultipartUpload id) : HM (result unit)).
Proof.
  apply frames_on_store. intros st b k vid _ _.
  unfold GetObjectVersion, GetLatestObjectVersion, versions_of. by rewrite DeleteMultipartUpload_objects.
Qed.

Lemma quiet_find_upload b k u : quiet (find_upload b k u : HM _).
Proof. unfold find_upload. quiet_solve. Qed.

Lemma complete_frames r b k u (s : s3_state P) :
  roots_apart (api_blob a) → staging_apart (api_blob a) →
  ∃ vid, write_id_ok b s vid ∧
    others_kept (mkObjectRef b k vid) s (exec (handleCompleteMultipartUpload a r b k u) s).
Proof.
  intros Hr Hsa. unfold handleCompleteMultipartUpload, runHeavy. destruct (rq_Acquire r); [|refused_framed].
  match goal with |- context [exec (mbind ?f (find_upload b k u)) s] =>
    destruct (exec_bind_mild _ f s (mild_quiet _ (quiet_find_upload b k u))) as (s1 & up & _ & D1 & ->) end.
  destruct up as [[upload stored]|]; [|refused_framed].
  destruct (io_ReadAll (rq_Body r)) as [text|err]; [|refused_framed].
  destruct (xml_Unmarshal_complete text) as [[|p parts]|]; [refused_framed| |refused_framed].
  destruct (maxMultipartParts <? _); [refused_framed|]. cbv zeta.
  destruct (check_parts _ _ _ _ _); [refused_framed|].
  apply framed_with_bucket; [done|]. intros bkt vid. apply frames_bind.
  { apply frames_quiet, quiet_overwrite_locked. }
  intros locked. destruct locked; [frame|]. apply frames_bind; [by apply frames_assemble|].
  intros [m|err]; [|frame]. apply frames_bind; [frame_step|]. intros [_|err]; [|frame].
  apply frames_bind; [apply frames_delete_upload|]. intros _. frame.
Qed.
End s3.
