(* ===== verification/S3Reading.v ===== *)
(** * Reading objects back (src/internal/server/s3_api.go, sse.go)

    What a file holds for an object, in plain or encrypted form, and what a GET of a
    version with such a file is answered.  Of the handlers, those that serve GET and HEAD
    change neither the metadata nor a file. *)
From S2P Require Import Prelude GoStrings StringFacts Url Base64 Model MemoryStore MemoryStoreFacts MemoryStoreProps.
From S2P Require Import FileSystem Blob BlobFacts Listing Http AwsChunked Sse S3State S3Events S3Bucket S3Object.
From S2P Require Import S3ObjectOps S3Multipart S3Router NetHttp Website S3Facts S3Frames.

Section s3.
Context `{!GoRuntime} `{!TimeFormats} `{!RequestCodecs} `{!Randomness}.
Context `{!JsonCodec listV2ContinuationToken} `{!Hashes} `{!TempNames} `{!BlockCipher}.
Context {P : Type} `{!StatePersister P}.
Abbreviation HM := (M (s3_state P)).
Variable a : s3API.

(** ** Reading back *)

(** A GET of the latest version without preconditions. *)
Record plain_get (r : request) : Prop := {
  pg_version : query_get (rq_Query r) "versionId" = "";
  pg_match : header_get (rq_Header r) "if-match" = "";
  pg_none_match : header_get (rq_Header r) "if-none-match" = "";
  pg_since : header_get (rq_Header r) "if-modified-since" = "";
  pg_unmodified : header_get (rq_Header r) "if-unmodified-since" = "";
}.

(** The range a GET asks for: none, one inside the object, or one that is not. *)
Definition asked_range (r : request) (size : Z) : option (option ByteRange) :=
  let h := header_get (rq_Header r) "Range" in
  if String.eqb h "" then Some None
  else match parseRange h size with Ok br => Some (Some br) | Err _ => None end.

Definition body (s : s3_state P) : list (payload s3_doc) := rs_Body (s3_resp s).

Lemma conditions_pass r obj (s : s3_state P) :
  plain_get r → objectConditionsPass r obj "" s = (s, Ok true).
Proof.
  intros [_ Ha Hb Hc Hd]. unfold objectConditionsPass. rewrite !str_app_nil_l.
  rewrite Ha, Hb, Hc, Hd. done.
Qed.

(** The end of the handler, once the headers are set. *)
Lemma stream_object_run obj br (s : s3_state P) out err w' :
  is_Some (status s) → body s = [] →
  readMaybeEncryptedObject (api_sseKey a) (ov_StoragePath obj) obj br (s3_world s) = (w', Ok (out, err)) →
  let s' := exec (stream_object a obj br) s in
  s3_store s' = s3_store s ∧ status s' = status s ∧ body s' = [PBytes out] ∧ s3_world s' = w'.
Proof.
  intros [c Hc] Hb Hread. unfold stream_object. rewrite exec_on_blob, Hread. cbn [fst snd].
  unfold status, body in *. destruct s as [st w d e [c' h sent bd]]. simpl in *. subst. done.
Qed.

Lemma handleGetObject_run r b k (s : s3_state P) obj :
  status s = None → body s = [] → plain_get r →
  GetObjectVersion b k "" (s3_store s) = Ok obj → ov_DeleteMarker obj = false →
  let s' := exec (handleGetObject a r b k false) s in
  match asked_range r (ov_Size obj) with
  | None => status s' = Some StatusRequestedRangeNotSatisfiable
  | Some br => ∀ out err w',
    readMaybeEncryptedObject (api_sseKey a) (ov_StoragePath obj) obj br (s3_world s) = (w', Ok (out, err)) →
    status s' = Some match br with None => StatusOK | Some _ => StatusPartialContent end ∧
    body s' = [PBytes out] ∧ s3_world s' = w' ∧ s3_store s' = s3_store s
  end.
Proof.
  intros Hs Hb Hr Ho Hd s'. subst s'. unfold handleGetObject. rewrite (pg_version _ Hr).
  rewrite exec_query, Ho, Hd. rewrite (exec_bind_eq _ _ _ _ _ (conditions_pass r obj s Hr)).
  cbn [negb]. cbv zeta. unfold setHeader, updHeader. rewrite !exec_on_resp.
  match goal with |- context [exec _ ?s0] => set (s1 := s0) end.
  assert (status s1 = None ∧ body s1 = [] ∧ s3_world s1 = s3_world s ∧ s3_store s1 = s3_store s)
    as (Hs1 & Hb1 & Hw1 & Hst1).
  { subst s1. unfold status, body in *. destruct s as [st w d e [c h sent bd]]. simpl in *. by subst. }
  clearbody s1. unfold asked_range. destruct (String.eqb _ ""); cbn [negb].
  2: destruct (parseRange _ _) as [br|e].
  3:{ by rewrite (proj1 (status_writeS3Error r _ s1 Hs1)). }
  all: intros out err w' Hread; rewrite <-Hw1 in Hread; unfold WriteHeader; rewrite exec_on_resp;
    match goal with |- context [exec _ ?s0] =>
      destruct (stream_object_run obj _ s0 out err w' ltac:(unfold status; simpl; apply rs_write_header_status)
        ltac:(unfold body, status in *; simpl; unfold rs_write_header; by rewrite Hs1) Hread)
        as (T1 & T2 & T3 & T4) end;
    rewrite T1, T2, T4; split_and!; try done;
    unfold status in *; simpl; unfold rs_write_header; by rewrite Hs1.
Qed.

(** The file of [ref] holds the content, in plain or sealed with a counter. *)
Definition holds (ref : ObjectRef) (enc : bool) (content : string) (w : world) : Prop :=
  ∃ file, fs_files w !! ObjectPath (api_blob a) ref = Some file ∧
  if enc then String.length (api_sseKey a) = 32%nat ∧ ∃ iv, String.length iv = 16%nat ∧
    file = iv +:+ ctr_xor (api_sseKey a) iv 0 content
  else file = content.

Lemma wrote_spec ref src enc w w' m :
  roots_apart (api_blob a) → wrote a ref src enc w w' m →
  rd_error src = None ∧ holds ref enc (rd_bytes src) w' ∧
  ∃ at_, m = object_meta ref (ObjectPath (api_blob a) ref) (rd_bytes src) at_.
Proof.
  intros Hr. unfold wrote, holds. destruct enc.
  - intros (Hk & iv & Hl & Hw). apply write_encrypted_spec in Hw as (HF & Hsrc & Hm); [|done].
    rewrite HF, lookup_insert_eq. eauto 10.
  - intros Hw. pose proof (WriteObject_spec (api_blob a) ref src (fs_files w) Hr w eq_refl) as Hs.
    rewrite Hw in Hs. cbn [fst snd is_ok negb write_outcome] in Hs. destruct Hs as [[HF Hsrc] Hm].
    rewrite HF, lookup_insert_eq. split_and!; [done|by eexists|by apply Hm].
Qed.

(** Reading a version whose file holds the content. *)
Lemma read_holds ref enc content w obj br :
  holds ref enc content w → healthy w →
  objectUsesSSE obj = enc → ov_Size obj = str_len content →
  ov_StoragePath obj = ObjectPath (api_blob a) ref → in_int64 (str_len content) →
  range_valid br content →
  let '(start, end_) := range_of br content in
  readMaybeEncryptedObject (api_sseKey a) (ov_StoragePath obj) obj br w =
  (w, Ok (section_of content start end_, None)).
Proof.
  intros (file & Hf & Hfile) Hh Hu Hz Hp Hi Hv. rewrite <-Hp in Hf.
  unfold range_valid in Hv. destruct enc.
  - destruct Hfile as (Hk & iv & Hl & ->).
    rewrite (readMaybeEncryptedObject_healthy (api_sseKey a) _ obj br w iv content) by done.
    destruct (range_of br content) as [start end_].
    assert ((start <? 0) || (end_ <? start) || (str_len content <=? end_) = false) as ->; [|done].
    by apply range_test.
  - subst file. unfold readMaybeEncryptedObject. rewrite Hu. cbn [negb].
    rewrite (ReadObject_healthy _ _ _ content) by done.
    destruct (range_of br content) as [start end_].
    assert ((start <? 0) || (end_ <? start) || (str_len content <=? end_) = false) as ->; [|done].
    by apply range_test.
Qed.

Lemma parseRange_valid h size br : parseRange h size = Ok br → 0 ≤ br_Start br ≤ br_End br ∧ br_End br < size.
Proof.
  unfold parseRange. intros E. repeat case_match; simplify_eq.
  match goal with Hb : (_ <? 0) || _ || _ = false |- _ => apply range_test in Hb end. simpl. lia.
Qed.

Lemma markSSE_uses m enc v :
  ov_Metadata v = markSSEMetadata m enc → objectUsesSSE v = enc.
Proof.
  intros E. unfold objectUsesSSE, meta_get. rewrite E. unfold markSSEMetadata. destruct enc.
  - by rewrite lookup_insert_eq.
  - by rewrite lookup_delete_eq.
Qed.
(** What a GET is answered for an object with this content. *)
Definition get_answers (r : request) (content : string) (s : s3_state P) : Prop :=
  match asked_range r (str_len content) with
  | None => status s = Some StatusRequestedRangeNotSatisfiable
  | Some None => content ≠ "" → status s = Some StatusOK ∧ body s = [PBytes content]
  | Some (Some br) => status s = Some StatusPartialContent ∧
      body s = [PBytes (section_of content (br_Start br) (br_End br))]
  end.

(** A GET of a key whose latest version is an object with the content. *)
Lemma get_held r b k ref enc content obj (s : s3_state P) :
  holds ref enc content (s3_world s) → healthy (s3_world s) → plain_get r →
  GetObjectVersion b k "" (s3_store s) = Ok obj → ov_DeleteMarker obj = false →
  objectUsesSSE obj = enc → ov_Size obj = str_len content →
  ov_StoragePath obj = ObjectPath (api_blob a) ref → in_int64 (str_len content) →
  get_answers r content (serve (handleGetObject a r b k false) s).
Proof.
  intros Hf Hh Hg Hv Hd Hu Hz Hp Hi.
  pose proof (handleGetObject_run r b k (fresh s) obj eq_refl eq_refl Hg Hv Hd) as Hrun.
  fold (serve (handleGetObject a r b k false) s) in Hrun. set (s2 := serve _ s) in *.
  unfold get_answers, asked_range in *. rewrite Hz in Hrun.
  pose proof (λ br, read_holds ref enc content (s3_world s) obj br Hf Hh Hu Hz Hp Hi) as Hread.
  destruct (String.eqb _ ""); [intros Hne|destruct (parseRange _ _) as [br|err] eqn:Ep; [|done]].
  - assert (0 < str_len content) by by apply str_len_pos.
    specialize (Hread None ltac:(unfold range_valid; simpl; lia)). simpl in Hread.
    destruct (Hrun _ _ _ Hread) as (E1 & E2 & _). split; [done|]. rewrite E2. do 2 f_equal.
    unfold section_of, str_len. rewrite Z2Nat.inj_0. simpl. apply str_take_all. lia.
  - apply parseRange_valid in Ep.
    specialize (Hread (Some br) ltac:(unfold range_valid; simpl; lia)). simpl in Hread.
    by destruct (Hrun _ _ _ Hread) as (E1 & E2 & _).
Qed.
End s3.

(** ** GET and HEAD only read *)
Section reads.
Context {P : Type}.
Abbreviation HM := (M (s3_state P)).

(** The step leaves the metadata and the files as they are. *)
Definition reads {A} (m : HM A) : Prop := ∀ s,
  s3_store (m s).1 = s3_store s ∧ fs_files (s3_world (m s).1) = fs_files (s3_world s).

Lemma reads_bind {A B} (m : HM A) (f : A → HM B) : reads m → (∀ x, reads (f x)) → reads (mbind f m).
Proof.
  intros Hm Hf s. specialize (Hm s) as [Hst Hw]. unfold mbind, M_bind.
  destruct (m s) as [s' [x|e]]; simpl in *; [|done]. destruct (Hf x s'). split; congruence.
Qed.
Lemma reads_quiet {A} (m : HM A) : quiet m → reads m.
Proof. intros Hm s. destruct (Hm s) as (s1 & x & -> & [E1 E2 _]). simpl. by rewrite E1, E2. Qed.
Lemma reads_ret {A} (x : A) : reads (mret x : HM A).
Proof. done. Qed.
Lemma reads_on_resp f : reads (on_resp f : HM unit).
Proof. done. Qed.
Lemma reads_query {A} (f : memoryBackedStore P → result A) : reads (query_store f).
Proof. done. Qed.
Lemma reads_silent {A} (m : M world A) : silent m → reads (on_blob m : HM (result A)).
Proof. intros Hm s. unfold on_blob. specialize (Hm (s3_world s)). by destruct (m (s3_world s)). Qed.
Lemma reads_writeXML c d : reads (writeXML c d : HM unit).
Proof. done. Qed.
Lemma reads_writeS3Error r spec : reads (writeS3Error r spec : HM unit).
Proof. done. Qed.
End reads.

Create HintDb reads.
#[export] Hint Resolve reads_ret reads_on_resp reads_query reads_writeXML reads_writeS3Error : reads.

(** Follows the structure of a handler. *)
Ltac read_step :=
  cbv zeta;
  match goal with
  | |- reads (match ?x with _ => _ end) => destruct x
  | |- reads (mbind _ _) => apply reads_bind; [|intros]
  | |- reads (setHeader _ _) => apply reads_on_resp
  | |- reads (updHeader _) => apply reads_on_resp
  | |- reads (WriteHeader _) => apply reads_on_resp
  | |- reads (Write _) => apply reads_on_resp
  | |- reads (with_bucket _ _ _) => unfold with_bucket
  | |- reads (get_config _ _ _ _ _ _ _) => unfold get_config
  | |- reads (acl_target _ _ _ _) => unfold acl_target
  | |- reads s3_now => apply reads_quiet, quiet_now
  | |- reads _ => solve [auto with reads]
  end.
Ltac read := repeat read_step.

Section handlers.
Context `{!GoRuntime} `{!TimeFormats} `{!RequestCodecs} `{!Randomness}.
Context `{!JsonCodec listV2ContinuationToken} `{!Hashes} `{!TempNames} `{!BlockCipher}.
Context {P : Type} `{!StatePersister P}.
Abbreviation HM := (M (s3_state P)).
Variable a : s3API.

Lemma reads_conditions r o p : reads (objectConditionsPass r o p : HM bool).
Proof. unfold objectConditionsPass, not_modified. read. Qed.

Lemma reads_stream api o br : reads (stream_object api o br : HM unit).
Proof. unfold stream_object. apply reads_bind; [apply reads_silent, silent_readMaybe|intros]. read. Qed.

Lemma reads_handleGetObject r b k h : reads (handleGetObject a r b k h : HM unit).
Proof.
  unfold handleGetObject. apply reads_bind; [apply reads_query|intros [obj|]; [|read]].
  destruct (ov_DeleteMarker obj); [read|]. apply reads_bind; [apply reads_conditions|intros].
  read; apply reads_stream.
Qed.

(** The methods that only read. *)
Definition is_read (r : request) : Prop := rq_Method r = "GET" ∨ rq_Method r = "HEAD".

Lemma is_read_not r m : is_read r → String.eqb "GET" m = false → String.eqb "HEAD" m = false →
  String.eqb (rq_Method r) m = false.
Proof. by intros [-> | ->]. Qed.
Lemma not_put r : is_read r → String.eqb (rq_Method r) "PUT" = false.
Proof. intros Hm. by apply is_read_not. Qed.
Lemma not_post r : is_read r → String.eqb (rq_Method r) "POST" = false.
Proof. intros Hm. by apply is_read_not. Qed.
Lemma not_delete r : is_read r → String.eqb (rq_Method r) "DELETE" = false.
Proof. intros Hm. by apply is_read_not. Qed.

Ltac read_method Hm := rewrite ?(not_put _ Hm), ?(not_post _ Hm), ?(not_delete _ Hm); cbn [andb].

Lemma reads_with_object r b k (f : ObjectVersion → string → HM unit) :
  (∀ o v, reads (f o v)) → reads (with_object r b k f).
Proof. intros Hf. unfold with_object. read. Qed.

Lemma reads_tagging r b k : is_read r → reads (handleObjectTagging r b k : HM unit).
Proof. intros Hm. apply reads_with_object. intros o v. read_method Hm. read. Qed.
Lemma reads_retention r b k : is_read r → reads (handleObjectRetention r b k : HM unit).
Proof. intros Hm. apply reads_with_object. intros o v. read_method Hm. read. Qed.
Lemma reads_legal_hold r b k : is_read r → reads (handleObjectLegalHold r b k : HM unit).
Proof. intros Hm. apply reads_with_object. intros o v. read_method Hm. read. Qed.

Lemma reads_multipart r b k : is_read r → reads (handleMultipartWithUploadID a r b k : HM unit).
Proof.
  intros Hm. unfold handleMultipartWithUploadID. read_method Hm. unfold handleListParts, find_upload. read.
Qed.

Lemma reads_object_request r b k : is_read r → reads (handleObjectRequest a r b k : HM unit).
Proof.
  intros Hm. unfold handleObjectRequest, with_bucket.
  apply reads_bind; [apply reads_query|intros [bkt|]; [|read]]. cbv zeta. read_method Hm.
  destruct (hasQueryFlag _ "acl"); [unfold handleGetACL; read|].
  destruct (hasQueryFlag _ "tagging"); [by apply reads_tagging|].
  destruct (hasQueryFlag _ "retention"); [by apply reads_retention|].
  destruct (hasQueryFlag _ "legal-hold"); [by apply reads_legal_hold|].
  destruct (hasQueryFlag _ "uploadId"); [by apply reads_multipart|].
  repeat case_match; [apply reads_handleGetObject..|apply reads_writeS3Error].
Qed.

Lemma read_routes :
  Forall (λ '(m, _, h), m = "GET" ∨ m = "HEAD" → ∀ (r : request) (b : string), reads (h r b : HM unit)) (bucket_routes a).
Proof.
  unfold bucket_routes.
  repeat (apply Forall_cons; split; [intros [[=]|[=]] r b|]); [..|apply Forall_nil; done].
  all: unfold handleGetBucketWebsite, handleGetBucketCORS, handleGetBucketPolicy, handleGetPublicAccessBlock,
    handleGetBucketLifecycle, handleGetBucketNotification, handleGetBucketReplication, handleGetACL,
    handleGetBucketVersioning, handleListObjectVersions, handleGetBucketLocation, handleListMultipartUploads.
  all: read.
Qed.

Lemma reads_bucket_request r b : is_read r → reads (handleBucketRequest a r b : HM unit).
Proof.
  intros Hm. unfold handleBucketRequest. destruct (find_route r (bucket_routes a)) as [h|] eqn:E.
  - unfold find_route in E. destruct (List.find _ _) as [[[m f] h']|] eqn:Ef; [|done].
    injection E as <-. apply find_some in Ef as [Hin Hf]. apply andb_true_iff in Hf as [Hf%String.eqb_eq _].
    pose proof read_routes as Hr. rewrite Forall_forall in Hr.
    apply (Hr (m, f, h') (proj2 (list_elem_of_In _ _) Hin)). by rewrite <- Hf.
  - read_method Hm. unfold handleListObjectsV2. read.
Qed.

Lemma reads_ServeHTTP r : is_read r → reads (ServeHTTP a r : HM unit).
Proof.
  intros Hm. unfold ServeHTTP. destruct (negb _); [read|].
  destruct (_ && _); [unfold handleListBuckets; read|].
  destruct (bucketAndKey _ _) as [[b k]|]; [|read].
  destruct (String.eqb k ""); [by apply reads_bucket_request|by apply reads_object_request].
Qed.
End handlers.

(** The website only ever reads. *)
Section website.
Context `{!GoRuntime} `{!MimeTypes} `{!BlockCipher} {P : Type}.
Abbreviation HM := (M (s3_state P)).
Variable h : WebsiteHandler.

Lemma reads_header_of : reads (header_of : HM http_header).
Proof. done. Qed.
#[local] Hint Resolve reads_header_of : reads.
Lemma reads_http_Redirect r t c : reads (http_Redirect r t c : HM unit).
Proof. unfold http_Redirect. read. Qed.
Lemma reads_http_Error m c : reads (http_Error m c : HM unit).
Proof. unfold http_Error. read. Qed.
Lemma reads_http_NotFound : reads (http_NotFound : HM unit).
Proof. apply reads_http_Error. Qed.
#[local] Hint Resolve reads_http_Redirect reads_http_Error reads_http_NotFound : reads.

Lemma reads_lookup b k : reads (lookupObject b k : HM (result ObjectVersion)).
Proof. unfold lookupObject. read. Qed.
Lemma reads_writeObject r k o c : reads (writeObject h r k o c : HM unit).
Proof. unfold writeObject. read. apply reads_stream. Qed.
#[local] Hint Resolve reads_lookup reads_writeObject : reads.

Lemma reads_website r : reads (website_ServeHTTP h r : HM unit).
Proof. unfold website_ServeHTTP, serve_website, serve_missing, redirectToDirectoryPath. read. Qed.
End website.
