(* ===== verification/S3Examples.v ===== *)
(** * A concrete S3 API, for evaluation

    Stand-ins for the libraries the handlers use, a server on an empty store and the
    requests of the scenarios in the files that follow. *)
From S2P Require Import Url.
From S2P Require Import Prelude GoStrings StringFacts Base64 Model MemoryStore.
From S2P Require Import MemoryStoreProps FileSystem Blob BlobFacts Listing Http Sse S3State.
From S2P Require Import S3Object S3Events S3Bucket S3ObjectOps S3Multipart S3Router.
From S2P Require Import S3Frames.

(** ** Instants: the number of seconds, between T and Z *)
Definition ex_format (t : Z) : string := "T" +:+ FormatInt (t / second) +:+ "Z".

Definition ex_parse (s : string) : option Z :=
  Z.mul second <$> ParseInt (TrimSuffix (TrimPrefix s "T") "Z").

Lemma ex_parse_format t : year_0 ≤ t < year_10000 → ex_parse (ex_format t) = Some (t / second * second).
Proof.
  intros Ht. unfold ex_parse, ex_format, TrimPrefix.
  rewrite HasPrefix_app. change (str_drop (String.length "T") ("T" +:+ ?s)) with s.
  assert (HasSuffix (FormatInt (t / second) +:+ "Z") "Z" = true) as Hs by (apply HasSuffix_spec; by eexists).
  unfold TrimSuffix. change (str_drop (String.length "T") ("T" +:+ ?s)) with s. rewrite Hs, length_str_app.
  rewrite Nat.add_sub, str_take_app, ParseInt_FormatInt; simpl; [f_equal; lia|].
  unfold in_int64, int64_min, int64_max, year_0, year_10000, second in *.
  pose proof (Z.div_le_lower_bound t 1000000000 (-62167219200)).
  pose proof (Z.div_le_upper_bound t 1000000000 253402300800). lia.
Qed.

Lemma ex_format_trimmed t : TrimSpace (ex_format t) = ex_format t.
Proof. apply TrimSpace_plain. unfold ex_format. by rewrite !plain_app, plain_FormatInt. Qed.

Definition ex_times : TimeFormats := {|
  format_RFC3339 := ex_format;
  parse_RFC3339 := ex_parse;
  format_http := ex_format;
  http_ParseTime := ex_parse;
  parse_format_RFC3339 := ex_parse_format;
  format_RFC3339_trimmed := ex_format_trimmed;
|}.

(** ** Random bytes: the number of the draw *)
Definition ex_random : Randomness := {|
  rand_Read n k := Ok (str_repeat k (ascii_of_nat n));
  rand_Read_length n k b Hb := eq_trans (f_equal (λ r, match r with Ok b => String.length b | Err _ => 0%nat end) (eq_sym Hb)) (str_repeat_length k _);
|}.

(** ** Documents: comma-separated fields *)
Definition ex_pair (s : string) : string * string := let '(x, y, _) := Cut s ":" in (x, y).
Definition ex_pairs (s : string) : list (string * string) := ex_pair <$> Split s ",".

Definition ex_codecs : RequestCodecs := {|
  xml_tokens_error _ := None;
  json_Valid _ := true;
  xml_Decode_website _ := None;
  xml_Decode_cors _ := None;
  xml_Decode_publicAccess _ := None;
  xml_Decode_delete body := Some (mkDeleteRequestXML false
    ((λ '(key, id), mkDeleteObjectXML key id) <$> ex_pairs (rd_bytes body)));
  xml_Decode_retention body :=
    let '(mode, until) := ex_pair (rd_bytes body) in Some (mkObjectRetentionXML mode until);
  xml_Decode_legalHold body := Some (rd_bytes body);
  xml_Unmarshal_versioning body := Some body;
  xml_Unmarshal_complete body :=
    Some ((λ '(n, etag), mkCompletePartXML (default 0 (Atoi n)) etag) <$> ex_pairs body);
  xml_Unmarshal_notification _ := None;
  xml_Unmarshal_replication _ := None;
|}.

#[local] Existing Instance go_runtime_ref.

(** Continuation tokens: their fields in hexadecimal between commas. *)
Definition ex_token_text (t : listV2ContinuationToken) : string :=
  Join [hex_encode (tk_Prefix t); hex_encode (tk_Delimiter t); hex_encode (tk_After t)] ",".

Definition ex_token_read (s : string) : option listV2ContinuationToken :=
  match hex_decode <$> Split s "," with
  | [Some p; Some d; Some a] => Some (mkToken p d a)
  | _ => None
  end.

Lemma ex_token_text_nonempty t : ex_token_text t ≠ "".
Proof. unfold ex_token_text. simpl. intros [_ E]%str_app_eq_nil. by rewrite str_app_cons in E. Qed.

Definition ex_tokens : JsonCodec listV2ContinuationToken := {|
  json_Marshal := ex_token_text;
  json_Unmarshal := ex_token_read;
  json_nonempty := ex_token_text_nonempty;
  json_representable t := ex_token_read (ex_token_text t) = Some t;
  json_round_trip t Ht := Ht;
|}.

#[local] Existing Instance ex_times.
#[local] Existing Instance ex_random.
#[local] Existing Instance ex_codecs.
#[local] Existing Instance ex_tokens.
#[local] Existing Instance ex_hashes.
#[local] Existing Instance ex_temp_names.
#[local] Existing Instance ex_cipher.

(** ** The server *)
Definition ex_api : s3API := newS3API true "s3.local" ex_bs "" true ex_key.

Definition ex_clock : Z := 1700000000 * second.
Definition ex_start : s3_state scripted_persister :=
  mkS3State (mkStore None (emptyState "memory"))
    (mkWorld ∅ (list_to_set ["data"; "data/objects"; "data/tmp"; "data/multipart"]) ∅ [] false ex_clock)
    0 [] new_response.

Definition ex_headers (hs : list (string * string)) : http_header :=
  fold_left (λ h '(k, v), header_set k v h) hs ∅.

(** A path-style request that the limiter admits. *)
Definition ex_request (method path : string) (query headers : list (string * string)) (content : string)
    : request :=
  mkRequest method "s3.local" path (list_to_map ((λ '(k, v), (k, [v])) <$> query)) (ex_headers headers)
    (bytes_reader content) "req-1" "tester" (Ok tt)
    path (Values_Encode (list_to_map ((λ '(k, v), (k, [v])) <$> query))) "" "127.0.0.1:4000" false.

Definition ex_serve (s : s3_state scripted_persister) (r : request) : s3_state scripted_persister :=
  serve (ServeHTTP ex_api r) s.

(** A bucket without versioning, one with. *)
Definition ex_buckets : s3_state scripted_persister :=
  fold_left ex_serve
    [ex_request "PUT" "/plain" [] [] ""; ex_request "PUT" "/kept" [] [] "";
     ex_request "PUT" "/kept" [("versioning", "")] [] "Enabled"] ex_start.

Example ex_buckets_ok : (b_VersioningStatus <$> (st_buckets (ms_st (s3_store ex_buckets)) !! "plain")) =
    Some "Suspended" ∧
  (b_VersioningStatus <$> (st_buckets (ms_st (s3_store ex_buckets)) !! "kept")) = Some "Enabled".
Proof. vm_compute. done. Qed.
