(* ===== verification/WebsiteProps.v ===== *)
(** * Properties of the website handler

    It only reads, it answers every request, and what it serves with 200 is the
    latest version of a key of a bucket whose website is enabled and public. *)
From S2P Require Import Prelude GoStrings StringFacts Base64 Url Model MemoryStore.
From S2P Require Import MemoryStoreProps FileSystem Blob BlobFacts Listing Http Sse S3State.
From S2P Require Import S3Object S3Events S3Bucket S3ObjectOps S3Multipart S3Router.
From S2P Require Import NetHttp Website S3Facts S3Frames S3Reading S3Examples.

Section website.
Context `{!GoRuntime} `{!MimeTypes} `{!BlockCipher} {P : Type}.
Abbreviation HM := (M (s3_state P)).
Variable h : WebsiteHandler.

(** On a fresh response over the store [st] the action answers with a status in [Q]
    and changes neither the store nor a file. *)
Definition answers_with (st : memoryBackedStore P) (Q : Z → Prop) (m : HM unit) : Prop := ∀ s,
  s3_store s = st → status s = None →
  ∃ s' z, m s = (s', Ok tt) ∧ s3_store s' = st ∧ fs_files (s3_world s') = fs_files (s3_world s) ∧
    status s' = Some z ∧ Q z.

(** An action that changes neither the store, nor a file, nor the status. *)
Definition neutral {A} (m : HM A) : Prop := ∀ s, ∃ s' x, m s = (s', Ok x) ∧ s3_store s' = s3_store s ∧
  fs_files (s3_world s') = fs_files (s3_world s) ∧ status s' = status s.

(** One that may write after the status was set. *)
Definition trailing (m : HM unit) : Prop := ∀ s, is_Some (status s) →
  ∃ s', m s = (s', Ok tt) ∧ s3_store s' = s3_store s ∧
  fs_files (s3_world s') = fs_files (s3_world s) ∧ status s' = status s.

Lemma neutral_ret {A} (x : A) : neutral (mret x).
Proof. intros s. by exists s, x. Qed.
Lemma neutral_updHeader f : neutral (updHeader f).
Proof. intros s. by eexists _, _. Qed.
Lemma neutral_setHeader k v : neutral (setHeader k v).
Proof. intros s. by eexists _, _. Qed.
Lemma neutral_header_of : neutral header_of.
Proof. intros s. by eexists _, _. Qed.

Lemma trailing_Write p : trailing (Write p).
Proof.
  intros s [z Hz]. eexists. split; [done|]. split; [done|]. split; [done|].
  unfold status in *. simpl. unfold rs_write, rs_write_header. by rewrite Hz.
Qed.
Lemma trailing_ret : trailing (mret tt).
Proof. intros s _. by exists s. Qed.

Lemma trailing_stream api obj br : trailing (stream_object api obj br).
Proof.
  intros s Hs. unfold stream_object, mbind, M_bind, on_blob.
  pose proof (silent_readMaybe api (ov_StoragePath obj) obj br (s3_world s)) as Hw.
  destruct (readMaybeEncryptedObject _ _ _ _ _) as [w [[bytes err]|err]]; simpl in *.
  - destruct (trailing_Write (PBytes bytes) (mkS3State (s3_store s) w (s3_draws s) (s3_events s) (s3_resp s)) Hs)
      as (s' & -> & Hst & Hf & Hz). exists s'. simpl in *. by rewrite Hst, Hf, Hz.
  - by eexists.
Qed.

Lemma answers_neutral {A} st Q (m : HM A) (f : A → HM unit) :
  neutral m → (∀ x, answers_with st Q (f x)) → answers_with st Q (mbind f m).
Proof.
  intros Hm Hf s Hst Hs. destruct (Hm s) as (s1 & x & E & Hst1 & Hw1 & Hs1).
  destruct (Hf x s1) as (s' & z & E' & Hst' & Hw' & Hs' & Hz); [congruence..|].
  exists s', z. unfold mbind, M_bind. rewrite E, E'. split_and!; [done..|congruence|done|done].
Qed.

Lemma answers_status st (Q : Z → Prop) code (m : HM unit) :
  Q code → trailing m → answers_with st Q (WriteHeader code ;; m).
Proof.
  intros HQ Hm s Hst Hs. unfold mbind, M_bind.
  destruct (WriteHeader code s) as [s1 r1] eqn:E. unfold WriteHeader, on_resp in E. injection E as <- <-.
  set (s1 := mkS3State _ _ _ _ _).
  assert (status s1 = Some code) as Hs1.
  { unfold s1, status. simpl. unfold rs_write_header. unfold status in Hs. by rewrite Hs. }
  destruct (Hm s1) as (s' & -> & Hst' & Hw' & Hs'); [by rewrite Hs1|].
  exists s', code. split_and!; [done|by rewrite Hst'|by rewrite Hw'|by rewrite Hs', Hs1|done].
Qed.

Lemma answers_status_only st (Q : Z → Prop) code : Q code → answers_with st Q (WriteHeader code).
Proof.
  intros HQ s Hst Hs. eexists _, code. split; [done|]. split; [done|]. split; [done|]. split; [|done].
  unfold status in *. simpl. unfold rs_write_header. by rewrite Hs.
Qed.

Lemma answers_Error st (Q : Z → Prop) message code : Q code → answers_with st Q (http_Error message code).
Proof.
  intros HQ. unfold http_Error.
  repeat (apply answers_neutral; [first [apply neutral_updHeader|apply neutral_setHeader]|intros _]).
  apply answers_status; [done|apply trailing_Write].
Qed.

Lemma answers_Redirect st (Q : Z → Prop) r target code : Q code → answers_with st Q (http_Redirect r target code).
Proof.
  intros HQ. unfold http_Redirect. apply answers_neutral; [apply neutral_header_of|intros hd].
  apply answers_neutral; [apply neutral_setHeader|intros _].
  apply answers_neutral; [destruct (_ && _); [apply neutral_setHeader|apply neutral_ret]|intros _].
  apply answers_status; [done|]. destruct (_ && _); [apply trailing_Write|apply trailing_ret].
Qed.

Lemma answers_writeObject st (Q : Z → Prop) r key obj code : Q code → answers_with st Q (writeObject h r key obj code).
Proof.
  intros HQ. unfold writeObject. do 3 (apply answers_neutral; [apply neutral_setHeader|intros _]).
  apply answers_status; [done|]. destruct (String.eqb _ _); [apply trailing_ret|apply trailing_stream].
Qed.

(** What a lookup returns on the store. *)
Definition looked_up (st : memoryBackedStore P) (bucket key : string) : result ObjectVersion :=
  if String.eqb key "" then Err ErrNotFound else GetLatestObjectVersion bucket key st.

Lemma answers_lookup st Q bucket key (f : result ObjectVersion → HM unit) :
  answers_with st Q (f (looked_up st bucket key)) → answers_with st Q (mbind f (lookupObject bucket key)).
Proof.
  intros Hf s Hst Hs. destruct (Hf s Hst Hs) as (s' & z & E & Hrest). exists s', z. split; [|done].
  unfold lookupObject, looked_up in *. unfold mbind, M_bind.
  destruct (String.eqb key ""); [done|]. unfold query_store. simpl. by rewrite Hst.
Qed.

Lemma answers_query {A} st Q (g : memoryBackedStore P → result A) (f : result A → HM unit) :
  answers_with st Q (f (g st)) → answers_with st Q (mbind f (query_store g)).
Proof.
  intros Hf s Hst Hs. destruct (Hf s Hst Hs) as (s' & z & E & Hrest). exists s', z. split; [|done].
  unfold mbind, M_bind, query_store. simpl. by rewrite Hst.
Qed.

Lemma answers_ret_bind {A} st Q (x : A) (f : A → HM unit) : answers_with st Q (f x) → answers_with st Q (mbind f (mret x)).
Proof. intros Hf s. apply (Hf s). Qed.

Lemma rule_status_range rule : 300 ≤ rule_status rule ≤ 399.
Proof.
  unfold rule_status, StatusMovedPermanently. destruct (Atoi _) as [n|]; [|lia].
  destruct (_ && _) eqn:E; lia.
Qed.

Lemma rule_code r rules key st target code : applyRoutingRule r rules key st = Some (target, code) → 300 ≤ code ≤ 399.
Proof.
  induction rules as [|rule rules IH]; [done|]. simpl. destruct (negb _); [done|].
  destruct (redirectURLFromRule r key rule); [|done]. intros [= _ <-]. apply rule_status_range.
Qed.

(** The object served with 200. *)
Definition page_of (st : memoryBackedStore P) (r : request) : Prop :=
  ∃ bucket key cfg name obj, resolveBucketAndKey h r = Some (bucket, key) ∧ GetBucketWebsite bucket st = Ok cfg ∧
    bw_Enabled cfg = true ∧ bw_PublicRead cfg = true ∧ bw_RedirectAllHost cfg = "" ∧
    applyRoutingRule r (bw_RoutingRules cfg) key 0 = None ∧
    (name = resolveWebsiteKey key (bw_IndexDocument cfg) ∨ name = key) ∧
    GetLatestObjectVersion bucket name st = Ok obj.

Definition allowed_status (st : memoryBackedStore P) (r : request) (z : Z) : Prop :=
  z ∈ [404; 405; 503] ∨ 300 ≤ z ≤ 399 ∨ z = 200 ∧ page_of st r.

Lemma looked_up_Ok st bucket key obj : looked_up st bucket key = Ok obj → GetLatestObjectVersion bucket key st = Ok obj.
Proof. unfold looked_up. by destruct (String.eqb key ""). Qed.

Lemma answers_missing st r cfg bucket key :
  answers_with st (allowed_status st r) (serve_missing h r cfg bucket key).
Proof.
  unfold serve_missing. destruct (applyRoutingRule _ _ _ _) as [[target code]|] eqn:E.
  { apply answers_Redirect. right; left. by eapply rule_code. }
  assert (allowed_status st r StatusNotFound) by (left; set_solver).
  destruct (String.eqb _ _); [by apply answers_Error|]. apply answers_lookup.
  destruct (looked_up _ _ _); [by apply answers_writeObject|by apply answers_Error].
Qed.

Lemma answers_website st r cfg bucket key :
  resolveBucketAndKey h r = Some (bucket, key) → GetBucketWebsite bucket st = Ok cfg →
  bw_Enabled cfg = true → bw_PublicRead cfg = true →
  answers_with st (allowed_status st r) (serve_website h r cfg bucket key).
Proof.
  intros Hr Hcfg Hen Hpub. unfold serve_website.
  destruct (String.eqb_spec (bw_RedirectAllHost cfg) "") as [Hredir|]; cbn [negb].
  2: { apply answers_Redirect. right; left. unfold StatusMovedPermanently. lia. }
  destruct (applyRoutingRule _ _ _ _) as [[target code]|] eqn:Erule.
  { apply answers_Redirect. right; left. by eapply rule_code. }
  assert (∀ name obj, name = resolveWebsiteKey key (bw_IndexDocument cfg) ∨ name = key →
    looked_up st bucket name = Ok obj → allowed_status st r StatusOK) as Hpage.
  { intros name obj Hname Hobj. right; right. split; [done|].
    exists bucket, key, cfg, name, obj. split_and!; try done. by apply looked_up_Ok. }
  apply answers_lookup. destruct (looked_up st bucket (resolveWebsiteKey _ _)) as [obj|] eqn:Eobj.
  { apply answers_writeObject. eapply Hpage; [|done]. by left. }
  assert (∀ res : result ObjectVersion, answers_with st (allowed_status st r) (match res with
    | Ok _ => redirectToDirectoryPath r
    | Err _ => o ← (if negb (String.eqb (resolveWebsiteKey key (bw_IndexDocument cfg)) key)
                     then lookupObject bucket key else mret (Err ErrNotFound));
        match o with
        | Ok obj => writeObject h r (resolveWebsiteKey key (bw_IndexDocument cfg)) obj StatusOK
        | Err _ => serve_missing h r cfg bucket key
        end
    end)) as Hrest.
  { intros [dir|]. { apply answers_Redirect. right; left. unfold StatusFound. lia. }
    destruct (negb _).
    - apply answers_lookup. destruct (looked_up st bucket key) as [obj|] eqn:Ekey; [|apply answers_missing].
      apply answers_writeObject. eapply Hpage; [|done]. by right.
    - apply answers_ret_bind, answers_missing. }
  destruct (_ && _);
    [apply answers_lookup; exact (Hrest _)|exact (answers_ret_bind _ _ (Err ErrNotFound) _ (Hrest (Err ErrNotFound)))].
Qed.

(** C33: the website handler answers every request (200, a redirection, 404, 405 or
    503), changes neither metadata nor files, and answers 200 only for the latest
    version of the key asked for, or of its index document, in a bucket whose
    website configuration is enabled, public and neither redirects everything nor
    has a rule for the key. *)
Theorem website_serves_only_public r (s : s3_state P) : status s = None →
  ∃ s' z, website_ServeHTTP h r s = (s', Ok tt) ∧ s3_store s' = s3_store s ∧
    fs_files (s3_world s') = fs_files (s3_world s) ∧ status s' = Some z ∧
    (z ∈ [404; 405; 503] ∨ 300 ≤ z ≤ 399 ∨ z = 200 ∧ page_of (s3_store s) r).
Proof.
  intros Hs. apply (λ H : answers_with (s3_store s) (allowed_status (s3_store s) r) _, H s eq_refl Hs).
  unfold website_ServeHTTP. destruct (_ && _); [apply answers_status_only; left; set_solver|].
  destruct (negb _); [apply answers_Error; left; set_solver|].
  assert (allowed_status (s3_store s) r StatusNotFound) by (left; set_solver).
  destruct (resolveBucketAndKey h r) as [[bucket key]|] eqn:Er; [|by apply answers_Error].
  apply answers_query. destruct (GetBucketWebsite bucket (s3_store s)) as [cfg|] eqn:Ecfg; [|by apply answers_Error].
  destruct (bw_Enabled cfg) eqn:Een; [|by apply answers_Error].
  destruct (bw_PublicRead cfg) eqn:Epub; [|by apply answers_Error].
  cbn [negb orb]. by apply answers_website.
Qed.
End website.

(** ** Witness and scenario *)
Section witnesses.
#[local] Existing Instance go_runtime_ref.
#[local] Existing Instance ex_times.
#[local] Existing Instance ex_random.
#[local] Existing Instance ex_codecs.
#[local] Existing Instance ex_tokens.
#[local] Existing Instance ex_hashes.
#[local] Existing Instance ex_temp_names.
#[local] Existing Instance ex_cipher.

#[local] Instance ex_mime : MimeTypes := {| TypeByExtension ext := if String.eqb ext ".html" then "text/html" else "" |}.

Definition ex_site : WebsiteHandler := NewWebsiteHandlerWithSSE true ex_bs "web.local" ex_key.

Definition ex_site_config : BucketWebsiteConfig :=
  mkBucketWebsiteConfig "kept" "" "missing.html" "" "" [] true true.

(** The bucket "kept" as a public website with two pages. *)
Definition ex_site_state : s3_state scripted_persister :=
  let s := fold_left ex_serve
    [ex_request "PUT" "/kept/index.html" [] [] "home"; ex_request "PUT" "/kept/docs/index.html" [] [] "docs"] ex_buckets in
  exec (on_store (PutBucketWebsite ex_site_config)) s.

Definition ex_visit (path : string) (s : s3_state scripted_persister) : s3_state scripted_persister :=
  serve (website_ServeHTTP ex_site (ex_request "GET" path [] [] "")) s.

Lemma website_serves_only_public_witness : ∃ s' z,
  website_ServeHTTP ex_site (ex_request "GET" "/kept/" [] [] "") (fresh ex_site_state) = (s', Ok tt) ∧
  s3_store s' = s3_store (fresh ex_site_state) ∧ status s' = Some z.
Proof.
  destruct (website_serves_only_public ex_site (ex_request "GET" "/kept/" [] [] "") (fresh ex_site_state) eq_refl)
    as (s' & z & H1 & H2 & _ & H3 & _).
  exists s', z. split; [exact H1|]. split; [exact H2|exact H3].
Defined.

Example ex_pages :
  body (ex_visit "/kept/" ex_site_state) = [PBytes "home"] ∧ status (ex_visit "/kept/" ex_site_state) = Some 200 ∧
  status (ex_visit "/kept/docs" ex_site_state) = Some 302 ∧
  header_get (rs_Sent (s3_resp (ex_visit "/kept/docs" ex_site_state))) "Location" = "/kept/docs/" ∧
  status (ex_visit "/kept/none" ex_site_state) = Some 404 ∧ status (ex_visit "/plain/x" ex_site_state) = Some 404.
Proof. vm_compute. split_and!; reflexivity. Qed.

(** A deleted page of a versioned bucket is served as an empty page with 200, where
    the S3 API answers 404. *)
Theorem deleted_page_is_served :
  let s := ex_serve ex_site_state (ex_request "DELETE" "/kept/index.html" [] [] "") in
  status (ex_visit "/kept/" s) = Some 200 ∧
  status (ex_serve s (ex_request "GET" "/kept/index.html" [] [] "")) = Some 404.
Proof. vm_compute. split; reflexivity. Qed.
End witnesses.
