(* ===== verification/WebForms.v ===== *)
(** * Paths, names and pages of the web interface (src/internal/server/web_ui.go)

    The pure parts of the web interface: themes, the paths it answers and redirects to,
    the keys of uploaded files and folders, the entries of the object browser and the
    data a page is rendered from. *)
From S2P Require Import Prelude GoStrings Url Model MemoryStore FileSystem Blob Listing Http Sse S3State NetHttp.
From S2P Require Import PersonalTokens.

Definition uiSessionCookie : string := "s000_ui_session".
Definition uiThemeCookie : string := "s000_ui_theme".
Definition uiSessionTTL : Z := 12 * 3600 * second.

Record uiSession := mkSession {
  us_ID : string;
  us_CSRFToken : string;
  us_ExpiresAt : Z;
}.

(** ** Themes *)
Definition orderedThemes : list string := ["sysadmin90"; "cyberpunk"; "solarized"; "dracula"].
Definition supportedThemes : gset string := list_to_set orderedThemes.

Definition normalizeTheme (value : string) : string :=
  let v := ToLower (TrimSpace value) in
  if String.eqb v "" then "sysadmin90"
  else if bool_decide (v ∈ supportedThemes) then v else "sysadmin90".

(** [resolveTheme] of the theme cookie and the configured theme. *)
Definition resolve_theme (cookie : option string) (uiTheme : string) : string :=
  match cookie with
  | Some c => if bool_decide (normalizeTheme c ∈ supportedThemes) then normalizeTheme c
              else if bool_decide (normalizeTheme uiTheme ∈ supportedThemes) then normalizeTheme uiTheme else "sysadmin90"
  | None => if bool_decide (normalizeTheme uiTheme ∈ supportedThemes) then normalizeTheme uiTheme else "sysadmin90"
  end.

Definition positiveOrDefaultDuration (value fallback : Z) : Z := if 0 <? value then value else fallback.

(** ** Paths *)
Inductive ui_mode := ModeBucket (bucket : string) | ModeObjects (bucket : string) | ModeObject (bucket key : string) | ModeNone.

Definition parseUIBucketObjectPath (path : string) : ui_mode :=
  let parts := Split (TrimPrefix path "/app/buckets/") "/" in
  match parts with
  | [b] => if String.eqb b "" then ModeNone else ModeBucket b
  | [b; o] => if String.eqb o "objects" then ModeObjects b else ModeNone
  | b :: o :: rest => if String.eqb o "objects" then ModeObject b (Join rest "/") else ModeNone
  | [] => ModeNone
  end.

Definition keyPathEscape (key : string) : string := Join (PathEscape <$> Split key "/") "/".
Definition queryPathEscape (value : string) : string := ReplaceAll (QueryEscape value) "%2F" "/".

Definition withUIFlash (base flash : string) : string :=
  if String.eqb flash "" then base
  else match url_Parse base with
       | None => if Contains base "?" then base +:+ "&flash=" +:+ flash else base +:+ "?flash=" +:+ flash
       | Some u =>
         let q := values_set "flash" flash (ParseQuery (lu_RawQuery u)) in
         url_String (mkLocalURL (lu_Path u) (lu_RawPath u) (lu_ForceQuery u) (Values_Encode q) (lu_Fragment u)
                       (lu_RawFragment u))
       end.

Definition set_unless_blank (k x : string) (v : url_values) : url_values :=
  if String.eqb x "" then v else values_set k x v.

Definition objectBrowserURL (bucket prefix delimiter flash : string) : string :=
  let q := set_unless_blank "flash" flash (set_unless_blank "delimiter" delimiter (set_unless_blank "prefix" prefix ∅)) in
  let base := "/app/buckets/" +:+ PathEscape bucket +:+ "/objects" in
  if String.eqb (Values_Encode q) "" then base else base +:+ "?" +:+ Values_Encode q.

Definition objectDetailURL (bucket key flash : string) : string :=
  let base := "/app/buckets/" +:+ PathEscape bucket +:+ "/objects/" +:+ keyPathEscape key in
  if String.eqb flash "" then base else withUIFlash base flash.

Definition safeUIReturnPath (value : string) : string :=
  let v := TrimSpace value in
  if negb (HasPrefix v "/") || HasPrefix v "//" then "" else v.

Definition uploadRedirectURL (bucket prefix delimiter returnTo : string) : string :=
  if negb (String.eqb returnTo "") then returnTo else objectBrowserURL bucket prefix delimiter "".

(** ** Keys *)
Definition normalizeUIPrefix (value : string) : string := TrimSpace value.
Definition normalizeUIDelimiter (value : string) : string :=
  let v := TrimSpace value in if String.eqb v "" then "/" else v.

(** [if p != "" && !strings.HasSuffix(p, "/") { p += "/" }] *)
Definition with_slash (p : string) : string :=
  if negb (String.eqb p "") && negb (HasSuffix p "/") then p +:+ "/" else p.

Definition normalizeFolderMarkerKey (prefix folder : string) : string :=
  let f := TrimSuffix (TrimPrefix (TrimSpace folder) "/") "/" in
  if String.eqb f "" then "" else with_slash (normalizeUIPrefix prefix) +:+ f +:+ "/".

Definition joinUploadObjectKey (prefix filename : string) : string :=
  let name := TrimPrefix (TrimSpace filename) "/" in
  if String.eqb name "" then "" else with_slash (normalizeUIPrefix prefix) +:+ name.

Definition resolveUploadObjectKey (prefix explicitKey filename formKey : string) (legacyUpload : bool) (fileCount : Z)
    : string :=
  let fk := TrimSpace formKey in
  if negb (String.eqb fk "") then joinUploadObjectKey prefix fk
  else
    let fileKey := TrimPrefix (TrimSpace explicitKey) "/" in
    if legacyUpload && (fileCount =? 1) && negb (String.eqb fileKey "") then
      let p := normalizeUIPrefix prefix in
      if String.eqb p "" || HasPrefix fileKey p then fileKey else joinUploadObjectKey p fileKey
    else joinUploadObjectKey prefix filename.

(** ** The object browser *)
Definition shouldHideUIFolderMarker (entry : ListObjectsV2Entry) (prefix delimiter : string) : bool :=
  match le_Object entry with
  | None => false
  | Some obj => String.eqb (ov_Key obj) prefix && (ov_Size obj =? 0) && HasSuffix (ov_Key obj) delimiter
  end.

Definition filterUIListEntries (entries : list ListObjectsV2Entry) (prefix delimiter : string)
    : list ListObjectsV2Entry :=
  if String.eqb prefix "" || String.eqb delimiter "" then entries
  else List.filter (λ entry, negb (shouldHideUIFolderMarker entry prefix delimiter)) entries.

Record uiBreadcrumb := mkBreadcrumb {
  ub_Label : string;
  ub_Prefix : string;
}.

Fixpoint breadcrumbs (acc : string) (parts : list string) : list uiBreadcrumb :=
  match parts with
  | [] => []
  | part :: parts =>
    if String.eqb part "" then breadcrumbs acc parts
    else mkBreadcrumb part (acc +:+ part +:+ "/") :: breadcrumbs (acc +:+ part +:+ "/") parts
  end.

Definition buildUIBreadcrumbs (prefix : string) : list uiBreadcrumb :=
  let trimmed := TrimSuffix prefix "/" in
  if String.eqb trimmed "" then [] else breadcrumbs "" (Split trimmed "/").

Definition displayUIPrefixName (prefix : string) : string :=
  let trimmed := TrimSuffix prefix "/" in
  if String.eqb trimmed "" then prefix
  else let name := path_Base trimmed in
       if String.eqb name "." || String.eqb name "/" then prefix else name.

Definition displayUIObjectName (key : string) : string := displayUIPrefixName key.

Definition contentDispositionAttachment (filename : string) : string :=
  "attachment; filename=" +:+ dquote +:+ filename +:+ dquote +:+ "; filename*=UTF-8''" +:+
  ReplaceAll (QueryEscape filename) "+" "%20".

(** ** Page data

    The fields of [webPageData] a handler sets, in the order it sets them; a field that
    is not set has its zero value. *)
Record uiBucketSummary := mkBucketSummary {
  bs_Name : string;
  bs_Region : string;
  bs_VersioningStatus : string;
  bs_ObjectCount : Z;
  bs_TotalSizeBytes : Z;
  bs_CreatedAt : Z;
}.

Inductive page_field (Stats : Type) :=
  | PgTitle (v : string) | PgPage (v : string) | PgRouteMap
  | PgBucketSummaries (v : list uiBucketSummary) | PgAPIRequestStats (v : Stats)
  | PgBuckets (v : list Bucket) | PgBucket (v : Bucket) | PgBucketName (v : string)
  | PgBucketWebsite (v : BucketWebsiteConfig) | PgBucketCORS (v : BucketCORSConfig) | PgBucketPolicy (v : BucketPolicy)
  | PgBucketPublicAccess (v : BucketPublicAccessBlock) | PgBucketLifecycle (v : BucketLifecycle)
  | PgBucketNotification (v : BucketNotification) | PgBucketReplication (v : BucketReplication)
  | PgObjectKey (v : string) | PgObject (v : option ObjectVersion) | PgObjects (v : list ObjectVersion)
  | PgPrefix (v : string) | PgDelimiter (v : string) | PgMaxKeys (v : Z)
  | PgContinuationToken (v : string) | PgNextContinuationToken (v : string) | PgIsTruncated (v : bool)
  | PgCommonPrefixes (v : list string) | PgBreadcrumbs (v : list uiBreadcrumb) | PgGeneratedAt (v : string)
  | PgError (v : string) | PgFlash (v : string) | PgCSRFToken (v : string)
  | PgTheme (v : string) | PgThemeOptions (v : list string)
  | PgGeneratedToken (v : string) | PgTokens (v : list IssuedPersonalAccessToken).
