(* ===== verification/Gate.v ===== *)
(** * The middleware and the root handler (src/internal/server/middleware.go, handler.go,
    security.go)

    Request ids, the authentication gate, the bound on requests in flight, the
    multiplexer and the choice between website and S3 API, in the order
    [NewHandler] composes them.  One request runs at a time; what other requests
    hold of the bound is the counter of the state.  The pages the multiplexer leads to
    besides the S3 API, the website and the health checks are a parameter. *)
From S2P Require Import Prelude GoStrings Url Base64 Model MemoryStore FileSystem Blob Listing Http Sse.
From S2P Require Import Calendar Credentials SigV4 PersonalTokens Protector Policy.
From S2P Require Import S3State S3Object S3Events S3Bucket S3ObjectOps S3Multipart S3Router.
From S2P Require Import NetHttp Website WebForms.

(** ** Options and state *)
Record Options := mkOptions {
  op_Domain : string;
  op_MaxInFlight : Z;
  op_Verifier : option Verifier;
  op_MetricsPath : string;
  op_AuditEnabled : bool;
  op_PATSigningKey : string;
  op_api : s3API;
  op_website : WebsiteHandler;
  op_ReadyCheck : option (result unit);
}.

Record server_state (P : Type) := mkServer {
  sv_s3 : s3_state P;
  sv_protector : authFailureProtector;
  sv_tokens : option PersonalAccessTokenManager;
  sv_inflight : Z;
  sv_counter : Z;
  sv_sessions : gmap string uiSession;
}.
Arguments mkServer {_} _ _ _ _ _ _.
Arguments sv_s3 {_} _.
Arguments sv_protector {_} _.
Arguments sv_tokens {_} _.
Arguments sv_inflight {_} _.
Arguments sv_counter {_} _.
Arguments sv_sessions {_} _.

(** ** Requests with another context or other headers *)
Definition with_principal (principal : string) (r : request) : request :=
  mkRequest (rq_Method r) (rq_Host r) (rq_Path r) (rq_Query r) (rq_Header r) (rq_Body r) (rq_RequestID r)
    principal (rq_Acquire r) (rq_EscapedPath r) (rq_RawQuery r) (rq_URLHost r) (rq_RemoteAddr r) (rq_TLS r).

Definition with_request_id (id : string) (r : request) : request :=
  mkRequest (rq_Method r) (rq_Host r) (rq_Path r) (rq_Query r) (rq_Header r) (rq_Body r) id
    (rq_Principal r) (rq_Acquire r) (rq_EscapedPath r) (rq_RawQuery r) (rq_URLHost r) (rq_RemoteAddr r) (rq_TLS r).

Definition with_headers (h : http_header) (r : request) : request :=
  mkRequest (rq_Method r) (rq_Host r) (rq_Path r) (rq_Query r) h (rq_Body r) (rq_RequestID r)
    (rq_Principal r) (rq_Acquire r) (rq_EscapedPath r) (rq_RawQuery r) (rq_URLHost r) (rq_RemoteAddr r) (rq_TLS r).

(** ** Who the client says it is *)
Definition bearerToken (value : string) : option string :=
  let value := TrimSpace value in
  if (String.length value <? 7)%nat then None
  else if negb (EqualFold (str_take 7 value) "Bearer ") then None
  else let token := TrimSpace (str_drop 7 value) in
       if String.eqb token "" then None else Some token.

(** What stands before the first slash, if anything. *)
Definition before_slash (value : string) : option string :=
  let x := default "" (head (SplitN value "/" 2)) in
  if String.eqb x "" then None else Some (TrimSpace x).

Definition authorization_credential (authz : string) : option string :=
  match Index authz "Credential=" with
  | None => None
  | Some i => let value := str_drop (i + 11) authz in
              let value := match Index value "," with Some j => str_take j value | None => value end in
              before_slash value
  end.

Definition query_credential (q : url_values) : option string :=
  let credential := query_get q "X-Amz-Credential" in
  if String.eqb credential "" then None else before_slash credential.

Definition hasAuthMaterial (r : request) : bool :=
  negb (String.eqb (TrimSpace (header_get (rq_Header r) "Authorization")) "") ||
  negb (String.eqb (query_get (rq_Query r) "X-Amz-Signature") "") ||
  negb (String.eqb (query_get (rq_Query r) "X-Amz-Credential") "") ||
  negb (String.eqb (query_get (rq_Query r) "X-Amz-Algorithm") "").

(** ** Paths the gate does not look at *)
Definition shouldBypassGuards (path metricsPath : string) : bool :=
  let metricsPath := or_else metricsPath "/metrics" in
  String.eqb path "/healthz" || String.eqb path "/readyz" || String.eqb path metricsPath ||
  HasPrefix path "/app" || HasPrefix path "/assets/".

Definition shouldBypassAuth (path metricsPath : string) : bool := shouldBypassGuards path metricsPath.

(** ** Errors of the verifier *)
Definition access_denied (r : request) : s3ErrorSpec :=
  mkS3Error StatusForbidden "AccessDenied" "Access Denied" (rq_Path r).

Definition mapAuthErrorToS3 (r : request) (err : error) : s3ErrorSpec :=
  if errors_Is err ErrMissingAuthenticationToken then
    mkS3Error StatusForbidden "MissingAuthenticationToken" "Request is missing Authentication Token" (rq_Path r)
  else if errors_Is err ErrInvalidAccessKeyID then
    mkS3Error StatusForbidden "InvalidAccessKeyId"
      "The AWS Access Key Id you provided does not exist in our records." (rq_Path r)
  else if errors_Is err ErrSignatureDoesNotMatch then
    mkS3Error StatusForbidden "SignatureDoesNotMatch"
      "The request signature we calculated does not match the signature you provided." (rq_Path r)
  else if errors_Is err ErrRequestTimeTooSkewed then
    mkS3Error StatusForbidden "RequestTimeTooSkewed"
      "The difference between the request time and the current time is too large." (rq_Path r)
  else if errors_Is err ErrInvalidRequest then
    mkS3Error StatusForbidden "InvalidRequest" "The request is invalid." (rq_Path r)
  else access_denied r.

(** ** What an anonymous request asks for *)
Definition anonymousPolicyTarget (r : request) (bucket key : string) : option (string * string) :=
  if String.eqb key "" then
    if String.eqb (rq_Method r) "GET" && String.eqb (query_get (rq_Query r) "list-type") "2"
    then Some ("s3:ListBucket", "arn:aws:s3:::" +:+ bucket) else None
  else if negb (String.eqb (rq_Method r) "GET") && negb (String.eqb (rq_Method r) "HEAD") then None
  else Some ("s3:GetObject", "arn:aws:s3:::" +:+ bucket +:+ "/" +:+ key).

Section gate.
Context `{!GoRuntime} `{!TimeFormats} `{!RequestCodecs} `{!Randomness} `{!MimeTypes} `{!JsonSyntax}.
Context `{!JsonCodec listV2ContinuationToken} `{!JsonCodec personalAccessTokenClaims}.
Context `{!Hashes} `{!TempNames} `{!BlockCipher}.
Context {P : Type} `{!StatePersister P}.
Abbreviation HM := (M (s3_state P)).
Abbreviation SM := (M (server_state P)).
Variable opts : Options.

Definition on_s3 {A} (m : HM A) : SM A := λ s,
  let '(s3, x) := m (sv_s3 s) in
  (mkServer s3 (sv_protector s) (sv_tokens s) (sv_inflight s) (sv_counter s) (sv_sessions s), x).

Definition on_protector {A} (f : authFailureProtector → authFailureProtector * A) : SM A := λ s,
  let '(p, x) := f (sv_protector s) in
  (mkServer (sv_s3 s) p (sv_tokens s) (sv_inflight s) (sv_counter s) (sv_sessions s), Ok x).

Definition set_inflight (n : Z) : SM unit := λ s,
  (mkServer (sv_s3 s) (sv_protector s) (sv_tokens s) n (sv_counter s) (sv_sessions s), Ok tt).

Definition set_counter (n : Z) : SM unit := λ s,
  (mkServer (sv_s3 s) (sv_protector s) (sv_tokens s) (sv_inflight s) n (sv_sessions s), Ok tt).

Definition refuse (r : request) (spec : s3ErrorSpec) : SM unit := on_s3 (writeS3Error r spec).

Definition extractPrincipalID (r : request) : string :=
  if negb (String.eqb (rq_Principal r) "") then rq_Principal r
  else match bearerToken (header_get (rq_Header r) "Authorization") with
  | Some token => or_else (PersonalAccessTokenSubject token) "pat"
  | None =>
    match authorization_credential (header_get (rq_Header r) "Authorization") with
    | Some id => id
    | None => default "" (query_credential (rq_Query r))
    end
  end.

Definition clientIdentityKey (r : request) : string :=
  let host := match SplitHostPort (rq_RemoteAddr r) with Some (x, _) => x | None => rq_RemoteAddr r end in
  or_else (extractPrincipalID r) "anon" +:+ "@" +:+ or_else (TrimSpace host) "unknown".

Definition emitAuditEvent (r : request) (action reason : string) : SM unit :=
  if op_AuditEnabled opts then
    on_s3 (now ← s3_now;
           emit (EvAudit (mkAuditEvent now action "deny" (rq_RequestID r) (extractPrincipalID r) "" "" reason)))
  else mret tt.

(** [isPublicWebsiteRequest], [anonymousPolicyAllows]: reads of the metadata. *)
Definition isPublicWebsiteRequest (st : memoryBackedStore P) (r : request) : bool :=
  if negb (String.eqb (rq_Method r) "GET") && negb (String.eqb (rq_Method r) "HEAD") then false
  else if hasQueryFlag (rq_Query r) "website" then false
  else match bucketAndKey r (op_Domain opts) with
  | None => false
  | Some (bucket, _) =>
    if String.eqb bucket "" then false
    else match GetBucketWebsite bucket st with
    | Ok cfg => bw_Enabled cfg && bw_PublicRead cfg
    | Err _ => false
    end
  end.

(** The public access block keeps the policy from being consulted; so does an error
    other than its absence. *)
Definition public_access_blocked (st : memoryBackedStore P) (bucket : string) : bool :=
  match GetBucketPublicAccessBlock bucket st with
  | Ok block => pab_BlockPublicPolicy block || pab_RestrictPublicBuckets block
  | Err err => negb (errors_Is err ErrNotFound)
  end.

Definition anonymousPolicyAllows (st : memoryBackedStore P) (r : request) : bool :=
  match bucketAndKey r (op_Domain opts) with
  | None => false
  | Some (bucket, key) =>
    if String.eqb bucket "" then false
    else match anonymousPolicyTarget r bucket key with
    | None => false
    | Some (action, resource) =>
      if public_access_blocked st bucket then false
      else match GetBucketPolicy bucket st with
      | Err _ => false
      | Ok policy =>
        if negb (bp_Enabled policy) || String.eqb (TrimSpace (bp_Document policy)) "" then false
        else bucketPolicyAllowsAnonymous (bp_Document policy) action resource
      end
    end
  end.

Definition verify_token (tokens : option PersonalAccessTokenManager) (now : Z) (token : string) : result string :=
  match tokens with
  | Some m => Verify m now token
  | None => VerifyPersonalAccessToken token (op_PATSigningKey opts) now
  end.

Definition record_failure (identity : string) : SM unit :=
  now ← (on_s3 s3_now : SM Z); on_protector (λ p, (RecordFailure identity now p, tt)).

Definition withAuthGate (next : request → SM unit) (r : request) : SM unit :=
  if shouldBypassAuth (rq_Path r) (op_MetricsPath opts) then next r
  else
    let identity := clientIdentityKey r in
    now ← (on_s3 s3_now : SM Z);
    blocked ← (on_protector (IsBlocked identity now) : SM bool);
    if (blocked : bool) then
      emitAuditEvent r "auth.blocked" "too_many_auth_failures" ;;
      refuse r (mkS3Error StatusServiceUnavailable "SlowDown"
        "Too many authentication failures. Retry later." (rq_Path r))
    else
      s ← (get : SM _);
      match bearerToken (header_get (rq_Header r) "Authorization") with
      | Some token =>
        match verify_token (sv_tokens s) now token with
        | Err _ =>
          record_failure identity ;; emitAuditEvent r "auth.failure" "AccessDenied" ;; refuse r (access_denied r)
        | Ok subject =>
          on_protector (λ p, (RecordSuccess identity p, tt)) ;; next (with_principal subject r)
        end
      | None =>
        if negb (hasAuthMaterial r) && anonymousPolicyAllows (s3_store (sv_s3 s)) r
        then next (with_principal "anonymous" r)
        else if negb (hasAuthMaterial r) && isPublicWebsiteRequest (s3_store (sv_s3 s)) r
        then next (with_principal "anonymous" r)
        else match op_Verifier opts with
        | None => refuse r (access_denied r)
        | Some v =>
          let '(headers, verdict) := VerifyRequest (Some v) (λ _, now) r (rq_Header r) in
          let r := with_headers headers r in
          match verdict with
          | Err err =>
            let spec := mapAuthErrorToS3 r err in
            record_failure identity ;; emitAuditEvent r "auth.failure" (se_Code spec) ;; refuse r spec
          | Ok _ =>
            on_protector (λ p, (RecordSuccess identity p, tt)) ;; next (with_principal (extractPrincipalID r) r)
          end
        end
      end.

(** [withRateLimit]: a slot of the semaphore, given back when the request is done. *)
Definition withRateLimit (next : request → SM unit) (r : request) : SM unit :=
  if shouldBypassGuards (rq_Path r) (op_MetricsPath opts) then next r
  else
    s ← (get : SM _);
    if sv_inflight s <? op_MaxInFlight opts then
      set_inflight (sv_inflight s + 1) ;;
      next r ;;
      s ← (get : SM _); set_inflight (sv_inflight s - 1)
    else refuse r (mkS3Error StatusServiceUnavailable "SlowDown" "Please reduce your request rate." (rq_Path r)).

(** [newRequestID]: random bytes, or the counter when the system has none. *)
Definition newRequestID : SM string :=
  b ← on_s3 (rand_bytes 8);
  match b with
  | Ok b => mret (ToUpper (hex_encode b))
  | Err _ =>
    s ← (get : SM _);
    let n := (sv_counter s + 1) mod 2 ^ 64 in
    set_counter n ;; mret (ToUpper (hex_encode (be_encode 8 n)))
  end.

Definition withRequestID (next : request → SM unit) (r : request) : SM unit :=
  let given := header_get (rq_Header r) "X-Amz-Request-Id" in
  requestID ← (if String.eqb given "" then newRequestID else mret given);
  on_s3 (setHeader "X-Amz-Request-Id" requestID) ;;
  next (with_request_id requestID r).

(** ** The multiplexer *)
Inductive mux_route :=
  | RouteHealthz | RouteReadyz | RouteWeb | RouteMetrics | RouteLifecycleConfig | RouteLifecycleMetrics | RouteRoot.

Definition path_segments (p : string) : list string := decodePath <$> Split (str_drop 1 p) "/".

(** The pattern that matches a path, by its decoded segments.  The metrics path is a
    path without a trailing slash. *)
Definition mux_match (p : string) : mux_route :=
  let segs := path_segments p in
  if decide (segs = ["healthz"]) then RouteHealthz
  else if decide (segs = ["readyz"]) then RouteReadyz
  else if decide (head segs = Some "app") then RouteWeb
  else if decide (head segs = Some "assets" ∧ (1 < length segs)%nat) then RouteWeb
  else if decide (segs = Split (str_drop 1 (or_else (op_MetricsPath opts) "/metrics")) "/") then RouteMetrics
  else if decide (segs = ["debug"; "lifecycle"; "config"]) then RouteLifecycleConfig
  else if decide (segs = ["debug"; "lifecycle"; "metrics"]) then RouteLifecycleMetrics
  else RouteRoot.

(** A redirection to the cleaned path, or to /assets/. *)
Definition mux_redirect (r : request) : option string :=
  let p := if String.eqb (rq_Method r) "CONNECT" then rq_EscapedPath r else cleanPath (rq_EscapedPath r) in
  if decide (path_segments p = ["assets"]) then Some (with_query (p +:+ "/") (rq_RawQuery r))
  else if negb (String.eqb p (rq_EscapedPath r)) then Some (with_query p (rq_RawQuery r))
  else None.

Definition dependencyCheck : SM (result unit) :=
  if negb (api_ready (op_api opts)) then mret (Err (Errorf "metadata store unavailable" []))
  else buckets ← on_s3 (query_store ListBuckets);
       match buckets with
       | Err err => mret (Err (ErrWrap "metadata check failed: %w" [] err))
       | Ok _ =>
         health ← on_s3 (on_blob (HealthCheck (api_blob (op_api opts))));
         match health with
         | Err err => mret (Err (ErrWrap "blob check failed: %w" [] err))
         | Ok _ =>
           match op_ReadyCheck opts with
           | Some (Err err) => mret (Err (ErrWrap "dependency check failed: %w" [] err))
           | _ => mret (Ok tt)
           end
         end
       end.

Definition health_page (good bad : string) : SM unit :=
  res ← dependencyCheck;
  match res with
  | Err err => on_s3 (WriteHeader StatusServiceUnavailable ;;
                      Write (PBytes (bad +:+ ": " +:+ error_text err +:+ newline)))
  | Ok _ => on_s3 (WriteHeader StatusOK ;; Write (PBytes (good +:+ newline)))
  end.

Definition websiteOrS3Handler (r : request) : SM unit :=
  s ← (get : SM _);
  if isPublicWebsiteRequest (s3_store (sv_s3 s)) r then on_s3 (website_ServeHTTP (op_website opts) r)
  else on_s3 (ServeHTTP (op_api opts) r).

(** The web interface, the metrics page and the pages on the lifecycle worker. *)
Variable other_page : mux_route → request → SM unit.

Definition mux_ServeHTTP (r : request) : SM unit :=
  match mux_redirect r with
  | Some target => on_s3 (http_Redirect r target StatusMovedPermanently)
  | None =>
    match mux_match (rq_EscapedPath r) with
    | RouteHealthz => health_page "ok" "unhealthy"
    | RouteReadyz => health_page "ready" "not ready"
    | RouteRoot => websiteOrS3Handler r
    | route => other_page route r
    end
  end.
End gate.

(** The options the handler works with: the default for the bound on requests in
    flight (those of the limiter and the protector are in their constructors). *)
Definition default_options (opts : Options) : Options :=
  mkOptions (op_Domain opts) (if op_MaxInFlight opts <=? 0 then 128 else op_MaxInFlight opts) (op_Verifier opts)
    (op_MetricsPath opts) (op_AuditEnabled opts) (op_PATSigningKey opts) (op_api opts) (op_website opts)
    (op_ReadyCheck opts).

Definition NewHandler `{!GoRuntime} `{!TimeFormats} `{!RequestCodecs} `{!Randomness} `{!MimeTypes} `{!JsonSyntax}
    `{!JsonCodec listV2ContinuationToken} `{!JsonCodec personalAccessTokenClaims}
    `{!Hashes} `{!TempNames} `{!BlockCipher} {P : Type} `{!StatePersister P}
    (opts : Options) (other_page : mux_route → request → M (server_state P) unit) : request → M (server_state P) unit :=
  let opts := default_options opts in
  withRequestID (withAuthGate opts (withRateLimit opts (mux_ServeHTTP opts other_page))).
