(* ===== verification/GateProps.v ===== *)
(** * Properties of the gate

    Which requests reach the handlers behind the gate, and what anonymous requests
    can do. *)
From S2P Require Import Prelude GoStrings StringFacts Url Base64 Model MemoryStore FileSystem Blob BlobFacts Listing Http Sse.
From S2P Require Import Calendar Credentials SigV4 PersonalTokens Protector Policy.
From S2P Require Import S3State S3Object S3Events S3Bucket S3ObjectOps S3Multipart S3Router.
From S2P Require Import NetHttp Website S3Facts S3Frames S3Reading Gate.

Section gate.
Context `{!GoRuntime} `{!TimeFormats} `{!RequestCodecs} `{!Randomness} `{!MimeTypes} `{!JsonSyntax}.
Context `{!JsonCodec listV2ContinuationToken} `{!JsonCodec personalAccessTokenClaims}.
Context `{!Hashes} `{!TempNames} `{!BlockCipher}.
Context {P : Type} `{!StatePersister P}.
Abbreviation HM := (M (s3_state P)).
Abbreviation SM := (M (server_state P)).
Variable opts : Options.

(** Metadata, files, tokens and sessions are as they were. *)
Definition untouched (s s' : server_state P) : Prop :=
  s3_store (sv_s3 s') = s3_store (sv_s3 s) ∧ s3_world (sv_s3 s') = s3_world (sv_s3 s) ∧
  sv_tokens s' = sv_tokens s ∧ sv_inflight s' = sv_inflight s ∧ sv_sessions s' = sv_sessions s.

Lemma untouched_refl s : untouched s s.
Proof. done. Qed.
Lemma untouched_trans s1 s2 s3 : untouched s1 s2 → untouched s2 s3 → untouched s1 s3.
Proof. intros (? & ? & ? & ? & ?) (? & ? & ? & ? & ?). unfold untouched. split_and!; congruence. Qed.

(** Steps that leave the response alone, too. *)
Definition hidden {A} (m : SM A) : Prop := ∀ s, ∃ s' x,
  m s = (s', Ok x) ∧ untouched s s' ∧ s3_resp (sv_s3 s') = s3_resp (sv_s3 s).

Lemma hidden_ret {A} (x : A) : hidden (mret x).
Proof. intros s. by exists s, x. Qed.
Lemma hidden_bind {A B} (m : SM A) (f : A → SM B) : hidden m → (∀ x, hidden (f x)) → hidden (mbind f m).
Proof.
  intros Hm Hf s. destruct (Hm s) as (s1 & x & E & Hu & Hr). destruct (Hf x s1) as (s2 & y & E2 & Hu2 & Hr2).
  exists s2, y. unfold mbind, M_bind. rewrite E, E2. split; [done|]. split; [by eapply untouched_trans|congruence].
Qed.
Lemma hidden_protector {A} (f : authFailureProtector → authFailureProtector * A) : hidden (on_protector f : SM A).
Proof. intros s. unfold on_protector. destruct (f (sv_protector s)) as [p x]. by eexists _, _. Qed.
Lemma hidden_quiet {A} (m : HM A) : quiet m → hidden (on_s3 m : SM A).
Proof.
  intros Hm s. destruct (Hm (sv_s3 s)) as (s3 & x & E & [Hc1 Hc2 Hc3]). unfold on_s3. rewrite E.
  eexists _, _. split; [done|]. by split_and!.
Qed.
Lemma hidden_audit r action reason : hidden (emitAuditEvent opts r action reason : SM unit).
Proof.
  unfold emitAuditEvent. destruct (op_AuditEnabled opts); [|apply hidden_ret].
  apply hidden_quiet, quiet_bind; [apply quiet_now|intros; apply quiet_emit].
Qed.
Lemma hidden_record identity : hidden (record_failure identity : SM unit).
Proof.
  unfold record_failure. apply hidden_bind; [apply hidden_quiet, quiet_now|intros; apply hidden_protector].
Qed.
Lemma hidden_get : hidden (get : SM (server_state P)).
Proof. intros s. by exists s, s. Qed.

(** The request was refused: nothing but the protector and the audit log changed. *)
Definition refused_with (s s' : server_state P) : Prop :=
  untouched s s' ∧ (status (sv_s3 s) = None → status (sv_s3 s') = Some StatusForbidden ∨
    status (sv_s3 s') = Some StatusServiceUnavailable).

Definition refuses (m : SM unit) : Prop := ∀ s, ∃ s', m s = (s', Ok tt) ∧ refused_with s s'.

Lemma refuses_refuse r spec : se_StatusCode spec = StatusForbidden ∨ se_StatusCode spec = StatusServiceUnavailable →
  refuses (refuse r spec).
Proof.
  intros Hcode s. unfold refuse, on_s3. eexists. split; [done|]. split; [done|]. intros Hs.
  change (status (exec (writeS3Error r spec) (sv_s3 s)) = Some StatusForbidden ∨
    status (exec (writeS3Error r spec) (sv_s3 s)) = Some StatusServiceUnavailable).
  rewrite (proj1 (status_writeS3Error r spec (sv_s3 s) Hs)). by destruct Hcode as [-> | ->]; [left|right].
Qed.

Lemma refuses_after {A} (m : SM A) (f : A → SM unit) : hidden m → (∀ x, refuses (f x)) → refuses (mbind f m).
Proof.
  intros Hm Hf s. destruct (Hm s) as (s1 & x & E & Hu & Hr). destruct (Hf x s1) as (s' & E' & Hu' & Hs').
  exists s'. unfold mbind, M_bind. rewrite E, E'. split; [done|]. split; [by eapply untouched_trans|].
  intros Hs. apply Hs'. unfold status in *. by rewrite Hr.
Qed.

Lemma mapAuthError_code r err : se_StatusCode (mapAuthErrorToS3 r err) = StatusForbidden.
Proof. unfold mapAuthErrorToS3. by repeat destruct (errors_Is _ _). Qed.

(** ** Who gets through

    The request a handler behind the gate sees, and why. *)
Inductive admitted (s : server_state P) (r : request) : request → Prop :=
  | admitted_bypass : shouldBypassAuth (rq_Path r) (op_MetricsPath opts) = true → admitted s r r
  | admitted_token token subject :
      bearerToken (header_get (rq_Header r) "Authorization") = Some token →
      verify_token opts (sv_tokens s) (fs_clock (s3_world (sv_s3 s))) token = Ok subject →
      admitted s r (with_principal subject r)
  | admitted_anonymous :
      hasAuthMaterial r = false →
      anonymousPolicyAllows opts (s3_store (sv_s3 s)) r = true ∨
      isPublicWebsiteRequest opts (s3_store (sv_s3 s)) r = true →
      admitted s r (with_principal "anonymous" r)
  | admitted_signed v headers :
      op_Verifier opts = Some v →
      VerifyRequest (Some v) (λ _, fs_clock (s3_world (sv_s3 s))) r (rq_Header r) = (headers, Ok tt) →
      admitted s r (with_principal (extractPrincipalID (with_headers headers r)) (with_headers headers r)).

(** Going on with the same stores and response. *)
Definition goes_on (next : request → SM unit) (m : SM unit) (s : server_state P) (r' : request) : Prop :=
  ∃ s', m s = next r' s' ∧ untouched s s' ∧ s3_resp (sv_s3 s') = s3_resp (sv_s3 s).

Lemma goes_on_after {A} next (m : SM A) (f : A → SM unit) s r' :
  hidden m → (∀ x s1, m s = (s1, Ok x) → untouched s s1 → s3_resp (sv_s3 s1) = s3_resp (sv_s3 s) →
    goes_on next (f x) s1 r') → goes_on next (mbind f m) s r'.
Proof.
  intros Hm Hf. destruct (Hm s) as (s1 & x & E & Hu & Hr).
  destruct (Hf x s1 E Hu Hr) as (s' & E' & Hu' & Hr'). exists s'. unfold mbind, M_bind. rewrite E.
  split; [done|]. split; [by eapply untouched_trans|congruence].
Qed.

Lemma goes_on_now next s r' : goes_on next (next r') s r'.
Proof. by exists s. Qed.

Lemma goes_on_success next identity r' s :
  goes_on next (on_protector (λ p, (RecordSuccess identity p, tt)) ;; next r') s r'.
Proof. apply goes_on_after; [apply hidden_protector|]. intros _ s1 _ _ _. apply goes_on_now. Qed.

Ltac refuse_here :=
  repeat (apply refuses_after; [first [apply hidden_record|apply hidden_audit]|intros _]);
  apply refuses_refuse; first [by left|by right|left; apply mapAuthError_code].

Definition gate_result (next : request → SM unit) (s : server_state P) (r : request) (s0 : server_state P) (m : SM unit) : Prop :=
  (∃ r', admitted s r r' ∧ goes_on next m s0 r') ∨ ∃ s', m s0 = (s', Ok tt) ∧ refused_with s0 s'.

Lemma gate_result_after {A} next s r s0 (m : SM A) (f : A → SM unit) :
  hidden m → (∀ x s1, m s0 = (s1, Ok x) → untouched s0 s1 → gate_result next s r s1 (f x)) →
  gate_result next s r s0 (mbind f m).
Proof.
  intros Hm Hf. destruct (Hm s0) as (s1 & x & E & Hu & Hr).
  destruct (Hf x s1 E Hu) as [(r' & Ha & s2 & E2 & Hu2 & Hr2)|(s2 & E2 & Hu2 & Hs2)].
  - left. exists r'. split; [done|]. exists s2. unfold mbind, M_bind. rewrite E.
    split; [done|]. split; [by eapply untouched_trans|congruence].
  - right. exists s2. unfold mbind, M_bind. rewrite E. split; [done|]. split; [by eapply untouched_trans|].
    intros Hs. apply Hs2. unfold status in *. by rewrite Hr.
Qed.

Lemma gate_result_refused next s r s0 m : refuses m → gate_result next s r s0 m.
Proof. intros Hm. right. apply Hm. Qed.

Ltac refused := apply gate_result_refused; refuse_here.

Lemma gate_cases next r s : gate_result next s r s (withAuthGate opts next r).
Proof.
  unfold withAuthGate. destruct (shouldBypassAuth _ _) eqn:Eby.
  { left. exists r. split; [by apply admitted_bypass|apply goes_on_now]. }
  apply gate_result_after; [apply hidden_quiet, quiet_now|]. intros now s1 Enow Hu1.
  assert (now = fs_clock (s3_world (sv_s3 s))) as -> by (by injection Enow). clear Enow.
  apply gate_result_after; [apply hidden_protector|]. intros blocked s2 _ Hu2. destruct blocked; [refused|].
  apply gate_result_after; [apply hidden_get|]. intros x y Eget _.
  assert (x = s2 ∧ y = s2) as [-> ->] by (by injection Eget).
  assert (untouched s s2) as (Est & Ew & Etok & _) by (by eapply untouched_trans). rewrite Est, Etok.
  destruct (bearerToken _) as [token|] eqn:Etoken.
  { destruct (verify_token opts (sv_tokens s) _ token) as [subject|err] eqn:Everify; [|refused].
    left. exists (with_principal subject r). split; [by eapply admitted_token|apply goes_on_success]. }
  destruct (hasAuthMaterial r) eqn:Emat; cbn [negb andb].
  2: destruct (anonymousPolicyAllows opts (s3_store (sv_s3 s)) r) eqn:Epol;
     [|destruct (isPublicWebsiteRequest opts (s3_store (sv_s3 s)) r) eqn:Eweb].
  2,3: left; exists (with_principal "anonymous" r); split; [apply admitted_anonymous; auto|apply goes_on_now].
  all: destruct (op_Verifier opts) as [v|] eqn:Ev; [|refused].
  all: destruct (VerifyRequest (Some v) _ r (rq_Header r)) as [headers [[]|err]] eqn:Everify;
    [left; eexists; split; [by eapply admitted_signed|apply goes_on_success]|].
  all: cbv zeta; refused.
Qed.

(** C2: every request that reaches a handler behind the gate has been admitted: its
    path is one the gate passes by, or it carries a valid token, or it carries no
    credentials and a policy or a public website admits it, or its signature
    verifies; the handler sees it with the principal found and the stores as they
    were.  Every other request is answered 403 or 503 and has changed nothing but
    the failure counters and the audit log. *)
Theorem gate_sound (next : request → SM unit) r s :
  (∃ r' s', admitted s r r' ∧ withAuthGate opts next r s = next r' s' ∧ untouched s s') ∨
  (∃ s', withAuthGate opts next r s = (s', Ok tt) ∧ untouched s s' ∧
     (status (sv_s3 s) = None → status (sv_s3 s') = Some StatusForbidden ∨
        status (sv_s3 s') = Some StatusServiceUnavailable)).
Proof.
  destruct (gate_cases next r s) as [(r' & Ha & s' & E & Hu & _)|(s' & E & Hu & Hs)].
  - left. by exists r', s'.
  - right. by exists s'.
Qed.

(** ** Requests without credentials only read *)
Variable other_page : mux_route → request → SM unit.

(** The metadata, the files and the tokens stay; the counters may change. *)
Definition data_kept (s s' : server_state P) : Prop :=
  s3_store (sv_s3 s') = s3_store (sv_s3 s) ∧ fs_files (s3_world (sv_s3 s')) = fs_files (s3_world (sv_s3 s)) ∧
  sv_tokens s' = sv_tokens s.

Definition server_reads {A} (m : SM A) : Prop := ∀ s, data_kept s (m s).1.

Lemma data_kept_trans s1 s2 s3 : data_kept s1 s2 → data_kept s2 s3 → data_kept s1 s3.
Proof. intros (? & ? & ?) (? & ? & ?). unfold data_kept. split_and!; congruence. Qed.

Lemma untouched_kept s s' : untouched s s' → data_kept s s'.
Proof. intros (? & Hw & ? & _). unfold data_kept. by rewrite Hw. Qed.

Lemma server_bind {A B} (m : SM A) (f : A → SM B) :
  server_reads m → (∀ x, server_reads (f x)) → server_reads (mbind f m).
Proof.
  intros Hm Hf s. specialize (Hm s). unfold mbind, M_bind.
  destruct (m s) as [s' [x|e]]; simpl in *; [|done]. eapply data_kept_trans; [exact Hm|apply Hf].
Qed.
Lemma server_hidden {A} (m : SM A) : hidden m → server_reads m.
Proof. intros Hm s. destruct (Hm s) as (s' & x & -> & Hu & _). by apply untouched_kept. Qed.
Lemma server_on_s3 {A} (m : HM A) : reads m → server_reads (on_s3 m : SM A).
Proof. intros Hm s. unfold on_s3. destruct (Hm (sv_s3 s)) as [E1 E2]. by destruct (m (sv_s3 s)). Qed.
Lemma server_ret {A} (x : A) : server_reads (mret x : SM A).
Proof. done. Qed.
Lemma server_inflight n : server_reads (set_inflight n : SM unit).
Proof. done. Qed.
Lemma server_counter n : server_reads (set_counter n : SM unit).
Proof. done. Qed.
Lemma server_get : server_reads (get : SM _).
Proof. done. Qed.
Lemma server_refuse r spec : server_reads (refuse r spec : SM unit).
Proof. apply server_on_s3, reads_writeS3Error. Qed.

Lemma silent_HealthCheck bs : silent (HealthCheck bs).
Proof.
  unfold HealthCheck. generalize [bs_root bs; bs_objectsRoot bs; bs_tempRoot bs; bs_multipartRoot bs].
  induction l as [|p l IH]; simpl; [apply silent_ret|]. apply silent_bind; [|done].
  apply silent_guard; [apply silent_Stat|apply silent_ret].
Qed.

Lemma server_dependencyCheck : server_reads (dependencyCheck opts : SM (result unit)).
Proof.
  unfold dependencyCheck. destruct (negb _); [done|].
  apply server_bind; [apply server_on_s3, reads_query|intros [buckets|err]; [|done]].
  apply server_bind; [apply server_on_s3, reads_silent, silent_HealthCheck|intros [x|err]; [|done]].
  by repeat case_match.
Qed.

Lemma server_health_page good bad : server_reads (health_page opts good bad : SM unit).
Proof.
  unfold health_page. apply server_bind; [apply server_dependencyCheck|].
  intros [x|err]; apply server_on_s3; read.
Qed.

Hypothesis pages_read : ∀ route r, is_read r → server_reads (other_page route r).

Lemma server_mux r : is_read r → server_reads (mux_ServeHTTP opts other_page r).
Proof.
  intros Hm. unfold mux_ServeHTTP. destruct (mux_redirect r); [apply server_on_s3, reads_http_Redirect|].
  destruct (mux_match _ _); try apply server_health_page; try by apply pages_read.
  unfold websiteOrS3Handler. apply server_bind; [apply server_get|intros s].
  destruct (isPublicWebsiteRequest _ _ _); apply server_on_s3; [apply reads_website|by apply reads_ServeHTTP].
Qed.

Lemma server_withRateLimit next r : server_reads (next r) → server_reads (withRateLimit opts next r).
Proof.
  intros Hn. unfold withRateLimit. destruct (shouldBypassGuards _ _); [done|].
  apply server_bind; [apply server_get|intros s]. destruct (_ <? _); [|apply server_refuse].
  apply server_bind; [apply server_inflight|intros _]. apply server_bind; [done|intros _].
  apply server_bind; [apply server_get|intros s']. apply server_inflight.
Qed.

(** A policy or a website admits anonymous requests to read only. *)
Lemma anonymous_is_read (st : memoryBackedStore P) r :
  anonymousPolicyAllows opts st r = true ∨ isPublicWebsiteRequest opts st r = true → is_read r.
Proof.
  unfold is_read. intros [Ha|Ha].
  - unfold anonymousPolicyAllows, anonymousPolicyTarget in Ha.
    destruct (bucketAndKey r _) as [[bucket key]|]; [|done]. destruct (String.eqb bucket ""); [done|].
    destruct (String.eqb key "").
    + destruct (String.eqb_spec (rq_Method r) "GET"); [by left|done].
    + destruct (String.eqb_spec (rq_Method r) "GET"); [by left|].
      destruct (String.eqb_spec (rq_Method r) "HEAD"); [by right|done].
  - unfold isPublicWebsiteRequest in Ha.
    destruct (String.eqb_spec (rq_Method r) "GET"); [by left|].
    destruct (String.eqb_spec (rq_Method r) "HEAD"); [by right|done].
Qed.

Lemma no_material r : hasAuthMaterial r = false →
  TrimSpace (header_get (rq_Header r) "Authorization") = "" ∧ query_get (rq_Query r) "X-Amz-Algorithm" = "".
Proof.
  unfold hasAuthMaterial. rewrite !orb_false_iff, !negb_false_iff. intros [[[E1 _] _] E2].
  by apply String.eqb_eq in E1, E2.
Qed.

Lemma no_material_no_token r : hasAuthMaterial r = false →
  bearerToken (header_get (rq_Header r) "Authorization") = None.
Proof. intros [E _]%no_material. unfold bearerToken. by rewrite E. Qed.

Lemma no_material_unsigned v now r : hasAuthMaterial r = false →
  ∃ err, VerifyRequest (Some v) now r (rq_Header r) = (rq_Header r, Err err).
Proof.
  intros [E1 E2]%no_material. unfold VerifyRequest. destruct (vf_store v) as [store|]; [|by eexists].
  unfold mbind, M_bind, get. simpl. rewrite E2. simpl.
  destruct (String.eqb_spec (header_get (rq_Header r) "Authorization") "") as [E|Hne]; simpl; [by eexists|].
  unfold verifyHeaderAuth, mbind, M_bind, get, lift. simpl.
  unfold parseAuthorizationHeader. destruct (HasPrefix _ _) eqn:Hp; simpl; [|by eexists].
  exfalso. apply (TrimSpace_nonempty _ Hne); [|done].
  apply HasPrefix_spec in Hp as [t ->]. done.
Qed.

Lemma server_gate r : hasAuthMaterial r = false → shouldBypassAuth (rq_Path r) (op_MetricsPath opts) = false →
  server_reads (withAuthGate opts (withRateLimit opts (mux_ServeHTTP opts other_page)) r).
Proof.
  intros Hmat Hby s.
  destruct (gate_cases (withRateLimit opts (mux_ServeHTTP opts other_page)) r s)
    as [(r' & Ha & s' & E & Hu & _)|(s' & E & Hu & _)]; rewrite E; [|by apply untouched_kept].
  eapply data_kept_trans; [by apply untouched_kept|]. apply server_withRateLimit, server_mux.
  destruct Ha as [Hb|token subject Ht _|_ Ha|v headers _ Hv].
  - congruence.
  - by rewrite no_material_no_token in Ht.
  - destruct (anonymous_is_read _ _ Ha); [by left|by right].
  - destruct (no_material_unsigned v (λ _, fs_clock (s3_world (sv_s3 s))) r Hmat) as [err Ev]. congruence.
Qed.

Lemma server_newRequestID : server_reads (newRequestID : SM string).
Proof.
  unfold newRequestID. apply server_bind; [apply server_on_s3, reads_quiet, quiet_rand|].
  intros [b|err]; [done|]. apply server_bind; [apply server_get|intros s].
  apply server_bind; [apply server_counter|done].
Qed.
End gate.

Section handler.
Context `{!GoRuntime} `{!TimeFormats} `{!RequestCodecs} `{!Randomness} `{!MimeTypes} `{!JsonSyntax}.
Context `{!JsonCodec listV2ContinuationToken} `{!JsonCodec personalAccessTokenClaims}.
Context `{!Hashes} `{!TempNames} `{!BlockCipher}.
Context {P : Type} `{!StatePersister P}.

(** A request without credentials, for a path the gate does not pass by, changes
    no metadata, no file and no token, whatever its method. *)
Theorem anonymous_only_reads opts (other_page : mux_route → request → M (server_state P) unit) r s :
  (∀ route r', is_read r' → server_reads (other_page route r')) →
  hasAuthMaterial r = false → shouldBypassAuth (rq_Path r) (op_MetricsPath opts) = false →
  data_kept s (NewHandler opts other_page r s).1.
Proof.
  intros Hpages Hmat Hby. revert s. unfold NewHandler, withRequestID. apply server_bind.
  { destruct (String.eqb _ _); [apply server_newRequestID|done]. }
  intros id. apply server_bind; [apply server_on_s3, reads_on_resp|intros _]. by apply server_gate.
Qed.
End handler.
