(* ===== verification/GateScenarios.v ===== *)
(** * The gate on concrete requests

    Witnesses of the properties of GateProps, and what the gate does with requests
    that only look as if they were guarded. *)
From S2P Require Import Prelude GoStrings Url Base64 Model MemoryStore MemoryStoreProps FileSystem Blob BlobFacts Listing Http Sse.
From S2P Require Import Calendar Credentials SigV4 PersonalTokens Protector Policy.
From S2P Require Import S3State S3Object S3Events S3Bucket S3ObjectOps S3Multipart S3Router.
From S2P Require Import NetHttp Website S3Facts S3Frames S3Reading S3Examples Gate GateProps.

Section scenarios.
#[local] Existing Instance go_runtime_ref.
#[local] Existing Instance ex_times.
#[local] Existing Instance ex_random.
#[local] Existing Instance ex_codecs.
#[local] Existing Instance ex_tokens.
#[local] Existing Instance ex_hashes.
#[local] Existing Instance ex_temp_names.
#[local] Existing Instance ex_cipher.
#[local] Instance ex_no_mime : MimeTypes := {| TypeByExtension _ := "" |}.

(** Policy documents by name. *)
Definition ex_statement (action resource : string) : json :=
  JObject [("Effect", JString "Allow"); ("Principal", JString "*"); ("Action", JString action);
           ("Resource", JString resource)].
#[local] Instance ex_json : JsonSyntax := {|
  json_parse s :=
    if String.eqb s "listing" then Some (JObject [("Statement", ex_statement "s3:ListBucket" "arn:aws:s3:::plain")])
    else if String.eqb s "reading" then Some (JObject [("Statement", ex_statement "s3:GetObject" "arn:aws:s3:::plain/*")])
    else None;
|}.
Lemma ex_claims_text (c : personalAccessTokenClaims) : "claims" ≠ "".
Proof. done. Qed.
#[local] Instance ex_no_claims : JsonCodec personalAccessTokenClaims := {|
  json_Marshal _ := "claims";
  json_Unmarshal _ := None;
  json_nonempty := ex_claims_text;
  json_representable _ := False;
  json_round_trip _ H := match H with end;
|}.

Definition ex_opts : Options :=
  mkOptions "s3.local" 2 (Some (NewVerifier (Some NewCredentialStore) 0 "" "")) "/metrics" false "" ex_api
    (NewWebsiteHandlerWithSSE true ex_bs "web.local" ex_key) None.

Definition ex_pages (route : mux_route) (r : request) : M (server_state scripted_persister) unit := mret tt.

Definition ex_server (s : s3_state scripted_persister) : server_state scripted_persister :=
  mkServer (fresh s) (newAuthFailureProtector 3 0 0) None 0 0 ∅.

(** The server's answer to a request, with the state it leaves. *)
Definition ex_handle (s : server_state scripted_persister) (r : request) : server_state scripted_persister :=
  let s := mkServer (fresh (sv_s3 s)) (sv_protector s) (sv_tokens s) (sv_inflight s) (sv_counter s) (sv_sessions s) in
  (NewHandler ex_opts ex_pages r s).1.

Definition ex_status (s : server_state scripted_persister) : option Z := status (sv_s3 s).

Definition ex_prepared (rs : list request) : server_state scripted_persister :=
  ex_server (fold_left ex_serve rs ex_buckets).

Lemma anonymous_only_reads_witness :
  let r := ex_request "DELETE" "/plain/k" [] [] "" in
  let s := ex_prepared [ex_request "PUT" "/plain/k" [] [] "content"] in
  data_kept s (NewHandler ex_opts ex_pages r s).1.
Proof.
  intros r s. apply (anonymous_only_reads ex_opts ex_pages).
  - intros route r' _ s'. done.
  - vm_compute. reflexivity.
  - vm_compute. reflexivity.
Defined.

Example ex_anonymous_refused :
  let s := ex_prepared [ex_request "PUT" "/plain/k" [] [] "content"] in
  ex_status (ex_handle s (ex_request "DELETE" "/plain/k" [] [] "")) = Some 403 ∧
  ex_status (ex_handle s (ex_request "GET" "/plain/k" [] [] "")) = Some 403.
Proof. vm_compute. split; reflexivity. Qed.

(** Without credentials, an object is stored in, read from and deleted from a bucket
    whose name starts with app: its path is taken for the web interface's. *)
Theorem app_buckets_are_not_guarded :
  let s := ex_prepared [ex_request "PUT" "/application" [] [] ""] in
  let s1 := ex_handle s (ex_request "PUT" "/application/k" [] [] "content") in
  let s2 := ex_handle s1 (ex_request "DELETE" "/application/k" [] [] "") in
  ex_status s1 = Some 200 ∧
  body (sv_s3 (ex_handle s1 (ex_request "GET" "/application/k" [] [] ""))) = [PBytes "content"] ∧
  ex_status s2 = Some 204 ∧ ex_status (ex_handle s2 (ex_request "GET" "/application/k" [] [] "")) = Some 404.
Proof. vm_compute. split_and!; reflexivity. Qed.

(** The same holds for the keys that start with app of every bucket that is addressed
    by its host name, and for the bucket app itself when the slash is written %2F,
    which the gate reads decoded and the multiplexer does not. *)
Definition ex_at (host escaped : string) (r : request) : request :=
  mkRequest (rq_Method r) host (rq_Path r) (rq_Query r) (rq_Header r) (rq_Body r) (rq_RequestID r)
    (rq_Principal r) (rq_Acquire r) escaped (rq_RawQuery r) (rq_URLHost r) (rq_RemoteAddr r) (rq_TLS r).

Theorem app_keys_are_not_guarded :
  let s := ex_prepared [ex_request "PUT" "/app" [] [] ""] in
  let put host path escaped := ex_handle s (ex_at host escaped (ex_request "PUT" path [] [] "content")) in
  let s1 := put "plain.s3.local" "/app.txt" "/app.txt" in
  let s2 := put "s3.local" "/app/k" "/app%2Fk" in
  ex_status s1 = Some 200 ∧ body (sv_s3 (ex_handle s1 (ex_at "plain.s3.local" "/app.txt" (ex_request "GET" "/app.txt" [] [] "")))) = [PBytes "content"] ∧
  ex_status s2 = Some 200 ∧ body (sv_s3 (ex_handle s2 (ex_at "s3.local" "/app%2Fk" (ex_request "GET" "/app/k" [] [] "")))) = [PBytes "content"] ∧
  ex_status (put "plain.s3.local" "/bpp.txt" "/bpp.txt") = Some 403.
Proof. vm_compute. split_and!; reflexivity. Qed.

(** A policy that lets everyone list a bucket lets everyone read its policy; one that
    lets everyone read objects lets everyone read their tags. *)
Theorem policy_admits_other_reads :
  let listing := ex_prepared [ex_request "PUT" "/plain" [("policy", "")] [] "listing"] in
  let reading := ex_prepared [ex_request "PUT" "/plain/k" [] [] "content";
    ex_request "PUT" "/plain/k" [("tagging", "")] [] "<Tagging/>"; ex_request "PUT" "/plain" [("policy", "")] [] "reading"] in
  body (sv_s3 (ex_handle listing (ex_request "GET" "/plain" [("list-type", "2"); ("policy", "")] [] ""))) = [PBytes "listing"] ∧
  ex_status (ex_handle reading (ex_request "GET" "/plain/k" [("tagging", "")] [] "")) = Some 200 ∧
  ex_status (ex_handle reading (ex_request "GET" "/plain" [("policy", "")] [] "")) = Some 403.
Proof. vm_compute. split_and!; reflexivity. Qed.

(** With the threshold at three failures, the sixth wrong signature of a client is
    refused unseen; the sixth is looked at when each names another key. *)
Definition ex_wrong (key : string) : request :=
  with_principal "" (ex_request "GET" "/plain/k" []
    [("Authorization", "AWS4-HMAC-SHA256 Credential=" +:+ key +:+ "/x")] "").
Definition ex_tries (keys : list string) : option Z :=
  ex_status (fold_left ex_handle (ex_wrong <$> keys) (ex_prepared [])).

Theorem changing_keys_evades_the_block :
  ex_tries ["a"; "a"; "a"; "a"; "a"; "a"] = Some 503 ∧ ex_tries ["a"; "b"; "c"; "d"; "e"; "f"] = Some 403.
Proof. vm_compute. split; reflexivity. Qed.

(** A key with two slashes in a row cannot be reached: the multiplexer redirects to
    the cleaned path, here before an object is stored. *)
Theorem double_slash_is_redirected :
  let s := ex_prepared [ex_request "PUT" "/application" [] [] ""] in
  let s1 := ex_handle s (ex_request "PUT" "/application/a//b" [] [] "content") in
  ex_status s1 = Some 301 ∧ header_get (rs_Sent (s3_resp (sv_s3 s1))) "Location" = "/application/a/b" ∧
  ex_status (ex_handle s1 (ex_request "GET" "/application/a/b" [] [] "")) = Some 404.
Proof. vm_compute. split_and!; reflexivity. Qed.
End scenarios.
