(* ===== verification/WebUI.v ===== *)
(** * The web interface: sessions and actions (src/internal/server/web_ui.go)

    Signing in, sessions with their CSRF tokens, and the handlers of /app/actions/ on
    the state of Gate.v.  The form of a request is what net/http parses of it; html
    templates and the statistics of requests are parameters. *)
From S2P Require Import Prelude GoStrings Url Base64 Model MemoryStore FileSystem Blob Listing Http Calendar Duration Sse.
From S2P Require Import Credentials SigV4 PersonalTokens Protector Policy S3State S3Object S3Events S3Bucket.
From S2P Require Import S3ObjectOps S3Multipart S3Router NetHttp Website WebForms Gate.

(** ** What a request brings *)
Record fileHeader := mkFileHeader {
  fh_Filename : string;
  fh_ContentType : string;
  fh_Open : result reader;
}.

(** [ParseForm] and [ParseMultipartForm] of net/http: the error, the values
    [FormValue] reads, the values and files of a multipart body. *)
Class FormParser := {
  ParseForm : request → option error;
  ParseMultipartForm : request → option error;
  Form : request → url_values;
  form_values : request → string → list string;
  form_files : request → string → list fileHeader;
}.

(** html/template on the pages of the program, with the text written before an error;
    the figures of the metrics collector, by the time they are read. *)
Class WebTemplates := {
  ui_Stats : Type;
  loadAPIRequestStats : Z → ui_Stats;
  ExecuteTemplate : string → list (page_field ui_Stats) → string * option error;
}.

(** [webUI]: which stores it has, the blob store, the keys and the theme. *)
Record webUI := mkWebUI {
  ui_store : bool;
  ui_blob : bool;
  ui_blobStore : blobStore;
  ui_sseKey : string;
  ui_accessKey : string;
  ui_secretKey : string;
  ui_uiTheme : string;
  ui_flusher : bool;
}.

Definition StatusSeeOther : Z := 303.

(** ** Cookies *)
Definition cookie_value_char (c : ascii) : bool :=
  let n := N_of_ascii c in
  (32 <=? n)%N && (n <? 127)%N && negb (n =? 34)%N && negb (Ascii.eqb c ";") && negb (Ascii.eqb c "\").

(** [parseCookieValue], which drops a pair of quotes. *)
Definition parseCookieValue (raw : string) : option string :=
  let raw := if (1 <? String.length raw)%nat && HasPrefix raw dquote && HasSuffix raw dquote
             then TrimSuffix (TrimPrefix raw dquote) dquote else raw in
  if str_forall cookie_value_char raw then Some raw else None.

Definition cookie_part (name part : string) : option string :=
  let '(n, v, _) := Cut (TrimSpace part) "=" in
  if String.eqb (TrimSpace n) name && negb (String.eqb name "") && str_forall is_token_char name
  then parseCookieValue v else None.

(** [r.Cookie(name)] *)
Definition request_Cookie (r : request) (name : string) : option string :=
  head (omap (cookie_part name) (default [] (rq_Header r !! "Cookie") ≫= λ line, Split (TrimSpace line) ";")).

Definition header_add (key value : string) (h : http_header) : http_header :=
  <[CanonicalHeaderKey key := default [] (h !! CanonicalHeaderKey key) ++ [value]]> h.

Definition cookie_text `{!TimeFormats} (name value : string) (expires : Z) (httpOnly secure : bool) : string :=
  name +:+ "=" +:+ value +:+ "; Path=/; Expires=" +:+ format_http expires +:+
  (if httpOnly then "; HttpOnly" else "") +:+ (if secure then "; Secure" else "") +:+ "; SameSite=Lax".

(** [strconv.FormatInt(z, 16)] *)
Fixpoint format_base16 (fuel : nat) (z : Z) (acc : string) : string :=
  match fuel with
  | O => acc
  | S fuel =>
    let acc := String (hex_digit (Z.to_N (z mod 16))) acc in
    if z / 16 =? 0 then acc else format_base16 fuel (z / 16) acc
  end.
Definition FormatInt16 (z : Z) : string :=
  if z <? 0 then "-" +:+ format_base16 16 (- z) "" else format_base16 16 z "".

Example cookie_ex :
  FormatInt16 255 = "ff" ∧ cookie_part "a" " a=b c" = Some "b c" ∧ cookie_part "a" "b=1" = None.
Proof. vm_compute. done. Qed.

Section web.
Context `{!GoRuntime} `{!TimeFormats} `{!RequestCodecs} `{!Randomness} `{!FormParser} `{!WebTemplates}.
Context `{!JsonCodec listV2ContinuationToken} `{!JsonCodec personalAccessTokenClaims}.
Context `{!Hashes} `{!TempNames} `{!BlockCipher}.
Context {P : Type} `{!StatePersister P}.
Abbreviation HM := (M (s3_state P)).
Abbreviation SM := (M (server_state P)).
Abbreviation page := (list (page_field ui_Stats)).
Variable ui : webUI.

Definition set_sessions (f : gmap string uiSession → gmap string uiSession) : SM unit := λ s,
  (mkServer (sv_s3 s) (sv_protector s) (sv_tokens s) (sv_inflight s) (sv_counter s) (f (sv_sessions s)), Ok tt).

(** A call on the manager of tokens; the handler sees the error. *)
Definition on_tokens {A} (m : PersonalAccessTokenManager) (f : M PersonalAccessTokenManager A) : SM (result A) := λ s,
  let '(m', x) := f m in
  (mkServer (sv_s3 s) (sv_protector s) (Some m') (sv_inflight s) (sv_counter s) (sv_sessions s), Ok x).

Definition ui_now : SM Z := on_s3 s3_now.
Definition ui_query {A} (f : memoryBackedStore P → result A) : SM (result A) := on_s3 (query_store f).
Definition ui_on_store {A} (m : M (memoryBackedStore P) A) : SM (result A) := on_s3 (on_store m).
Definition redirect (r : request) (target : string) : SM unit := on_s3 (http_Redirect r target StatusSeeOther).
Definition form_value (r : request) (key : string) : string := query_get (Form r) key.
Definition trimmed_value (r : request) (key : string) : string := TrimSpace (form_value r key).
Definition checked (r : request) (key : string) : bool := String.eqb (form_value r key) "on".

(** "/app/buckets/" + PathEscape(bucket) + "?flash=" + flash *)
Definition bucket_flash (bucket flash : string) : string :=
  "/app/buckets/" +:+ PathEscape bucket +:+ "?flash=" +:+ flash.

(** ** Sessions *)
Definition randomHex (n : nat) : SM string :=
  b ← on_s3 (rand_bytes n);
  match b with
  | Ok b => mret (hex_encode b)
  | Err _ => now ← ui_now; mret (FormatInt16 now)
  end.

Definition createSession : SM uiSession :=
  id ← randomHex 16;
  token ← randomHex 16;
  now ← ui_now;
  let s := mkSession id token (now + uiSessionTTL) in
  set_sessions <[id := s]> ;;
  mret s.

Definition requireSession (r : request) : SM (option uiSession) :=
  match request_Cookie r uiSessionCookie with
  | None => redirect r "/app/login" ;; mret None
  | Some id =>
    st ← (get : SM _);
    now ← ui_now;
    match sv_sessions st !! id with
    | Some s =>
      if us_ExpiresAt s <? now then set_sessions (delete id) ;; redirect r "/app/login" ;; mret None
      else mret (Some s)
    | None => set_sessions (delete id) ;; redirect r "/app/login" ;; mret None
    end
  end.

Definition validateCSRF (r : request) (s : uiSession) : bool :=
  let token := if EqualFold (header_get (rq_Header r) "HX-Request") "true"
               then TrimSpace (header_get (rq_Header r) "X-CSRF-Token") else trimmed_value r "_csrf" in
  negb (String.eqb token "") && String.eqb token (us_CSRFToken s).

Definition isHTMXRequest (r : request) : bool := EqualFold (TrimSpace (header_get (rq_Header r) "HX-Request")) "true".

(** ** Rendering *)
Definition resolveTheme (r : request) : string := resolve_theme (request_Cookie r uiThemeCookie) (ui_uiTheme ui).

Definition themed (r : request) (data : page) : page := data ++ [PgTheme _ (resolveTheme r); PgThemeOptions _ orderedThemes].

Definition render (r : request) (template failed : string) (data : page) : SM unit :=
  on_s3 (setHeader "Content-Type" "text/html; charset=utf-8") ;;
  let '(text, err) := ExecuteTemplate template (themed r data) in
  (if String.eqb text "" then mret tt else on_s3 (Write (PBytes text))) ;;
  match err with Some _ => on_s3 (http_Error failed StatusInternalServerError) | None => mret tt end.

Definition renderPartial (r : request) (name : string) (data : page) : SM unit :=
  render r name "partial render failed" data.
Definition renderPage (r : request) (name : string) (data : page) : SM unit :=
  render r ("pages/" +:+ name) "page render failed" data.

Definition respondActionResult (r : request) (success : bool) (flash redirectPath trigger : string) : SM unit :=
  if isHTMXRequest r then
    (if String.eqb trigger "" then mret tt else on_s3 (setHeader "HX-Trigger" trigger)) ;;
    (if success then renderPartial r "partials/flash" [PgFlash _ flash]
     else on_s3 (WriteHeader StatusBadRequest) ;; renderPartial r "partials/flash" [PgError _ flash])
  else if String.eqb flash "" then redirect r redirectPath
  else redirect r (redirectPath +:+ (if Contains redirectPath "?" then "&" else "?") +:+ "flash=" +:+ QueryEscape flash).

(** ** The guards of an action *)
Definition posting (r : request) (k : uiSession → SM unit) : SM unit :=
  s ← requireSession r;
  match s with
  | None => mret tt
  | Some s => if negb (String.eqb (rq_Method r) "POST") then on_s3 (WriteHeader StatusMethodNotAllowed) else k s
  end.

Definition csrf_checked (r : request) (s : uiSession) (k : SM unit) : SM unit :=
  if negb (validateCSRF r s) then on_s3 (http_Error "invalid csrf token" StatusForbidden) else k.

Definition parsed (parse : option error) (failed : SM unit) (k : SM unit) : SM unit :=
  match parse with Some _ => failed | None => k end.

(** Session, method, CSRF token, form: the order of most actions; two parse the form
    before they look at the token. *)
Definition action (r : request) (k : SM unit) : SM unit :=
  posting r (λ s, csrf_checked r s (parsed (ParseForm r) (redirect r "/app/buckets?flash=parse+failed") k)).
Definition action_form_first (r : request) (k : SM unit) : SM unit :=
  posting r (λ s, parsed (ParseForm r) (redirect r "/app/buckets?flash=parse+failed") (csrf_checked r s k)).

(** The bucket named in the form, and a metadata store. *)
Definition with_form_bucket (r : request) (k : string → SM unit) : SM unit :=
  let bucket := trimmed_value r "bucket" in
  if String.eqb bucket "" then redirect r "/app/buckets?flash=bucket+name+is+required"
  else if negb (ui_store ui) then redirect r "/app/buckets?flash=metadata+store+unavailable"
  else k bucket.

(** A call of the store and a redirection to the page of the bucket. *)
Definition store_and_flash (r : request) (bucket : string) (m : M (memoryBackedStore P) unit) (failed done : string)
    : SM unit :=
  res ← ui_on_store m;
  redirect r (bucket_flash bucket match res with Err _ => failed | Ok _ => done end).

(** ** Signing in *)
Definition login_page (r : request) : SM unit :=
  renderPage r "login" [PgTitle _ "Login"; PgPage _ "login"; PgRouteMap _; PgError _ (query_get (rq_Query r) "error")].

Definition handle_login (r : request) : SM unit :=
  if String.eqb (rq_Method r) "GET" then login_page r
  else if String.eqb (rq_Method r) "POST" then
    parsed (ParseForm r) (redirect r "/app/login?error=parse+failed")
      (if String.eqb (ui_accessKey ui) "" || String.eqb (ui_secretKey ui) ""
       then redirect r "/app/login?error=ui+auth+is+not+configured"
       else if negb (String.eqb (form_value r "access_key") (ui_accessKey ui)) ||
               negb (String.eqb (form_value r "secret_key") (ui_secretKey ui))
       then redirect r "/app/login?error=invalid+credentials"
       else
         s ← createSession;
         on_s3 (updHeader (header_add "Set-Cookie"
           (cookie_text uiSessionCookie (us_ID s) (us_ExpiresAt s) true (rq_TLS r)))) ;;
         redirect r "/app")
  else on_s3 (WriteHeader StatusMethodNotAllowed).
End web.
