(* ===== verification/WebActions.v ===== *)
(** * The web interface: what its forms do (src/internal/server/web_ui.go)

    The handlers under /app/actions/ on buckets, objects, folders, locks, themes and
    tokens. *)
From S2P Require Import Prelude GoStrings Url Base64 Model MemoryStore FileSystem Blob Listing Http Calendar Duration Sse.
From S2P Require Import Credentials SigV4 PersonalTokens Protector Policy S3State S3Object S3Events S3Bucket.
From S2P Require Import S3ObjectOps S3Multipart S3Router NetHttp Website WebForms Gate WebUI.

(** The number [strconv.Atoi] returns besides its error: 0 for what is no number, the
    bound for what does not fit. *)
Definition Atoi_value (s : string) : Z :=
  let r := match s with
           | String "-" t => Z.opp <$> parse_uint t
           | String "+" t => parse_uint t
           | _ => parse_uint s
           end in
  match r with Some z => saturate64 z | None => 0 end.

Section actions.
Context `{!GoRuntime} `{!TimeFormats} `{!RequestCodecs} `{!Randomness} `{!FormParser} `{!WebTemplates}.
Context `{!JsonCodec listV2ContinuationToken} `{!JsonCodec personalAccessTokenClaims}.
Context `{!Hashes} `{!TempNames} `{!BlockCipher}.
Context {P : Type} `{!StatePersister P}.
Abbreviation HM := (M (s3_state P)).
Abbreviation SM := (M (server_state P)).
Variable ui : webUI.

(** ** Buckets *)
Definition create_bucket_action (r : request) : SM unit :=
  action r (with_form_bucket ui r (λ name,
    now ← ui_now;
    res ← ui_on_store (CreateBucket (mkBucket name now "us-east-1" "Suspended"));
    redirect r match res with
               | Err _ => "/app/buckets?flash=create+bucket+failed"
               | Ok _ => "/app/buckets?flash=bucket+created"
               end)).

(** The blobs of removed versions, if there is a blob store. *)
Definition remove_blobs (removed : list ObjectVersion) : SM unit :=
  if ui_blob ui then forM removed (λ v, on_s3 (on_blob (blob_DeleteObject (ui_blobStore ui) (version_ref v) true)) ;; mret tt)
  else mret tt.

(** [DeleteAllObjectVersions], where a key without versions is no error. *)
Definition remove_versions (bucket key : string) : SM (option (list ObjectVersion)) :=
  removed ← ui_on_store (DeleteAllObjectVersions bucket key);
  mret match removed with
       | Ok removed => Some removed
       | Err e => if is_ErrNotFound e then Some [] else None
       end.

Fixpoint delete_contents (bucket : string) (objects : list ObjectVersion) : SM bool :=
  match objects with
  | [] => mret true
  | obj :: objects =>
    removed ← remove_versions bucket (ov_Key obj);
    match removed with
    | None => mret false
    | Some removed => remove_blobs removed ;; delete_contents bucket objects
    end
  end.

Definition delete_uploads (bucket : string) : SM unit :=
  uploads ← ui_query (ListMultipartUploads bucket "");
  match uploads with
  | Err _ => mret tt
  | Ok uploads =>
    forM uploads (λ upload,
      ui_on_store (DeleteMultipartUpload (mu_UploadID upload)) ;;
      if ui_blob ui then on_s3 (on_blob (blob_AbortMultipartUpload (ui_blobStore ui) (mu_UploadID upload))) ;; mret tt
      else mret tt)
  end.

Definition delete_bucket_action (r : request) : SM unit :=
  action r (with_form_bucket ui r (λ bucket,
    objects ← ui_query (ListObjects bucket);
    match objects with
    | Err _ => redirect r (bucket_flash bucket "list+objects+failed")
    | Ok objects =>
      ok ← delete_contents bucket objects;
      if negb (ok : bool) then redirect r (bucket_flash bucket "delete+bucket+contents+failed")
      else
        delete_uploads bucket ;;
        res ← ui_on_store (DeleteBucket bucket);
        match res with
        | Err _ => redirect r (bucket_flash bucket "delete+bucket+failed")
        | Ok _ => redirect r "/app/buckets?flash=bucket+deleted+with+contents"
        end
    end)).

Definition update_versioning_action (r : request) : SM unit :=
  action r
    (let bucket := trimmed_value r "bucket" in
     let status := trimmed_value r "versioning" in
     if String.eqb bucket "" || (negb (String.eqb status "Enabled") && negb (String.eqb status "Suspended"))
     then redirect r "/app/buckets?flash=invalid+versioning+settings"
     else if negb (ui_store ui) then redirect r "/app/buckets?flash=metadata+store+unavailable"
     else store_and_flash r bucket (UpdateBucketVersioning bucket status) "update+versioning+failed" "versioning+updated").

Definition public_access_action (r : request) : SM unit :=
  action r (with_form_bucket ui r (λ bucket,
    store_and_flash r bucket (PutBucketPublicAccessBlock (mkBucketPublicAccessBlock bucket
      (checked r "block_public_acls") (checked r "ignore_public_acls") (checked r "block_public_policy")
      (checked r "restrict_public_buckets"))) "public+access+update+failed" "public+access+updated")).

Definition website_action (r : request) : SM unit :=
  action r (with_form_bucket ui r (λ bucket,
    store_and_flash r bucket (PutBucketWebsite (mkBucketWebsiteConfig bucket (trimmed_value r "index_document")
      (trimmed_value r "error_document") (trimmed_value r "redirect_all_host")
      (trimmed_value r "redirect_all_protocol") [] (checked r "website_enabled") (checked r "website_public_read")))
      "website+update+failed" "website+updated")).

Definition cors_action (r : request) : SM unit :=
  action r (with_form_bucket ui r (λ bucket,
    store_and_flash r bucket (PutBucketCORS (mkBucketCORSConfig bucket (trimmed_value r "allowed_origins")
      (trimmed_value r "allowed_methods") (trimmed_value r "allowed_headers") (trimmed_value r "expose_headers")
      (Atoi_value (trimmed_value r "max_age_seconds")) (checked r "cors_enabled")))
      "cors+update+failed" "cors+updated")).

Definition policy_action (r : request) : SM unit :=
  action r (with_form_bucket ui r (λ bucket,
    store_and_flash r bucket (PutBucketPolicy (mkBucketPolicy bucket (trimmed_value r "policy_document")
      (checked r "policy_enabled"))) "policy+update+failed" "policy+updated")).

(** [handleBucketXMLConfigAction]; [put] and [remove] are the two calls of the action's
    [Put]. *)
Definition handleBucketXMLConfigAction (r : request) (field enabled_field empty_flash success_flash : string)
    (put : string → string → M (memoryBackedStore P) unit) (remove : string → M (memoryBackedStore P) unit) : SM unit :=
  action_form_first r (with_form_bucket ui r (λ bucket,
    let document := trimmed_value r field in
    let enabled := checked r enabled_field in
    if enabled && negb (String.eqb document "") && negb (isWellFormedXML document)
    then redirect r (bucket_flash bucket "invalid+xml")
    else
      let off := negb enabled || String.eqb document "" in
      res ← ui_on_store (if off then remove bucket else put bucket document);
      if match res with Err e => negb (errors_Is e ErrNotFound) | Ok _ => false end
      then redirect r (bucket_flash bucket "xml+config+update+failed")
      else redirect r (bucket_flash bucket (if off then empty_flash else success_flash)))).

Definition lifecycle_action (r : request) : SM unit :=
  handleBucketXMLConfigAction r "lifecycle_document" "lifecycle_enabled" "lifecycle+disabled" "lifecycle+updated"
    (λ bucket document, PutBucketLifecycle (mkBucketLifecycle bucket document true)) DeleteBucketLifecycle.
Definition notification_action (r : request) : SM unit :=
  handleBucketXMLConfigAction r "notification_document" "notification_enabled" "notification+disabled" "notification+updated"
    (λ bucket document, PutBucketNotification (mkBucketNotification bucket document true)) DeleteBucketNotification.
Definition replication_action (r : request) : SM unit :=
  handleBucketXMLConfigAction r "replication_document" "replication_enabled" "replication+disabled" "replication+updated"
    (λ bucket document, PutBucketReplication (mkBucketReplication bucket document true)) DeleteBucketReplication.

(** ** Objects *)

(** The version id a write gets, [WriteObject], [PutObjectVersion]; a failed call of
    the store takes the blob back. *)
Inductive write_outcome := WriteFailed | MetadataFailed | Written.

Definition store_object (bucket key versionID : string) (src : reader) (metadata : gmap string string) : SM write_outcome :=
  let ref := mkObjectRef bucket key versionID in
  w ← on_s3 (on_blob (WriteObject (ui_blobStore ui) ref src));
  match w with
  | Err _ => mret WriteFailed
  | Ok meta =>
    p ← ui_on_store (PutObjectVersion (object_of_blob bucket key versionID (om_MD5Hex meta) metadata meta));
    match p with
    | Err _ => on_s3 (on_blob (blob_DeleteObject (ui_blobStore ui) ref true)) ;; mret MetadataFailed
    | Ok _ => mret Written
    end
  end.

Definition upload_content_type (fh : fileHeader) : string :=
  let v := TrimSpace (fh_ContentType fh) in if String.eqb v "" then "application/octet-stream" else v.

(** The loop over the files: the flash of an early return, or how many were stored. *)
Fixpoint upload_files (r : request) (b : Bucket) (bucket prefix key : string) (legacy : bool) (count : Z)
    (fileKeys : list string) (files : list fileHeader) (uploaded : Z) : SM (string + Z) :=
  match files with
  | [] => mret (inr uploaded)
  | fh :: files =>
    let fileKey := resolveUploadObjectKey prefix key (fh_Filename fh) (default "" (head fileKeys)) legacy count in
    if String.eqb fileKey "" then mret (inl "invalid+object+key")
    else match fh_Open fh with
    | Err _ => mret (inl "file+open+failed")
    | Ok src =>
      versionID ← on_s3 (write_versionID b);
      locked ← on_s3 (overwrite_locked bucket fileKey versionID);
      if (locked : bool) then mret (inl "object+locked")
      else
        w ← store_object bucket fileKey versionID src {["content-type" := upload_content_type fh]};
        match w with
        | WriteFailed => mret (inl "upload+failed")
        | MetadataFailed => mret (inl "metadata+write+failed")
        | Written => upload_files r b bucket prefix key legacy count (tail fileKeys) files (uploaded + 1)
        end
    end
  end.

Definition upload_flash (res : string + Z) : string :=
  match res with
  | inl flash => flash
  | inr uploaded =>
    if uploaded =? 0 then "file+required"
    else if uploaded =? 1 then "upload+complete" else "uploaded+" +:+ FormatInt uploaded +:+ "+files"
  end.

(** The files of the field "files", or the one of the older field "file". *)
Definition upload_choice (r : request) : option (list fileHeader * bool) :=
  match form_files r "files" with
  | [] => match form_files r "file" with
          | fh :: _ => if is_ok (fh_Open fh) then Some ([fh], true) else None
          | [] => None
          end
  | files => Some (files, false)
  end.

Definition upload_action (r : request) : SM unit :=
  posting r (λ s, parsed (ParseMultipartForm r) (redirect r "/app/buckets?flash=upload+parse+failed")
    (csrf_checked r s
      (let bucket := trimmed_value r "bucket" in
       let prefix := normalizeUIPrefix (form_value r "prefix") in
       let delimiter := normalizeUIDelimiter (form_value r "delimiter") in
       if String.eqb bucket "" then redirect r "/app/buckets?flash=bucket+required"
       else if negb (ui_store ui) || negb (ui_blob ui) then redirect r "/app/buckets?flash=storage+unavailable"
       else
         let redirectURL := uploadRedirectURL bucket prefix delimiter (safeUIReturnPath (form_value r "return_to")) in
         match upload_choice r with
         | None => redirect r (withUIFlash redirectURL "file+required")
         | Some (files, legacy) =>
           o ← ui_query (GetBucket bucket);
           match o with
           | Err _ => redirect r "/app/buckets?flash=bucket+not+found"
           | Ok b =>
             res ← upload_files r b bucket prefix (trimmed_value r "key") legacy (Z.of_nat (length files))
                     (form_values r "file_key") files 0;
             redirect r (withUIFlash redirectURL (upload_flash res))
           end
         end))).

(** Where the forms of the object browser go back to. *)
Definition browser_flash (r : request) (bucket flash : string) : string :=
  objectBrowserURL bucket (normalizeUIPrefix (form_value r "prefix")) (normalizeUIDelimiter (form_value r "delimiter")) flash.

Definition create_folder_action (r : request) : SM unit :=
  action r
    (let bucket := trimmed_value r "bucket" in
     let folder := trimmed_value r "folder" in
     let key := normalizeFolderMarkerKey (normalizeUIPrefix (form_value r "prefix")) folder in
     if String.eqb bucket "" || String.eqb folder "" then redirect r "/app/buckets?flash=bucket+and+folder+required"
     else if String.eqb key "" then redirect r (browser_flash r bucket "invalid+folder+name")
     else if negb (ui_store ui) || negb (ui_blob ui) then redirect r "/app/buckets?flash=storage+unavailable"
     else
       o ← ui_query (GetBucket bucket);
       match o with
       | Err _ => redirect r "/app/buckets?flash=bucket+not+found"
       | Ok b =>
         versionID ← on_s3 (write_versionID b);
         w ← store_object bucket key versionID (bytes_reader "") ∅;
         redirect r (browser_flash r bucket match w with
           | WriteFailed => "folder+create+failed"
           | MetadataFailed => "metadata+write+failed"
           | Written => "folder+created"
           end)
       end).

(** A bucket and a key in the form, a metadata store, and the bucket itself. *)
Definition with_form_object (r : request) (k : string → string → SM unit) : SM unit :=
  let bucket := trimmed_value r "bucket" in
  let key := trimmed_value r "key" in
  if String.eqb bucket "" || String.eqb key "" then redirect r "/app/buckets?flash=bucket+and+key+required"
  else k bucket key.

Definition with_stored_bucket (r : request) (bucket : string) (k : Bucket → SM unit) : SM unit :=
  if negb (ui_store ui) then redirect r "/app/buckets?flash=metadata+store+unavailable"
  else
    o ← ui_query (GetBucket bucket);
    match o with
    | Err _ => redirect r "/app/buckets?flash=bucket+not+found"
    | Ok b => k b
    end.

Definition put_marker (bucket key : string) : SM (result unit) :=
  id ← on_s3 newVersionID;
  now ← ui_now;
  ui_on_store (DeleteObject bucket key id now).

(** All versions of a key and their blobs. *)
Definition remove_key (r : request) (bucket key failed done : string) : SM unit :=
  removed ← remove_versions bucket key;
  match removed with
  | None => redirect r (browser_flash r bucket failed)
  | Some removed => remove_blobs removed ;; redirect r (browser_flash r bucket done)
  end.

Definition delete_object_action (r : request) : SM unit :=
  action r (with_form_object r (λ bucket key, with_stored_bucket r bucket (λ b,
    if String.eqb (b_VersioningStatus b) "Enabled" then
      put_marker bucket key ;; redirect r (browser_flash r bucket "delete+marker+created")
    else
      o ← ui_query (GetObjectVersion bucket key "");
      now ← ui_now;
      if match o with Ok obj => objectLocked obj now | Err _ => false end
      then redirect r (objectDetailURL bucket key "object+locked")
      else remove_key r bucket key "delete+failed" "object+deleted"))).

Definition delete_folder_marker_action (r : request) : SM unit :=
  action r (with_form_object r (λ bucket key,
    if negb (HasSuffix key "/") then redirect r (browser_flash r bucket "folder+marker+key+must+end+with+slash")
    else with_stored_bucket r bucket (λ b,
      if String.eqb (b_VersioningStatus b) "Enabled" then
        put_marker bucket key ;; redirect r (browser_flash r bucket "folder+delete+marker+created")
      else remove_key r bucket key "folder+marker+delete+failed" "folder+marker+deleted"))).

Fixpoint mark_all (bucket : string) (keys : list string) : SM bool :=
  match keys with
  | [] => mret true
  | key :: keys =>
    res ← put_marker bucket key;
    match res with Err _ => mret false | Ok _ => mark_all bucket keys end
  end.

Fixpoint remove_all (bucket : string) (keys : list string) (removed : list ObjectVersion) : SM (option (list ObjectVersion)) :=
  match keys with
  | [] => mret (Some removed)
  | key :: keys =>
    more ← remove_versions bucket key;
    match more with None => mret None | Some more => remove_all bucket keys (removed ++ more) end
  end.

(** The prefix a folder is deleted by. *)
Definition target_prefix (r : request) (delimiter : string) : string :=
  let target := normalizeUIPrefix (form_value r "target_prefix") in
  let target := if String.eqb target "" then normalizeUIPrefix (form_value r "key") else target in
  if String.eqb target "" then "" else if HasSuffix target delimiter then target else target +:+ delimiter.

Definition delete_folder_action (r : request) : SM unit :=
  action r
    (let bucket := trimmed_value r "bucket" in
     let targetPrefix := target_prefix r (normalizeUIDelimiter (form_value r "delimiter")) in
     if String.eqb bucket "" || String.eqb targetPrefix ""
     then redirect r "/app/buckets?flash=bucket+and+target+prefix+required"
     else with_stored_bucket r bucket (λ b,
       objects ← ui_query (ListObjects bucket);
       match objects with
       | Err _ => redirect r (browser_flash r bucket "folder+delete+failed")
       | Ok objects =>
         let keys := List.filter (λ key, HasPrefix key targetPrefix) (ov_Key <$> objects) in
         if String.eqb (b_VersioningStatus b) "Enabled" then
           ok ← mark_all bucket keys;
           redirect r (browser_flash r bucket (if (ok : bool) then "folder+delete+markers+created" else "folder+delete+failed"))
         else
           removed ← remove_all bucket keys [];
           match removed with
           | None => redirect r (browser_flash r bucket "folder+delete+failed")
           | Some removed => remove_blobs removed ;; redirect r (browser_flash r bucket "folder+deleted")
           end
       end)).

(** The same object with another content type, in a bucket with versioning as a new
    version that shares the blob. *)
Definition with_content_type (obj : ObjectVersion) (versionID contentType : string) (now : Z) : ObjectVersion :=
  mkObjectVersion (ov_Bucket obj) (ov_Key obj) versionID (ov_Size obj) (ov_ETag obj) (ov_ChecksumSHA256 obj)
    (ov_ChecksumSHA1 obj) (ov_ChecksumCRC32 obj) (ov_ChecksumCRC32C obj) (ov_StoragePath obj)
    (if String.eqb contentType "" then delete "content-type" (copyStringMap (ov_Metadata obj))
     else <["content-type" := contentType]> (copyStringMap (ov_Metadata obj))) false now.

Definition update_mimetype_action (r : request) : SM unit :=
  action r (with_form_object r (λ bucket key,
    if negb (ui_store ui) then redirect r "/app/buckets?flash=metadata+store+unavailable"
    else
      o ← ui_query (GetLatestObjectVersion bucket key);
      match o with
      | Err _ => redirect r (objectDetailURL bucket key "object+not+found")
      | Ok obj =>
        if ov_DeleteMarker obj then redirect r (objectDetailURL bucket key "object+not+found")
        else
          b ← ui_query (GetBucket bucket);
          versionID ← (if match b with Ok b => String.eqb (b_VersioningStatus b) "Enabled" | Err _ => false end
                       then on_s3 newVersionID else mret (ov_VersionID obj));
          now ← ui_now;
          res ← ui_on_store (PutObjectVersion (with_content_type obj versionID (trimmed_value r "content_type") now));
          redirect r (objectDetailURL bucket key
            match res with Err _ => "metadata+write+failed" | Ok _ => "mime+type+updated" end)
      end)).
End actions.
