(* ===== verification/WebPages.v ===== *)
(** * The web interface: locks, tokens, downloads, pages (src/internal/server/web_ui.go)

    The remaining actions, the pages and fragments with the data they show, the streams
    of events, and the multiplexer of the web interface. *)
From S2P Require Import Prelude GoStrings Url Base64 Model MemoryStore FileSystem Blob Listing Http Calendar Rfc3339 Duration Sse.
From S2P Require Import Credentials SigV4 PersonalTokens Protector Policy S3State S3Object S3Events S3Bucket.
From S2P Require Import S3ObjectOps S3Multipart S3Router NetHttp Website WebForms Gate WebUI WebActions.

Section pages.
Context `{!GoRuntime} `{!TimeFormats} `{!RequestCodecs} `{!Randomness} `{!FormParser} `{!WebTemplates}.
Context `{!JsonCodec listV2ContinuationToken} `{!JsonCodec personalAccessTokenClaims}.
Context `{!Hashes} `{!TempNames} `{!BlockCipher}.
Context {P : Type} `{!StatePersister P}.
Abbreviation HM := (M (s3_state P)).
Abbreviation SM := (M (server_state P)).
Abbreviation page := (list (page_field ui_Stats)).
Variable ui : webUI.

(** ** Object lock *)

(** The metadata a form asks for, or the flash of its refusal. *)
Definition retention_update (r : request) (meta : gmap string string) : string + gmap string string :=
  let mode := ToUpper (trimmed_value r "retention_mode") in
  let until := trimmed_value r "retain_until" in
  if String.eqb mode "" && String.eqb until ""
  then inr (delete lockRetentionRetainUntilKey (delete lockRetentionModeKey meta))
  else if negb (String.eqb mode "GOVERNANCE") && negb (String.eqb mode "COMPLIANCE") then inl "invalid+retention+mode"
  else match parse_RFC3339 until with
       | None => inl "invalid+retain+until"
       | Some _ => inr (<[lockRetentionRetainUntilKey := until]> (<[lockRetentionModeKey := mode]> meta))
       end.

Definition legal_hold_update (r : request) (meta : gmap string string) : string + gmap string string :=
  let status := ToUpper (trimmed_value r "legal_hold") in
  if negb (String.eqb status "ON") && negb (String.eqb status "OFF") then inl "invalid+legal+hold"
  else inr (<[lockLegalHoldKey := status]> meta).

Definition handleObjectLockAction (r : request) (update : gmap string string → string + gmap string string) : SM unit :=
  action_form_first r
    (let bucket := trimmed_value r "bucket" in
     let key := trimmed_value r "key" in
     if String.eqb bucket "" || String.eqb key "" || negb (ui_store ui)
     then redirect r "/app/buckets?flash=bucket+and+key+required"
     else
       o ← ui_query (GetLatestObjectVersion bucket key);
       match o with
       | Err _ => redirect r (objectDetailURL bucket key "object+not+found")
       | Ok obj =>
         if ov_DeleteMarker obj then redirect r (objectDetailURL bucket key "object+not+found")
         else match update (copyStringMap (ov_Metadata obj)) with
         | inl flash => redirect r (objectDetailURL bucket key flash)
         | inr meta =>
           res ← ui_on_store (UpdateObjectMetadata bucket key (ov_VersionID obj) meta);
           redirect r (objectDetailURL bucket key
             match res with Err _ => "object+lock+update+failed" | Ok _ => "object+lock+updated" end)
         end
       end).

(** ** Theme and tokens *)
Definition theme_action (r : request) : SM unit :=
  posting r (λ s, csrf_checked r s
    (let theme := normalizeTheme (form_value r "theme") in
     if bool_decide (theme ∈ supportedThemes) then
       now ← ui_now;
       on_s3 (updHeader (header_add "Set-Cookie"
         (cookie_text uiThemeCookie theme (now + 365 * 24 * hour) false (rq_TLS r)))) ;;
       redirect r "/app/settings?flash=theme+updated"
     else redirect r "/app/settings?flash=invalid+theme")).

Definition token_answer (r : request) (success : bool) (flash trigger : string) : SM unit :=
  respondActionResult ui r success flash "/app/tokens" trigger.

(** [randomTokenID] of the manager. *)
Definition randomTokenID : SM string :=
  b ← on_s3 (rand_bytes 8);
  mret match b with Ok b => hex_encode b | Err _ => "" end.

Definition token_ttl (raw : string) : option Z :=
  if String.eqb raw "" then Some (24 * hour)
  else match ParseDuration raw with
       | Some d => if 0 <? d then Some d else None
       | None => None
       end.

Definition tokens_of (s : server_state P) : list IssuedPersonalAccessToken :=
  match sv_tokens s with Some m => ListTokens m | None => [] end.

Definition create_token_action (r : request) : SM unit :=
  posting r (λ s, csrf_checked r s (parsed (ParseForm r) (token_answer r false "parse failed" "")
    (st ← (get : SM _);
     match sv_tokens st with
     | None => token_answer r false "token management unavailable" ""
     | Some m =>
       let subject := trimmed_value r "subject" in
       if String.eqb subject "" then token_answer r false "subject is required" ""
       else match token_ttl (trimmed_value r "ttl") with
       | None => token_answer r false "invalid ttl duration" ""
       | Some ttl =>
         id ← randomTokenID;
         now ← ui_now;
         res ← on_tokens m (Issue now id subject ttl (trimmed_value r "label"));
         match res with
         | Err _ => token_answer r false "token creation failed" ""
         | Ok (token, _) =>
           if isHTMXRequest r then
             on_s3 (setHeader "HX-Trigger" "tokens-changed") ;;
             renderPartial ui r "partials/token_create_result" [PgFlash _ "token created"; PgGeneratedToken _ token]
           else
             st ← (get : SM _);
             renderPage ui r "tokens" [PgTitle _ "Tokens"; PgPage _ "tokens"; PgRouteMap _; PgTokens _ (tokens_of st);
               PgCSRFToken _ (us_CSRFToken s); PgFlash _ "token created"; PgGeneratedToken _ token]
         end
       end
     end))).

Definition revoke_token_action (r : request) : SM unit :=
  posting r (λ s, csrf_checked r s (parsed (ParseForm r) (token_answer r false "parse failed" "")
    (st ← (get : SM _);
     match sv_tokens st with
     | None => token_answer r false "token management unavailable" ""
     | Some m =>
       let tokenID := trimmed_value r "token_id" in
       if String.eqb tokenID "" then token_answer r false "token id is required" ""
       else
         now ← ui_now;
         res ← on_tokens m (Revoke now tokenID);
         match res with
         | Err _ => token_answer r false "token revoke failed" ""
         | Ok _ => token_answer r true "token revoked" "tokens-changed"
         end
     end))).

(** ** Downloads *)
Definition download_content_type (obj : ObjectVersion) : string :=
  let v := TrimSpace (meta_get (ov_Metadata obj) "content-type") in
  if String.eqb v "" then "application/octet-stream" else v.

Definition reading (r : request) (k : uiSession → SM unit) : SM unit :=
  s ← requireSession r;
  match s with
  | None => mret tt
  | Some s => if negb (String.eqb (rq_Method r) "GET") then on_s3 (WriteHeader StatusMethodNotAllowed) else k s
  end.

Definition query_value (r : request) (key : string) : string := query_get (rq_Query r) key.

Definition download_action (r : request) : SM unit :=
  reading r (λ _,
    let bucket := TrimSpace (query_value r "bucket") in
    let key := TrimSpace (query_value r "key") in
    if String.eqb bucket "" || String.eqb key "" then redirect r "/app/buckets?flash=bucket+and+key+required"
    else if negb (ui_store ui) || negb (ui_blob ui) then redirect r "/app/buckets?flash=storage+unavailable"
    else
      o ← ui_query (GetLatestObjectVersion bucket key);
      match o with
      | Err _ => redirect r ("/app/buckets/" +:+ bucket +:+ "/objects?flash=object+not+found")
      | Ok obj =>
        on_s3 (setHeader "Content-Disposition" (contentDispositionAttachment (path_Base key))) ;;
        on_s3 (setHeader "Content-Type" (download_content_type obj)) ;;
        on_s3 (setHeader "ETag" (quotedETag (ov_ETag obj))) ;;
        on_s3 (setHeader "x-amz-checksum-sha256" (ov_ChecksumSHA256 obj)) ;;
        res ← on_s3 (on_blob (readMaybeEncryptedObject (ui_sseKey ui) (ov_StoragePath obj) obj None));
        let '(bytes, err) := match res with Ok p => p | Err e => ("", Some e) end in
        (if String.eqb bytes "" then mret tt else on_s3 (Write (PBytes bytes))) ;;
        match err with
        | Some _ => redirect r ("/app/buckets/" +:+ bucket +:+ "/objects/" +:+ key +:+ "?flash=download+failed")
        | None => mret tt
        end
      end).

(** ** The data of the pages *)
Definition store_unavailable : error := Errorf "metadata store unavailable" [].

Definition less_bucket (x y : Bucket) : bool := String.ltb (b_Name x) (b_Name y).

Definition loadBuckets : SM (result (list Bucket)) :=
  if negb (ui_store ui) then mret (Err store_unavailable)
  else
    res ← ui_query ListBuckets;
    mret match res with Ok buckets => Ok (sort_slice less_bucket buckets) | Err e => Err e end.

Definition error_field {A} (res : result A) : page :=
  match res with Ok _ => [] | Err e => [PgError _ (error_text e)] end.

Definition buckets_of (res : result (list Bucket)) : list Bucket := match res with Ok l => l | Err _ => [] end.

Definition bucket_summary (b : Bucket) (objects : list ObjectVersion) : uiBucketSummary :=
  mkBucketSummary (b_Name b) (b_Region b) (b_VersioningStatus b) (Z.of_nat (length objects))
    (fold_left (λ n obj, wrap64 (n + ov_Size obj)) objects 0) (b_CreatedAt b).

(** The summaries, and the first error of a listing. *)
Fixpoint bucket_summaries (buckets : list Bucket) (summaries : list uiBucketSummary) (err : string)
    : SM (list uiBucketSummary * string) :=
  match buckets with
  | [] => mret (summaries, err)
  | b :: buckets =>
    objects ← ui_query (ListObjects (b_Name b));
    match objects with
    | Err e => bucket_summaries buckets summaries (if String.eqb err "" then error_text e else err)
    | Ok objects => bucket_summaries buckets (summaries ++ [bucket_summary b objects]) err
    end
  end.

Definition loadDashboardData : SM page :=
  now ← ui_now;
  buckets ← loadBuckets;
  match buckets with
  | Err e => mret [PgError _ (error_text e); PgBucketSummaries _ []; PgAPIRequestStats _ (loadAPIRequestStats now)]
  | Ok buckets =>
    res ← bucket_summaries buckets [] "";
    mret [PgBucketSummaries _ res.1; PgError _ res.2; PgAPIRequestStats _ (loadAPIRequestStats now)]
  end.

Definition loadObject (bucket key : string) : SM (result ObjectVersion) :=
  if negb (ui_store ui) then mret (Err store_unavailable) else ui_query (GetLatestObjectVersion bucket key).

(** A page of the object browser. *)
Record ui_listing := mkListing {
  ul_Objects : list ObjectVersion;
  ul_CommonPrefixes : list string;
  ul_IsTruncated : bool;
  ul_NextToken : string;
}.

Definition listing_size (out : ui_listing) : Z := Z.of_nat (length (ul_Objects out) + length (ul_CommonPrefixes out)).

Definition list_entry (out : ui_listing) (entry : ListObjectsV2Entry) : ui_listing :=
  match le_Object entry with
  | Some obj => mkListing (ul_Objects out ++ [obj]) (ul_CommonPrefixes out) (ul_IsTruncated out) (ul_NextToken out)
  | None => mkListing (ul_Objects out) (ul_CommonPrefixes out ++ [le_Value entry]) (ul_IsTruncated out) (ul_NextToken out)
  end.

Fixpoint ui_list_loop (prefix delimiter : string) (maxKeys : Z) (entries : list ListObjectsV2Entry) (out : ui_listing)
    : ui_listing :=
  match entries with
  | [] => out
  | entry :: rest =>
    if negb (listing_size out <? maxKeys) then out
    else
      let out := list_entry out entry in
      let out := if (listing_size out =? maxKeys) && bool_decide (rest ≠ [])
                 then mkListing (ul_Objects out) (ul_CommonPrefixes out) true
                        (encodeListContinuationToken prefix delimiter (le_Value entry))
                 else out in
      ui_list_loop prefix delimiter maxKeys rest out
  end.

(** [max-keys]: 100 unless the query has a number from 1 to 1000. *)
Definition ui_max_keys (raw : string) : Z :=
  match Atoi raw with
  | Some n => if (1 <=? n) && (n <=? 1000) then n else 100
  | None => 100
  end.

Definition ui_list_page (objects : list ObjectVersion) (prefix delimiter startAfter : string) (maxKeys : Z) : ui_listing :=
  ui_list_loop prefix delimiter maxKeys
    (start_entries startAfter (filterUIListEntries (listV2EntriesFromObjects objects prefix delimiter) prefix delimiter))
    (mkListing [] [] false "").

Definition listObjectsData (r : request) (bucket : string) : SM (page * option error) :=
  let prefix := normalizeUIPrefix (query_value r "prefix") in
  let delimiter := normalizeUIDelimiter (query_value r "delimiter") in
  let continuation := query_value r "continuation-token" in
  let data := [PgBucketName _ bucket; PgPrefix _ prefix; PgDelimiter _ delimiter; PgContinuationToken _ continuation] in
  if negb (ui_store ui) then mret (data ++ [PgMaxKeys _ 100], Some store_unavailable)
  else
    let maxKeys := ui_max_keys (query_value r "max-keys") in
    let data := data ++ [PgMaxKeys _ maxKeys] in
    objects ← ui_query (ListObjects bucket);
    match objects with
    | Err e => mret (data, Some e)
    | Ok objects =>
      match decodeListContinuationToken continuation prefix delimiter with
      | Err _ => mret (data, Some (Errorf "invalid continuation token" []))
      | Ok startAfter =>
        let out := ui_list_page objects prefix delimiter startAfter maxKeys in
        mret (data ++ [PgObjects _ (ul_Objects out); PgCommonPrefixes _ (ul_CommonPrefixes out);
                       PgIsTruncated _ (ul_IsTruncated out); PgNextContinuationToken _ (ul_NextToken out);
                       PgBreadcrumbs _ (buildUIBreadcrumbs prefix)], None)
      end
    end.

Definition error_of (err : option error) : page :=
  match err with Some e => [PgError _ (error_text e)] | None => [] end.

(** ** Pages *)
Definition headed (title name : string) : page := [PgTitle _ title; PgPage _ name; PgRouteMap _].

Definition csrf_field (s : uiSession) : page := [PgCSRFToken _ (us_CSRFToken s)].

Definition with_flash (r : request) (s : uiSession) : page := csrf_field s ++ [PgFlash _ (query_value r "flash")].

Definition generated_at : SM page := now ← ui_now; mret [PgGeneratedAt _ (format_RFC3339 now)].

Definition dashboard_page (r : request) : SM unit :=
  reading r (λ s, data ← loadDashboardData; renderPage ui r "dashboard" (data ++ headed "Dashboard" "dashboard" ++ with_flash r s)).

Definition buckets_page (r : request) : SM unit :=
  reading r (λ s,
    res ← loadBuckets;
    at_ ← generated_at;
    renderPage ui r "buckets" (headed "Buckets" "buckets" ++ [PgBuckets _ (buckets_of res)] ++ at_ ++ with_flash r s ++ error_field res)).

Definition uploads_page (r : request) : SM unit :=
  reading r (λ s,
    res ← loadBuckets;
    renderPage ui r "uploads" (headed "Uploads" "uploads" ++ [PgBuckets _ (buckets_of res)] ++ with_flash r s ++ error_field res)).

Definition settings_page (r : request) : SM unit :=
  reading r (λ s, renderPage ui r "settings" (headed "Settings" "settings" ++ with_flash r s)).

Definition tokens_page (r : request) : SM unit :=
  reading r (λ s,
    st ← (get : SM _);
    renderPage ui r "tokens" (headed "Tokens" "tokens" ++ with_flash r s ++ [PgGeneratedToken _ (query_value r "token")] ++
      match sv_tokens st with
      | None => [PgError _ "token management unavailable"]
      | Some m => [PgTokens _ (ListTokens m)]
      end)).

Definition audit_page (r : request) : SM unit :=
  reading r (λ s, renderPage ui r "audit" (headed "Audit" "audit" ++ csrf_field s)).

(** A configuration of the bucket, or the empty one. *)
Definition config_field {A} (f : string → memoryBackedStore P → result A) (field : A → page_field ui_Stats)
    (bucket : string) (empty : A) : SM page :=
  res ← ui_query (f bucket);
  mret [field match res with Ok cfg => cfg | Err _ => empty end].

Definition bucket_page (r : request) (s : uiSession) (bucket : string) : SM unit :=
  let data := headed "Bucket" "bucket-detail" ++ [PgBucketName _ bucket] ++ with_flash r s in
  if negb (ui_store ui) then renderPage ui r "bucket_detail" (data ++ [PgError _ "metadata store unavailable"])
  else
    b ← ui_query (GetBucket bucket);
    match b with
    | Err e => if errors_Is e ErrNotFound then on_s3 http_NotFound
               else renderPage ui r "bucket_detail" (data ++ [PgError _ (error_text e)])
    | Ok b =>
      website ← config_field GetBucketWebsite (PgBucketWebsite _) bucket (mkBucketWebsiteConfig bucket "" "" "" "" [] false false);
      cors ← config_field GetBucketCORS (PgBucketCORS _) bucket (mkBucketCORSConfig bucket "" "" "" "" 0 false);
      policy ← config_field GetBucketPolicy (PgBucketPolicy _) bucket (mkBucketPolicy bucket "" false);
      access ← config_field GetBucketPublicAccessBlock (PgBucketPublicAccess _) bucket
                 (mkBucketPublicAccessBlock bucket false false false false);
      lifecycle ← config_field GetBucketLifecycle (PgBucketLifecycle _) bucket (mkBucketLifecycle bucket "" false);
      notification ← config_field GetBucketNotification (PgBucketNotification _) bucket (mkBucketNotification bucket "" false);
      replication ← config_field GetBucketReplication (PgBucketReplication _) bucket (mkBucketReplication bucket "" false);
      renderPage ui r "bucket_detail" (data ++ [PgBucket _ b] ++ website ++ cors ++ policy ++ access ++ lifecycle ++ notification ++ replication)
    end.

Definition bucket_pages (r : request) : SM unit :=
  reading r (λ s,
    match parseUIBucketObjectPath (rq_Path r) with
    | ModeBucket bucket => bucket_page r s bucket
    | ModeObjects bucket =>
      res ← listObjectsData r bucket;
      renderPage ui r "objects" (res.1 ++ headed "Objects" "objects" ++ with_flash r s ++ error_of res.2)
    | ModeObject bucket key =>
      obj ← loadObject bucket key;
      renderPage ui r "object_detail" (headed "Object" "object-detail" ++ [PgBucketName _ bucket; PgObjectKey _ key;
        PgObject _ match obj with Ok o => Some o | Err _ => None end] ++ with_flash r s ++ error_field obj)
    | ModeNone => on_s3 http_NotFound
    end).

(** ** Fragments and streams

    What a fragment shows, and a stream sends again and again. *)
Definition buckets_data : SM page :=
  res ← loadBuckets;
  at_ ← generated_at;
  mret ([PgBuckets _ (buckets_of res)] ++ at_ ++ error_field res).

Definition objects_data (r : request) (s : uiSession) (bucket : string) : SM page :=
  res ← listObjectsData r bucket;
  mret (res.1 ++ csrf_field s ++ error_of res.2).

Definition object_data (bucket key : string) : SM page :=
  obj ← loadObject bucket key;
  mret ([PgBucketName _ bucket; PgObjectKey _ key; PgObject _ match obj with Ok o => Some o | Err _ => None end] ++ error_field obj).

Definition stats_data : SM page := now ← ui_now; mret [PgAPIRequestStats _ (loadAPIRequestStats now)].

Definition tokens_data (s : uiSession) : SM page :=
  st ← (get : SM _); mret (PgTokens _ (tokens_of st) :: csrf_field s).

Definition partial (r : request) (name : string) (m : SM page) : SM unit := data ← m; renderPartial ui r name data.

Definition partial_error (r : request) (message : string) : SM unit :=
  renderPartial ui r "partials/flash" [PgError _ message].

Definition objects_partial (r : request) : SM unit :=
  reading r (λ s,
    let bucket := query_value r "bucket" in
    if String.eqb bucket "" then partial_error r "bucket query is required"
    else partial r "partials/objects_table" (objects_data r s bucket)).

Definition object_metadata_partial (r : request) : SM unit :=
  reading r (λ _,
    let bucket := query_value r "bucket" in
    let key := query_value r "key" in
    if String.eqb bucket "" || String.eqb key "" then partial_error r "bucket and key queries are required"
    else partial r "partials/object_metadata" (object_data bucket key)).

Definition flash_partial (r : request) : SM unit :=
  reading r (λ _, partial r "partials/flash" (at_ ← generated_at; mret (at_ ++ [PgError _ (query_value r "error")]))).

Definition pagination_partial (r : request) : SM unit :=
  reading r (λ _, partial r "partials/pagination" (res ← listObjectsData r (query_value r "bucket"); mret res.1)).

Definition tokens_partial (r : request) : SM unit :=
  reading r (λ s,
    st ← (get : SM _);
    match sv_tokens st with
    | None => partial_error r "token management unavailable"
    | Some _ => partial r "partials/tokens_table" (tokens_data s)
    end).

Definition lf : string := String (ascii_of_nat 10) "".

Definition writeSSEEvent (event payload : string) : SM unit :=
  (if String.eqb event "" then mret tt else on_s3 (Write (PBytes ("event: " +:+ event +:+ lf)))) ;;
  forM (Split payload lf) (λ line, on_s3 (Write (PBytes ("data: " +:+ line +:+ lf)))) ;;
  on_s3 (Write (PBytes lf)).

(** One event; false when the template failed. *)
Definition send_event (r : request) (event name : string) (m : SM page) : SM bool :=
  data ← m;
  match ExecuteTemplate name (themed ui r data) with
  | (html, None) => writeSSEEvent event html ;; mret true
  | (_, Some _) => mret false
  end.

(** The rounds of the ticker before the client leaves. *)
Fixpoint send_events (r : request) (event name : string) (m : SM page) (ticks : nat) : SM unit :=
  match ticks with
  | O => mret tt
  | S ticks =>
    ok ← send_event r event name m;
    if (ok : bool) then send_events r event name m ticks else mret tt
  end.

Variable ticks : request → nat.

Definition streamSSE (r : request) (event name : string) (m : SM page) : SM unit :=
  if negb (ui_flusher ui) then on_s3 (http_Error "streaming unsupported" StatusInternalServerError)
  else
    on_s3 (setHeader "Content-Type" "text/event-stream") ;;
    on_s3 (setHeader "Cache-Control" "no-cache") ;;
    on_s3 (setHeader "Connection" "keep-alive") ;;
    send_events r event name m (S (ticks r)).

Definition tokens_events (r : request) : SM unit :=
  reading r (λ s,
    st ← (get : SM _);
    match sv_tokens st with
    | None => on_s3 (http_Error "token management unavailable" StatusServiceUnavailable)
    | Some _ => streamSSE r "tokens-updated" "partials/tokens_table" (tokens_data s)
    end).

Definition objects_events (r : request) : SM unit :=
  reading r (λ s,
    let bucket := TrimSpace (query_value r "bucket") in
    if String.eqb bucket "" then on_s3 (http_Error "bucket query is required" StatusBadRequest)
    else streamSSE r "objects-updated" "partials/objects_table" (objects_data r s bucket)).

Definition object_metadata_events (r : request) : SM unit :=
  reading r (λ _,
    let bucket := TrimSpace (query_value r "bucket") in
    let key := TrimSpace (query_value r "key") in
    if String.eqb bucket "" || String.eqb key "" then on_s3 (http_Error "bucket and key queries are required" StatusBadRequest)
    else streamSSE r "object-metadata-updated" "partials/object_metadata" (object_data bucket key)).

(** ** The multiplexer

    The files under /assets/ are a parameter. *)
Variable serve_asset : request → SM unit.

Definition action_handlers : list (string * (request → SM unit)) :=
  [("create-bucket", create_bucket_action ui); ("delete-bucket", delete_bucket_action ui);
   ("update-bucket-versioning", update_versioning_action ui); ("update-bucket-public-access", public_access_action ui);
   ("update-bucket-website", website_action ui); ("update-bucket-cors", cors_action ui);
   ("update-bucket-policy", policy_action ui); ("update-bucket-lifecycle", lifecycle_action ui);
   ("update-bucket-notification", notification_action ui); ("update-bucket-replication", replication_action ui);
   ("upload-object", upload_action ui); ("create-folder", create_folder_action ui);
   ("delete-object", delete_object_action ui); ("update-object-mimetype", update_mimetype_action ui);
   ("update-object-retention", λ r, handleObjectLockAction r (retention_update r));
   ("update-object-legal-hold", λ r, handleObjectLockAction r (legal_hold_update r));
   ("delete-folder-marker", delete_folder_marker_action ui); ("delete-folder", delete_folder_action ui);
   ("theme", theme_action); ("download-object", download_action)].

Definition page_handlers : list (list string * (request → SM unit)) :=
  [(["actions"; "tokens"; "create"], create_token_action); (["actions"; "tokens"; "revoke"], revoke_token_action);
   (["login"], handle_login ui); ([], dashboard_page); (["buckets"], buckets_page); (["uploads"], uploads_page);
   (["settings"], settings_page); (["tokens"], tokens_page); (["audit"], audit_page);
   (["partials"; "buckets"], λ r, reading r (λ _, partial r "partials/buckets_table" buckets_data));
   (["partials"; "objects"], objects_partial); (["partials"; "object-metadata"], object_metadata_partial);
   (["partials"; "flash"], flash_partial); (["partials"; "pagination"], pagination_partial);
   (["partials"; "tokens"], tokens_partial);
   (["partials"; "dashboard-stats"], λ r, reading r (λ _, partial r "partials/dashboard_api_stats" stats_data));
   (["events"; "dashboard-stats"], λ r, reading r (λ _, streamSSE r "dashboard-stats" "partials/dashboard_api_stats" stats_data));
   (["events"; "buckets"], λ r, reading r (λ _, streamSSE r "buckets-updated" "partials/buckets_table" buckets_data));
   (["events"; "tokens"], tokens_events); (["events"; "objects"], objects_events);
   (["events"; "object-metadata"], object_metadata_events)].

Definition find_handler {K} `{!EqDecision K} (k : K) (handlers : list (K * (request → SM unit))) : option (request → SM unit) :=
  snd <$> List.find (λ h, bool_decide (h.1 = k)) handlers.

Definition web_handler (segs : list string) : option (request → SM unit) :=
  match segs with
  | "assets" :: _ => Some serve_asset
  | ["app"; "actions"; name] => find_handler name action_handlers
  | "app" :: "buckets" :: _ :: _ => Some bucket_pages
  | "app" :: segs => find_handler segs page_handlers
  | _ => None
  end.

Definition web_ServeHTTP (r : request) : SM unit :=
  match web_handler (path_segments (rq_EscapedPath r)) with
  | Some handler => handler r
  | None => on_s3 http_NotFound
  end.
End pages.
