(* ===== verification/WebProps.v ===== *)
(** * Properties of the web interface

    What a request can change: nothing without a session and its CSRF token, and no
    session without the credentials; the paths the pages link to. *)
From S2P Require Import Prelude GoStrings StringFacts Url Base64 Model MemoryStore FileSystem Blob BlobFacts Listing Http Calendar Duration Sse.
From S2P Require Import Credentials SigV4 PersonalTokens Protector Policy S3State S3Object S3Events S3Bucket.
From S2P Require Import S3ObjectOps S3Multipart S3Router NetHttp Website S3Facts S3Frames S3Reading WebForms Gate GateProps.
From S2P Require Import WebUI WebActions WebPages.

Section web.
Context `{!GoRuntime} `{!TimeFormats} `{!RequestCodecs} `{!Randomness} `{!FormParser} `{!WebTemplates}.
Context `{!JsonCodec listV2ContinuationToken} `{!JsonCodec personalAccessTokenClaims}.
Context `{!Hashes} `{!TempNames} `{!BlockCipher}.
Context {P : Type} `{!StatePersister P}.
Abbreviation HM := (M (s3_state P)).
Abbreviation SM := (M (server_state P)).
Variable ui : webUI.

(** ** Sessions are only taken away *)
Definition sessions_shrink {A} (m : SM A) : Prop := ∀ s, sv_sessions (m s).1 ⊆ sv_sessions s.

Lemma shrink_bind {A B} (m : SM A) (f : A → SM B) : sessions_shrink m → (∀ x, sessions_shrink (f x)) → sessions_shrink (mbind f m).
Proof.
  intros Hm Hf s. specialize (Hm s). unfold mbind, M_bind. destruct (m s) as [s' [x|e]]; simpl in *; [|done].
  etrans; [apply Hf|done].
Qed.
Lemma shrink_on_s3 {A} (m : HM A) : sessions_shrink (on_s3 m : SM A).
Proof. intros s. unfold on_s3. destruct (m (sv_s3 s)). reflexivity. Qed.
Lemma shrink_ret {A} (x : A) : sessions_shrink (mret x : SM A).
Proof. intros s. reflexivity. Qed.
Lemma shrink_get : sessions_shrink (get : SM _).
Proof. intros s. reflexivity. Qed.
Lemma shrink_delete id : sessions_shrink (set_sessions (delete id) : SM unit).
Proof. intros s. apply delete_subseteq. Qed.
Lemma shrink_on_tokens {A} m (f : M PersonalAccessTokenManager A) : sessions_shrink (on_tokens m f : SM _).
Proof. intros s. unfold on_tokens. destruct (f m). reflexivity. Qed.
Lemma shrink_forM {A} (l : list A) (body : A → SM unit) : (∀ x, sessions_shrink (body x)) → sessions_shrink (forM l body).
Proof. intros Hb. induction l as [|x l IH]; [apply shrink_ret|]. apply shrink_bind; [apply Hb|done]. Qed.
End web.

Create HintDb web.
#[export] Hint Resolve shrink_on_s3 shrink_ret shrink_get shrink_delete shrink_on_tokens : web.

(** Follows the structure of a handler. *)
Ltac shrink_step :=
  cbv zeta;
  match goal with
  | |- sessions_shrink (match ?x with _ => _ end) => destruct x
  | |- sessions_shrink (mbind _ _) => apply shrink_bind; [|intros]
  | |- sessions_shrink (forM _ _) => apply shrink_forM; intros
  | |- sessions_shrink _ => solve [auto with web]
  end.
Ltac shrink := repeat shrink_step.

Section shrink.
Context `{!GoRuntime} `{!TimeFormats} `{!RequestCodecs} `{!Randomness} `{!FormParser} `{!WebTemplates}.
Context `{!JsonCodec listV2ContinuationToken} `{!JsonCodec personalAccessTokenClaims}.
Context `{!Hashes} `{!TempNames} `{!BlockCipher}.
Context {P : Type} `{!StatePersister P}.
Abbreviation HM := (M (s3_state P)).
Abbreviation SM := (M (server_state P)).
Variable ui : webUI.

Lemma shrink_now : sessions_shrink (ui_now : SM Z).
Proof. apply shrink_on_s3. Qed.
Lemma shrink_redirect r t : sessions_shrink (redirect r t : SM unit).
Proof. apply shrink_on_s3. Qed.
Lemma shrink_query {A} (f : memoryBackedStore P → result A) : sessions_shrink (ui_query f).
Proof. apply shrink_on_s3. Qed.
Lemma shrink_on_store {A} (m : M (memoryBackedStore P) A) : sessions_shrink (ui_on_store m).
Proof. apply shrink_on_s3. Qed.
#[local] Hint Resolve shrink_now shrink_redirect shrink_query shrink_on_store : web.

Lemma shrink_randomHex n : sessions_shrink (randomHex n : SM string).
Proof. unfold randomHex. shrink. Qed.
Lemma shrink_requireSession r : sessions_shrink (requireSession r : SM _).
Proof. unfold requireSession. shrink. Qed.
Lemma shrink_render r t f d : sessions_shrink (render ui r t f d : SM unit).
Proof. unfold render. shrink. Qed.
#[local] Hint Resolve shrink_randomHex shrink_requireSession shrink_render : web.

Lemma shrink_partial r n d : sessions_shrink (renderPartial ui r n d : SM unit).
Proof. apply shrink_render. Qed.
Lemma shrink_page r n d : sessions_shrink (renderPage ui r n d : SM unit).
Proof. apply shrink_render. Qed.
#[local] Hint Resolve shrink_partial shrink_page : web.

Lemma shrink_respond r ok flash path t : sessions_shrink (respondActionResult ui r ok flash path t : SM unit).
Proof. unfold respondActionResult. shrink. Qed.
#[local] Hint Resolve shrink_respond : web.

Lemma shrink_posting r k : (∀ s, sessions_shrink (k s)) → sessions_shrink (posting r k : SM unit).
Proof. intros Hk. unfold posting. shrink. Qed.
Lemma shrink_reading r k : (∀ s, sessions_shrink (k s)) → sessions_shrink (reading r k : SM unit).
Proof. intros Hk. unfold reading. shrink. Qed.
Lemma shrink_csrf r s (k : SM unit) : sessions_shrink k → sessions_shrink (csrf_checked r s k).
Proof. intros Hk. unfold csrf_checked. shrink. Qed.
Lemma shrink_parsed e (f k : SM unit) : sessions_shrink f → sessions_shrink k → sessions_shrink (parsed e f k).
Proof. intros. by destruct e. Qed.
Lemma shrink_action r (k : SM unit) : sessions_shrink k → sessions_shrink (action r k).
Proof. intros Hk. apply shrink_posting. intros s. apply shrink_csrf, shrink_parsed; [auto with web|done]. Qed.
Lemma shrink_action_form_first r (k : SM unit) : sessions_shrink k → sessions_shrink (action_form_first r k).
Proof. intros Hk. apply shrink_posting. intros s. apply shrink_parsed; [auto with web|]. by apply shrink_csrf. Qed.
Lemma shrink_form_bucket r (k : string → SM unit) : (∀ b, sessions_shrink (k b)) → sessions_shrink (with_form_bucket ui r k).
Proof. intros Hk. unfold with_form_bucket. shrink. Qed.
Lemma shrink_store_flash r b (m : M (memoryBackedStore P) unit) f d : sessions_shrink (store_and_flash r b m f d).
Proof. unfold store_and_flash. shrink. Qed.
#[local] Hint Resolve shrink_store_flash : web.

Lemma shrink_remove_blobs l : sessions_shrink (remove_blobs ui l : SM unit).
Proof. unfold remove_blobs. shrink. Qed.
Lemma shrink_remove_versions b k : sessions_shrink (remove_versions b k : SM _).
Proof. unfold remove_versions. shrink. Qed.
#[local] Hint Resolve shrink_remove_blobs shrink_remove_versions : web.
Lemma shrink_delete_contents b l : sessions_shrink (delete_contents ui b l : SM bool).
Proof. induction l as [|o l IH]; simpl; shrink. Qed.
Lemma shrink_delete_uploads b : sessions_shrink (delete_uploads ui b : SM unit).
Proof. unfold delete_uploads. shrink. Qed.
Lemma shrink_store_object b k id src m : sessions_shrink (store_object ui b k id src m : SM _).
Proof. unfold store_object. shrink. Qed.
#[local] Hint Resolve shrink_delete_contents shrink_delete_uploads shrink_store_object : web.
Lemma shrink_upload r b bucket prefix key legacy count fileKeys files n :
  sessions_shrink (upload_files ui r b bucket prefix key legacy count fileKeys files n : SM _).
Proof. revert fileKeys n. induction files as [|f files IH]; intros; simpl; shrink. Qed.
Lemma shrink_put_marker b k : sessions_shrink (put_marker b k : SM _).
Proof. unfold put_marker. shrink. Qed.
#[local] Hint Resolve shrink_upload shrink_put_marker : web.
Lemma shrink_remove_key r b k f d : sessions_shrink (remove_key ui r b k f d : SM unit).
Proof. unfold remove_key. shrink. Qed.
Lemma shrink_mark_all b ks : sessions_shrink (mark_all b ks : SM bool).
Proof. induction ks; simpl; shrink. Qed.
Lemma shrink_remove_all b ks l : sessions_shrink (remove_all b ks l : SM _).
Proof. revert l. induction ks; intros; simpl; shrink. Qed.
#[local] Hint Resolve shrink_remove_key shrink_mark_all shrink_remove_all : web.

Lemma shrink_form_object r (k : string → string → SM unit) : (∀ b x, sessions_shrink (k b x)) → sessions_shrink (with_form_object r k).
Proof. intros Hk. unfold with_form_object. shrink. Qed.
Lemma shrink_stored_bucket r b (k : Bucket → SM unit) : (∀ b, sessions_shrink (k b)) → sessions_shrink (with_stored_bucket ui r b k).
Proof. intros Hk. unfold with_stored_bucket. shrink. Qed.
Lemma shrink_token_answer r ok f t : sessions_shrink (token_answer ui r ok f t : SM unit).
Proof. apply shrink_respond. Qed.
Lemma shrink_tokenID : sessions_shrink (randomTokenID : SM _).
Proof. unfold randomTokenID. shrink. Qed.
#[local] Hint Resolve shrink_token_answer shrink_tokenID : web.

Ltac guard_step :=
  match goal with
  | |- sessions_shrink (action _ _) => apply shrink_action
  | |- sessions_shrink (action_form_first _ _) => apply shrink_action_form_first
  | |- sessions_shrink (posting _ _) => apply shrink_posting; intros
  | |- sessions_shrink (reading _ _) => apply shrink_reading; intros
  | |- sessions_shrink (csrf_checked _ _ _) => apply shrink_csrf
  | |- sessions_shrink (parsed _ _ _) => apply shrink_parsed; [solve [auto with web]|]
  | |- sessions_shrink (with_form_bucket _ _ _) => apply shrink_form_bucket; intros
  | |- sessions_shrink (with_form_object _ _) => apply shrink_form_object; intros
  | |- sessions_shrink (with_stored_bucket _ _ _ _) => apply shrink_stored_bucket; intros
  | |- sessions_shrink _ => shrink_step
  end.
Ltac guards := repeat (cbv beta; guard_step).

Lemma shrink_actions : Forall (λ h, ∀ r, sessions_shrink (h.2 r)) (action_handlers ui : list (string * (request → SM unit))).
Proof.
  unfold action_handlers. repeat (apply Forall_cons; split; [intros r; simpl|]); [..|by apply Forall_nil].
  all: unfold create_bucket_action, delete_bucket_action, update_versioning_action, public_access_action, website_action,
    cors_action, policy_action, lifecycle_action, notification_action, replication_action, handleBucketXMLConfigAction,
    upload_action, create_folder_action, delete_object_action, update_mimetype_action, handleObjectLockAction,
    delete_folder_marker_action, delete_folder_action, theme_action, download_action.
  all: guards.
Qed.

Lemma shrink_loadBuckets : sessions_shrink (loadBuckets ui : SM _).
Proof. unfold loadBuckets. shrink. Qed.
Lemma shrink_loadObject b k : sessions_shrink (loadObject ui b k : SM _).
Proof. unfold loadObject. shrink. Qed.
Lemma shrink_listObjectsData r b : sessions_shrink (listObjectsData ui r b : SM _).
Proof. unfold listObjectsData. shrink. Qed.
Lemma shrink_summaries bs l e : sessions_shrink (bucket_summaries bs l e : SM _).
Proof. revert l e. induction bs; intros; simpl; shrink. Qed.
#[local] Hint Resolve shrink_loadBuckets shrink_loadObject shrink_listObjectsData shrink_summaries : web.
Lemma shrink_dashboard : sessions_shrink (loadDashboardData ui : SM _).
Proof. unfold loadDashboardData. shrink. Qed.
Lemma shrink_generated : sessions_shrink (generated_at : SM _).
Proof. unfold generated_at. shrink. Qed.
Lemma shrink_config {A} (f : string → memoryBackedStore P → result A) g b e : sessions_shrink (config_field f g b e : SM _).
Proof. unfold config_field. shrink. Qed.
#[local] Hint Resolve shrink_dashboard shrink_generated shrink_config : web.
Lemma shrink_buckets_data : sessions_shrink (buckets_data ui : SM _).
Proof. unfold buckets_data. shrink. Qed.
Lemma shrink_objects_data r x b : sessions_shrink (objects_data ui r x b : SM _).
Proof. unfold objects_data. shrink. Qed.
Lemma shrink_object_data b k : sessions_shrink (object_data ui b k : SM _).
Proof. unfold object_data. shrink. Qed.
Lemma shrink_stats_data : sessions_shrink (stats_data : SM _).
Proof. unfold stats_data. shrink. Qed.
Lemma shrink_tokens_data x : sessions_shrink (tokens_data x : SM _).
Proof. unfold tokens_data. shrink. Qed.
#[local] Hint Resolve shrink_buckets_data shrink_objects_data shrink_object_data shrink_stats_data shrink_tokens_data : web.

Lemma shrink_fragment r n (m : SM (list (page_field ui_Stats))) : sessions_shrink m → sessions_shrink (partial ui r n m).
Proof. intros Hm. unfold partial. shrink. Qed.
Lemma shrink_partial_error r m : sessions_shrink (partial_error ui r m : SM unit).
Proof. apply shrink_render. Qed.
Lemma shrink_SSE e p : sessions_shrink (writeSSEEvent e p : SM unit).
Proof. unfold writeSSEEvent. shrink. Qed.
#[local] Hint Resolve shrink_fragment shrink_partial_error shrink_SSE : web.
Lemma shrink_send r e n (m : SM (list (page_field ui_Stats))) k : sessions_shrink m → sessions_shrink (send_events ui r e n m k).
Proof. intros Hm. induction k; simpl; [shrink|]. unfold send_event. shrink. Qed.

Variable ticks : request → nat.
Lemma shrink_stream r e n (m : SM (list (page_field ui_Stats))) : sessions_shrink m → sessions_shrink (streamSSE ui ticks r e n m).
Proof.
  intros Hm. unfold streamSSE. destruct (negb _); [shrink|]. do 3 (apply shrink_bind; [auto with web|intros]). by apply shrink_send.
Qed.
#[local] Hint Resolve shrink_stream : web.

Lemma shrink_bucket_page r x b : sessions_shrink (bucket_page ui r x b : SM unit).
Proof. unfold bucket_page. shrink. Qed.
#[local] Hint Resolve shrink_bucket_page : web.

(** Every page but the one of the login. *)
Lemma shrink_pages : Forall (λ h, h.1 ≠ ["login"] → ∀ r, sessions_shrink (h.2 r))
  (page_handlers ui ticks : list (list string * (request → SM unit))).
Proof.
  unfold page_handlers. repeat (apply Forall_cons; split; [intros Hl r; simpl|]); [..|by apply Forall_nil].
  all: try done.
  all: unfold create_token_action, revoke_token_action, dashboard_page, buckets_page, uploads_page, settings_page, tokens_page,
    audit_page, objects_partial, object_metadata_partial, flash_partial, pagination_partial, tokens_partial, tokens_events,
    objects_events, object_metadata_events.
  all: guards.
  all: apply shrink_fragment; shrink.
Qed.

Lemma shrink_bucket_pages r : sessions_shrink (bucket_pages ui r : SM unit).
Proof. unfold bucket_pages. guards. Qed.

(** What a login leaves: the sessions there were, and one for who has the keys. *)
Definition logged_in (r : request) (s : server_state P) (id : string) (sess : uiSession) : Prop :=
  rq_Method r = "POST" ∧ form_value r "access_key" = ui_accessKey ui ∧ form_value r "secret_key" = ui_secretKey ui ∧
  ui_accessKey ui ≠ "" ∧ ui_secretKey ui ≠ "" ∧ us_ID sess = id ∧
  us_ExpiresAt sess = fs_clock (s3_world (sv_s3 s)) + uiSessionTTL.

Lemma randomHex_run n (s : server_state P) : ∃ s' text, randomHex n s = (s', Ok text) ∧ sv_sessions s' = sv_sessions s ∧
  fs_clock (s3_world (sv_s3 s')) = fs_clock (s3_world (sv_s3 s)).
Proof.
  unfold randomHex, on_s3, rand_bytes, mbind, M_bind. simpl. destruct (rand_Read _ n) as [b|e]; simpl; eauto 10.
Qed.

Lemma createSession_run (s : server_state P) : ∃ s' sess, createSession s = (s', Ok sess) ∧
  sv_sessions s' = <[us_ID sess := sess]> (sv_sessions s) ∧
  us_ExpiresAt sess = fs_clock (s3_world (sv_s3 s)) + uiSessionTTL.
Proof.
  destruct (randomHex_run 16 s) as (s1 & id & E1 & Hs1 & Hc1). destruct (randomHex_run 16 s1) as (s2 & token & E2 & Hs2 & Hc2).
  unfold createSession. unfold mbind at 1, M_bind at 1. rewrite E1. unfold mbind at 1, M_bind at 1. rewrite E2.
  unfold ui_now, on_s3, s3_now, set_sessions, mbind, M_bind. simpl. eexists _, _. split; [done|]. simpl. by rewrite Hs2, Hs1, Hc2, Hc1.
Qed.

Lemma login_sessions r (s : server_state P) id sess : sv_sessions (handle_login ui r s).1 !! id = Some sess →
  sv_sessions s !! id = Some sess ∨ logged_in r s id sess.
Proof.
  assert (Hkeep : ∀ m : SM unit, sessions_shrink m → sv_sessions (m s).1 !! id = Some sess → sv_sessions s !! id = Some sess).
  { intros m Hm Hl. by apply (lookup_weaken _ _ _ _ Hl), Hm. }
  unfold handle_login. destruct (String.eqb (rq_Method r) "GET").
  { intros Hl. left. revert Hl. apply Hkeep. unfold login_page. auto with web. }
  destruct (String.eqb_spec (rq_Method r) "POST") as [Hm|]; [|intros Hl; left; revert Hl; apply Hkeep; auto with web].
  destruct (ParseForm r); simpl; [intros Hl; left; revert Hl; apply Hkeep; auto with web|].
  destruct (String.eqb_spec (ui_accessKey ui) ""), (String.eqb_spec (ui_secretKey ui) ""); simpl;
    try (intros Hl; left; revert Hl; apply Hkeep; auto with web; fail).
  destruct (String.eqb_spec (form_value r "access_key") (ui_accessKey ui)),
    (String.eqb_spec (form_value r "secret_key") (ui_secretKey ui)); simpl;
    try (intros Hl; left; revert Hl; apply Hkeep; auto with web; fail).
  destruct (createSession_run s) as (s' & new & E & Hs' & Hexp). unfold mbind at 1, M_bind. rewrite E.
  intros Hl. assert (Hl' : sv_sessions s' !! id = Some sess).
  { apply (lookup_weaken _ _ _ _ Hl). apply shrink_bind; intros; auto with web. }
  rewrite Hs' in Hl'. destruct (decide (us_ID new = id)) as [<-|Hne].
  - rewrite lookup_insert_eq in Hl'. injection Hl' as <-. right. by split_and!.
  - rewrite lookup_insert_ne in Hl' by done. by left.
Qed.

Variable serve_asset : request → SM unit.
Hypothesis assets_keep_sessions : ∀ r, sessions_shrink (serve_asset r).

Lemma find_handler_in {K} `{!EqDecision K} (k : K) (hs : list (K * (request → SM unit))) h :
  find_handler k hs = Some h → (k, h) ∈ hs.
Proof.
  unfold find_handler. destruct (List.find _ hs) as [[k' h']|] eqn:E; [|done]. intros [= <-].
  apply find_some in E as [Hin Hk]. apply bool_decide_eq_true in Hk as <-. by apply list_elem_of_In.
Qed.

(** The handlers there are. *)
Lemma web_handler_cases segs h : web_handler ui ticks serve_asset segs = Some h →
  h = serve_asset ∨ (∃ k, (k, h) ∈ action_handlers ui) ∨ (∃ k, (k, h) ∈ page_handlers ui ticks) ∨ h = bucket_pages ui.
Proof.
  unfold web_handler. intros Hf. destruct segs as [|a segs]; [done|].
  destruct (decide (a = "assets")) as [->|]; [left; congruence|].
  destruct (decide (a = "app")) as [->|]; [|by repeat case_match; simplify_eq].
  right. repeat case_match; simplify_eq; try (by do 2 right); eauto using find_handler_in.
Qed.

Lemma web_handler_shrinks segs h : web_handler ui ticks serve_asset segs = Some h → segs ≠ ["app"; "login"] →
  ∀ r, sessions_shrink (h r).
Proof.
  pose proof (proj1 (Forall_forall _ _) shrink_actions) as Ha. pose proof (proj1 (Forall_forall _ _) shrink_pages) as Hp.
  assert (Hpage : ∀ k, find_handler k (page_handlers ui ticks) = Some h → k ≠ ["login"] → ∀ r, sessions_shrink (h r)).
  { intros k Hf Hk r. apply find_handler_in in Hf. by apply (Hp (k, h)). }
  unfold web_handler. intros Hf Hl. destruct segs as [|a segs]; [done|].
  destruct (decide (a = "assets")) as [->|]; [injection Hf as <-; apply assets_keep_sessions|].
  destruct (decide (a = "app")) as [->|]; [|by repeat case_match; simplify_eq].
  repeat case_match; simplify_eq; try (by apply (Hpage _ Hf); congruence); try exact shrink_bucket_pages.
  all: intros r; apply find_handler_in in Hf; exact (Ha (_, h) Hf r).
Qed.
End shrink.

(** ** Data changes with a session and its token only *)
Section data.
Context `{!GoRuntime} `{!TimeFormats} `{!RequestCodecs} `{!Randomness} `{!FormParser} `{!WebTemplates}.
Context `{!JsonCodec listV2ContinuationToken} `{!JsonCodec personalAccessTokenClaims}.
Context `{!Hashes} `{!TempNames} `{!BlockCipher}.
Context {P : Type} `{!StatePersister P}.
Abbreviation HM := (M (s3_state P)).
Abbreviation SM := (M (server_state P)).
Variable ui : webUI.
Variable ticks : request → nat.

Lemma server_sessions f : server_reads (set_sessions f : SM unit).
Proof. done. Qed.
Lemma server_now : server_reads (ui_now : SM Z).
Proof. apply server_on_s3, reads_quiet, quiet_now. Qed.
Lemma server_query {A} (f : memoryBackedStore P → result A) : server_reads (ui_query f).
Proof. apply server_on_s3, reads_query. Qed.
Lemma server_resp f : server_reads (on_s3 (on_resp f) : SM unit).
Proof. apply server_on_s3, reads_on_resp. Qed.
Lemma server_redirect r t : server_reads (redirect r t : SM unit).
Proof. apply server_on_s3, reads_http_Redirect. Qed.
Lemma server_http_Error m c : server_reads (on_s3 (http_Error m c) : SM unit).
Proof. apply server_on_s3, reads_http_Error. Qed.
Lemma server_forM {A} (l : list A) (body : A → SM unit) : (∀ x, server_reads (body x)) → server_reads (forM l body).
Proof. intros Hb. induction l as [|x l IH]; [done|]. apply server_bind; [apply Hb|done]. Qed.
#[local] Hint Resolve server_ret server_get server_sessions server_now server_query server_resp server_redirect server_http_Error : web.

Ltac serve_step :=
  cbv zeta;
  match goal with
  | |- server_reads (match ?x with _ => _ end) => destruct x
  | |- server_reads (mbind _ _) => apply server_bind; [|intros]
  | |- server_reads (forM _ _) => apply server_forM; intros
  | |- server_reads (on_s3 (setHeader _ _)) => apply server_resp
  | |- server_reads (on_s3 (WriteHeader _)) => apply server_resp
  | |- server_reads (on_s3 (Write _)) => apply server_resp
  | |- server_reads (on_s3 (updHeader _)) => apply server_resp
  | |- server_reads (on_s3 http_NotFound) => apply server_http_Error
  | |- server_reads _ => solve [auto with web]
  end.
Ltac serve := repeat serve_step.

Lemma server_requireSession r : server_reads (requireSession r : SM _).
Proof. unfold requireSession. serve. Qed.
Lemma server_render r t f d : server_reads (render ui r t f d : SM unit).
Proof. unfold render. serve. Qed.
Lemma server_renderPartial r n d : server_reads (renderPartial ui r n d : SM unit).
Proof. apply server_render. Qed.
Lemma server_renderPage r n d : server_reads (renderPage ui r n d : SM unit).
Proof. apply server_render. Qed.
#[local] Hint Resolve server_requireSession server_render server_renderPartial server_renderPage : web.
Lemma server_respond r ok flash path t : server_reads (respondActionResult ui r ok flash path t : SM unit).
Proof. unfold respondActionResult. serve. Qed.
Lemma server_reading r k : (∀ s, server_reads (k s)) → server_reads (reading r k : SM unit).
Proof. intros Hk. unfold reading. serve. Qed.
Lemma server_loadBuckets : server_reads (loadBuckets ui : SM _).
Proof. unfold loadBuckets. serve. Qed.
Lemma server_loadObject b k : server_reads (loadObject ui b k : SM _).
Proof. unfold loadObject. serve. Qed.
Lemma server_listObjectsData r b : server_reads (listObjectsData ui r b : SM _).
Proof. unfold listObjectsData. serve. Qed.
Lemma server_summaries bs l e : server_reads (bucket_summaries bs l e : SM _).
Proof. revert l e. induction bs; intros; simpl; serve. Qed.
#[local] Hint Resolve server_respond server_loadBuckets server_loadObject server_listObjectsData server_summaries : web.
Lemma server_dashboard : server_reads (loadDashboardData ui : SM _).
Proof. unfold loadDashboardData. serve. Qed.
Lemma server_generated : server_reads (generated_at : SM _).
Proof. unfold generated_at. serve. Qed.
Lemma server_config {A} (f : string → memoryBackedStore P → result A) g b e : server_reads (config_field f g b e : SM _).
Proof. unfold config_field. serve. Qed.
#[local] Hint Resolve server_dashboard server_generated server_config : web.
Lemma server_buckets_data : server_reads (buckets_data ui : SM _).
Proof. unfold buckets_data. serve. Qed.
Lemma server_objects_data r x b : server_reads (objects_data ui r x b : SM _).
Proof. unfold objects_data. serve. Qed.
Lemma server_object_data b k : server_reads (object_data ui b k : SM _).
Proof. unfold object_data. serve. Qed.
Lemma server_stats_data : server_reads (stats_data : SM _).
Proof. unfold stats_data. serve. Qed.
Lemma server_tokens_data x : server_reads (tokens_data x : SM _).
Proof. unfold tokens_data. serve. Qed.
#[local] Hint Resolve server_buckets_data server_objects_data server_object_data server_stats_data server_tokens_data : web.
Lemma server_fragment r n (m : SM (list (page_field ui_Stats))) : server_reads m → server_reads (partial ui r n m).
Proof. intros Hm. unfold partial. serve. Qed.
Lemma server_partial_error r m : server_reads (partial_error ui r m : SM unit).
Proof. apply server_render. Qed.
Lemma server_SSE e p : server_reads (writeSSEEvent e p : SM unit).
Proof. unfold writeSSEEvent. serve. Qed.
#[local] Hint Resolve server_fragment server_partial_error server_SSE : web.
Lemma server_send r e n (m : SM (list (page_field ui_Stats))) k : server_reads m → server_reads (send_events ui r e n m k).
Proof. intros Hm. induction k; simpl; [serve|]. unfold send_event. serve. Qed.
Lemma server_stream r e n (m : SM (list (page_field ui_Stats))) : server_reads m → server_reads (streamSSE ui ticks r e n m).
Proof.
  intros Hm. unfold streamSSE. destruct (negb _); [serve|]. do 3 (apply server_bind; [apply server_resp|intros]). by apply server_send.
Qed.
#[local] Hint Resolve server_stream : web.
Lemma server_bucket_page r x b : server_reads (bucket_page ui r x b : SM unit).
Proof. unfold bucket_page. serve. Qed.
#[local] Hint Resolve server_bucket_page : web.
Lemma server_bucket_pages r : server_reads (bucket_pages ui r : SM unit).
Proof. apply server_reading. intros s. serve. Qed.
Lemma server_download r : server_reads (download_action ui r : SM unit).
Proof.
  apply server_reading. intros s. serve. apply server_on_s3, reads_silent.
  exact (silent_readMaybe (mkS3API true "" (ui_blobStore ui) "" false (ui_sseKey ui)) _ _ _).
Qed.

Lemma server_randomHex n : server_reads (randomHex n : SM string).
Proof. unfold randomHex. apply server_bind; [apply server_on_s3, reads_quiet, quiet_rand|intros]. serve. Qed.
#[local] Hint Resolve server_randomHex : web.
Lemma server_login r : server_reads (handle_login ui r : SM unit).
Proof. unfold handle_login, login_page, parsed, createSession. serve. Qed.

(** A form sent with a session and its CSRF token. *)
Definition authorised (r : request) (s : server_state P) : Prop :=
  rq_Method r = "POST" ∧ ∃ id sess, request_Cookie r uiSessionCookie = Some id ∧ sv_sessions s !! id = Some sess ∧
    fs_clock (s3_world (sv_s3 s)) ≤ us_ExpiresAt sess ∧ validateCSRF r sess = true.

Definition guarded (r : request) (m : SM unit) : Prop := ∀ s, data_kept s (m s).1 ∨ authorised r s.

Lemma guarded_reads r m : server_reads m → guarded r m.
Proof. intros Hm s. left. apply Hm. Qed.

Lemma requireSession_run r (s : server_state P) : ∃ s' o, requireSession r s = (s', Ok o) ∧
  (∀ sess, o = Some sess → ∃ id, request_Cookie r uiSessionCookie = Some id ∧ sv_sessions s !! id = Some sess ∧
     fs_clock (s3_world (sv_s3 s)) ≤ us_ExpiresAt sess).
Proof.
  assert (Hr : ∀ t (s : server_state P), ∃ s', redirect r t s = (s', Ok tt)).
  { intros t s0. unfold redirect, on_s3, http_Redirect, header_of, setHeader, WriteHeader, Write, on_resp, mbind, M_bind. simpl.
    destruct (rs_Header (s3_resp (sv_s3 s0)) !! "Content-Type"); simpl;
      destruct (String.eqb (rq_Method r) "GET"), (String.eqb (rq_Method r) "HEAD"); simpl; eexists; reflexivity. }
  unfold requireSession. destruct (request_Cookie r uiSessionCookie) as [id|] eqn:Ec.
  - unfold get, ui_now, on_s3, s3_now, mbind, M_bind. simpl. destruct (sv_sessions s !! id) as [sess|] eqn:El.
    + destruct (Z.ltb_spec (us_ExpiresAt sess) (fs_clock (s3_world (sv_s3 s)))).
      * unfold set_sessions. simpl. destruct (Hr "/app/login" (mkServer (sv_s3 s) (sv_protector s) (sv_tokens s) (sv_inflight s)
          (sv_counter s) (delete id (sv_sessions s)))) as [s' E]. destruct s as [[]]; simpl in *. rewrite E. eexists _, None. split; [done|]. done.
      * eexists _, (Some sess). split; [done|]. intros ? [= <-]. by exists id.
    + unfold set_sessions. simpl. destruct (Hr "/app/login" (mkServer (sv_s3 s) (sv_protector s) (sv_tokens s) (sv_inflight s)
        (sv_counter s) (delete id (sv_sessions s)))) as [s' E]. destruct s as [[]]; simpl in *. rewrite E. eexists _, None. split; [done|]. done.
  - destruct (Hr "/app/login" s) as [s' E]. unfold mbind, M_bind. rewrite E. eexists _, None. split; [done|]. done.
Qed.

Lemma guarded_posting r k : (∀ sess, validateCSRF r sess = false → server_reads (k sess)) → guarded r (posting r k).
Proof.
  intros Hk s. destruct (requireSession_run r s) as (s' & o & E & Ho). pose proof (server_requireSession r s) as Hs.
  unfold posting. unfold mbind, M_bind. rewrite E in *. simpl in Hs. destruct o as [sess|]; [|by left].
  destruct (String.eqb_spec (rq_Method r) "POST") as [Hm|]; simpl.
  - destruct (validateCSRF r sess) eqn:Ev.
    + right. destruct (Ho sess eq_refl) as (id & Hc & Hl & Ht). split; [done|]. by exists id, sess.
    + left. eapply data_kept_trans; [exact Hs|]. by apply Hk.
  - left. eapply data_kept_trans; [exact Hs|]. apply server_resp.
Qed.

Lemma guarded_csrf r k : guarded r (posting r (λ s, csrf_checked r s (k s))).
Proof. apply guarded_posting. intros sess Ev. unfold csrf_checked. rewrite Ev. simpl. serve. Qed.

Lemma guarded_parsed r e f k : server_reads f → guarded r (posting r (λ s, parsed e f (csrf_checked r s (k s)))).
Proof.
  intros Hf. apply guarded_posting. intros sess Ev. unfold parsed, csrf_checked. rewrite Ev. simpl. destruct e; [done|]. serve.
Qed.

Lemma actions_guarded r : Forall (λ h, guarded r (h.2 r)) (action_handlers ui : list (string * (request → SM unit))).
Proof.
  unfold action_handlers. repeat (apply Forall_cons; split; [simpl|]); [..|by apply Forall_nil].
  all: try apply guarded_csrf; try (apply guarded_parsed, server_redirect).
  apply guarded_reads, server_download.
Qed.

Lemma pages_guarded r : Forall (λ h, guarded r (h.2 r)) (page_handlers ui ticks : list (list string * (request → SM unit))).
Proof.
  unfold page_handlers. repeat (apply Forall_cons; split; [simpl|]); [..|by apply Forall_nil].
  1,2: apply guarded_csrf.
  all: apply guarded_reads; try apply server_login; apply server_reading; intros s.
  all: serve.
  all: apply server_fragment; serve.
Qed.

Lemma web_guarded (serve_asset : request → SM unit) r :
  (∀ r, server_reads (serve_asset r)) → guarded r (web_ServeHTTP ui ticks serve_asset r).
Proof.
  intros Hassets. pose proof (proj1 (Forall_forall _ _) (actions_guarded r)) as Ha.
  pose proof (proj1 (Forall_forall _ _) (pages_guarded r)) as Hp.
  unfold web_ServeHTTP. destruct (web_handler _ _ _ _) as [h|] eqn:Hh.
  - apply (web_handler_cases ui ticks serve_asset) in Hh as [-> | [[k Hk] | [[k Hk] | ->]]].
    + by apply guarded_reads.
    + exact (Ha _ Hk).
    + exact (Hp _ Hk).
    + apply guarded_reads, server_bucket_pages.
  - apply guarded_reads, server_on_s3, reads_http_NotFound.
Qed.
End data.
