(* ===== verification/WebLinks.v ===== *)
(** * Links of the web interface

    The path of an object's page: whatever the key, it reaches the handler of the pages
    of buckets, which reads the bucket and the key back from it. *)
From S2P Require Import Prelude GoStrings StringFacts Url NetHttp Gate WebForms.

Lemma Split_cons d s : Split s (String d "") ≠ [].
Proof. rewrite Split_unfold. by destruct (Index s (String d "")). Qed.

Lemma Join_cons x l sep : l ≠ [] → Join (x :: l) sep = x +:+ sep +:+ Join l sep.
Proof. by destruct l. Qed.

(** Joining undoes splitting. *)
Lemma Join_Split d s : Join (Split s (String d "")) (String d "") = s.
Proof.
  remember (String.length s) as n eqn:Hn. revert s Hn. induction n as [n IH] using lt_wf_ind. intros s ->.
  rewrite Split_unfold. destruct (Index s (String d "")) as [i|] eqn:Hi; [|done].
  apply Index_Some in Hi as [Hs Hl]. change (String.length (String d "")) with 1%nat in *. rewrite Nat.add_1_r in *.
  rewrite Join_cons by apply Split_cons. pose proof (str_drop_le (S i) s) as Hle.
  rewrite (IH (String.length (str_drop (S i) s)) ltac:(lia) _ eq_refl). by symmetry.
Qed.

(** A byte as [escape_unless] leaves it is read back by [PathUnescape]. *)
Definition path_reads_back (c : ascii) : bool :=
  match percent c with
  | String p (String a (String b "")) =>
    Ascii.eqb p "%" &&
    match hex_value a, hex_value b with
    | Some x, Some y => Ascii.eqb (ascii_of_N (x * 16 + y)) c
    | _, _ => false
    end
  | _ => false
  end.

Lemma path_reads_back_all c : path_reads_back c = true.
Proof. revert c. apply bytes_check. vm_compute. done. Qed.

Lemma PathUnescape_plain c t : c ≠ "%"%char → PathUnescape (String c t) = String c <$> PathUnescape t.
Proof. intros Hc. apply Ascii.eqb_neq in Hc. simpl. by rewrite Hc. Qed.

Lemma PathUnescape_escape plain s t : plain "%"%char = false →
  PathUnescape (escape_unless plain s +:+ t) = (λ u, s +:+ u) <$> PathUnescape t.
Proof.
  intros Hp. induction s as [|c s IH]; [by rewrite str_app_nil_l; destruct (PathUnescape t)|].
  change (escape_unless plain (String c s)) with ((if plain c then String c "" else percent c) +:+ escape_unless plain s).
  rewrite str_app_assoc. destruct (plain c) eqn:Ec.
  - rewrite str_app_cons, str_app_nil_l, PathUnescape_plain, IH by congruence. by destruct (PathUnescape t).
  - pose proof (path_reads_back_all c) as Hc. unfold path_reads_back in Hc.
    destruct (percent c) as [|p [|a [|b [|? ?]]]]; try done. apply andb_prop in Hc as [->%Ascii.eqb_eq Hc].
    rewrite !str_app_cons, str_app_nil_l. simpl. destruct (hex_value a) as [x|], (hex_value b) as [y|]; try done.
    apply Ascii.eqb_eq in Hc as ->. rewrite IH. by destruct (PathUnescape t).
Qed.

Lemma PathUnescape_Escape s t : PathUnescape (PathEscape s +:+ t) = (λ u, s +:+ u) <$> PathUnescape t.
Proof. by apply PathUnescape_escape. Qed.

Lemma PathUnescape_segments l t : PathUnescape (Join (PathEscape <$> l) "/" +:+ t) = (λ u, Join l "/" +:+ u) <$> PathUnescape t.
Proof.
  induction l as [|x l IH]; [by rewrite str_app_nil_l; destruct (PathUnescape t)|].
  destruct l as [|y l]; [apply PathUnescape_Escape|].
  change (Join (PathEscape <$> x :: y :: l) "/") with (PathEscape x +:+ "/" +:+ Join (PathEscape <$> y :: l) "/").
  change (Join (x :: y :: l) "/") with (x +:+ "/" +:+ Join (y :: l) "/").
  rewrite !str_app_assoc, PathUnescape_Escape, str_app_cons, str_app_nil_l.
  rewrite PathUnescape_plain, IH by done. destruct (PathUnescape t) as [u|]; [|done]. simpl.
  by rewrite !str_app_assoc.
Qed.

Lemma PathEscape_no_slash s : Contains (PathEscape s) "/" = false.
Proof.
  apply (Contains_byte_forall (λ c, negb (Ascii.eqb c "/"))); [|done]. unfold PathEscape.
  induction s as [|c s IH]; [done|]. simpl. rewrite str_forall_app, IH, andb_true_r. revert c. clear.
  apply (bytes_check (λ c, str_forall _ (if segment_plain c then String c "" else percent c))). vm_compute. done.
Qed.


(** ** The page of an object *)
Definition object_path (b k : string) : string := "/app/buckets/" +:+ b +:+ "/objects/" +:+ k.

Lemma Split_segment d s t : Contains s (String d "") = false →
  Split (s +:+ String d "" +:+ t) (String d "") = s :: Split t (String d "").
Proof. intros Hs. rewrite str_app_cons, str_app_nil_l. by apply Split_app. Qed.

Lemma parse_object_path b k : Contains b "/" = false → parseUIBucketObjectPath (object_path b k) = ModeObject b k.
Proof.
  intros Hb. unfold parseUIBucketObjectPath, object_path. rewrite TrimPrefix_app.
  assert (E : b +:+ "/objects/" +:+ k = b +:+ "/" +:+ ("objects" +:+ "/" +:+ k)) by done.
  rewrite E, !Split_segment by done. pose proof (Join_Split "/" k) as Hj. pose proof (Split_cons "/" k) as Hn.
  destruct (Split k "/") as [|x l]; [done|]. simpl String.eqb. cbv iota. by rewrite Hj.
Qed.

Lemma detail_url b k : objectDetailURL b k "" = "/app/buckets/" +:+ (PathEscape b +:+ "/objects/" +:+ keyPathEscape k).
Proof. done. Qed.

Lemma PathUnescape_text p t : Contains p "%" = false → PathUnescape (p +:+ t) = (λ u, p +:+ u) <$> PathUnescape t.
Proof.
  induction p as [|c p IH]; intros Hp; [by rewrite str_app_nil_l; destruct (PathUnescape t)|].
  apply Contains_byte_cons in Hp as [Hc Hp]. rewrite str_app_cons, PathUnescape_plain, IH by done.
  by destruct (PathUnescape t).
Qed.

Lemma PathUnescape_detail b k : PathUnescape (objectDetailURL b k "") = Some (object_path b k).
Proof.
  rewrite detail_url, PathUnescape_text, PathUnescape_Escape, PathUnescape_text by done. unfold keyPathEscape.
  pose proof (PathUnescape_segments (Split k "/") "") as E. rewrite !str_app_nil_r in E. rewrite E, Join_Split.
  change (PathUnescape "") with (Some ""). cbn [fmap option_fmap option_map].
  unfold object_path. by rewrite str_app_nil_r.
Qed.

Lemma decode_PathEscape b : Website.decodePath (PathEscape b) = b.
Proof. unfold Website.decodePath. pose proof (PathUnescape_Escape b "") as E. rewrite str_app_nil_r in E. rewrite E. apply str_app_nil_r. Qed.

Lemma segments_detail b k : ∃ segs, path_segments (objectDetailURL b k "") = "app" :: "buckets" :: b :: "objects" :: segs ∧ segs ≠ [].
Proof.
  rewrite detail_url. unfold path_segments.
  assert (E : str_drop 1 ("/app/buckets/" +:+ (PathEscape b +:+ "/objects/" +:+ keyPathEscape k)) =
    "app" +:+ "/" +:+ ("buckets" +:+ "/" +:+ (PathEscape b +:+ "/" +:+ ("objects" +:+ "/" +:+ keyPathEscape k)))) by done.
  rewrite E, !Split_segment by (done || apply PathEscape_no_slash). rewrite !fmap_cons, decode_PathEscape.
  eexists. split; [done|]. pose proof (Split_cons "/" (keyPathEscape k)). by destruct (Split (keyPathEscape k) "/").
Qed.
