(* ===== verification/WebScenarios.v ===== *)
(** * The web interface: what a request can do

    The properties of the web interface on top of WebProps and WebLinks, with their
    witnesses, and what its forms do to objects that S3 requests cannot touch. *)
From S2P Require Import Prelude GoStrings StringFacts Url Base64 Model MemoryStore MemoryStoreProps FileSystem Blob BlobFacts Listing Http Sse.
From S2P Require Import Calendar Credentials SigV4 PersonalTokens Protector Policy.
From S2P Require Import S3State S3Object S3Events S3Bucket S3ObjectOps S3Multipart S3Router.
From S2P Require Import NetHttp Website S3Facts S3Frames S3Reading S3Examples Gate GateProps.
From S2P Require Import WebForms WebUI WebActions WebPages WebProps WebLinks.

Section properties.
Context `{!GoRuntime} `{!TimeFormats} `{!RequestCodecs} `{!Randomness} `{!FormParser} `{!WebTemplates}.
Context `{!JsonCodec listV2ContinuationToken} `{!JsonCodec personalAccessTokenClaims}.
Context `{!Hashes} `{!TempNames} `{!BlockCipher}.
Context {P : Type} `{!StatePersister P}.
Variable ui : webUI.
Variable ticks : request → nat.
Variable serve_asset : request → M (server_state P) unit.

(** Metadata, blobs and tokens change through the web interface only when the
    request is a POST with the cookie of a session that has not expired and with the
    CSRF token of that session. *)
Theorem web_changes_need_form r (s : server_state P) :
  (∀ r, server_reads (serve_asset r)) →
  data_kept s (web_ServeHTTP ui ticks serve_asset r s).1 ∨ authorised r s.
Proof.
  intros Hassets. revert s. change (guarded r (web_ServeHTTP ui ticks serve_asset r)). by apply web_guarded.
Qed.

(** C19: A session that is there after a request was there before it with the same
    token and expiry, or the request is a POST to the login page with both keys of the
    interface, neither of them empty, and the session ends twelve hours later. *)
Theorem web_sessions_from_login r (s : server_state P) id sess :
  (∀ r, sessions_shrink (serve_asset r)) →
  sv_sessions (web_ServeHTTP ui ticks serve_asset r s).1 !! id = Some sess →
  sv_sessions s !! id = Some sess ∨
  (path_segments (rq_EscapedPath r) = ["app"; "login"] ∧ logged_in ui r s id sess).
Proof.
  intros Hassets. unfold web_ServeHTTP. destruct (decide (path_segments (rq_EscapedPath r) = ["app"; "login"])) as [E|Hne].
  - rewrite E. change (web_handler ui ticks serve_asset ["app"; "login"]) with (Some (handle_login ui : _ → M (server_state P) unit)).
    intros [|]%login_sessions; auto.
  - intros Hl. left. revert Hl. destruct (web_handler _ _ _ _) as [h|] eqn:Hh; intros Hl.
    + apply (lookup_weaken _ _ _ _ Hl). by apply (web_handler_shrinks ui ticks serve_asset Hassets _ _ Hh).
    + apply (lookup_weaken _ _ _ _ Hl), shrink_on_s3.
Qed.

(** The link to an object, for a bucket without a slash in its name and any key,
    is routed to the pages of buckets; the path decoded from it is read back as that
    bucket and that key. *)
Theorem object_link_round_trip b k : Contains b "/" = false →
  web_handler ui ticks serve_asset (path_segments (objectDetailURL b k "")) = Some (bucket_pages ui) ∧
  parseUIBucketObjectPath <$> PathUnescape (objectDetailURL b k "") = Some (ModeObject b k).
Proof.
  intros Hb. split.
  - destruct (segments_detail b k) as (segs & -> & _). done.
  - rewrite PathUnescape_detail. simpl. by rewrite parse_object_path.
Qed.
End properties.

(** ** Concrete requests *)
Section scenarios.
#[local] Existing Instance go_runtime_ref.
#[local] Existing Instance ex_times.
#[local] Existing Instance ex_random.
#[local] Existing Instance ex_codecs.
#[local] Existing Instance ex_tokens.
#[local] Existing Instance ex_hashes.
#[local] Existing Instance ex_temp_names.
#[local] Existing Instance ex_cipher.
Lemma ex_web_claims_text (c : personalAccessTokenClaims) : "claims" ≠ "".
Proof. done. Qed.
#[local] Instance ex_web_claims : JsonCodec personalAccessTokenClaims := {|
  json_Marshal _ := "claims";
  json_Unmarshal _ := None;
  json_nonempty := ex_web_claims_text;
  json_representable _ := False;
  json_round_trip _ H := match H with end;
|}.

(** The form is the query; a page is its name. *)
#[local] Instance ex_form : FormParser := {|
  ParseForm _ := None;
  ParseMultipartForm _ := None;
  Form := rq_Query;
  form_values r k := default [] (rq_Query r !! k);
  form_files _ _ := [];
|}.
#[local] Instance ex_templates : WebTemplates := {|
  ui_Stats := unit;
  loadAPIRequestStats _ := tt;
  ExecuteTemplate name _ := (name, None);
|}.

Definition ex_ui : webUI := mkWebUI true true ex_bs ex_key "admin" "secret" "" true.
Definition ex_assets (r : request) : M (server_state scripted_persister) unit := mret tt.
Definition ex_web (s : server_state scripted_persister) (r : request) : server_state scripted_persister :=
  let s := mkServer (fresh (sv_s3 s)) (sv_protector s) (sv_tokens s) (sv_inflight s) (sv_counter s) (sv_sessions s) in
  (web_ServeHTTP ex_ui (λ _, O) ex_assets r s).1.
Definition ex_web_server (rs : list request) : server_state scripted_persister :=
  mkServer (fresh (fold_left ex_serve rs ex_buckets)) (newAuthFailureProtector 3 0 0) None 0 0 ∅.

Definition ex_login (key secret : string) : request :=
  ex_request "POST" "/app/login" [("access_key", key); ("secret_key", secret)] [] "".

(** Signed in after the requests to the S3 API. *)
Definition ex_signed_in (rs : list request) : server_state scripted_persister := ex_web (ex_web_server rs) (ex_login "admin" "secret").
Definition ex_session (s : server_state scripted_persister) : uiSession :=
  default (mkSession "" "" 0) (snd <$> head (map_to_list (sv_sessions s))).
(** A form sent with the session and its token. *)
Definition ex_form_request (s : server_state scripted_persister) (name : string) (fields : list (string * string)) : request :=
  ex_request "POST" ("/app/actions/" +:+ name) (("_csrf", us_CSRFToken (ex_session s)) :: fields)
    [("Cookie", uiSessionCookie +:+ "=" +:+ us_ID (ex_session s))] "".
Definition ex_submit (s : server_state scripted_persister) (name : string) (fields : list (string * string)) :=
  ex_web s (ex_form_request s name fields).
Definition ex_location (s : server_state scripted_persister) : string := header_get (rs_Sent (s3_resp (sv_s3 s))) "Location".
Definition ex_s3 (s : server_state scripted_persister) (method path : string) (query : list (string * string)) : option Z :=
  status (ex_serve (fresh (sv_s3 s)) (ex_request method path query [] "")).

Example ex_login_ok :
  size (sv_sessions (ex_signed_in [])) = 1%nat ∧ ex_location (ex_signed_in []) = "/app" ∧
  us_ExpiresAt (ex_session (ex_signed_in [])) = ex_clock + uiSessionTTL ∧
  ex_location (ex_web (ex_web_server []) (ex_login "admin" "wrong")) = "/app/login?error=invalid+credentials".
Proof. vm_compute. split_and!; reflexivity. Qed.
Definition ex_hold_request (key : string) : request := ex_request "PUT" ("/plain/" +:+ key) [("legal-hold", "")] [] "ON".
Definition ex_held : server_state scripted_persister :=
  ex_signed_in [ex_request "PUT" "/plain/a/k" [] [] "content"; ex_hold_request "a/k"].
Definition ex_folder : list (string * string) := [("bucket", "plain"); ("target_prefix", "a/")].

(** An object under legal hold, which the S3 API refuses to delete, is gone after
    the form that deletes its folder and after the one that deletes its bucket; only
    the form that deletes the object itself minds the hold. *)
Theorem folder_deletion_ignores_hold :
  let folder := ex_submit ex_held "delete-folder" ex_folder in
  let bucket := ex_submit ex_held "delete-bucket" ex_folder in
  let object := ex_submit ex_held "delete-object" [("bucket", "plain"); ("key", "a/k")] in
  ex_s3 ex_held "DELETE" "/plain/a/k" [] = Some 403 ∧ ex_s3 ex_held "GET" "/plain/a/k" [] = Some 200 ∧
  ex_s3 folder "GET" "/plain/a/k" [] = Some 404 ∧ ex_s3 bucket "GET" "/plain/a/k" [] = Some 404 ∧
  ex_s3 object "GET" "/plain/a/k" [] = Some 200 ∧
  ex_location object = "/app/buckets/plain/objects/a/k?flash=object%2Blocked".
Proof. vm_compute. split_and!; reflexivity. Qed.

Definition ex_retained : server_state scripted_persister :=
  ex_signed_in [ex_request "PUT" "/plain/k" [] [] "content";
    ex_request "PUT" "/plain/k" [("retention", "")] [] "COMPLIANCE:T1800000000Z"].

(** The form on retention lifts one of the mode COMPLIANCE that has not ended. *)
Theorem form_lifts_compliance_retention :
  let s := ex_submit ex_retained "update-object-retention"
    [("bucket", "plain"); ("key", "k"); ("retention_mode", ""); ("retain_until", "")] in
  ex_s3 ex_retained "DELETE" "/plain/k" [] = Some 403 ∧ ex_s3 s "DELETE" "/plain/k" [] = Some 204.
Proof. vm_compute. split; reflexivity. Qed.

Definition ex_versioned : server_state scripted_persister := ex_signed_in [ex_request "PUT" "/kept/k" [] [] "content"].
Definition ex_typed : server_state scripted_persister :=
  ex_submit ex_versioned "update-object-mimetype" [("bucket", "kept"); ("key", "k"); ("content_type", "text/plain")].
Definition ex_latest (s : server_state scripted_persister) : string :=
  match GetLatestObjectVersion "kept" "k" (s3_store (sv_s3 s)) with Ok o => ov_VersionID o | Err _ => "" end.

(** The form on the type of an object stores a second version of it in a bucket
    with versioning that shares the blob of the first: once the first version is
    deleted, the second is answered with 200 and no content. *)
Theorem type_change_shares_blob :
  let get s := ex_serve (fresh s) (ex_request "GET" "/kept/k" [] [] "") in
  let s := ex_serve (fresh (sv_s3 ex_typed)) (ex_request "DELETE" "/kept/k" [("versionId", ex_latest ex_versioned)] [] "") in
  ex_latest ex_typed ≠ ex_latest ex_versioned ∧ body (get (sv_s3 ex_typed)) = [PBytes "content"] ∧
  status s = Some 204 ∧ status (get s) = Some 200 ∧ body (get s) = [PBytes ""].
Proof. vm_compute. split_and!; (done || reflexivity). Qed.

(** A path that the forms take for local but that browsers read as another host's. *)
Example backslash_return_path :
  let path := String "/" (String "092" "evil.example") in
  safeUIReturnPath path = path ∧ redirect_location path = path ∧ safeUIReturnPath "//evil.example" = "".
Proof. vm_compute. split_and!; reflexivity. Qed.

(** A form without the token changes nothing; with it, the folder goes. *)
Lemma web_changes_need_form_witness :
  let r := ex_request "POST" "/app/actions/delete-folder" ex_folder
    [("Cookie", uiSessionCookie +:+ "=" +:+ us_ID (ex_session ex_held))] "" in
  (data_kept ex_held (web_ServeHTTP ex_ui (λ _, O) ex_assets r ex_held).1 ∨ authorised r ex_held) ∧
  status (sv_s3 (ex_web ex_held r)) = Some 403.
Proof.
  intros r. split; [|vm_compute; reflexivity].
  apply (web_changes_need_form ex_ui (λ _, O) ex_assets). intros r' s. done.
Defined.

Lemma web_sessions_from_login_witness :
  let r := ex_login "admin" "secret" in
  let s := ex_web_server [] in
  let id := us_ID (ex_session (ex_signed_in [])) in
  sv_sessions s !! id = Some (ex_session (ex_signed_in [])) ∨
  (path_segments (rq_EscapedPath r) = ["app"; "login"] ∧ logged_in ex_ui r s id (ex_session (ex_signed_in []))).
Proof.
  intros r s id. apply (web_sessions_from_login ex_ui (λ _, O) ex_assets).
  - intros r' s'. reflexivity.
  - vm_compute. reflexivity.
Defined.

Lemma object_link_round_trip_witness :
  web_handler ex_ui (λ _, O) ex_assets (path_segments (objectDetailURL "b" "a b/%/?c" "")) = Some (bucket_pages ex_ui) ∧
  parseUIBucketObjectPath <$> PathUnescape (objectDetailURL "b" "a b/%/?c" "") = Some (ModeObject "b" "a b/%/?c").
Proof. apply (object_link_round_trip ex_ui (λ _, O) ex_assets "b" "a b/%/?c"). vm_compute. reflexivity. Defined.
End scenarios.
