(* ===== verification/Lifecycle.v ===== *)
(** * The lifecycle worker (src/internal/lifecycle/worker.go)

    The worker against the interfaces of its metadata and blob stores, the context it
    is given and the readings of its clock.  [lookups] of the context before it is
    done and the readings are part of the state, so that theorems quantify over them. *)
From S2P Require Import Prelude GoStrings Model MemoryStore FileSystem Blob Http Calendar Duration LifecycleRules.

(** ** Interfaces *)

(** [metadataStore]: the reads do not change the store. *)
Class LifecycleMetadata (S : Type) := {
  lm_ListBuckets : S → result (list Bucket);
  lm_ListObjects : string → S → result (list ObjectVersion);
  lm_DeleteAllObjectVersions : string → string → M S (list ObjectVersion);
  lm_GetBucketLifecycle : string → S → result BucketLifecycle;
}.

(** [blobStore] *)
Class LifecycleBlobs (B : Type) := { lb_DeleteObject : ObjectRef → bool → M B unit }.

(** ** State *)
Record Report := mkReport {
  rp_Scanned : Z;
  rp_Eligible : Z;
  rp_Deleted : Z;
  rp_Failed : Z;
  rp_DryRun : bool;
  rp_Duration : Z;
}.

Record Metrics := mkMetrics {
  mt_Runs : Z;
  mt_ScannedTotal : Z;
  mt_EligibleTotal : Z;
  mt_DeletedTotal : Z;
  mt_FailedTotal : Z;
  mt_LastRunDuration : Z;
  mt_LastRunDryRun : bool;
}.

Definition no_metrics : Metrics := mkMetrics 0 0 0 0 0 0 false.

(** [wk_cancel]: how often the context is still found alive, None for ever;
    [wk_readings]: the clock's readings to come; [wk_slept], [wk_depths]: the sleeps
    and the reported queue depths, last first. *)
Record worker_state (S B : Type) := mkWorkerState {
  wk_meta : S;
  wk_blob : B;
  wk_cancel : option nat;
  wk_readings : nat → Z;
  wk_slept : list Z;
  wk_depths : list Z;
  wk_metrics : Metrics;
}.
Arguments mkWorkerState {_ _} _ _ _ _ _ _ _.
Arguments wk_meta {_ _} _.
Arguments wk_blob {_ _} _.
Arguments wk_cancel {_ _} _.
Arguments wk_readings {_ _} _.
Arguments wk_slept {_ _} _.
Arguments wk_depths {_ _} _.
Arguments wk_metrics {_ _} _.

Record Worker := mkWorker {
  lw_rules : list Rule;
  lw_interval : Z;
  lw_batchSize : Z;
  lw_maxRetries : Z;
  lw_retryBackoff : Z;
  lw_dryRun : bool;
  lw_queueDepthFn : bool;
}.

Record Snapshot := mkSnapshot {
  sn_Rules : list Rule;
  sn_Interval : Z;
  sn_BatchSize : Z;
  sn_MaxRetries : Z;
  sn_RetryBackoff : Z;
  sn_DryRun : bool;
  sn_Metrics : Metrics;
}.

Definition defaultInterval : Z := 5 * minute.
Definition defaultBatchSize : Z := 100.

(** The number of the first rule without a positive age. *)
Fixpoint bad_rule (i : Z) (rules : list Rule) : option Z :=
  match rules with
  | [] => None
  | rule :: rules => if lr_ExpireAfter rule <=? 0 then Some i else bad_rule (i + 1) rules
  end.

(** [NewWorker]: are the stores given, and the options [o] as a worker. *)
Definition NewWorker (metadata_given blob_given : bool) (o : Worker) : result Worker :=
  if negb metadata_given then Err (Errorf "metadata store is required" [])
  else if negb (lw_dryRun o) && negb blob_given
  then Err (Errorf "blob store is required when dry-run is disabled" [])
  else match bad_rule 1 (lw_rules o) with
  | Some i => Err (Errorf "lifecycle rule %d has non-positive age" [FormatInt i])
  | None =>
    Ok (mkWorker (lw_rules o) (if lw_interval o <=? 0 then defaultInterval else lw_interval o)
         (if lw_batchSize o <=? 0 then defaultBatchSize else lw_batchSize o)
         (if lw_maxRetries o <? 0 then 0 else lw_maxRetries o) (lw_retryBackoff o) (lw_dryRun o) (lw_queueDepthFn o))
  end.

Definition context_canceled : error := ErrSentinel "context canceled".

(** [blob.ObjectRef{Bucket: ..., Key: ..., VersionID: ...}] *)
Definition ref_of (v : ObjectVersion) : ObjectRef := mkObjectRef (ov_Bucket v) (ov_Key v) (ov_VersionID v).

(** ** Reports *)
Definition report_failed (r : Report) : Report :=
  mkReport (rp_Scanned r) (rp_Eligible r) (rp_Deleted r) (rp_Failed r + 1) (rp_DryRun r) (rp_Duration r).
Definition report_deleted (r : Report) : Report :=
  mkReport (rp_Scanned r) (rp_Eligible r) (rp_Deleted r + 1) (rp_Failed r) (rp_DryRun r) (rp_Duration r).
Definition report_scanned (eligible : bool) (r : Report) : Report :=
  mkReport (rp_Scanned r + 1) (rp_Eligible r + if eligible then 1 else 0) (rp_Deleted r) (rp_Failed r) (rp_DryRun r)
    (rp_Duration r).
Definition report_took (d : Z) (r : Report) : Report :=
  mkReport (rp_Scanned r) (rp_Eligible r) (rp_Deleted r) (rp_Failed r) (rp_DryRun r) d.

Definition record_run (m : Metrics) (r : Report) : Metrics :=
  mkMetrics (mt_Runs m + 1) (mt_ScannedTotal m + rp_Scanned r) (mt_EligibleTotal m + rp_Eligible r)
    (mt_DeletedTotal m + rp_Deleted r) (mt_FailedTotal m + rp_Failed r) (rp_Duration r) (rp_DryRun r).

(** ** The scan *)

(** Is the object due under the rules at the instant? *)
Definition expired (rules : list Rule) (now : Z) (obj : ObjectVersion) : bool :=
  let age := saturate64 (now - ov_CreatedAt obj) in
  negb (age <? 0) && matchesAnyRule rules (ov_Key obj) age.

(** The loop over the objects of a bucket. *)
Fixpoint scan_objects (rules : list Rule) (now : Z) (objects : list ObjectVersion) (acc : Report * list ObjectVersion)
    : Report * list ObjectVersion :=
  match objects with
  | [] => acc
  | obj :: objects =>
    let '(report, candidates) := acc in
    let due := expired rules now obj in
    scan_objects rules now objects
      (report_scanned due report, if due then candidates ++ [obj] else candidates)
  end.

Section worker.
Context {S B : Type} `{!LifecycleMetadata S} `{!LifecycleBlobs B} `{!LifecycleXML}.
Abbreviation state := (worker_state S B).
Abbreviation WM := (M state).
Variable w : Worker.

(** The rules that hold for a bucket; None when they cannot be read. *)
Definition bucket_rules (name : string) (m : S) : option (list Rule) :=
  match lm_GetBucketLifecycle name m with
  | Ok cfg =>
    if bl_Enabled cfg then
      match ParseLifecycleXMLRules (bl_Document cfg) with
      | Ok parsed => Some (lw_rules w ++ parsed)
      | Err _ => None
      end
    else Some (lw_rules w)
  | Err err => if errors_Is err ErrNotFound then Some (lw_rules w) else None
  end.

Definition scan_bucket (m : S) (now : Z) (acc : Report * list ObjectVersion) (bucket : Bucket)
    : Report * list ObjectVersion :=
  match bucket_rules (b_Name bucket) m with
  | None => (report_failed acc.1, acc.2)
  | Some [] => acc
  | Some rules =>
    match lm_ListObjects (b_Name bucket) m with
    | Err _ => (report_failed acc.1, acc.2)
    | Ok objects => scan_objects rules now objects acc
    end
  end.

(** ** Effects *)
Definition worker_now : WM Z := λ s,
  (mkWorkerState (wk_meta s) (wk_blob s) (wk_cancel s) (λ n, wk_readings s (Datatypes.S n)) (wk_slept s) (wk_depths s)
     (wk_metrics s), Ok (wk_readings s 0%nat)).

Definition ctx_Err : WM (option error) := λ s,
  match wk_cancel s with
  | None => (s, Ok None)
  | Some O => (s, Ok (Some context_canceled))
  | Some (Datatypes.S n) =>
    (mkWorkerState (wk_meta s) (wk_blob s) (Some n) (wk_readings s) (wk_slept s) (wk_depths s) (wk_metrics s), Ok None)
  end.

(** [sleepWithContext]: an error when the context is done first. *)
Definition sleepWithContext (d : Z) : WM unit :=
  err ← ctx_Err;
  match err with
  | Some err => throw err
  | None => modify (λ s, mkWorkerState (wk_meta s) (wk_blob s) (wk_cancel s) (wk_readings s) (d :: wk_slept s)
              (wk_depths s) (wk_metrics s))
  end.

Definition setQueueDepth (depth : Z) : WM unit :=
  if lw_queueDepthFn w then
    modify (λ s, mkWorkerState (wk_meta s) (wk_blob s) (wk_cancel s) (wk_readings s) (wk_slept s)
      (depth :: wk_depths s) (wk_metrics s))
  else mret tt.

Definition record (report : Report) : WM unit :=
  modify (λ s, mkWorkerState (wk_meta s) (wk_blob s) (wk_cancel s) (wk_readings s) (wk_slept s) (wk_depths s)
    (record_run (wk_metrics s) report)).

Definition with_meta {A} (m : M S A) : WM A := λ s,
  let '(meta, x) := m (wk_meta s) in
  (mkWorkerState meta (wk_blob s) (wk_cancel s) (wk_readings s) (wk_slept s) (wk_depths s) (wk_metrics s), x).

Definition with_blob {A} (m : M B A) : WM A := λ s,
  let '(b, x) := m (wk_blob s) in
  (mkWorkerState (wk_meta s) b (wk_cancel s) (wk_readings s) (wk_slept s) (wk_depths s) (wk_metrics s), x).

(** ** Deletion *)
Definition deleteOne (candidate : ObjectVersion) : WM bool :=
  res ← try (with_meta (lm_DeleteAllObjectVersions (ov_Bucket candidate) (ov_Key candidate)));
  match res with
  | Err err => if errors_Is err ErrNotFound then mret false else throw err
  | Ok versions =>
    forM versions (λ v, with_blob (lb_DeleteObject (ref_of v) true)) ;;
    mret (0 <? length versions)%nat
  end.

Definition delete_failed (candidate : ObjectVersion) (attempts : Z) (lastErr : option error) : error :=
  let args := [ov_Bucket candidate; ov_Key candidate; FormatInt attempts] in
  match lastErr with
  | Some err => ErrWrap "delete lifecycle candidate %s/%s failed after %d attempts: %w" args err
  | None => Errorf "delete lifecycle candidate %s/%s failed after %d attempts: %w" args
  end.

(** [w.retryBackoff * time.Duration(1<<attempt)] *)
Definition backoff_of (attempt : Z) : Z := wrap64 (lw_retryBackoff w * wrap64 (2 ^ attempt)).

(** The loop of [deleteWithRetry] with [togo] attempts to go. *)
Fixpoint retry_loop (candidate : ObjectVersion) (attempts : Z) (togo : nat) (attempt : Z) (lastErr : option error)
    : WM bool :=
  match togo with
  | O => throw (delete_failed candidate attempts lastErr)
  | Datatypes.S togo =>
    res ← (try (deleteOne candidate) : WM (result bool));
    match res with
    | Ok deleted =>
      match lastErr with
      | Some err => if (deleted : bool) then mret true else throw err
      | None => mret deleted
      end
    | Err err =>
      if attempt =? attempts - 1 then throw (delete_failed candidate attempts (Some err))
      else
        (if lw_retryBackoff w <=? 0 then mret tt else sleepWithContext (backoff_of attempt)) ;;
        retry_loop candidate attempts togo (attempt + 1) (Some err)
    end
  end.

Definition deleteWithRetry (candidate : ObjectVersion) : WM bool :=
  let attempts := wrap64 (lw_maxRetries w + 1) in
  retry_loop candidate attempts (Z.to_nat attempts) 0 None.

(** ** One run *)

(** The end of a run: the report is completed and recorded. *)
Definition finish_run (started : Z) (report : Report) (err : option error) : WM (Report * option error) :=
  ended ← worker_now;
  let report := report_took (saturate64 (ended - started)) report in
  record report ;; mret (report, err).

(** What happens to one candidate when the context is alive. *)
Definition process_one (candidate : ObjectVersion) (report : Report) : WM Report :=
  if lw_dryRun w then mret report
  else res ← (try (deleteWithRetry candidate) : WM (result bool));
       mret match res with
            | Err _ => report_failed report
            | Ok true => report_deleted report
            | Ok false => report
            end.

(** The loop over a batch: the report, the number processed and the error of the
    context when it is done. *)
Fixpoint process_batch (total : Z) (candidates : list ObjectVersion) (processed : Z) (report : Report)
    : WM (Report * Z * option error) :=
  match candidates with
  | [] => mret (report, processed, None)
  | candidate :: candidates =>
    err ← ctx_Err;
    match err with
    | Some err => mret (report, processed, Some err)
    | None =>
      report ← process_one candidate report;
      setQueueDepth (total - (processed + 1)) ;;
      process_batch total candidates (processed + 1) report
    end
  end.

(** The loop over the batches from [start] on; every round with a positive batch size
    moves [start]. *)
Fixpoint process_batches (fuel : nat) (candidates : list ObjectVersion) (start processed : Z) (report : Report)
    : WM (Report * Z * option error) :=
  let total := Z.of_nat (length candidates) in
  if total <=? start then mret (report, processed, None)
  else match fuel with
  | O => mret (report, processed, None)
  | Datatypes.S fuel =>
    let end_ := Z.min total (start + lw_batchSize w) in
    let batch := take (Z.to_nat (end_ - start)) (drop (Z.to_nat start) candidates) in
    res ← process_batch total batch processed report;
    let '(report, processed, err) := res in
    match err with
    | Some _ => mret (report, processed, err)
    | None => process_batches fuel candidates (start + lw_batchSize w) processed report
    end
  end.

Definition RunOnce : WM (Report * option error) :=
  started ← worker_now;
  let report := mkReport 0 0 0 0 (lw_dryRun w) 0 in
  s ← (get : WM _);
  match lm_ListBuckets (wk_meta s) with
  | Err err => mret (report, Some (ErrWrap "list buckets: %w" [] err))
  | Ok buckets =>
    now ← worker_now;
    let '(report, candidates) := fold_left (scan_bucket (wk_meta s) now) buckets (report, []) in
    setQueueDepth (Z.of_nat (length candidates)) ;;
    res ← process_batches (length candidates) candidates 0 0 report;
    let '(report, _, err) := res in
    match err with
    | Some _ => finish_run started report err
    | None => setQueueDepth 0 ;; finish_run started report None
    end
  end.

(** [Run]: a run at once and one at every tick, until a run fails or the context is
    done; None while it goes on. *)
Inductive worker_event := Tick | ContextDone.

Fixpoint run_events (events : list worker_event) : WM (option error) :=
  match events with
  | [] => mret None
  | ContextDone :: _ => mret (Some context_canceled)
  | Tick :: events =>
    res ← RunOnce;
    match res.2 with
    | Some err => mret (Some err)
    | None => run_events events
    end
  end.

Definition Run (events : list worker_event) : WM (option error) := run_events (Tick :: events).

Definition MetricsSnapshot : WM Metrics := gets (λ s, Ok (wk_metrics s)).

Definition WorkerSnapshot : WM Snapshot := gets (λ s, Ok (mkSnapshot (lw_rules w) (lw_interval w) (lw_batchSize w)
  (lw_maxRetries w) (lw_retryBackoff w) (lw_dryRun w) (wk_metrics s))).
End worker.

(** ** The stores of the program *)
#[export] Instance memory_LifecycleMetadata `{!GoRuntime} {P} `{!StatePersister P} : LifecycleMetadata (memoryBackedStore P) := {|
  lm_ListBuckets := ListBuckets;
  lm_ListObjects := ListObjects;
  lm_DeleteAllObjectVersions := DeleteAllObjectVersions;
  lm_GetBucketLifecycle := GetBucketLifecycle;
|}.

(** The blob store on its file system. *)
Definition blob_LifecycleBlobs `{!Hashes} (bs : blobStore) : LifecycleBlobs world :=
  {| lb_DeleteObject := blob_DeleteObject bs |}.
