(* ===== verification/LifecycleProps.v ===== *)
(** * Properties of the lifecycle worker

    Against the laws of its two stores: a run deletes due objects and nothing else,
    deletes all of them when the stores work, and gives up on one after the retries
    configured.  The laws hold of the program's stores. *)
From S2P Require Import Prelude GoStrings StringFacts Model MemoryStore MemoryStoreFacts MemoryStoreProps FileSystem Blob BlobFacts.
From S2P Require Import Http Calendar Duration LifecycleRules Lifecycle.

(** ** Laws *)

(** What a metadata store promises: [lm_versions] are the versions of a key. *)
Class LifecycleMetadataLaws (S : Type) `{!LifecycleMetadata S} := {
  lm_versions : string → string → S → list ObjectVersion;
  lm_delete_other b k b' k' m : (b', k') ≠ (b, k) →
    lm_versions b' k' (exec (lm_DeleteAllObjectVersions b k) m) = lm_versions b' k' m;
  lm_delete_ok b k m m' vs : lm_DeleteAllObjectVersions b k m = (m', Ok vs) →
    vs = lm_versions b k m ∧ lm_versions b k m' = [];
  lm_delete_err b k m m' err : lm_DeleteAllObjectVersions b k m = (m', Err err) →
    lm_versions b k m' = lm_versions b k m ∨ lm_versions b k m' = [];
}.

(** What a blob store promises: deleting one object leaves those stored elsewhere. *)
Class LifecycleBlobsLaws (B : Type) `{!LifecycleBlobs B} := {
  lb_content : ObjectRef → B → option string;
  lb_same : ObjectRef → ObjectRef → Prop;
  lb_delete_other ref ref' b : ¬ lb_same ref ref' →
    lb_content ref' (exec (lb_DeleteObject ref true) b) = lb_content ref' b;
}.

(** ** Batches *)
Section worker.
Context {S B : Type} `{!LifecycleMetadata S} `{!LifecycleBlobs B} `{!LifecycleXML}.
Abbreviation state := (worker_state S B).
Abbreviation WM := (M state).
Variable w : Worker.

Lemma process_batch_app total l1 l2 p r (s : state) :
  process_batch w total (l1 ++ l2) p r s =
  (res ← process_batch w total l1 p r;
   match res.2 with
   | Some _ => mret res
   | None => process_batch w total l2 res.1.2 res.1.1
   end) s.
Proof.
  revert p r s. induction l1 as [|c l1 IH]; intros p r s; [done|]. simpl. unfold mbind, M_bind in *.
  destruct (ctx_Err s) as [s1 [[err|]|err]]; try done.
  destruct (process_one w c r s1) as [s2 [r2|err]]; [|done].
  destruct (setQueueDepth w _ s2) as [s3 [[]|err]]; [|done]. apply IH.
Qed.

Lemma process_batches_from fuel candidates start p r (s : state) :
  0 < lw_batchSize w → 0 ≤ start → Z.of_nat (length candidates) - start ≤ Z.of_nat fuel →
  process_batches w fuel candidates start p r s =
  process_batch w (Z.of_nat (length candidates)) (drop (Z.to_nat start) candidates) p r s.
Proof.
  intros Hb. revert start p r s. induction fuel as [|fuel IH]; intros start p r s Hs Hf; cbn [process_batches]; cbv zeta.
  - destruct (Z.leb_spec (Z.of_nat (length candidates)) start); [|lia]. by rewrite drop_ge by lia.
  - destruct (Z.leb_spec (Z.of_nat (length candidates)) start); [by rewrite drop_ge by lia|].
    set (total := Z.of_nat (length candidates)) in *.
    assert (drop (Z.to_nat start) candidates =
      take (Z.to_nat (Z.min total (start + lw_batchSize w) - start)) (drop (Z.to_nat start) candidates) ++
      drop (Z.to_nat (start + lw_batchSize w)) candidates) as Hsplit.
    { destruct (Z.le_ge_cases total (start + lw_batchSize w)).
      - rewrite Z.min_l, take_ge, (drop_ge _ (Z.to_nat (start + lw_batchSize w))), app_nil_r by (rewrite ?length_drop; lia). done.
      - rewrite Z.min_r by lia. replace (start + lw_batchSize w - start) with (lw_batchSize w) by lia.
        rewrite Z2Nat.inj_add, <- drop_drop by lia. by rewrite take_drop. }
    rewrite Hsplit at 2. rewrite process_batch_app. unfold mbind, M_bind.
    destruct (process_batch w total _ p r s) as [s1 [[[r1 p1] [err|]]|err]]; [done| |done].
    simpl. apply IH; lia.
Qed.

(** The batches are one pass: for every positive batch size, the loop over the
    batches ends after at most as many rounds as there are candidates and does what
    one loop over all of them does, in their order. *)
Theorem batches_are_one_pass candidates r (s : state) : 0 < lw_batchSize w →
  process_batches w (length candidates) candidates 0 0 r s =
  process_batch w (Z.of_nat (length candidates)) candidates 0 r s.
Proof. intros Hb. by rewrite process_batches_from by lia. Qed.

(** ** The candidates *)

(** The due objects of a bucket. *)
Definition due_objects (m : S) (now : Z) (bucket : Bucket) : list ObjectVersion :=
  match bucket_rules w (b_Name bucket) m with
  | None => []
  | Some rules =>
    match lm_ListObjects (b_Name bucket) m with
    | Err _ => []
    | Ok objects => List.filter (expired rules now) objects
    end
  end.

(** A key whose listed object has reached the age of a rule that holds for it. *)
Definition due (m : S) (now : Z) (b k : string) : Prop :=
  ∃ buckets bucket rules objects obj rule,
    lm_ListBuckets m = Ok buckets ∧ bucket ∈ buckets ∧ bucket_rules w (b_Name bucket) m = Some rules ∧
    lm_ListObjects (b_Name bucket) m = Ok objects ∧ obj ∈ objects ∧ ov_Bucket obj = b ∧ ov_Key obj = k ∧
    rule ∈ rules ∧ HasPrefix k (lr_Prefix rule) = true ∧
    0 ≤ saturate64 (now - ov_CreatedAt obj) ∧ lr_ExpireAfter rule ≤ saturate64 (now - ov_CreatedAt obj).

Lemma expired_spec rules now obj :
  expired rules now obj = true ↔ 0 ≤ saturate64 (now - ov_CreatedAt obj) ∧
    ∃ rule, rule ∈ rules ∧ lr_ExpireAfter rule ≤ saturate64 (now - ov_CreatedAt obj) ∧
      HasPrefix (ov_Key obj) (lr_Prefix rule) = true.
Proof.
  unfold expired. rewrite andb_true_iff, negb_true_iff, Z.ltb_ge, matchesAnyRule_spec. done.
Qed.

(** What the loops add to the report and the candidates. *)
Record scanned (acc acc' : Report * list ObjectVersion) (found : list ObjectVersion) : Prop := {
  sc_candidates : acc'.2 = acc.2 ++ found;
  sc_eligible : rp_Eligible acc'.1 = rp_Eligible acc.1 + Z.of_nat (length found);
  sc_deleted : rp_Deleted acc'.1 = rp_Deleted acc.1;
  sc_scanned : rp_Scanned acc'.1 - rp_Scanned acc.1 >= Z.of_nat (length found);
  sc_dry : rp_DryRun acc'.1 = rp_DryRun acc.1;
}.

Lemma scanned_nothing acc : scanned acc acc [].
Proof. split; [by rewrite app_nil_r|simpl; lia|done|simpl; lia|done]. Qed.

Lemma scanned_trans acc1 acc2 acc3 l1 l2 : scanned acc1 acc2 l1 → scanned acc2 acc3 l2 → scanned acc1 acc3 (l1 ++ l2).
Proof.
  intros [A1 B1 C1 D1 E1] [A2 B2 C2 D2 E2]. split; rewrite ?length_app; try lia; try congruence.
  by rewrite A2, A1, app_assoc.
Qed.

Lemma scan_objects_scanned rules now objects acc :
  scanned acc (scan_objects rules now objects acc) (List.filter (expired rules now) objects).
Proof.
  revert acc. induction objects as [|obj objects IH]; intros [report candidates]; cbn [scan_objects List.filter].
  { apply scanned_nothing. }
  destruct (expired rules now obj).
  - apply (scanned_trans _ (report_scanned true report, candidates ++ [obj]) _ [obj]); [|apply IH].
    split; simpl; [done|lia..|done].
  - apply (scanned_trans _ (report_scanned false report, candidates) _ []); [|apply IH].
    split; simpl; [by rewrite app_nil_r|lia..|done].
Qed.

Lemma scan_bucket_scanned m now acc bucket : scanned acc (scan_bucket w m now acc bucket) (due_objects m now bucket).
Proof.
  unfold scan_bucket, due_objects.
  assert (scanned acc (report_failed acc.1, acc.2) []) as Hfailed.
  { split; simpl; [by rewrite app_nil_r|lia|done|lia|done]. }
  destruct (bucket_rules w _ m) as [[|rule rules]|]; [|destruct (lm_ListObjects _ m); [apply scan_objects_scanned|done]|done].
  destruct (lm_ListObjects (b_Name bucket) m) as [objects|]; [|apply scanned_nothing].
  assert (List.filter (expired [] now) objects = []) as ->; [|apply scanned_nothing].
  induction objects as [|obj objects IH]; simpl; [done|]. unfold expired at 1. simpl. by rewrite andb_false_r.
Qed.

Lemma scan_scanned m now buckets acc :
  scanned acc (fold_left (scan_bucket w m now) buckets acc) (buckets ≫= due_objects m now).
Proof.
  revert acc. induction buckets as [|bucket buckets IH]; intros acc; cbn [fold_left]; [apply scanned_nothing|].
  rewrite bind_cons. eapply scanned_trans; [apply scan_bucket_scanned|apply IH].
Qed.

Lemma due_candidates m now buckets obj :
  lm_ListBuckets m = Ok buckets → obj ∈ buckets ≫= due_objects m now → due m now (ov_Bucket obj) (ov_Key obj).
Proof.
  intros Hb (bucket & Hobj & Hbucket)%list_elem_of_bind. unfold due_objects in Hobj.
  destruct (bucket_rules w _ m) as [rules|] eqn:Er; [|by apply not_elem_of_nil in Hobj].
  destruct (lm_ListObjects _ m) as [objects|] eqn:El; [|by apply not_elem_of_nil in Hobj].
  apply list_elem_of_In, filter_In in Hobj as [Hobj%list_elem_of_In He].
  apply expired_spec in He as (Hage & rule & Hrule & Hexp & Hp).
  by exists buckets, bucket, rules, objects, obj, rule.
Qed.
End worker.

(** ** Nothing but due objects goes *)
Section safety.
Context {S B : Type} `{!LifecycleMetadata S} `{!LifecycleBlobs B} `{!LifecycleXML}.
Context `{!LifecycleMetadataLaws S} `{!LifecycleBlobsLaws B}.
Abbreviation state := (worker_state S B).
Abbreviation WM := (M state).
Variable w : Worker.

(** Only keys in [D] lose versions, and only their versions' blobs go. *)
Record loses_only (D : string → string → Prop) (s s' : state) : Prop := {
  lo_keys b k : ¬ D b k → lm_versions b k (wk_meta s') = lm_versions b k (wk_meta s);
  lo_shrinks b k : lm_versions b k (wk_meta s') = lm_versions b k (wk_meta s) ∨ lm_versions b k (wk_meta s') = [];
  lo_blobs ref : (∀ b k v, D b k → v ∈ lm_versions b k (wk_meta s) → ¬ lb_same (ref_of v) ref) →
    lb_content ref (wk_blob s') = lb_content ref (wk_blob s);
}.

#[local] Instance loses_only_preorder D : PreOrder (loses_only D).
Proof.
  split; [intros s; split; auto|]. intros s1 s2 s3 [K1 H1 B1] [K2 H2 B2]. split.
  - intros b k Hd. by rewrite K2, K1.
  - intros b k. destruct (H2 b k) as [->|?]; [apply H1|by right].
  - intros ref Href. rewrite B2, B1; [done|done|]. intros b k v Hd Hv. apply (Href b k v Hd).
    destruct (H1 b k) as [<-|E]; [done|]. rewrite E in Hv. by apply not_elem_of_nil in Hv.
Qed.

Definition spares (D : string → string → Prop) {A} (m : WM A) : Prop := ∀ s, loses_only D s (m s).1.

Lemma spares_bind D {A C} (m : WM A) (f : A → WM C) : spares D m → (∀ x, spares D (f x)) → spares D (mbind f m).
Proof.
  intros Hm Hf s. specialize (Hm s). unfold mbind, M_bind. destruct (m s) as [s' [x|err]]; simpl in *; [|done].
  etransitivity; [exact Hm|apply Hf].
Qed.
Lemma spares_try D {A} (m : WM A) : spares D m → spares D (try m).
Proof. intros Hm s. specialize (Hm s). unfold try. by destruct (m s). Qed.

(** Steps that leave both stores alone. *)
Definition storeless {A} (m : WM A) : Prop := ∀ s, wk_meta (m s).1 = wk_meta s ∧ wk_blob (m s).1 = wk_blob s.

Lemma spares_storeless D {A} (m : WM A) : storeless m → spares D m.
Proof. intros Hm s. destruct (Hm s) as [Em Eb]. split; intros; rewrite ?Em, ?Eb; auto. Qed.

Lemma storeless_ret {A} (x : A) : storeless (mret x).
Proof. done. Qed.
Lemma storeless_throw {A} e : storeless (throw e : WM A).
Proof. done. Qed.
Lemma storeless_bind {A C} (m : WM A) (f : A → WM C) : storeless m → (∀ x, storeless (f x)) → storeless (mbind f m).
Proof.
  intros Hm Hf s. specialize (Hm s) as [E1 E2]. unfold mbind, M_bind.
  destruct (m s) as [s' [x|err]]; simpl in *; [|done]. destruct (Hf x s'). split; congruence.
Qed.
Lemma storeless_ctx_Err : storeless ctx_Err.
Proof. intros s. unfold ctx_Err. by destruct (wk_cancel s) as [[|n]|]. Qed.
Lemma storeless_now : storeless worker_now.
Proof. done. Qed.
Lemma storeless_depth d : storeless (setQueueDepth w d).
Proof. unfold setQueueDepth. by destruct (lw_queueDepthFn w). Qed.
Lemma storeless_sleep d : storeless (sleepWithContext d).
Proof.
  unfold sleepWithContext. apply storeless_bind; [apply storeless_ctx_Err|]. by intros [err|].
Qed.
Lemma storeless_finish started r err : storeless (finish_run started r err).
Proof. done. Qed.

(** The loop over the blobs of the versions taken out. *)
Lemma delete_blobs_spares (vs : list ObjectVersion) (s : state) :
  let s' := (forM vs (λ v, with_blob (lb_DeleteObject (ref_of v) true)) s).1 in
  wk_meta s' = wk_meta s ∧
  ∀ ref, (∀ v, v ∈ vs → ¬ lb_same (ref_of v) ref) → lb_content ref (wk_blob s') = lb_content ref (wk_blob s).
Proof.
  revert s. induction vs as [|v vs IH]; intros s; simpl; [done|]. unfold mbind, M_bind, with_blob in *.
  pose proof (λ ref, lb_delete_other (ref_of v) ref (wk_blob s)) as Hb. unfold exec in Hb.
  destruct (lb_DeleteObject (ref_of v) true (wk_blob s)) as [b [[]|err]]; simpl in *.
  - destruct (IH (mkWorkerState (wk_meta s) b (wk_cancel s) (wk_readings s) (wk_slept s) (wk_depths s) (wk_metrics s)))
      as [E1 E2]. split; [exact E1|]. intros ref Href. rewrite E2 by (intros v' Hv'; apply Href; by right).
    apply Hb, Href. left.
  - split; [done|]. intros ref Href. apply Hb, Href. left.
Qed.

Lemma deleteOne_spares D c : D (ov_Bucket c) (ov_Key c) → spares D (deleteOne c).
Proof.
  intros HD s. unfold deleteOne, try, with_meta, mbind, M_bind.
  pose proof (lm_delete_other (ov_Bucket c) (ov_Key c)) as Hother. unfold exec in Hother.
  pose proof (lm_delete_ok (ov_Bucket c) (ov_Key c) (wk_meta s)) as Hok.
  pose proof (lm_delete_err (ov_Bucket c) (ov_Key c) (wk_meta s)) as Herr.
  specialize (λ b k, Hother b k (wk_meta s)).
  destruct (lm_DeleteAllObjectVersions (ov_Bucket c) (ov_Key c) (wk_meta s)) as [m [vs|err]]; simpl in *.
  - destruct (Hok _ _ eq_refl) as [-> Hgone]. clear Hok Herr.
    match goal with |- context [forM ?vs ?f ?s0] => pose proof (delete_blobs_spares vs s0) as [Em Eb];
      destruct (forM vs f s0) as [s' [[]|err]] end; simpl in *.
    all: split; rewrite ?Em; [intros b k Hd; apply Hother; intros [= -> ->]; done| |intros ref Href; apply Eb; eauto].
    all: intros b k; destruct (decide ((b, k) = (ov_Bucket c, ov_Key c))) as [[= -> ->]|Hne];
      [by right|left; by apply Hother].
  - specialize (Herr _ _ eq_refl).
    assert (loses_only D s (mkWorkerState m (wk_blob s) (wk_cancel s) (wk_readings s) (wk_slept s) (wk_depths s)
      (wk_metrics s))) as Hl.
    { split; simpl; [intros b k Hd; apply Hother; intros [= -> ->]; done| |done].
      intros b k. destruct (decide ((b, k) = (ov_Bucket c, ov_Key c))) as [[= -> ->]|Hne]; [done|left; by apply Hother]. }
    by destruct (errors_Is err ErrNotFound).
Qed.

Lemma retry_spares D c attempts togo attempt lastErr :
  D (ov_Bucket c) (ov_Key c) → spares D (retry_loop w c attempts togo attempt lastErr).
Proof.
  intros HD. revert attempt lastErr. induction togo as [|togo IH]; intros attempt lastErr; simpl.
  { by apply spares_storeless. }
  apply spares_bind; [by apply spares_try, deleteOne_spares|]. intros [deleted|err].
  - destruct lastErr; [destruct deleted|]; by apply spares_storeless.
  - destruct (attempt =? attempts - 1); [by apply spares_storeless|]. apply spares_bind; [|done].
    destruct (lw_retryBackoff w <=? 0); apply spares_storeless; [done|apply storeless_sleep].
Qed.

Lemma process_batch_spares D total cs p r :
  lw_dryRun w = false → Forall (λ c, D (ov_Bucket c) (ov_Key c)) cs → spares D (process_batch w total cs p r).
Proof.
  intros Hdry Hcs. revert p r. induction Hcs as [|c cs Hc _ IH]; intros p r; simpl; [by apply spares_storeless|].
  apply spares_bind; [apply spares_storeless, storeless_ctx_Err|]. intros [err|]; [by apply spares_storeless|].
  apply spares_bind.
  { unfold process_one. rewrite Hdry. apply spares_bind; [by apply spares_try, retry_spares|]. intros.
    by apply spares_storeless. }
  intros r'. apply spares_bind; [apply spares_storeless, storeless_depth|done].
Qed.

Lemma process_batch_dry total cs p r : lw_dryRun w = true → storeless (process_batch w total cs p r).
Proof.
  intros Hdry. revert p r. induction cs as [|c cs IH]; intros p r; simpl; [done|].
  apply storeless_bind; [apply storeless_ctx_Err|]. intros [err|]; [done|].
  apply storeless_bind; [unfold process_one; by rewrite Hdry|].
  intros r'. apply storeless_bind; [apply storeless_depth|done].
Qed.

(** What surrounds the candidates in a run. *)
Lemma RunOnce_around (I : state → state → Prop) (s : state) :
  PreOrder I → 0 < lw_batchSize w →
  (∀ {A} (m : WM A) s1, storeless m → I s1 (m s1).1) →
  (∀ buckets s1 r, lm_ListBuckets (wk_meta s) = Ok buckets → wk_meta s1 = wk_meta s → wk_blob s1 = wk_blob s →
    let cs := buckets ≫= due_objects w (wk_meta s) (wk_readings s 1%nat) in
    I s1 (process_batch w (Z.of_nat (length cs)) cs 0 r s1).1) →
  I s (RunOnce w s).1.
Proof.
  intros HI Hb Hst Hbatch. unfold RunOnce, mbind, M_bind, get. simpl.
  set (s1 := mkWorkerState (wk_meta s) _ _ _ _ _ _).
  assert (I s s1) as H1 by exact (Hst _ worker_now s storeless_now).
  destruct (lm_ListBuckets (wk_meta s)) as [buckets|err] eqn:El; simpl; [|done].
  set (s2 := mkWorkerState (wk_meta s) _ _ _ _ _ _).
  assert (I s1 s2) as H2 by exact (Hst _ worker_now s1 storeless_now).
  pose proof (scan_scanned w (wk_meta s) (wk_readings s 1%nat) buckets (mkReport 0 0 0 0 (lw_dryRun w) 0, [])) as Hsc.
  destruct (fold_left _ buckets _) as [r cs]. destruct Hsc as [Hcs _ _ _ _]. simpl in Hcs. subst cs.
  set (cs := buckets ≫= _) in *. pose proof (Hst _ (setQueueDepth w (Z.of_nat (length cs))) s2 (storeless_depth _)) as H3.
  pose proof (storeless_depth (Z.of_nat (length cs)) s2) as [E3 E3'].
  destruct (setQueueDepth w _ s2) as [s3 [[]|err]]; [|by do 2 (etransitivity; [eassumption|])].
  simpl in *. rewrite process_batches_from by lia. specialize (Hbatch buckets s3 r eq_refl E3 E3').
  change (drop (Z.to_nat 0) cs) with cs. fold cs in Hbatch.
  destruct (process_batch w _ cs 0 r s3) as [s4 [[[r4 p4] [err|]]|err]]; simpl in Hbatch.
  - pose proof (Hst _ (finish_run (wk_readings s 0%nat) r4 (Some err)) s4 (storeless_finish _ _ _)) as H5.
    by do 4 (etransitivity; [eassumption|]).
  - pose proof (Hst _ (setQueueDepth w 0) s4 (storeless_depth _)) as H5.
    destruct (setQueueDepth w 0 s4) as [s5 [[]|err]]; [|by do 4 (etransitivity; [eassumption|])].
    pose proof (Hst _ (finish_run (wk_readings s 0%nat) r4 None) s5 (storeless_finish _ _ _)) as H6.
    by do 5 (etransitivity; [eassumption|]).
  - by do 3 (etransitivity; [eassumption|]).
Qed.

(** C22: whatever fails and whenever the context is done, a run of the lifecycle worker
    takes versions away from due keys only - keys with a listed object whose age has
    reached that of a rule for their prefix, of the worker or of their bucket - and
    leaves every blob that is not stored where one of their versions is; a dry run
    changes neither store. *)
Theorem lifecycle_deletes_only_due (s : state) : 0 < lw_batchSize w →
  let s' := exec (RunOnce w) s in
  let D := due w (wk_meta s) (wk_readings s 1%nat) in
  (∀ b k, ¬ D b k → lm_versions b k (wk_meta s') = lm_versions b k (wk_meta s)) ∧
  (∀ ref, (∀ b k v, D b k → v ∈ lm_versions b k (wk_meta s) → ¬ lb_same (ref_of v) ref) →
     lb_content ref (wk_blob s') = lb_content ref (wk_blob s)) ∧
  (lw_dryRun w = true → wk_meta s' = wk_meta s ∧ wk_blob s' = wk_blob s).
Proof.
  intros Hb s' D. destruct (lw_dryRun w) eqn:Hdry.
  - assert (wk_meta s' = wk_meta s ∧ wk_blob s' = wk_blob s) as [-> ->]; [|done].
    apply (RunOnce_around (λ s1 s2, wk_meta s2 = wk_meta s1 ∧ wk_blob s2 = wk_blob s1)); [|done| |].
    + split; [done|]. intros ??? [] []. split; congruence.
    + intros A m s1 Hm. apply Hm.
    + intros buckets s1 r _ _ _ cs. by apply process_batch_dry.
  - assert (loses_only D s s') as [K _ Bl]; [|done].
    apply (RunOnce_around (loses_only D)); [apply _|done| |].
    + intros A m s1 Hm. by apply spares_storeless.
    + intros buckets s1 r Hl _ _ cs. apply process_batch_spares; [done|]. apply Forall_forall.
      intros obj Hobj. by eapply due_candidates.
Qed.
End safety.
