(* ===== verification/LifecycleWork.v ===== *)
(** * The lifecycle worker when its stores work

    A run deletes all due objects, and reports them; the deletion of one is given up
    after the retries configured; the program's stores keep the laws. *)
From S2P Require Import Prelude GoStrings StringFacts Model MemoryStore MemoryStoreFacts MemoryStoreProps FileSystem Blob BlobFacts.
From S2P Require Import Http Calendar Duration LifecycleRules Lifecycle LifecycleProps.

(** Stores in a state in which every call succeeds, and what they list then. *)
Class LifecycleWorking (S B : Type) `{!LifecycleMetadata S, !LifecycleBlobs B} `{!LifecycleMetadataLaws S, !LifecycleBlobsLaws B} := {
  lm_working : S → Prop;
  lb_working : B → Prop;
  lm_working_delete b k m : lm_working m → lm_versions b k m ≠ [] →
    ∃ m', lm_DeleteAllObjectVersions b k m = (m', Ok (lm_versions b k m)) ∧ lm_working m';
  lb_working_delete ref b : lb_working b →
    ∃ b', lb_DeleteObject ref true b = (b', Ok tt) ∧ lb_working b' ∧ lb_content ref b' = None;
  lb_working_gone ref ref' b : lb_working b → lb_content ref' b = None →
    lb_content ref' (exec (lb_DeleteObject ref true) b) = None;
  lm_working_listed name objects obj m : lm_working m → lm_ListObjects name m = Ok objects → obj ∈ objects →
    ov_Bucket obj = name ∧ lm_versions name (ov_Key obj) m ≠ [];
  lm_working_distinct name objects m : lm_working m → lm_ListObjects name m = Ok objects → NoDup (ov_Key <$> objects);
  lm_working_buckets buckets m : lm_working m → lm_ListBuckets m = Ok buckets → NoDup (b_Name <$> buckets);
}.

Section working.
Context {S B : Type} `{!LifecycleMetadata S, !LifecycleBlobs B} `{!LifecycleXML}.
Context `{!LifecycleMetadataLaws S, !LifecycleBlobsLaws B} `{!LifecycleWorking S B}.
Abbreviation state := (worker_state S B).
Abbreviation WM := (M state).
Variable w : Worker.

Record works (s : state) : Prop := {
  wo_meta : lm_working (wk_meta s);
  wo_blob : lb_working (wk_blob s);
  wo_alive : wk_cancel s = None;
}.

Definition place (c : ObjectVersion) : string * string := (ov_Bucket c, ov_Key c).

(** The key is gone, with what was stored for its versions in [m]. *)
Definition cleared (m : S) (b k : string) (s : state) : Prop :=
  lm_versions b k (wk_meta s) = [] ∧ ∀ v, v ∈ lm_versions b k m → lb_content (ref_of v) (wk_blob s) = None.

Lemma delete_blobs_working (vs : list ObjectVersion) (s : state) : works s →
  ∃ s', forM vs (λ v, with_blob (lb_DeleteObject (ref_of v) true)) s = (s', Ok tt) ∧ works s' ∧ wk_meta s' = wk_meta s ∧
    wk_metrics s' = wk_metrics s ∧
    (∀ v, v ∈ vs → lb_content (ref_of v) (wk_blob s') = None) ∧
    (∀ ref, lb_content ref (wk_blob s) = None → lb_content ref (wk_blob s') = None).
Proof.
  revert s. induction vs as [|v vs IH]; intros s Hs; simpl.
  { exists s. split_and!; try done. by intros v ?%not_elem_of_nil. }
  unfold mbind, M_bind, with_blob in *. destruct Hs as [Hm Hb Hc].
  destruct (lb_working_delete (ref_of v) (wk_blob s) Hb) as (b & E & Hb' & Hnone).
  pose proof (λ ref, lb_working_gone (ref_of v) ref (wk_blob s) Hb) as Hgone. unfold exec in Hgone. rewrite E in Hgone |- *.
  destruct (IH (mkWorkerState (wk_meta s) b (wk_cancel s) (wk_readings s) (wk_slept s) (wk_depths s) (wk_metrics s)))
    as (s' & -> & Hs' & Em & Emet & Hall & Hkeep); [done|].
  exists s'. split_and!; [done..| |].
  - intros v' [->|Hv']%elem_of_cons; [by apply Hkeep|by apply Hall].
  - intros ref Href. apply Hkeep. simpl. by apply Hgone.
Qed.

Lemma deleteOne_working c (s : state) : works s → lm_versions (ov_Bucket c) (ov_Key c) (wk_meta s) ≠ [] →
  ∃ s', deleteOne c s = (s', Ok true) ∧ works s' ∧ wk_metrics s' = wk_metrics s ∧
    cleared (wk_meta s) (ov_Bucket c) (ov_Key c) s' ∧
    (∀ b k, (b, k) ≠ place c → lm_versions b k (wk_meta s') = lm_versions b k (wk_meta s)) ∧
    (∀ ref, lb_content ref (wk_blob s) = None → lb_content ref (wk_blob s') = None).
Proof.
  intros [Hm Hb Hc] Hne. destruct (lm_working_delete _ _ _ Hm Hne) as (m & E & Hm').
  pose proof (lm_delete_ok _ _ _ _ _ E) as [_ Hgone].
  pose proof (λ b k H, lm_delete_other (ov_Bucket c) (ov_Key c) b k (wk_meta s) H) as Hother.
  unfold deleteOne, try, with_meta, mbind, M_bind. unfold exec in Hother. rewrite E in Hother |- *.
  set (vs := lm_versions _ _ _) in *.
  destruct (delete_blobs_working vs (mkWorkerState m (wk_blob s) (wk_cancel s) (wk_readings s) (wk_slept s) (wk_depths s)
    (wk_metrics s))) as (s' & -> & Hs' & Em & Emet & Hall & Hkeep); [done|]. simpl in *.
  exists s'. split; [by destruct vs|]. split; [done|]. split; [done|]. split; [split; [by rewrite Em|done]|].
  split; [|done]. intros b k Hbk. rewrite Em. by apply Hother.
Qed.

Lemma deleteWithRetry_working c (s : state) : works s → 0 ≤ lw_maxRetries w < int64_max →
  lm_versions (ov_Bucket c) (ov_Key c) (wk_meta s) ≠ [] → deleteWithRetry w c s = (((deleteOne c s).1), Ok true).
Proof.
  intros Hs Hr Hne. destruct (deleteOne_working c s Hs Hne) as (s' & E & _).
  unfold deleteWithRetry. rewrite wrap64_id by (unfold in_int64, int64_min, int64_max in *; lia).
  destruct (Z.to_nat (lw_maxRetries w + 1)) as [|n] eqn:En; [lia|]. simpl. unfold mbind, M_bind, try. by rewrite E.
Qed.

Lemma other_place c (cs : list ObjectVersion) d : place c ∉ place <$> cs → d ∈ cs → (ov_Bucket d, ov_Key d) ≠ place c.
Proof. intros Hfresh Hd E. apply Hfresh. rewrite <- E. by apply (list_elem_of_fmap_2 place). Qed.

(** One pass over candidates that are all there. *)
Lemma process_batch_working total cs p r (s : state) :
  lw_dryRun w = false → 0 ≤ lw_maxRetries w < int64_max → works s → NoDup (place <$> cs) →
  Forall (λ c, lm_versions (ov_Bucket c) (ov_Key c) (wk_meta s) ≠ []) cs →
  ∃ s' p', process_batch w total cs p r s =
    (s', Ok (mkReport (rp_Scanned r) (rp_Eligible r) (rp_Deleted r + Z.of_nat (length cs)) (rp_Failed r) (rp_DryRun r)
       (rp_Duration r), p', None)) ∧
    works s' ∧ wk_metrics s' = wk_metrics s ∧
    Forall (λ c, cleared (wk_meta s) (ov_Bucket c) (ov_Key c) s') cs ∧
    (∀ b k, (b, k) ∉ place <$> cs → lm_versions b k (wk_meta s') = lm_versions b k (wk_meta s)) ∧
    (∀ ref, lb_content ref (wk_blob s) = None → lb_content ref (wk_blob s') = None).
Proof.
  intros Hdry Hr. revert p r s. induction cs as [|c cs IH]; intros p r s Hs Hnd Hall; simpl.
  { exists s, p. rewrite Z.add_0_r. split_and!; [by destruct r|done..]. }
  rewrite Forall_cons in Hall. destruct Hall as [Hc Hall].
  rewrite fmap_cons, NoDup_cons in Hnd. destruct Hnd as [Hfresh Hnd].
  unfold mbind, M_bind, ctx_Err. rewrite (wo_alive s Hs). unfold process_one. rewrite Hdry.
  unfold mbind, M_bind, try. rewrite deleteWithRetry_working by done. cbn [mret M_ret].
  destruct (deleteOne_working c s Hs Hc) as (s1 & -> & Hs1 & Em1 & Hcl & Hother & Hkeep). cbn [fst].
  assert (∃ s2, setQueueDepth w (total - (p + 1)) s1 = (s2, Ok tt) ∧ wk_meta s2 = wk_meta s1 ∧ wk_blob s2 = wk_blob s1 ∧
    wk_cancel s2 = wk_cancel s1 ∧ wk_metrics s2 = wk_metrics s1) as (s2 & E2 & Em & Eb & Ec & Et).
  { unfold setQueueDepth. destruct (lw_queueDepthFn w); by eexists. }
  unfold mret, M_ret. rewrite E2.
  assert (works s2) as Hs2 by (destruct Hs1; split; congruence).
  destruct (IH (p + 1) (report_deleted r) s2 Hs2 Hnd) as (s' & p' & -> & Hs' & Emet & Hcs & Hoth & Hk).
  { apply Forall_forall. intros d Hd. rewrite Em, Hother.
    - rewrite Forall_forall in Hall. by apply Hall.
    - by eapply other_place. }
  exists s', p'. split_and!; try done.
  - cbn [length report_deleted rp_Scanned rp_Eligible rp_Deleted rp_Failed rp_DryRun rp_Duration].
    by replace (rp_Deleted r + Z.of_nat (Datatypes.S (length cs))) with (rp_Deleted r + 1 + Z.of_nat (length cs)) by lia.
  - congruence.
  - apply Forall_cons. split.
    + destruct Hcl as [Hnone Hblobs]. split; [by rewrite Hoth, Em|].
      intros v Hv. apply Hk. rewrite Eb. by apply Hblobs.
    + apply Forall_forall. intros d Hd. rewrite Forall_forall in Hcs. destruct (Hcs d Hd) as [Hn Hbl].
      split; [done|]. intros v Hv. apply Hbl. rewrite Em, Hother; [done|].
      by eapply other_place.
  - intros b k Hbk. rewrite not_elem_of_cons in Hbk. destruct Hbk as [H1 H2]. by rewrite Hoth, Em, Hother.
  - intros ref Href. apply Hk. rewrite Eb. by apply Hkeep.
Qed.

(** The candidates of a scan are different keys, all with versions. *)
Lemma due_objects_listed m now bucket obj : lm_working m → obj ∈ due_objects w m now bucket →
  ov_Bucket obj = b_Name bucket ∧ lm_versions (ov_Bucket obj) (ov_Key obj) m ≠ [].
Proof.
  intros Hm Hobj. unfold due_objects in Hobj. destruct (bucket_rules w _ m); [|by apply not_elem_of_nil in Hobj].
  destruct (lm_ListObjects _ m) as [objects|] eqn:El; [|by apply not_elem_of_nil in Hobj].
  apply list_elem_of_In, filter_In in Hobj as [Hobj%list_elem_of_In _].
  destruct (lm_working_listed _ _ _ _ Hm El Hobj) as [-> Hv]. done.
Qed.

Lemma due_objects_distinct m now bucket : lm_working m → NoDup (place <$> due_objects w m now bucket).
Proof.
  intros Hm. unfold due_objects. destruct (bucket_rules w _ m) as [rules|]; [|apply NoDup_nil_2].
  destruct (lm_ListObjects _ m) as [objects|] eqn:El; [|apply NoDup_nil_2].
  pose proof (lm_working_distinct _ _ _ Hm El) as Hnd. clear El.
  induction objects as [|obj objects IH]; cbn [List.filter]; [apply NoDup_nil_2|].
  rewrite fmap_cons, NoDup_cons in Hnd. destruct Hnd as [Hfresh Hnd]. destruct (expired rules now obj); [|auto].
  rewrite fmap_cons, NoDup_cons. split; [|auto]. intros (d & E & Hd)%list_elem_of_fmap. injection E as _ Ek.
  apply Hfresh. rewrite Ek. apply list_elem_of_fmap_2. by apply list_elem_of_In, filter_In in Hd as [?%list_elem_of_In _].
Qed.

Lemma candidates_distinct m now buckets : lm_working m → NoDup (b_Name <$> buckets) →
  NoDup (place <$> (buckets ≫= due_objects w m now)).
Proof.
  intros Hm. induction buckets as [|bucket buckets IH]; [intros _; apply NoDup_nil_2|].
  rewrite fmap_cons, NoDup_cons, bind_cons, fmap_app. intros [Hfresh Hnd]. apply NoDup_app. split_and!.
  - by apply due_objects_distinct.
  - intros x (c & -> & Hc)%list_elem_of_fmap (d & E & Hd)%list_elem_of_fmap.
    apply list_elem_of_bind in Hd as (bucket' & Hd & Hb'). apply (due_objects_listed _ _ _ _ Hm) in Hc as [Ec _], Hd as [Ed _].
    apply Hfresh. injection E as E _. rewrite <- Ec, E, Ed. by apply list_elem_of_fmap_2.
  - by apply IH.
Qed.

Lemma candidates_there m now buckets : lm_working m →
  Forall (λ c, lm_versions (ov_Bucket c) (ov_Key c) m ≠ []) (buckets ≫= due_objects w m now).
Proof.
  intros Hm. apply Forall_forall. intros c (bucket & Hc & _)%list_elem_of_bind.
  by apply (due_objects_listed _ _ _ _ Hm) in Hc as [_ ?].
Qed.

Lemma due_has_candidate m now buckets b k : lm_ListBuckets m = Ok buckets → due w m now b k →
  ∃ c, c ∈ buckets ≫= due_objects w m now ∧ place c = (b, k).
Proof.
  intros Hl (bs & bucket & rules & objects & obj & rule & Hl' & Hb & Hr & Ho & Hobj & <- & <- & Hrule & Hp & Hage & Hexp).
  rewrite Hl in Hl'. injection Hl' as <-. exists obj. split; [|done]. apply list_elem_of_bind. exists bucket.
  split; [|done]. unfold due_objects. rewrite Hr, Ho. apply list_elem_of_In, filter_In. split; [by apply list_elem_of_In|].
  apply expired_spec. eauto.
Qed.

(** C23: when the stores work and the context lives, a run of the lifecycle worker (not
    a dry one) ends without an error, deletes every eligible key and counts it, leaves
    every due key without versions and without the blobs of its versions, and adds its
    report to the metrics. *)
Theorem lifecycle_deletes_all_due (s : state) buckets :
  lm_ListBuckets (wk_meta s) = Ok buckets → works s → lw_dryRun w = false → 0 < lw_batchSize w →
  0 ≤ lw_maxRetries w < int64_max →
  ∃ s' report, RunOnce w s = (s', Ok (report, None)) ∧
    rp_Deleted report = rp_Eligible report ∧ rp_Eligible report <= rp_Scanned report ∧
    wk_metrics s' = record_run (wk_metrics s) report ∧
    ∀ b k, due w (wk_meta s) (wk_readings s 1%nat) b k → cleared (wk_meta s) b k s'.
Proof.
  intros Hl Hs Hdry Hb Hr. set (cs := buckets ≫= due_objects w (wk_meta s) (wk_readings s 1%nat)).
  assert (∀ s1 s2 : state, wk_meta s2 = wk_meta s1 → wk_blob s2 = wk_blob s1 → wk_cancel s2 = wk_cancel s1 →
    works s1 → works s2) as Hworks by (intros ?? E1 E2 E3 []; split; congruence).
  assert (∀ d (s1 : state), ∃ s2, setQueueDepth w d s1 = (s2, Ok tt) ∧ wk_meta s2 = wk_meta s1 ∧ wk_blob s2 = wk_blob s1 ∧
    wk_cancel s2 = wk_cancel s1 ∧ wk_metrics s2 = wk_metrics s1) as Hdepth.
  { intros. unfold setQueueDepth. destruct (lw_queueDepthFn w); by eexists. }
  unfold RunOnce, mbind, M_bind, get, worker_now. simpl. rewrite Hl. simpl.
  pose proof (scan_scanned w (wk_meta s) (wk_readings s 1%nat) buckets (mkReport 0 0 0 0 (lw_dryRun w) 0, [])) as Hsc.
  destruct (fold_left _ buckets _) as [r cs']. destruct Hsc as [Hcs He Hd Hscan _]. simpl in *. subst cs'. fold cs in He, Hscan |- *.
  match goal with |- context [setQueueDepth w ?d ?s0] => destruct (Hdepth d s0) as (s1 & -> & M1 & B1 & C1 & T1) end.
  simpl in *. assert (works s1) as Hs1 by (by apply (Hworks s)).
  rewrite process_batches_from by lia. change (drop (Z.to_nat 0) cs) with cs.
  destruct (process_batch_working (Z.of_nat (length cs)) cs 0 r s1 Hdry Hr Hs1)
    as (s2 & p & -> & Hs2 & T2 & Hcleared & _ & _).
  { apply candidates_distinct; [apply Hs|]. eapply lm_working_buckets; [apply Hs|exact Hl]. }
  { rewrite M1. apply candidates_there, Hs. }
  destruct (Hdepth 0 s2) as (s3 & -> & M3 & B3 & C3 & T3).
  unfold finish_run, worker_now, record, mbind, M_bind, modify, mret, M_ret.
  eexists _, _. split; [reflexivity|]. simpl. split_and!; [lia|lia|by rewrite T3, T2, T1|].
  intros b k Hdue. destruct (due_has_candidate _ _ _ _ _ Hl Hdue) as (c & Hc & [= <- <-]).
  rewrite Forall_forall in Hcleared. rewrite M1 in Hcleared. destruct (Hcleared c Hc) as [Hn Hbl].
  split; simpl; [by rewrite M3|]. rewrite B3. exact Hbl.
Qed.

(** ** Giving up *)
Definition sleeps (n : nat) : list Z := reverse ((λ i, backoff_of w (Z.of_nat i)) <$> seq 0 n).

Lemma sleeps_S n : sleeps (Datatypes.S n) = backoff_of w (Z.of_nat n) :: sleeps n.
Proof. unfold sleeps. by rewrite seq_S, fmap_app, reverse_app. Qed.

Lemma retry_loop_fails c err attempts togo attempt lastErr (s : state) :
  (∀ m, (lm_DeleteAllObjectVersions (ov_Bucket c) (ov_Key c) m).2 = Err err) → errors_Is err ErrNotFound = false →
  wk_cancel s = None → 0 < lw_retryBackoff w → attempts = Z.of_nat attempt + Z.of_nat (Datatypes.S togo) →
  ∃ s', retry_loop w c attempts (Datatypes.S togo) (Z.of_nat attempt) lastErr s =
      (s', Err (delete_failed c attempts (Some err))) ∧
    wk_meta s' = Nat.iter (Datatypes.S togo) (exec (lm_DeleteAllObjectVersions (ov_Bucket c) (ov_Key c))) (wk_meta s) ∧
    wk_blob s' = wk_blob s ∧
    (wk_slept s = sleeps attempt → wk_slept s' = sleeps (attempt + togo)).
Proof.
  intros Hfail Hnf. revert attempt lastErr s. induction togo as [|togo IH]; intros attempt lastErr s Hc Hb Hn.
  all: assert (deleteOne c s = (mkWorkerState (exec (lm_DeleteAllObjectVersions (ov_Bucket c) (ov_Key c)) (wk_meta s))
    (wk_blob s) (wk_cancel s) (wk_readings s) (wk_slept s) (wk_depths s) (wk_metrics s), Err err)) as Eone
    by (unfold deleteOne, with_meta, try, mbind, M_bind, exec; specialize (Hfail (wk_meta s));
        destruct (lm_DeleteAllObjectVersions _ _ (wk_meta s)); simpl in *; subst; by rewrite Hnf).
  - cbn [retry_loop]. unfold mbind, M_bind, try. rewrite Eone. destruct (Z.eqb_spec (Z.of_nat attempt) (attempts - 1)); [|lia].
    eexists. split; [reflexivity|]. split; [done|]. split; [done|]. simpl. by rewrite Nat.add_0_r.
  - remember (Datatypes.S togo) as n eqn:En. cbn [retry_loop]. unfold mbind at 1, M_bind at 1, try at 1. rewrite Eone.
    destruct (Z.eqb_spec (Z.of_nat attempt) (attempts - 1)); [lia|].
    destruct (Z.leb_spec (lw_retryBackoff w) 0); [lia|].
    unfold sleepWithContext, ctx_Err, mbind, M_bind, modify. cbn [wk_cancel]. rewrite Hc.
    match goal with |- context [retry_loop w c attempts n _ _ ?s0] =>
      destruct (IH (Datatypes.S attempt) (Some err) s0) as (s' & E & Em & Eb & Es); [done..|lia|] end.
    replace (Z.of_nat attempt + 1) with (Z.of_nat (Datatypes.S attempt)) by lia.
    exists s'. split; [exact E|]. split; [|split; [done|]].
    + rewrite Em. cbn [wk_meta]. by rewrite <- Nat.iter_succ_r.
    + intros Hsl. subst n. replace (attempt + Datatypes.S togo)%nat with (Datatypes.S attempt + togo)%nat by lia.
      apply Es. simpl. by rewrite Hsl, sleeps_S.
Qed.

(** A deletion that keeps failing is tried once and retried [maxRetries] times,
    no more, with sleeps in between that double from the configured backoff on (in 64
    bits), and ends with the last error; no blob is touched. *)
Theorem retries_are_bounded c err (s : state) :
  (∀ m, (lm_DeleteAllObjectVersions (ov_Bucket c) (ov_Key c) m).2 = Err err) → errors_Is err ErrNotFound = false →
  wk_cancel s = None → wk_slept s = [] → 0 < lw_retryBackoff w → 0 ≤ lw_maxRetries w < int64_max →
  ∃ s', deleteWithRetry w c s = (s', Err (delete_failed c (lw_maxRetries w + 1) (Some err))) ∧
    wk_meta s' = Nat.iter (Z.to_nat (lw_maxRetries w + 1))
      (exec (lm_DeleteAllObjectVersions (ov_Bucket c) (ov_Key c))) (wk_meta s) ∧
    wk_blob s' = wk_blob s ∧ wk_slept s' = sleeps (Z.to_nat (lw_maxRetries w)) ∧
    ∀ i, lw_retryBackoff w * 2 ^ i ≤ int64_max → 0 ≤ i < 63 → backoff_of w i = lw_retryBackoff w * 2 ^ i.
Proof.
  intros Hfail Hnf Hc Hs Hb Hr. unfold deleteWithRetry.
  rewrite wrap64_id by (unfold in_int64, int64_min, int64_max in *; lia).
  replace (Z.to_nat (lw_maxRetries w + 1)) with (Datatypes.S (Z.to_nat (lw_maxRetries w))) by lia.
  destruct (retry_loop_fails c err (lw_maxRetries w + 1) (Z.to_nat (lw_maxRetries w)) 0 None s)
    as (s' & E & Em & Eb & Es); [done..|lia|].
  exists s'. split; [exact E|]. split; [exact Em|]. split; [exact Eb|]. split; [by apply Es|].
  intros i Hi Hi63. unfold backoff_of.
  assert (0 < 2 ^ i ≤ 2 ^ 62) by (split; [apply Z.pow_pos_nonneg; lia|apply Z.pow_le_mono_r; lia]).
  rewrite (wrap64_id (2 ^ i)) by (unfold in_int64, int64_min, int64_max in *; lia).
  apply wrap64_id. unfold in_int64, int64_min, int64_max in *. lia.
Qed.
End working.
