(* ===== verification/LifecycleStores.v ===== *)
(** * The lifecycle worker on the program's stores

    The memory store and the blob store keep the laws the worker's theorems rest on;
    witnesses, and what a run does to locked objects and after a failed deletion. *)
From S2P Require Import Prelude GoStrings StringFacts Base64 Model MemoryStore MemoryStoreFacts MemoryStoreProps FileSystem.
From S2P Require Import Blob BlobFacts Listing Http Calendar Duration Sse S3State S3Object S3Events S3Bucket S3ObjectOps.
From S2P Require Import S3Multipart S3Router S3Frames S3Examples LifecycleRules Lifecycle LifecycleProps LifecycleWork.

(** ** The memory store *)
Section metadata.
Context `{!GoRuntime} {P : Type} `{!StatePersister P}.
Abbreviation store := (memoryBackedStore P).

Lemma persist_ms_st (s : store) : ms_st (persistLocked s).1 = ms_st s.
Proof. unfold persistLocked. destruct (ms_persister s) as [p|]; [|done]. by destruct (Save _ p). Qed.

Lemma DeleteAll_st b k (s : store) :
  ms_st (DeleteAllObjectVersions b k s).1 = (locked_DeleteAllObjectVersions b k (ms_st s)).1.
Proof.
  unfold DeleteAllObjectVersions, mbind, M_bind, on_st.
  destruct (locked_DeleteAllObjectVersions b k (ms_st s)) as [st [vs|err]]; [|done].
  pose proof (persist_ms_st (mkStore (ms_persister s) st)) as Hp. by destruct (persistLocked _) as [s' [[]|err]].
Qed.

Lemma locked_DeleteAll_versions b k st : versions_of (locked_DeleteAllObjectVersions b k st).1 (mkObjectKey b k) = [].
Proof.
  unfold locked_DeleteAllObjectVersions. destruct (versions_of st _) as [|v vs] eqn:E; [done|].
  unfold versions_of. simpl. by rewrite lookup_delete_eq.
Qed.

Lemma locked_DeleteAll_other b k key st : key ≠ mkObjectKey b k →
  versions_of (locked_DeleteAllObjectVersions b k st).1 key = versions_of st key.
Proof.
  intros Hne. unfold locked_DeleteAllObjectVersions. destruct (versions_of st (mkObjectKey b k)); [done|].
  unfold versions_of. simpl. by rewrite lookup_delete_ne.
Qed.

Definition memory_versions (b k : string) (s : store) : list ObjectVersion := versions_of (ms_st s) (mkObjectKey b k).

Lemma memory_delete_other b k b' k' (s : store) : (b', k') ≠ (b, k) →
  memory_versions b' k' (exec (DeleteAllObjectVersions b k) s) = memory_versions b' k' s.
Proof. intros Hne. unfold memory_versions, exec. rewrite DeleteAll_st. apply locked_DeleteAll_other. congruence. Qed.

Lemma memory_delete_gone b k (s : store) : memory_versions b k (DeleteAllObjectVersions b k s).1 = [].
Proof. unfold memory_versions. rewrite DeleteAll_st. apply locked_DeleteAll_versions. Qed.

Lemma memory_delete_ok b k (s s' : store) vs : DeleteAllObjectVersions b k s = (s', Ok vs) →
  vs = memory_versions b k s ∧ memory_versions b k s' = [].
Proof.
  intros E. pose proof (memory_delete_gone b k s) as Hg. rewrite E in Hg. split; [|done].
  apply M_bind_inv in E as (s1 & vs1 & E1 & E2). apply M_bind_inv in E2 as (s2 & [] & E2 & E3).
  unfold mret, M_ret in E3. injection E3 as _ <-. unfold on_st, locked_DeleteAllObjectVersions in E1.
  unfold memory_versions. destruct (versions_of (ms_st s) _); [done|]. by injection E1 as _ <-.
Qed.

#[export] Instance memory_laws : LifecycleMetadataLaws store := {|
  lm_versions := memory_versions;
  lm_delete_other := memory_delete_other;
  lm_delete_ok := memory_delete_ok;
  lm_delete_err b k m m' err E := or_intror (eq_trans (f_equal (λ x, memory_versions b k x.1) (eq_sym E)) (memory_delete_gone b k m));
|}.

(** The store works when it is well formed and saving succeeds. *)
Definition memory_working (s : store) : Prop :=
  wf_state (ms_st s) ∧ (ms_persister s = None ∨ ∀ st (p : P), (Save st p).2 = None).

Lemma memory_working_delete b k (s : store) : memory_working s → memory_versions b k s ≠ [] →
  ∃ s', DeleteAllObjectVersions b k s = (s', Ok (memory_versions b k s)) ∧ memory_working s'.
Proof.
  intros [Hwf Hp] Hne. pose proof (wf_locked_DeleteAllObjectVersions b k (ms_st s) Hwf) as Hwf'.
  unfold DeleteAllObjectVersions, mbind, M_bind, on_st. unfold memory_versions, exec in *.
  unfold locked_DeleteAllObjectVersions in *. destruct (versions_of (ms_st s) _) as [|v vs]; [done|]. simpl in *.
  unfold persistLocked. simpl. destruct (ms_persister s) as [p|].
  - destruct Hp as [?|Hp]; [done|]. specialize (Hp (snapshotState (set_objects (delete (mkObjectKey b k) (st_objects (ms_st s))) (ms_st s))) p) as Hsave.
    destruct (Save _ p) as [p' err]. simpl in *. subst err. eexists. split; [reflexivity|]. split; [done|by right].
  - eexists. split; [reflexivity|]. split; [done|by left].
Qed.

Lemma visible_spec name entry obj : visible_latest name entry = Some obj →
  ok_bucket entry.1 = name ∧ last entry.2 = Some obj.
Proof.
  destruct entry as [key vs]. simpl. destruct (String.eqb_spec (ok_bucket key) name) as [E|]; [|done]. simpl.
  unfold latest_of. destruct (last vs) as [v|]; [|done]. by destruct (ov_DeleteMarker v); intros; simplify_eq.
Qed.

(** A listed object is the last version of its entry, and named as the entry is. *)
Lemma listed_entry name (s : store) entry obj : wf_state (ms_st s) → entry ∈ range_map (st_objects (ms_st s)) →
  visible_latest name entry = Some obj →
  ov_Bucket obj = name ∧ mkObjectKey name (ov_Key obj) = entry.1 ∧ st_objects (ms_st s) !! entry.1 = Some entry.2.
Proof.
  destruct entry as [key vs]. intros Hwf Hin%elem_of_range_map [Hb Hl]%visible_spec. simpl in *.
  destruct (wf_objects _ Hwf key vs Hin) as [_ Hkeyed _]. rewrite Forall_forall in Hkeyed.
  destruct (Hkeyed obj) as [E1 E2]; [by apply last_Some_elem_of|]. subst name. destruct key as [kb kk]. simpl in *. by subst.
Qed.

Lemma memory_listed name objects obj (s : store) : memory_working s → ListObjects name s = Ok objects → obj ∈ objects →
  ov_Bucket obj = name ∧ memory_versions name (ov_Key obj) s ≠ [].
Proof.
  intros [Hwf _] [= <-] (entry & Hin & Hv)%list_elem_of_omap.
  destruct (listed_entry _ _ _ _ Hwf Hin Hv) as (Hb & Hk & Hs). split; [done|].
  unfold memory_versions, versions_of. rewrite Hk, Hs. simpl. by destruct (wf_objects _ Hwf _ _ Hs).
Qed.

Lemma memory_distinct name objects (s : store) : memory_working s → ListObjects name s = Ok objects →
  NoDup (ov_Key <$> objects).
Proof.
  intros [Hwf _] [= <-]. pose proof (NoDup_fst_range_map (st_objects (ms_st s))) as Hnd.
  assert (∀ e, e ∈ range_map (st_objects (ms_st s)) → ∀ obj, visible_latest name e = Some obj →
    mkObjectKey name (ov_Key obj) = e.1) as Hentry.
  { intros e He obj Ho. by apply (listed_entry name s e obj Hwf He Ho). }
  induction (range_map (st_objects (ms_st s))) as [|e l IH]; [apply NoDup_nil_2|].
  rewrite fmap_cons, NoDup_cons in Hnd. destruct Hnd as [Hfresh Hnd]. cbn [omap list_omap].
  assert (NoDup (ov_Key <$> omap (visible_latest name) l)) as Hrest.
  { apply IH; [done|]. intros e' He'. apply Hentry. by right. }
  destruct (visible_latest name e) as [obj|] eqn:Eo; [|done]. rewrite fmap_cons. apply NoDup_cons. split; [|done].
  intros (obj' & Ek & (e' & He' & Ho')%list_elem_of_omap)%list_elem_of_fmap. apply Hfresh.
  rewrite <- (Hentry e ltac:(left) obj Eo), Ek, (Hentry e' ltac:(by right) obj' Ho'). by apply list_elem_of_fmap_2.
Qed.

Lemma memory_buckets buckets (s : store) : memory_working s → ListBuckets s = Ok buckets → NoDup (b_Name <$> buckets).
Proof.
  intros [Hwf _] [= <-]. pose proof (NoDup_fst_range_map (st_buckets (ms_st s))) as Hnd.
  assert (b_Name <$> (range_map (st_buckets (ms_st s))).*2 = (range_map (st_buckets (ms_st s))).*1) as ->; [|done].
  rewrite <- list_fmap_compose. apply list_fmap_ext. intros i [name b] Hi. simpl.
  by apply list_elem_of_lookup_2, elem_of_range_map, (wf_buckets _ Hwf) in Hi as [-> _].
Qed.
End metadata.

(** ** The blob store *)
Section blobs.
Context `{!Hashes} `{!TempNames} (bs : blobStore).

#[export] Instance fs_LifecycleBlobs : LifecycleBlobs world := blob_LifecycleBlobs bs.

Lemma fs_delete_other ref ref' w : ObjectPath bs ref ≠ ObjectPath bs ref' →
  fs_files (exec (blob_DeleteObject bs ref true) w) !! ObjectPath bs ref' = fs_files w !! ObjectPath bs ref'.
Proof. intros Hne. apply blob_DeleteObject_spec; [done|]. rewrite ObjectPath_length. lia. Qed.

#[export] Instance fs_laws : LifecycleBlobsLaws world := {|
  lb_content ref w := fs_files w !! ObjectPath bs ref;
  lb_same ref ref' := ObjectPath bs ref = ObjectPath bs ref';
  lb_delete_other := fs_delete_other;
|}.

(** No call fails, and no directory is where an object would be. *)
Definition fs_working (w : world) : Prop := healthy w ∧ ∀ ref, ObjectPath bs ref ∉ fs_dirs w.

(** Removals keep a working file system working and files that are gone gone. *)
Definition shrinks (w w' : world) : Prop :=
  healthy w' ∧ fs_dirs w' ⊆ fs_dirs w ∧ ∀ q, fs_files w !! q = None → fs_files w' !! q = None.

Lemma shrinks_trans w1 w2 w3 : shrinks w1 w2 → shrinks w2 w3 → shrinks w1 w3.
Proof. intros (H1 & D1 & F1) (H2 & D2 & F2). split_and!; [done|by etransitivity|auto]. Qed.

Lemma os_Remove_shrinks p w : healthy w →
  shrinks w (os_Remove p w).1 ∧
  (p ∉ fs_dirs w → ((os_Remove p w).2 = Ok tt ∨ (os_Remove p w).2 = Err ErrNotExist) ∧ fs_files (os_Remove p w).1 !! p = None).
Proof.
  intros Hw. unfold os_Remove, mbind, M_bind, get. rewrite fault_point_healthy by done. simpl.
  destruct (fs_files w !! p) as [content|] eqn:E; simpl.
  - split; [|intros _; split; [by left|by rewrite lookup_delete_eq]].
    split; [done|]. split; [done|]. intros q Hq. simpl. destruct (decide (q = p)) as [->|];
      [by rewrite lookup_delete_eq|by rewrite lookup_delete_ne].
  - destruct (bool_decide_reflect (p ∈ fs_dirs w)); [|split; [done|intros _; split; [by right|done]]].
    destruct (dir_empty p w); simpl; split; try done; split_and!; simpl; try done. set_solver.
Qed.

Lemma cleanup_dirs_shrinks fuel cur w : healthy w →
  ∃ w', cleanup_dirs bs fuel cur w = (w', Ok tt) ∧ shrinks w w'.
Proof.
  revert cur w. induction fuel as [|fuel IH]; intros cur w Hw; simpl; [by exists w|].
  destruct (_ || _); [by exists w|]. unfold mbind, M_bind, try. destruct (os_Remove_shrinks cur w Hw) as [Hs _].
  destruct (os_Remove cur w) as [w1 [[]|err]]; simpl in *; [|by exists w1].
  destruct (IH (path_dir cur) w1) as (w' & E & Hs'); [by destruct Hs|].
  exists w'. split; [done|]. by eapply shrinks_trans.
Qed.

Lemma blob_delete_working ref w : fs_working w →
  ∃ w', blob_DeleteObject bs ref true w = (w', Ok tt) ∧ fs_working w' ∧ fs_files w' !! ObjectPath bs ref = None ∧
    ∀ q, fs_files w !! q = None → fs_files w' !! q = None.
Proof.
  intros [Hw Hd]. unfold blob_DeleteObject, guard_io, not_exist_ok, mbind, M_bind, try.
  destruct (os_Remove_shrinks (ObjectPath bs ref) w Hw) as [Hs Hgone]. specialize (Hgone (Hd ref)).
  destruct (os_Remove (ObjectPath bs ref) w) as [w1 res]. simpl in *. destruct Hgone as [Hres Hnone].
  destruct (cleanup_dirs_shrinks (S (String.length (path_dir (ObjectPath bs ref)))) (path_dir (ObjectPath bs ref)) w1)
    as (w' & E & Hs'); [by destruct Hs|].
  destruct (shrinks_trans _ _ _ Hs Hs') as (Hh & Hdirs & Hfiles). exists w'. split.
  { by destruct Hres as [-> | ->]. }
  split; [split; [done|]; intros ref' Hr; by apply (Hd ref'), Hdirs|]. split; [by apply Hs'|done].
Qed.

Lemma fs_working_delete ref w : fs_working w → ∃ w', blob_DeleteObject bs ref true w = (w', Ok tt) ∧ fs_working w' ∧
  fs_files w' !! ObjectPath bs ref = None.
Proof. intros Hw. destruct (blob_delete_working ref w Hw) as (w' & H1 & H2 & H3 & _). by exists w'. Qed.

Lemma fs_working_gone ref ref' w : fs_working w → fs_files w !! ObjectPath bs ref' = None →
  fs_files (exec (blob_DeleteObject bs ref true) w) !! ObjectPath bs ref' = None.
Proof. intros Hw. destruct (blob_delete_working ref w Hw) as (w' & H1 & _ & _ & H4). unfold exec. rewrite H1. apply H4. Qed.

#[export] Instance program_stores_working `{!GoRuntime} {P} `{!StatePersister P} :
    LifecycleWorking (memoryBackedStore P) world := {|
  lm_working := memory_working;
  lb_working := fs_working;
  lm_working_delete := memory_working_delete;
  lb_working_delete := fs_working_delete;
  lb_working_gone := fs_working_gone;
  lm_working_listed := memory_listed;
  lm_working_distinct := memory_distinct;
  lm_working_buckets := memory_buckets;
|}.
End blobs.

(** ** Witnesses and scenarios *)
Section witnesses.
#[local] Existing Instance go_runtime_ref.
#[local] Existing Instance ex_times.
#[local] Existing Instance ex_random.
#[local] Existing Instance ex_codecs.
#[local] Existing Instance ex_tokens.
#[local] Existing Instance ex_hashes.
#[local] Existing Instance ex_temp_names.
#[local] Existing Instance ex_cipher.
#[local] Instance ex_no_xml : LifecycleXML := {| xml_Decode_lifecycle _ := Err io_EOF |}.
#[local] Instance ex_files : LifecycleBlobs world := blob_LifecycleBlobs ex_bs.

(** Two objects under logs/, one of them held, and one elsewhere. *)
Definition ex_logs : s3_state scripted_persister :=
  fold_left ex_serve
    [ex_request "PUT" "/plain/logs/a" [] [] "first"; ex_request "PUT" "/plain/logs/b" [] [] "second";
     ex_request "PUT" "/plain/data" [] [] "third"; ex_request "PUT" "/plain/logs/b" [("legal-hold", "")] [] "ON"] ex_buckets.

Definition ex_worker : Worker := mkWorker [mkRule "logs/" hour] minute 1 2 5 false true.

(** The worker [hours] after the objects were stored. *)
Definition ex_worker_state (s : s3_state scripted_persister) (hours : Z) : worker_state (memoryBackedStore scripted_persister) world :=
  mkWorkerState (s3_store s) (s3_world s) None (λ _, ex_clock + hours * hour) [] [] no_metrics.

Lemma batches_are_one_pass_witness :
  let cs := range_map (st_objects (ms_st (s3_store ex_logs))) ≫= snd in
  process_batches ex_worker (length cs) cs 0 0 (mkReport 0 0 0 0 false 0) (ex_worker_state ex_logs 2) =
  process_batch ex_worker (Z.of_nat (length cs)) cs 0 (mkReport 0 0 0 0 false 0) (ex_worker_state ex_logs 2).
Proof. intros cs. apply (batches_are_one_pass ex_worker cs). reflexivity. Defined.

Definition ex_dry_worker : Worker := mkWorker [mkRule "logs/" hour] minute 1 2 5 true true.

Lemma lifecycle_deletes_only_due_witness :
  let s := ex_worker_state ex_logs 2 in
  wk_meta (exec (RunOnce ex_dry_worker) s) = wk_meta s ∧ wk_blob (exec (RunOnce ex_dry_worker) s) = wk_blob s.
Proof.
  intros s. exact (proj2 (proj2 (lifecycle_deletes_only_due ex_dry_worker s eq_refl)) eq_refl).
Defined.

(** A store with one object and its file, and two runs of the worker: at once and after
    two hours. *)
Definition ex_version : ObjectVersion :=
  mkObjectVersion "plain" "logs/a" "null" 5 "etag" "" "" "" "" "" ∅ false ex_clock.
Definition ex_one : memoryBackedStore scripted_persister :=
  fold_left (λ s o, exec (run_op o) s)
    [OpTx (TxCreateBucket (mkBucket "plain" ex_clock "" "")); OpTx (TxPutObjectVersion ex_version)]
    (mkStore None (emptyState "memory")).
Definition ex_disk : world :=
  mkWorld {[ObjectPath ex_bs (ref_of ex_version) := "first"]}
    (list_to_set ["data"; "data/objects"; "data/tmp"; "data/multipart"]) ∅ [] false ex_clock.
Definition ex_due : worker_state (memoryBackedStore scripted_persister) world :=
  mkWorkerState ex_one ex_disk None (λ _, ex_clock + 2 * hour) [] [] no_metrics.

Lemma ex_one_well_formed : wf_state (ms_st ex_one).
Proof.
  assert (wf_store (mkStore (None : option scripted_persister) (emptyState "memory"))) as Hn by apply wf_emptyState.
  exact (wf_run_op (OpTx (TxPutObjectVersion ex_version)) _
    (wf_run_op (OpTx (TxCreateBucket (mkBucket "plain" ex_clock "" ""))) _ Hn)).
Qed.

Lemma ex_disk_working : fs_working ex_bs ex_disk.
Proof.
  split; [done|]. intros ref Hin.
  assert (Forall (λ d, (String.length d < 140)%nat) ["data"; "data/objects"; "data/tmp"; "data/multipart"]) as Hall
    by (repeat (apply Forall_cons; split; [vm_compute; lia|]); by apply Forall_nil).
  apply elem_of_list_to_set in Hin. rewrite Forall_forall in Hall. apply Hall in Hin.
  rewrite ObjectPath_length in Hin. lia.
Qed.

Lemma ex_due_works : works ex_due.
Proof. split; [split; [exact ex_one_well_formed|by left]|exact ex_disk_working|done]. Qed.

Lemma ex_due_listed : lm_ListBuckets (wk_meta ex_due) = Ok [mkBucket "plain" ex_clock "" ""].
Proof. vm_compute. reflexivity. Qed.

Lemma lifecycle_deletes_all_due_witness :
  ∃ s' report, RunOnce ex_worker ex_due = (s', Ok (report, None)) ∧ rp_Deleted report = rp_Eligible report.
Proof.
  destruct (lifecycle_deletes_all_due ex_worker ex_due _ ex_due_listed ex_due_works eq_refl eq_refl
    ltac:(vm_compute; split; congruence)) as (s' & report & H1 & H2 & _).
  exists s', report. split; [exact H1|exact H2].
Defined.

Example ex_run :
  (RunOnce ex_worker ex_due).2 = Ok (mkReport 1 1 1 0 false 0, None) ∧
  fs_files (wk_blob (RunOnce ex_worker ex_due).1) = ∅ ∧
  wk_depths (RunOnce ex_worker ex_due).1 = [0; 0; 1].
Proof. vm_compute. split_and!; reflexivity. Qed.

(** A metadata store whose deletions always fail. *)
#[local] Instance ex_broken : LifecycleMetadata nat := {|
  lm_ListBuckets _ := Ok [];
  lm_ListObjects _ _ := Ok [];
  lm_DeleteAllObjectVersions _ _ n := (S n, Err (ErrSentinel "database is locked"));
  lm_GetBucketLifecycle _ _ := Err ErrNotFound;
|}.

Lemma ex_broken_fails (m : nat) :
  (lm_DeleteAllObjectVersions (ov_Bucket ex_version) (ov_Key ex_version) m).2 = Err (ErrSentinel "database is locked").
Proof. reflexivity. Qed.

Lemma retries_are_bounded_witness :
  let s : worker_state nat world := mkWorkerState 0%nat ex_disk None (λ _, 0) [] [] no_metrics in
  ∃ s', deleteWithRetry ex_worker ex_version s =
      (s', Err (delete_failed ex_version 3 (Some (ErrSentinel "database is locked")))) ∧
    wk_meta s' = 3%nat ∧ wk_slept s' = [10; 5].
Proof.
  intros s. destruct (retries_are_bounded ex_worker ex_version _ s ex_broken_fails eq_refl eq_refl eq_refl eq_refl
    ltac:(vm_compute; split; congruence)) as (s' & H1 & H2 & _ & H3 & _).
  exists s'. split; [exact H1|]. split; [exact H2|]. rewrite H3. reflexivity.
Defined.

(** A run takes an object away that is under legal hold, and DELETE of it is refused. *)
Theorem lifecycle_ignores_locks :
  rs_Status (s3_resp (ex_serve ex_logs (ex_request "DELETE" "/plain/logs/b" [] [] ""))) = Some 403 ∧
  is_ok (GetLatestObjectVersion "plain" "logs/b" (s3_store ex_logs)) = true ∧
  GetLatestObjectVersion "plain" "logs/b" (wk_meta (RunOnce ex_worker (ex_worker_state ex_logs 2)).1) = Err ErrNotFound.
Proof. vm_compute. split_and!; reflexivity. Qed.

(** When the file cannot be removed, the run counts the object as failed, but its
    metadata is gone: no later run looks at the file again. *)
Definition ex_stuck : worker_state (memoryBackedStore scripted_persister) world :=
  mkWorkerState ex_one (mkWorld (fs_files ex_disk) (fs_dirs ex_disk) ∅ [Fault (ErrSentinel "input/output error")] false ex_clock)
    None (λ _, ex_clock + 2 * hour) [] [] no_metrics.

Theorem failed_blob_deletion_leaks :
  let s := RunOnce ex_worker ex_stuck in
  s.2 = Ok (mkReport 1 1 0 1 false 0, None) ∧
  (RunOnce ex_worker s.1).2 = Ok (mkReport 0 0 0 0 false 0, None) ∧
  fs_files (wk_blob (RunOnce ex_worker s.1).1) = fs_files ex_disk.
Proof. vm_compute. split_and!; reflexivity. Qed.
End witnesses.
