(* ===== verification/DebugPages.v ===== *)
(** * Metrics and debug pages (src/internal/server/handler.go, debug.go)

    The page of the Prometheus text and the two pages on the lifecycle worker, as JSON
    values with their durations as package time writes them.  The text of a JSON value
    is encoding/json's. *)
From Stdlib Require Import SpecFloat.
From S2P Require Import Prelude GoStrings StringFacts Url Base64 Model MemoryStore FileSystem Blob Listing Http Calendar Duration.
From S2P Require Import LifecycleRules Sse Credentials SigV4 PersonalTokens Protector Policy Observability.
From S2P Require Import S3State S3Object S3Events S3Bucket S3ObjectOps S3Multipart S3Router NetHttp Website Gate Lifecycle.

(** ** [time.Duration.String] *)

(** [fmtFrac]: the digits after the point without trailing zeros, and what is before. *)
Fixpoint fmtFrac (prec : nat) (print : bool) (v : Z) (acc : string) : string * Z :=
  match prec with
  | O => (if print then String "." acc else acc, v)
  | S prec =>
    let print := print || negb (v mod 10 =? 0) in
    fmtFrac prec print (v / 10) (if print then FormatInt (v mod 10) +:+ acc else acc)
  end.

Definition Duration_String (d : Z) : string :=
  let u := Z.abs d in
  let text :=
    if u <? second then
      if u =? 0 then "0s"
      else
        let '(prec, unit) := if u <? microsecond then (O, "ns") else if u <? millisecond then (3%nat, "µs") else (6%nat, "ms") in
        let '(frac, v) := fmtFrac prec false u "" in FormatInt v +:+ frac +:+ unit
    else
      let '(frac, v) := fmtFrac 9 false u "" in
      let text := FormatInt (v mod 60) +:+ frac +:+ "s" in
      let m := v / 60 in
      if 0 <? m then
        let text := FormatInt (m mod 60) +:+ "m" +:+ text in
        let h := m / 60 in
        if 0 <? h then FormatInt h +:+ "h" +:+ text else text
      else text in
  if d <? 0 then "-" +:+ text else text.

Example duration_string_ex :
  Duration_String (5 * minute) = "5m0s" ∧ Duration_String (200 * millisecond) = "200ms" ∧ Duration_String 0 = "0s" ∧
  Duration_String (24 * hour) = "24h0m0s" ∧ Duration_String 1500000000 = "1.5s" ∧ Duration_String 1100 = "1.1µs" ∧
  Duration_String (- two63) = "-2562047h47m16.854775808s".
Proof. vm_compute. split_and!; reflexivity. Qed.

Lemma fmtFrac_whole n k : fmtFrac n false (k * 10 ^ Z.of_nat n) "" = ("", k).
Proof.
  revert k. induction n as [|n IH]; intros k; [by rewrite Z.mul_1_r|].
  rewrite Nat2Z.inj_succ, Z.pow_succ_r by lia. replace (k * (10 * 10 ^ Z.of_nat n)) with (k * 10 ^ Z.of_nat n * 10) by lia.
  simpl. rewrite Z.mod_mul, Z.div_mul by lia. apply IH.
Qed.

(** The text that is left after a part: nothing, or a number. *)
Definition numeric (s : string) : Prop := s = "" ∨ ∃ c t, s = String c t ∧ is_Some (digit_of c).

Lemma FormatInt_numeric n t : 0 ≤ n → numeric (FormatInt n +:+ t).
Proof.
  intros Hn. unfold FormatInt. destruct (Z.ltb_spec n 0); [lia|].
  destruct (format_uint_spec n Hn) as (c & s & -> & _ & _ & Hp). right. exists c, (s +:+ t). split; [done|].
  simpl in Hp. by destruct (digit_of c).
Qed.

Lemma split_unit_letter (c : ascii) rest : c ∈ ["h"%char; "m"%char; "s"%char] → numeric rest →
  split_unit (String c "" +:+ rest) = (String c "", rest).
Proof.
  intros Hc Hr. rewrite str_app_cons, str_app_nil_l. rewrite !elem_of_cons, elem_of_nil in Hc.
  assert (Hrest : split_unit rest = ("", rest)).
  { destruct Hr as [-> | (d & t & -> & Hd)]; [done|]. simpl. by rewrite bool_decide_true, orb_true_r by done. }
  by destruct_or! Hc; subst; simpl; rewrite ?Hrest.
Qed.

Lemma duration_part_unit n (c : ascii) rest unit : 0 ≤ n → 0 < unit → n * unit ≤ two63 → unit_of (String c "") = Some unit →
  c ∈ ["h"%char; "m"%char; "s"%char] → numeric rest →
  duration_part (FormatInt n +:+ String c "" +:+ rest) = Some (n * unit, rest).
Proof.
  intros Hn Hu Hle Hunit Hc Hr. pose proof (split_unit_letter c rest Hc Hr) as Hs.
  unfold FormatInt. destruct (Z.ltb_spec n 0); [lia|].
  destruct (format_uint_spec n ltac:(lia)) as (e & s & -> & _ & _ & Hp). unfold duration_part.
  rewrite (leadingInt_digits (String e s) (String c "" +:+ rest) 0 n); [|done|done|nia|].
  2: { rewrite !elem_of_cons, elem_of_nil in Hc. by destruct_or! Hc; subst. }
  cbn [mbind option_bind]. rewrite length_str_app. cbv zeta.
  assert ((String.length (String e s) + String.length (String c "" +:+ rest) =? String.length (String c "" +:+ rest))%nat = false) as ->
    by (apply Nat.eqb_neq; simpl; lia).
  assert (Hdot : c ≠ "."%char) by (rewrite !elem_of_cons, elem_of_nil in Hc; by destruct_or! Hc; subst).
  cbn [negb andb].
  assert (Hm : ∀ A (x : string → A) y, match String c "" +:+ rest with String "." t => x t | _ => y end = y).
  { intros A x y. rewrite !elem_of_cons, elem_of_nil in Hc. by destruct_or! Hc; subst. }
  rewrite Hm. cbn [andb]. rewrite Hs. rewrite Hunit.
  assert (String.eqb (String c "") "" = false) as -> by done. cbn [mbind option_bind].
  destruct (Z.ltb_spec (two63 / unit) n) as [Hlt|]; [pose proof (Z.div_le_lower_bound two63 unit n ltac:(lia) ltac:(lia)); lia|].
  simpl. destruct (Z.ltb_spec two63 (n * unit)); [lia|]. reflexivity.
Qed.

(** A text of parts, each a number with the letter of its unit. *)
Fixpoint parts_text (parts : list (Z * ascii * Z)) : string :=
  match parts with
  | [] => ""
  | (n, c, _) :: parts => FormatInt n +:+ String c "" +:+ parts_text parts
  end.

Definition part_ok (p : Z * ascii * Z) : Prop :=
  0 ≤ p.1.1 ∧ 0 < p.2 ∧ p.1.2 ∈ ["h"%char; "m"%char; "s"%char] ∧ unit_of (String p.1.2 "") = Some p.2.

Definition parts_sum (parts : list (Z * ascii * Z)) : Z := foldr (λ p n, p.1.1 * p.2 + n) 0 parts.

Lemma parts_sum_nonneg parts : Forall part_ok parts → 0 ≤ parts_sum parts.
Proof. induction 1 as [|p parts (Hn & Hu & _) _ IH]; simpl; nia. Qed.

Lemma parts_text_numeric parts : Forall part_ok parts → numeric (parts_text parts).
Proof. intros [|[[n c] unit] parts' (Hn & _) _]; [by left|]. by apply FormatInt_numeric. Qed.

Lemma duration_parts_text parts fuel d : Forall part_ok parts → (length parts ≤ fuel)%nat → 0 ≤ d →
  d + parts_sum parts ≤ two63 → duration_parts fuel d (parts_text parts) = Some (d + parts_sum parts).
Proof.
  intros Hp. revert fuel d. induction Hp as [|[[n c] unit] parts (Hn & Hu & Hc & Hunit) Hp IH]; intros fuel d Hf Hd Hle.
  { simpl. rewrite Z.add_0_r. by destruct fuel. }
  simpl in *. destruct fuel as [|fuel]; [lia|]. pose proof (parts_sum_nonneg parts Hp).
  assert (Hpart : duration_part (FormatInt n +:+ String c "" +:+ parts_text parts) = Some (n * unit, parts_text parts)).
  { apply duration_part_unit; try done; [nia|by apply parts_text_numeric]. }
  destruct (FormatInt_numeric n (String c "" +:+ parts_text parts) Hn) as [E | (e & t & E & He)].
  { by apply str_app_eq_nil in E as [_ ?]. }
  rewrite E in *. cbn [duration_parts]. rewrite bool_decide_true, orb_true_r, Hpart by done. cbn [negb mbind option_bind].
  destruct (Z.ltb_spec two63 (d + n * unit)); [lia|]. rewrite IH by (lia || nia). f_equal. lia.
Qed.

Lemma ParseDuration_parts p parts : part_ok p → Forall part_ok parts → parts_sum (p :: parts) < two63 →
  ParseDuration (parts_text (p :: parts)) = Some (parts_sum (p :: parts)).
Proof.
  intros Hp Hps Hlt. assert (Hall : Forall part_ok (p :: parts)) by by constructor.
  pose proof (parts_sum_nonneg _ Hall) as H0.
  assert (Hparts : duration_parts (String.length (parts_text (p :: parts))) 0 (parts_text (p :: parts)) = Some (parts_sum (p :: parts))).
  { rewrite (duration_parts_text (p :: parts)); [by rewrite Z.add_0_l|done| |done|lia].
    clear. induction (p :: parts) as [|[[n c] u] l IH]; [done|]. simpl. rewrite !length_str_app. simpl. lia. }
  destruct p as [[n c] unit]. simpl in Hparts |- *. destruct Hp as (Hn & _). simpl in Hn.
  destruct (FormatInt_numeric n (String c "" +:+ parts_text parts) Hn) as [E | (e & t & E & He)].
  { by apply str_app_eq_nil in E as [_ ?]. }
  rewrite E in *. unfold ParseDuration.
  assert (split_sign (String e t) = (false, String e t)) as ->.
  { destruct e as [[] [] [] [] [] [] [] []]; try reflexivity; by destruct He. }
  assert (String.eqb (String e t) "0" = false) as ->.
  { apply String.eqb_neq. intros [= -> ->]. pose proof (f_equal String.length E) as El. rewrite !length_str_app in El. simpl in El.
    unfold FormatInt in El. destruct (Z.ltb_spec n 0); [lia|]. destruct (format_uint_spec n ltac:(lia)) as (a & b & Ef & _).
    rewrite Ef in El. simpl in El. lia. }
  change (String.eqb (String e t) "") with false. rewrite Hparts. cbn [mbind option_bind].
  destruct (Z.ltb_spec (two63 - 1) (n * unit + parts_sum parts)); [simpl in Hlt; lia|done].
Qed.

Lemma read_parts text d p parts : part_ok p → Forall part_ok parts → text = parts_text (p :: parts) →
  parts_sum (p :: parts) = d → d < two63 → ParseDuration text = Some d.
Proof. intros Hp Hps -> <- Hlt. by apply ParseDuration_parts. Qed.

(** The text of a whole number of seconds is read back. *)
Lemma whole_seconds_read_back k : 0 ≤ k → k * second < two63 → ParseDuration (Duration_String (k * second)) = Some (k * second).
Proof.
  intros Hk Hlt. assert (Hs : second = 10 ^ Z.of_nat 9) by reflexivity. unfold Duration_String.
  destruct (decide (k = 0)) as [-> | Hne]; [done|]. rewrite Z.abs_eq by (unfold second in *; lia).
  destruct (Z.ltb_spec (k * second) second); [unfold second in *; lia|].
  destruct (Z.ltb_spec (k * second) 0); [unfold second in *; lia|].
  rewrite Hs, fmtFrac_whole, <-Hs. cbv zeta. rewrite !str_app_nil_l.
  assert (Hok : ∀ n (c : ascii) u, 0 ≤ n → 0 < u → c ∈ ["h"%char; "m"%char; "s"%char] → unit_of (String c "") = Some u → part_ok (n, c, u)) by done.
  pose proof (Z.mod_pos_bound k 60 ltac:(lia)). pose proof (Z.mod_pos_bound (k / 60) 60 ltac:(lia)).
  pose proof (Z.div_pos k 60 ltac:(lia) ltac:(lia)). pose proof (Z.div_pos (k / 60) 60 ltac:(lia) ltac:(lia)).
  pose proof (Z.div_mod k 60 ltac:(lia)) as E1. pose proof (Z.div_mod (k / 60) 60 ltac:(lia)) as E2.
  assert (Ok1 : part_ok (k mod 60, "s"%char, second)) by (apply Hok; [lia|done|set_solver|done]).
  assert (Ok2 : part_ok ((k / 60) mod 60, "m"%char, minute)) by (apply Hok; [lia|done|set_solver|done]).
  assert (Ok3 : part_ok (k / 60 / 60, "h"%char, hour)) by (apply Hok; [lia|done|set_solver|done]).
  assert (Hm : minute = 60 * second) by done. assert (Hh : hour = 3600 * second) by done.
  destruct (Z.ltb_spec 0 (k / 60)); [destruct (Z.ltb_spec 0 (k / 60 / 60))|].
  - apply (read_parts _ _ _ [((k / 60) mod 60, "m"%char, minute); (k mod 60, "s"%char, second)] Ok3);
      [rewrite !Forall_cons; by split_and!|cbn [parts_text]; by rewrite ?str_app_nil_r|cbn [parts_sum foldr fst snd]; nia|done].
  - apply (read_parts _ _ _ [(k mod 60, "s"%char, second)] Ok2);
      [rewrite !Forall_cons; by split_and!|cbn [parts_text]; by rewrite ?str_app_nil_r|cbn [parts_sum foldr fst snd]; nia|done].
  - apply (read_parts _ _ _ [] Ok1);
      [by constructor|cbn [parts_text]; by rewrite ?str_app_nil_r|cbn [parts_sum foldr fst snd]; nia|done].
Qed.

(** ** The pages *)

(** [json.NewEncoder(w).Encode] without its newline; the keys of a map are sorted. *)
Class JsonText := { json_text : json → string }.

Section pages.
Context {P : Type} `{!JsonText} `{!FloatFormat} `{!GoRuntime}.
Abbreviation SM := (M (server_state P)).

Definition writeJSON (status : Z) (value : json) : SM unit :=
  on_s3 (setHeader "Content-Type" "application/json" ;; WriteHeader status ;; Write (PBytes (json_text value +:+ newline))).

Definition get_only (r : request) (page : SM unit) : SM unit :=
  if negb (String.eqb (rq_Method r) "GET") then on_s3 (WriteHeader StatusMethodNotAllowed) else page.

Definition no_worker : json := JObject [("error", JString "lifecycle worker is not configured")].

(** The worker as it is when the page is asked for, if there is one. *)
Variable worker : option Snapshot.

Definition config_json (snapshot : Snapshot) : json := JObject [
  ("batch_size", JNumber (FormatInt (sn_BatchSize snapshot))); ("dry_run", JBool (sn_DryRun snapshot));
  ("interval", JString (Duration_String (sn_Interval snapshot)));
  ("max_retries", JNumber (FormatInt (sn_MaxRetries snapshot)));
  ("retry_backoff", JString (Duration_String (sn_RetryBackoff snapshot)));
  ("rules", JArray ((λ rule, JObject [("prefix", JString (lr_Prefix rule));
     ("expire_after", JString (Duration_String (lr_ExpireAfter rule)))]) <$> sn_Rules snapshot))].

Definition lifecycleConfigDebug (r : request) : SM unit :=
  get_only r match worker with
  | None => writeJSON StatusServiceUnavailable no_worker
  | Some snapshot => writeJSON StatusOK (config_json snapshot)
  end.

Definition metrics_json (metrics : Metrics) : json := JObject [
  ("deleted_total", JNumber (FormatInt (mt_DeletedTotal metrics))); ("eligible_total", JNumber (FormatInt (mt_EligibleTotal metrics)));
  ("failed_total", JNumber (FormatInt (mt_FailedTotal metrics))); ("last_run_dry_run", JBool (mt_LastRunDryRun metrics));
  ("last_run_duration", JString (Duration_String (mt_LastRunDuration metrics)));
  ("runs", JNumber (FormatInt (mt_Runs metrics))); ("scanned_total", JNumber (FormatInt (mt_ScannedTotal metrics)))].

Definition lifecycleMetricsDebug (r : request) : SM unit :=
  get_only r match worker with
  | None => writeJSON StatusServiceUnavailable no_worker
  | Some snapshot => writeJSON StatusOK (metrics_json (sn_Metrics snapshot))
  end.

Variable collector : option Collector.

Definition metricsHandler (r : request) : SM unit :=
  get_only r (on_s3 (setHeader "Content-Type" "text/plain; version=0.0.4; charset=utf-8" ;; WriteHeader StatusOK ;;
    match collector with Some c => Write (PBytes (RenderPrometheus c)) | None => mret tt end)).
End pages.
