(* ===== verification/Server.v ===== *)
(** * The server as a whole (src/internal/server/handler.go, middleware.go)

    [NewHandler] with all its pages: request id, gate, rate limit, multiplexer, and
    behind it the health checks, the web interface, the metrics and debug pages, the
    website and the S3 API.  What a request without credentials can change. *)
From S2P Require Import Prelude GoStrings StringFacts Url Base64 Model MemoryStore FileSystem Blob BlobFacts Listing Http Calendar Duration.
From S2P Require Import LifecycleRules Sse Credentials SigV4 PersonalTokens Protector Policy Observability S3State S3Object S3Events S3Bucket.
From S2P Require Import S3ObjectOps S3Multipart S3Router NetHttp Website S3Facts S3Frames S3Reading WebForms Gate GateProps.
From S2P Require Import MemoryStoreProps S3Examples GateScenarios WebUI WebActions WebPages WebProps WebScenarios Lifecycle DebugPages.

Section server.
Context `{!GoRuntime} `{!TimeFormats} `{!RequestCodecs} `{!Randomness} `{!MimeTypes} `{!JsonSyntax} `{!FormParser} `{!WebTemplates}.
Context `{!JsonCodec listV2ContinuationToken} `{!JsonCodec personalAccessTokenClaims}.
Context `{!Hashes} `{!TempNames} `{!BlockCipher} `{!JsonText} `{!FloatFormat}.
Context {P : Type} `{!StatePersister P}.
Abbreviation SM := (M (server_state P)).

(** What the pages show besides the stores: the files of the web interface, how often a
    stream ticks, the worker and the collector. *)
Record surroundings := mkSurroundings {
  su_ui : webUI;
  su_ticks : request → nat;
  su_asset : request → SM unit;
  su_worker : option Snapshot;
  su_collector : option Collector;
}.

Definition page (su : surroundings) (route : mux_route) (r : request) : SM unit :=
  match route with
  | RouteWeb => web_ServeHTTP (su_ui su) (su_ticks su) (su_asset su) r
  | RouteMetrics => metricsHandler (su_collector su) r
  | RouteLifecycleConfig => lifecycleConfigDebug (su_worker su) r
  | RouteLifecycleMetrics => lifecycleMetricsDebug (su_worker su) r
  | RouteHealthz | RouteReadyz | RouteRoot => mret tt
  end.

Definition whole_handler (opts : Options) (su : surroundings) : request → SM unit := NewHandler opts (page su).

(** ** Steps before the pages *)

(** Nothing that a session or its expiry depends on has changed. *)
Definition session_kept (s s' : server_state P) : Prop :=
  data_kept s s' ∧ sv_sessions s' = sv_sessions s ∧ fs_clock (s3_world (sv_s3 s')) = fs_clock (s3_world (sv_s3 s)).

Definition keeps_sessions {A} (m : SM A) : Prop := ∀ s, session_kept s (m s).1.

Lemma session_kept_trans s1 s2 s3 : session_kept s1 s2 → session_kept s2 s3 → session_kept s1 s3.
Proof. intros (? & ? & ?) (? & ? & ?). split_and!; [by eapply data_kept_trans|congruence..]. Qed.

Lemma untouched_sessions s s' : untouched s s' → session_kept s s'.
Proof. intros Hu. split; [by apply untouched_kept|]. destruct Hu as (_ & Hw & _ & _ & Hs). by rewrite Hs, Hw. Qed.

Lemma authorised_before r s s' : session_kept s s' → authorised r s' → authorised r s.
Proof.
  intros (_ & Hs & Hc) (Hm & id & sess & Hcookie & Hl & Ht & Hv). split; [done|]. exists id, sess.
  rewrite <- Hs, <- Hc. done.
Qed.

Lemma guarded_after {A} r (m : SM A) (f : A → SM unit) : keeps_sessions m → (∀ x, guarded r (f x)) → guarded r (mbind f m).
Proof.
  intros Hm Hf s. specialize (Hm s). unfold mbind, M_bind. destruct (m s) as [s1 [x|e]]; simpl in *; [|left; apply Hm].
  destruct (Hf x s1) as [Hk|Ha]; [left; eapply data_kept_trans; [apply Hm|exact Hk]|right; by eapply authorised_before].
Qed.

Lemma guarded_then r (m : SM unit) (f : unit → SM unit) : guarded r m → (∀ x, server_reads (f x)) → guarded r (mbind f m).
Proof.
  intros Hm Hf s. destruct (Hm s) as [Hk|Ha]; [|by right]. left. unfold mbind, M_bind.
  destruct (m s) as [s1 [x|e]]; simpl in *; [|done]. eapply data_kept_trans; [exact Hk|apply Hf].
Qed.

Lemma keeps_quiet {A} (m : M (s3_state P) A) : quiet m → keeps_sessions (on_s3 m : SM A).
Proof. intros Hm s. destruct (hidden_quiet m Hm s) as (s' & x & -> & Hu & _). by apply untouched_sessions. Qed.

Lemma keeps_inflight n : keeps_sessions (set_inflight n : SM unit).
Proof. done. Qed.

Lemma keeps_newRequestID : keeps_sessions (newRequestID : SM string).
Proof.
  intros s. unfold newRequestID. unfold mbind at 1, M_bind at 1. pose proof (keeps_quiet (rand_bytes 8) (quiet_rand 8) s) as Hk.
  destruct (on_s3 (rand_bytes 8) s) as [s1 [[b|e]|e]]; simpl in *; done.
Qed.

Lemma keeps_header k v : keeps_sessions (on_s3 (setHeader k v) : SM unit).
Proof. done. Qed.

(** ** The pages *)
Variable opts : Options.
Variable su : surroundings.
Hypothesis assets_read : ∀ r, server_reads (su_asset su r).

Lemma server_get_only r (m : SM unit) : server_reads m → server_reads (get_only r m).
Proof. intros Hm. unfold get_only. destruct (negb _); [apply server_on_s3; read|done]. Qed.

Lemma server_writeJSON status v : server_reads (writeJSON status v : SM unit).
Proof. apply server_on_s3. read. Qed.

Lemma page_guarded route r : guarded r (page su route r).
Proof.
  destruct route; simpl; try by apply guarded_reads. 1: by apply web_guarded.
  all: apply guarded_reads, server_get_only; try (destruct (su_worker su); apply server_writeJSON).
  apply server_on_s3. destruct (su_collector su); read.
Qed.

Lemma page_reads route r : is_read r → server_reads (page su route r).
Proof.
  intros Hr s. destruct (page_guarded route r s) as [Hk | [Hm _]]; [done|]. unfold is_read in Hr. rewrite Hm in Hr. by destruct Hr.
Qed.

(** The multiplexer leads to the S3 API only where the gate has looked. *)
Definition root_is_guarded (r : request) : Prop :=
  mux_match opts (rq_EscapedPath r) = RouteRoot → shouldBypassAuth (rq_Path r) (op_MetricsPath opts) = false.

Lemma mux_guarded r : mux_match opts (rq_EscapedPath r) ≠ RouteRoot → guarded r (mux_ServeHTTP opts (page su) r).
Proof.
  intros Hroot. unfold mux_ServeHTTP. destruct (mux_redirect r); [apply guarded_reads, server_on_s3, reads_http_Redirect|].
  destruct (mux_match opts (rq_EscapedPath r)) eqn:E; try done; try apply page_guarded; apply guarded_reads, server_health_page.
Qed.

Lemma limited_guarded (next : request → SM unit) r : guarded r (next r) → guarded r (withRateLimit opts next r).
Proof.
  intros Hn. unfold withRateLimit. destruct (shouldBypassGuards _ _); [done|].
  apply guarded_after; [done|intros s]. destruct (_ <? _); [|apply guarded_reads, server_refuse].
  apply guarded_after; [apply keeps_inflight|intros _]. apply guarded_then; [done|intros _].
  apply server_bind; [apply server_get|intros s']. apply server_inflight.
Qed.

Lemma gate_guarded r : hasAuthMaterial r = false → root_is_guarded r →
  guarded r (withAuthGate opts (withRateLimit opts (mux_ServeHTTP opts (page su))) r).
Proof.
  intros Hmat Hroot. destruct (shouldBypassAuth (rq_Path r) (op_MetricsPath opts)) eqn:Hby.
  - unfold withAuthGate. rewrite Hby. apply limited_guarded, mux_guarded. intros E. pose proof (Hroot E). congruence.
  - apply guarded_reads. apply server_gate; try done. intros route r0. apply page_reads.
Qed.
End server.

Section properties.
Context `{!GoRuntime} `{!TimeFormats} `{!RequestCodecs} `{!Randomness} `{!MimeTypes} `{!JsonSyntax} `{!FormParser} `{!WebTemplates}.
Context `{!JsonCodec listV2ContinuationToken} `{!JsonCodec personalAccessTokenClaims}.
Context `{!Hashes} `{!TempNames} `{!BlockCipher} `{!JsonText} `{!FloatFormat}.
Context {P : Type} `{!StatePersister P}.

(** C17: a request that carries neither credentials nor a form of the web interface with
    a live session and its CSRF token changes no metadata, no file and no token, on
    whatever page it ends up - provided that no path the gate passes by leads to the S3
    API. *)
Theorem changes_need_authority (opts : Options) (su : surroundings (P:=P)) r s :
  (∀ r, server_reads (su_asset su r)) → hasAuthMaterial r = false → root_is_guarded (default_options opts) r →
  data_kept s (whole_handler opts su r s).1 ∨ ∃ id, authorised (with_request_id id r) s.
Proof.
  intros Hassets Hmat Hroot. unfold whole_handler, NewHandler, withRequestID.
  assert (Hid : keeps_sessions (if String.eqb (header_get (rq_Header r) "X-Amz-Request-Id") ""
    then newRequestID else mret (header_get (rq_Header r) "X-Amz-Request-Id") : M (server_state P) string)).
  { destruct (String.eqb _ _); [apply keeps_newRequestID|done]. }
  cbv zeta. match type of Hid with keeps_sessions ?m => set (draw := m) in * end. specialize (Hid s).
  unfold mbind at 1, M_bind at 1. destruct (draw s) as [s1 [id|e]]; simpl in Hid |- *; [|left; apply Hid].
  unfold mbind at 1, M_bind at 1.
  pose proof (gate_guarded (default_options opts) su Hassets (with_request_id id r) Hmat Hroot
    (on_s3 (setHeader "X-Amz-Request-Id" id) s1).1) as Hg.
  destruct Hg as [Hk|Ha].
  - left. eapply data_kept_trans; [apply Hid|]. exact Hk.
  - right. exists id. eapply authorised_before; [exact Hid|exact Ha].
Qed.
End properties.

(** ** A form without its token, and a deletion without credentials *)
Section witnesses.
#[local] Existing Instance go_runtime_ref.
#[local] Existing Instance ex_times.
#[local] Existing Instance ex_random.
#[local] Existing Instance ex_codecs.
#[local] Existing Instance ex_tokens.
#[local] Existing Instance ex_hashes.
#[local] Existing Instance ex_temp_names.
#[local] Existing Instance ex_cipher.
#[local] Existing Instance ex_no_mime.
#[local] Existing Instance ex_json.
#[local] Existing Instance ex_web_claims.
#[local] Existing Instance ex_form.
#[local] Existing Instance ex_templates.
#[local] Instance ex_json_text : JsonText := {| json_text _ := "{}" |}.
#[local] Instance ex_floats : FloatFormat := {| format_g _ := "0" |}.

Definition ex_surroundings : surroundings (P:=scripted_persister) := mkSurroundings ex_ui (λ _, O) ex_assets None None.

Definition ex_folder_form (token : string) : request :=
  ex_request "POST" "/app/actions/delete-folder" (("_csrf", token) :: ex_folder)
    [("Cookie", uiSessionCookie +:+ "=" +:+ us_ID (ex_session ex_held))] "".

(** The state after a request, with a response of its own. *)
Definition ex_whole (r : request) : server_state scripted_persister :=
  let s := ex_held in
  (whole_handler ex_opts ex_surroundings r
    (mkServer (fresh (sv_s3 s)) (sv_protector s) (sv_tokens s) (sv_inflight s) (sv_counter s) (sv_sessions s))).1.

Lemma changes_need_authority_witness :
  let forged := ex_folder_form "guessed" in
  let anonymous := ex_request "DELETE" "/plain/a/k" [] [] "" in
  (data_kept ex_held (whole_handler ex_opts ex_surroundings forged ex_held).1 ∨ ∃ id, authorised (with_request_id id forged) ex_held) ∧
  (data_kept ex_held (whole_handler ex_opts ex_surroundings anonymous ex_held).1 ∨ ∃ id, authorised (with_request_id id anonymous) ex_held) ∧
  status (sv_s3 (ex_whole forged)) = Some 403 ∧ status (sv_s3 (ex_whole anonymous)) = Some 403 ∧
  status (sv_s3 (ex_whole (ex_folder_form (us_CSRFToken (ex_session ex_held))))) = Some 303.
Proof.
  intros forged anonymous. split_and!; try (vm_compute; reflexivity).
  - apply (changes_need_authority ex_opts ex_surroundings); [intros r s; done|vm_compute; reflexivity|vm_compute; discriminate].
  - apply (changes_need_authority ex_opts ex_surroundings); [intros r s; done|vm_compute; reflexivity|].
    intros _. vm_compute. reflexivity.
Defined.
End witnesses.
