(* ===== verification/Sql.v ===== *)
(** * Tables and statements (the SQL side of src/internal/metadata/sqlite_store.go)

    The rows of the tables the store creates, with the columns as they are stored
    (texts and integers), what running a statement through database/sql may do, and
    the texts and numbers a row is written with and read from.  A table with a primary
    key is a map from the key to the row; object_versions is the list of its rows, with
    the last ordinal handed out.  Texts compare byte by byte. *)
From S2P Require Import Prelude GoStrings Model MemoryStore Listing Http Calendar Rfc3339.

Inductive sqlDialect := sqlDialectSQLite | sqlDialectPostgreSQL | sqlDialectMariaDB.

#[global] Instance sqlDialect_eq_dec : EqDecision sqlDialect.
Proof. solve_decision. Defined.

(** ** Rows *)
Record bucketRow := mkBucketRow {
  rb_name : string;
  rb_created_at : string;
  rb_region : string;
  rb_versioning_status : string;
}.

Record versionRow := mkVersionRow {
  rv_bucket : string;
  rv_object_key : string;
  rv_version_id : string;
  rv_ordinal : Z;
  rv_size : Z;
  rv_etag : string;
  rv_checksum_sha256 : string;
  rv_checksum_sha1 : string;
  rv_checksum_crc32 : string;
  rv_checksum_crc32c : string;
  rv_storage_path : string;
  rv_metadata_json : string;
  rv_delete_marker : Z;
  rv_created_at : string;
}.

Record uploadRow := mkUploadRow {
  ru_upload_id : string;
  ru_bucket : string;
  ru_object_key : string;
  ru_sse_algorithm : string;
  ru_initiated_at : string;
}.

Record partRow := mkPartRow {
  rp_upload_id : string;
  rp_part_number : Z;
  rp_etag : string;
  rp_size : Z;
  rp_checksum_sha256 : string;
  rp_checksum_sha1 : string;
  rp_checksum_crc32 : string;
  rp_checksum_crc32c : string;
  rp_storage_path : string;
  rp_created_at : string;
}.

Record credentialRow := mkCredentialRow {
  rk_access_key_id : string;
  rk_secret_hash : string;
  rk_status : string;
  rk_created_at : string;
  rk_rotated_at : string;
}.

Record websiteRow := mkWebsiteRow {
  rw_bucket : string;
  rw_index_document : string;
  rw_error_document : string;
  rw_redirect_all_host : string;
  rw_redirect_all_protocol : string;
  rw_routing_rules_json : string;
  rw_enabled : Z;
  rw_public_read : Z;
}.

Record corsRow := mkCorsRow {
  ro_bucket : string;
  ro_allowed_origins : string;
  ro_allowed_methods : string;
  ro_allowed_headers : string;
  ro_expose_headers : string;
  ro_max_age_seconds : Z;
  ro_enabled : Z;
}.

(** bucket_policies, bucket_lifecycles, bucket_notifications, bucket_replications *)
Record documentRow := mkDocumentRow {
  rd_bucket : string;
  rd_document : string;
  rd_enabled : Z;
}.

Record accessRow := mkAccessRow {
  ra_bucket : string;
  ra_block_public_acls : Z;
  ra_ignore_public_acls : Z;
  ra_block_public_policy : Z;
  ra_restrict_public_buckets : Z;
}.

Record tables := mkTables {
  t_buckets : gmap string bucketRow;
  t_versions : list versionRow;
  t_ordinal : Z;
  t_uploads : gmap string uploadRow;
  t_parts : gmap (string * Z) partRow;
  t_credentials : gmap string credentialRow;
  t_websites : gmap string websiteRow;
  t_cors : gmap string corsRow;
  t_policies : gmap string documentRow;
  t_access : gmap string accessRow;
  t_lifecycles : gmap string documentRow;
  t_notifications : gmap string documentRow;
  t_replications : gmap string documentRow;
  t_taggings : gmap (string * string * string) string;
}.

Definition empty_tables : tables := mkTables ∅ [] 0 ∅ ∅ ∅ ∅ ∅ ∅ ∅ ∅ ∅ ∅ ∅.

(** A change of one table. *)
Definition with_buckets v t := mkTables v (t_versions t) (t_ordinal t) (t_uploads t) (t_parts t) (t_credentials t)
  (t_websites t) (t_cors t) (t_policies t) (t_access t) (t_lifecycles t) (t_notifications t) (t_replications t) (t_taggings t).
Definition with_versions v n t := mkTables (t_buckets t) v n (t_uploads t) (t_parts t) (t_credentials t)
  (t_websites t) (t_cors t) (t_policies t) (t_access t) (t_lifecycles t) (t_notifications t) (t_replications t) (t_taggings t).
Definition with_uploads v t := mkTables (t_buckets t) (t_versions t) (t_ordinal t) v (t_parts t) (t_credentials t)
  (t_websites t) (t_cors t) (t_policies t) (t_access t) (t_lifecycles t) (t_notifications t) (t_replications t) (t_taggings t).
Definition with_parts v t := mkTables (t_buckets t) (t_versions t) (t_ordinal t) (t_uploads t) v (t_credentials t)
  (t_websites t) (t_cors t) (t_policies t) (t_access t) (t_lifecycles t) (t_notifications t) (t_replications t) (t_taggings t).
Definition with_credentials v t := mkTables (t_buckets t) (t_versions t) (t_ordinal t) (t_uploads t) (t_parts t) v
  (t_websites t) (t_cors t) (t_policies t) (t_access t) (t_lifecycles t) (t_notifications t) (t_replications t) (t_taggings t).
Definition with_websites v t := mkTables (t_buckets t) (t_versions t) (t_ordinal t) (t_uploads t) (t_parts t) (t_credentials t)
  v (t_cors t) (t_policies t) (t_access t) (t_lifecycles t) (t_notifications t) (t_replications t) (t_taggings t).
Definition with_cors v t := mkTables (t_buckets t) (t_versions t) (t_ordinal t) (t_uploads t) (t_parts t) (t_credentials t)
  (t_websites t) v (t_policies t) (t_access t) (t_lifecycles t) (t_notifications t) (t_replications t) (t_taggings t).
Definition with_policies v t := mkTables (t_buckets t) (t_versions t) (t_ordinal t) (t_uploads t) (t_parts t) (t_credentials t)
  (t_websites t) (t_cors t) v (t_access t) (t_lifecycles t) (t_notifications t) (t_replications t) (t_taggings t).
Definition with_access v t := mkTables (t_buckets t) (t_versions t) (t_ordinal t) (t_uploads t) (t_parts t) (t_credentials t)
  (t_websites t) (t_cors t) (t_policies t) v (t_lifecycles t) (t_notifications t) (t_replications t) (t_taggings t).
Definition with_lifecycles v t := mkTables (t_buckets t) (t_versions t) (t_ordinal t) (t_uploads t) (t_parts t) (t_credentials t)
  (t_websites t) (t_cors t) (t_policies t) (t_access t) v (t_notifications t) (t_replications t) (t_taggings t).
Definition with_notifications v t := mkTables (t_buckets t) (t_versions t) (t_ordinal t) (t_uploads t) (t_parts t) (t_credentials t)
  (t_websites t) (t_cors t) (t_policies t) (t_access t) (t_lifecycles t) v (t_replications t) (t_taggings t).
Definition with_replications v t := mkTables (t_buckets t) (t_versions t) (t_ordinal t) (t_uploads t) (t_parts t) (t_credentials t)
  (t_websites t) (t_cors t) (t_policies t) (t_access t) (t_lifecycles t) (t_notifications t) v (t_taggings t).
Definition with_taggings v t := mkTables (t_buckets t) (t_versions t) (t_ordinal t) (t_uploads t) (t_parts t) (t_credentials t)
  (t_websites t) (t_cors t) (t_policies t) (t_access t) (t_lifecycles t) (t_notifications t) (t_replications t) v.

(** ** Running statements

    [db_faults] is what the connection does to the statements to come: an error in
    place of the n-th one, which then has no effect, or None to run it; past the end
    of the list statements run. *)
Record sqlDB := mkDB {
  db_tables : tables;
  db_faults : list (option error);
}.

Definition ErrNoRows : error := ErrSentinel "sql: no rows in result set".

Definition statement {A} (run : tables → tables * result A) : M sqlDB A := λ d,
  match db_faults d with
  | Some e :: faults => (mkDB (db_tables d) faults, Err e)
  | _ => let '(t, r) := run (db_tables d) in (mkDB t (tail (db_faults d)), r)
  end.

(** A SELECT; [Exec] of a statement, which answers the number of rows it changed. *)
Definition select {A} (f : tables → result A) : M sqlDB A := statement (λ t, (t, f t)).
Definition exec_stmt (f : tables → tables * Z) : M sqlDB Z :=
  statement (λ t, let '(t, n) := f t in (t, Ok n)).

(** [BeginTx], the statements of [m], and [Commit], or [Rollback] after an error or
    when the commit fails. *)
Definition in_tx {A} (m : M sqlDB A) : M sqlDB A := λ d,
  match select (λ _, Ok tt) d with
  | (d, Err e) => (d, Err e)
  | (d, Ok _) =>
    match m d with
    | (d', Err e) => (mkDB (db_tables d) (db_faults d'), Err e)
    | (d', Ok a) =>
      match select (λ _, Ok a) d' with
      | (d'', Err e) => (mkDB (db_tables d) (db_faults d''), Err e)
      | done => done
      end
    end
  end.

(** What the drivers leave to the database: the error for a row whose key is there
    already, which SQLite and PostgreSQL call a constraint, and the matching of LIKE,
    by which a pattern p% without special characters matches what starts with p. *)
Definition plain_pattern (p : string) : bool :=
  str_forall (λ c, negb (Ascii.eqb c "%" || Ascii.eqb c "_" || Ascii.eqb c "\")) p.

Class SqlDriver `{!GoRuntime} := {
  duplicate_key : sqlDialect → string → error;
  duplicate_key_text d table : d ≠ sqlDialectMariaDB →
    Contains (ToLower (error_text (duplicate_key d table))) "constraint" = true;
  sql_like : sqlDialect → string → string → bool;
  sql_like_prefix d p s : plain_pattern p = true → HasPrefix s p = true →
    sql_like d (p +:+ "%") s = true;
}.

(** ** Columns *)
Definition formatTime (t : Z) : string := rfc3339_nano t.
Definition formatOptionalTime (t : Z) : string := if t =? zero_time then "" else formatTime t.
Definition parseTime (value : string) : Z :=
  if String.eqb value "" then zero_time else default zero_time (parse_rfc3339 value).
Definition boolInt (v : bool) : Z := if v then 1 else 0.
Definition defaultVersioning (status : string) : string := if String.eqb status "" then "Suspended" else status.

Definition mapSQLNotFound (err : error) : error := if errors_Is err ErrNoRows then ErrNotFound else err.

Section errors.
Context `{!GoRuntime}.

Definition mapSQLiteErr (err : error) : error :=
  if Contains (ToLower (error_text err)) "constraint" then ErrConflict else err.
End errors.

Definition requireAffected (n : Z) : result unit := if n =? 0 then Err ErrNotFound else Ok tt.

(** [Scan] into a number of destinations that is not the number of columns. *)
Definition scan_mismatch (columns destinations : Z) : error :=
  Errorf "sql: expected %d destination arguments in Scan, not %d" [FormatInt columns; FormatInt destinations].

Definition scanBucket (row : bucketRow) : Bucket :=
  mkBucket (rb_name row) (parseTime (rb_created_at row)) (rb_region row) (rb_versioning_status row).

Definition scanMultipartUpload (row : uploadRow) : MultipartUpload :=
  mkMultipartUpload (ru_upload_id row) (ru_bucket row) (ru_object_key row) (ru_sse_algorithm row)
    (parseTime (ru_initiated_at row)).

Definition scanMultipartPart (row : partRow) : MultipartPart :=
  mkMultipartPart (rp_upload_id row) (rp_part_number row) (rp_etag row) (rp_size row) (rp_checksum_sha256 row)
    (rp_checksum_sha1 row) (rp_checksum_crc32 row) (rp_checksum_crc32c row) (rp_storage_path row)
    (parseTime (rp_created_at row)).

Definition scanCredential (row : credentialRow) : CredentialRecord :=
  mkCredentialRecord (rk_access_key_id row) (rk_secret_hash row) (rk_status row)
    (parseTime (rk_created_at row)) (parseTime (rk_rotated_at row)).

Definition scanCORS (row : corsRow) : BucketCORSConfig :=
  mkBucketCORSConfig (ro_bucket row) (ro_allowed_origins row) (ro_allowed_methods row) (ro_allowed_headers row)
    (ro_expose_headers row) (ro_max_age_seconds row) (negb (ro_enabled row =? 0)).

Definition scanPolicy (row : documentRow) : BucketPolicy :=
  mkBucketPolicy (rd_bucket row) (rd_document row) (negb (rd_enabled row =? 0)).
Definition scanLifecycle (row : documentRow) : BucketLifecycle :=
  mkBucketLifecycle (rd_bucket row) (rd_document row) (negb (rd_enabled row =? 0)).
Definition scanNotification (row : documentRow) : BucketNotification :=
  mkBucketNotification (rd_bucket row) (rd_document row) (negb (rd_enabled row =? 0)).
Definition scanReplication (row : documentRow) : BucketReplication :=
  mkBucketReplication (rd_bucket row) (rd_document row) (negb (rd_enabled row =? 0)).

Definition scanAccess (row : accessRow) : BucketPublicAccessBlock :=
  mkBucketPublicAccessBlock (ra_bucket row) (negb (ra_block_public_acls row =? 0))
    (negb (ra_ignore_public_acls row =? 0)) (negb (ra_block_public_policy row =? 0))
    (negb (ra_restrict_public_buckets row =? 0)).

Section json_columns.
Context `{!JsonCodec (gmap string string)} `{!JsonCodec (list BucketWebsiteRoutingRule)}.

(** A column that json cannot read leaves the map or the slice nil. *)
Definition scanObject (row : versionRow) : ObjectVersion :=
  mkObjectVersion (rv_bucket row) (rv_object_key row) (rv_version_id row) (rv_size row) (rv_etag row)
    (rv_checksum_sha256 row) (rv_checksum_sha1 row) (rv_checksum_crc32 row) (rv_checksum_crc32c row)
    (rv_storage_path row)
    (if String.eqb (rv_metadata_json row) "" then ∅ else default ∅ (json_Unmarshal (rv_metadata_json row)))
    (negb (rv_delete_marker row =? 0)) (parseTime (rv_created_at row)).

Definition scanWebsite (row : websiteRow) : BucketWebsiteConfig :=
  mkBucketWebsiteConfig (rw_bucket row) (rw_index_document row) (rw_error_document row)
    (rw_redirect_all_host row) (rw_redirect_all_protocol row) (default [] (json_Unmarshal (rw_routing_rules_json row)))
    (negb (rw_enabled row =? 0)) (negb (rw_public_read row =? 0)).
End json_columns.
