(* ===== verification/SqlStore.v ===== *)
(** * The SQL metadata store (src/internal/metadata/sqlite_store.go)

    The methods of [sqliteStore] and [sqliteTxStore] as sequences of statements on the
    tables of Sql.v.  A statement is a step of its own; only the transactions run as
    one.  ORDER BY, like [sort.Slice], leaves the order of ties open, and a query
    without it the order of its rows. *)
From S2P Require Import Prelude GoStrings Model MemoryStore Listing Http Calendar Rfc3339 Sql.

(** ** The tables of one row per bucket *)
Record sql_table (A Row : Type) := mkSqlTable {
  sq_get : tables → gmap string Row;
  sq_set : gmap string Row → tables → tables;
  sq_bucket : A → string;
  sq_row : A → Row;
  sq_scan : Row → A;
}.
Arguments sq_get {_ _} _ _.
Arguments sq_set {_ _} _ _ _.
Arguments sq_bucket {_ _} _ _.
Arguments sq_row {_ _} _ _.
Arguments sq_scan {_ _} _ _.

Definition cors_rows := mkSqlTable _ _ t_cors with_cors bc_Bucket
  (λ cfg, mkCorsRow (bc_Bucket cfg) (bc_AllowedOrigins cfg) (bc_AllowedMethods cfg) (bc_AllowedHeaders cfg)
    (bc_ExposeHeaders cfg) (bc_MaxAgeSeconds cfg) (boolInt (bc_Enabled cfg))) scanCORS.
Definition policy_rows := mkSqlTable _ _ t_policies with_policies bp_Bucket
  (λ cfg, mkDocumentRow (bp_Bucket cfg) (bp_Document cfg) (boolInt (bp_Enabled cfg))) scanPolicy.
Definition access_rows := mkSqlTable _ _ t_access with_access pab_Bucket
  (λ cfg, mkAccessRow (pab_Bucket cfg) (boolInt (pab_BlockPublicACLs cfg)) (boolInt (pab_IgnorePublicACLs cfg))
    (boolInt (pab_BlockPublicPolicy cfg)) (boolInt (pab_RestrictPublicBuckets cfg))) scanAccess.
Definition lifecycle_rows := mkSqlTable _ _ t_lifecycles with_lifecycles bl_Bucket
  (λ cfg, mkDocumentRow (bl_Bucket cfg) (bl_Document cfg) (boolInt (bl_Enabled cfg))) scanLifecycle.
Definition notification_rows := mkSqlTable _ _ t_notifications with_notifications bn_Bucket
  (λ cfg, mkDocumentRow (bn_Bucket cfg) (bn_Document cfg) (boolInt (bn_Enabled cfg))) scanNotification.
Definition replication_rows := mkSqlTable _ _ t_replications with_replications br_Bucket
  (λ cfg, mkDocumentRow (br_Bucket cfg) (br_Document cfg) (boolInt (br_Enabled cfg))) scanReplication.

Section website_rows.
Context `{!JsonCodec (list BucketWebsiteRoutingRule)}.
Definition website_rows := mkSqlTable _ _ t_websites with_websites bw_Bucket
  (λ cfg, mkWebsiteRow (bw_Bucket cfg) (bw_IndexDocument cfg) (bw_ErrorDocument cfg) (bw_RedirectAllHost cfg)
    (bw_RedirectAllProtocol cfg) (json_Marshal (bw_RoutingRules cfg)) (boolInt (bw_Enabled cfg))
    (boolInt (bw_PublicRead cfg))) scanWebsite.
End website_rows.

Section store.
Context `{!GoRuntime} `{!SqlDriver} `{!JsonCodec (gmap string string)} `{!JsonCodec (list BucketWebsiteRoutingRule)}.
Variable dialect : sqlDialect.
#[local] Abbreviation DB := (M sqlDB).

(** [Scan] of the only row of a query. *)
Definition one_row {A} (r : option A) : result A :=
  match r with Some a => Ok a | None => Err ErrNoRows end.

(** [if err := row.Scan(...); err != nil { return mapSQLNotFound(err) }] *)
Definition query_one {A} (f : tables → option A) : DB A :=
  r ← try (select (λ t, one_row (f t)));
  match r with Ok a => mret a | Err e => throw (mapSQLNotFound e) end.

(** [_, err := exec(...); return mapSQLiteErr(err)] *)
Definition mapping_errors (m : DB Z) : DB unit :=
  r ← try m;
  match r with Ok _ => mret tt | Err e => throw (mapSQLiteErr e) end.

(** [res, err := exec(...); return requireAffected(res, err)] *)
Definition affecting (m : DB Z) : DB unit := n ← m; lift (requireAffected n).

(** INSERT INTO a table with a primary key. *)
Definition insert_row `{Countable K} {Row} (table : string) (get : tables → gmap K Row)
    (set : gmap K Row → tables → tables) (k : K) (row : Row) : DB Z :=
  statement (λ t, match get t !! k with
                  | Some _ => (t, Err (duplicate_key dialect table))
                  | None => (set (<[k := row]> (get t)) t, Ok 1)
                  end).

(** INSERT ... ON CONFLICT (key) DO UPDATE SET every other column. *)
Definition upsert_row `{Countable K} {Row} (get : tables → gmap K Row)
    (set : gmap K Row → tables → tables) (k : K) (row : Row) : DB Z :=
  exec_stmt (λ t, (set (<[k := row]> (get t)) t, 1)).

(** DELETE FROM table WHERE key = ? *)
Definition delete_row `{Countable K} {Row} (get : tables → gmap K Row)
    (set : gmap K Row → tables → tables) (k : K) : DB Z :=
  exec_stmt (λ t, match get t !! k with Some _ => (set (delete k (get t)) t, 1) | None => (t, 0) end).

(** ** Buckets *)
Definition bucket_row (bucket : Bucket) : bucketRow :=
  mkBucketRow (b_Name bucket) (formatTime (b_CreatedAt bucket)) (b_Region bucket)
    (defaultVersioning (b_VersioningStatus bucket)).

Definition sql_CreateBucket (bucket : Bucket) : DB unit :=
  mapping_errors (insert_row "buckets" t_buckets with_buckets (b_Name bucket) (bucket_row bucket)).

Definition sql_DeleteBucket (bucket : string) : DB unit :=
  affecting (delete_row t_buckets with_buckets bucket).

(** UPDATE buckets SET versioning_status = ? WHERE name = ? *)
Definition sql_UpdateBucketVersioning (bucket status : string) : DB unit :=
  affecting (exec_stmt (λ t,
    match t_buckets t !! bucket with
    | Some row => (with_buckets (<[bucket := mkBucketRow (rb_name row) (rb_created_at row) (rb_region row) status]>
                                   (t_buckets t)) t, 1)
    | None => (t, 0)
    end)).

Definition sql_GetBucket (name : string) : DB Bucket :=
  query_one (λ t, scanBucket <$> t_buckets t !! name).

(** SELECT ... FROM buckets ORDER BY name *)
Definition sql_ListBuckets : DB (list Bucket) :=
  select (λ t, Ok (scanBucket <$> sort_slice (λ x y, String.ltb (rb_name x) (rb_name y)) (range_map (t_buckets t)).*2)).

(** ** Object versions *)
Definition version_row (version : ObjectVersion) (ordinal : Z) : versionRow :=
  mkVersionRow (ov_Bucket version) (ov_Key version) (ov_VersionID version) ordinal (ov_Size version) (ov_ETag version)
    (ov_ChecksumSHA256 version) (ov_ChecksumSHA1 version) (ov_ChecksumCRC32 version) (ov_ChecksumCRC32C version)
    (ov_StoragePath version) (json_Marshal (ov_Metadata version)) (boolInt (ov_DeleteMarker version))
    (formatTime (ov_CreatedAt version)).

(** WHERE bucket = ? AND object_key = ? [AND version_id = ?] *)
Definition row_of_key (bucket key : string) (row : versionRow) : bool :=
  String.eqb (rv_bucket row) bucket && String.eqb (rv_object_key row) key.
Definition row_of_version (bucket key versionID : string) (row : versionRow) : bool :=
  row_of_key bucket key row && String.eqb (rv_version_id row) versionID.

(** The unique index on (bucket, object_key, version_id) WHERE version_id <> 'null',
    which MariaDB's schema lacks. *)
Definition identity_taken (version : ObjectVersion) (t : tables) : bool :=
  negb (bool_decide (dialect = sqlDialectMariaDB)) && negb (String.eqb (ov_VersionID version) "null") &&
  existsb (row_of_version (ov_Bucket version) (ov_Key version) (ov_VersionID version)) (t_versions t).

Definition delete_versions (p : versionRow → bool) : DB Z :=
  exec_stmt (λ t, (with_versions (List.filter (λ row, negb (p row)) (t_versions t)) (t_ordinal t) t,
                   Z.of_nat (length (List.filter p (t_versions t))))).

(** The ordinal is the next of the table's sequence, which no row has had before. *)
Definition insert_version (version : ObjectVersion) : DB Z :=
  statement (λ t,
    if identity_taken version t then (t, Err (duplicate_key dialect "object_versions"))
    else let n := t_ordinal t + 1 in
         (with_versions (t_versions t ++ [version_row version n]) n t, Ok 1)).

Definition sqlitePutObjectVersion (version : ObjectVersion) : DB unit :=
  (if String.eqb (ov_VersionID version) "null"
   then mapping_errors (delete_versions (row_of_version (ov_Bucket version) (ov_Key version) (ov_VersionID version)))
   else mret tt) ;;
  mapping_errors (insert_version version).

Definition sql_PutObjectVersion (version : ObjectVersion) : DB unit := sqlitePutObjectVersion version.

Definition sql_DeleteObject (bucket key versionID : string) (at_ : Z) : DB unit :=
  sql_PutObjectVersion (delete_marker bucket key versionID at_).

(** SELECT MAX(ordinal) FROM object_versions WHERE ... GROUP BY bucket, object_key,
    joined back: the rows with the greatest ordinal of their key. *)
Definition latest_row (rows : list versionRow) (row : versionRow) : bool :=
  forallb (λ other, negb (row_of_key (rv_bucket row) (rv_object_key row) other)
                    || (rv_ordinal other <=? rv_ordinal row)) rows.

Definition by_key_row (x y : versionRow) : bool := String.ltb (rv_object_key x) (rv_object_key y).

(** The joined rows without markers, ORDER BY object_key. *)
Definition latest_rows (p : versionRow → bool) (t : tables) : list versionRow :=
  let rows := List.filter p (t_versions t) in
  sort_slice by_key_row (List.filter (λ row, latest_row rows row && (rv_delete_marker row =? 0)) rows).

Definition sql_ListObjects (bucket : string) : DB (list ObjectVersion) :=
  sql_GetBucket bucket ;;
  select (λ t, Ok (scanObject <$> latest_rows (λ row, String.eqb (rv_bucket row) bucket) t)).

(** ORDER BY object_key, ordinal DESC *)
Definition newest_first (x y : versionRow) : bool := rv_ordinal y <? rv_ordinal x.

Definition sql_ListObjectVersions (bucket : string) : DB (list ObjectVersion) :=
  sql_GetBucket bucket ;;
  select (λ t, Ok (scanObject <$> sort_slice (less_by rv_object_key newest_first)
                     (List.filter (λ row, String.eqb (rv_bucket row) bucket) (t_versions t)))).

(** The WHERE of the inner query of [ListObjectsV2]. *)
Definition row_in_bounds (bucket : string) (opts : ListObjectsV2Options) (row : versionRow) : bool :=
  String.eqb (rv_bucket row) bucket && negb (String.ltb (rv_object_key row) (lo_Prefix opts)) &&
  String.ltb (lo_StartAfter opts) (rv_object_key row) &&
  match stringPrefixUpperBound (lo_Prefix opts) with
  | Some upper => String.ltb (rv_object_key row) upper
  | None => true
  end.

Definition sql_ListObjectsV2 (bucket : string) (opts : ListObjectsV2Options) : DB ListObjectsV2Result :=
  sql_GetBucket bucket ;;
  let maxKeys := Z.min 1000 (Z.max 0 (lo_MaxKeys opts)) in
  if maxKeys =? 0 then mret (mkListObjectsV2Result [] false "")
  else select (λ t, Ok (sql_list_loop opts maxKeys (scanObject <$> latest_rows (row_in_bounds bucket opts) t) [] ∅)).

(** ORDER BY ordinal DESC LIMIT 1 *)
Definition sql_GetLatestObjectVersion (bucket key : string) : DB ObjectVersion :=
  query_one (λ t, scanObject <$> head (sort_slice newest_first (List.filter (row_of_key bucket key) (t_versions t)))).

Definition sql_GetObjectVersion (bucket key versionID : string) : DB ObjectVersion :=
  if String.eqb versionID "" then sql_GetLatestObjectVersion bucket key
  else query_one (λ t, scanObject <$> head (range_order (List.filter (row_of_version bucket key versionID) (t_versions t)))).

Definition set_metadata (json : string) (row : versionRow) : versionRow :=
  mkVersionRow (rv_bucket row) (rv_object_key row) (rv_version_id row) (rv_ordinal row) (rv_size row) (rv_etag row)
    (rv_checksum_sha256 row) (rv_checksum_sha1 row) (rv_checksum_crc32 row) (rv_checksum_crc32c row)
    (rv_storage_path row) json (rv_delete_marker row) (rv_created_at row).

Definition sql_UpdateObjectMetadata (bucket key versionID : string) (metadata : gmap string string) : DB unit :=
  affecting (exec_stmt (λ t,
    let p := row_of_version bucket key versionID in
    (with_versions ((λ row, if p row then set_metadata (json_Marshal metadata) row else row) <$> t_versions t)
       (t_ordinal t) t,
     Z.of_nat (length (List.filter p (t_versions t)))))).

Definition sql_DeleteObjectVersion (bucket key versionID : string) : DB ObjectVersion :=
  version ← sql_GetObjectVersion bucket key versionID;
  affecting (delete_versions (row_of_version bucket key versionID)) ;;
  mret version.

Definition sql_DeleteAllObjectVersions (bucket key : string) : DB (list ObjectVersion) :=
  versions ← select (λ t, Ok (scanObject <$>
    sort_slice (λ x y, rv_ordinal x <? rv_ordinal y) (List.filter (row_of_key bucket key) (t_versions t))));
  match versions with
  | [] => throw ErrNotFound
  | _ => delete_versions (row_of_key bucket key) ;; mret versions
  end.

(** ** Multipart uploads *)
Definition upload_row (upload : MultipartUpload) : uploadRow :=
  mkUploadRow (mu_UploadID upload) (mu_Bucket upload) (mu_Key upload) (mu_SSEAlgorithm upload)
    (formatTime (mu_InitiatedAt upload)).

Definition sql_CreateMultipartUpload (upload : MultipartUpload) : DB unit :=
  mapping_errors (insert_row "multipart_uploads" t_uploads with_uploads (mu_UploadID upload) (upload_row upload)).

(** DELETE FROM multipart_parts WHERE upload_id = ? *)
Definition delete_parts (uploadID : string) : DB Z :=
  exec_stmt (λ t, (with_parts (filter (λ e, e.1.1 ≠ uploadID) (t_parts t)) t,
                   Z.of_nat (size (filter (λ e, e.1.1 = uploadID) (t_parts t))))).

(** The statements of [sqliteTxStore.DeleteMultipartUpload]; the method of the store
    runs them in a transaction of its own. *)
Definition sqlTx_DeleteMultipartUpload (uploadID : string) : DB unit :=
  affecting (delete_row t_uploads with_uploads uploadID) ;;
  delete_parts uploadID ;; mret tt.

Definition sql_DeleteMultipartUpload (uploadID : string) : DB unit := in_tx (sqlTx_DeleteMultipartUpload uploadID).

Definition part_row (part : MultipartPart) : partRow :=
  mkPartRow (mp_UploadID part) (mp_PartNumber part) (mp_ETag part) (mp_Size part) (mp_ChecksumSHA256 part)
    (mp_ChecksumSHA1 part) (mp_ChecksumCRC32 part) (mp_ChecksumCRC32C part) (mp_StoragePath part)
    (formatTime (mp_CreatedAt part)).

Definition sqlTx_UpsertMultipartPart (part : MultipartPart) : DB unit :=
  upsert_row t_parts with_parts (mp_UploadID part, mp_PartNumber part) (part_row part) ;; mret tt.

Definition sqliteGetMultipartUpload (uploadID : string) : DB MultipartUpload :=
  query_one (λ t, scanMultipartUpload <$> t_uploads t !! uploadID).

(** ORDER BY part_number *)
Definition sqliteListMultipartParts (uploadID : string) : DB (list MultipartPart) :=
  select (λ t, Ok (scanMultipartPart <$> sort_slice (λ x y, rp_part_number x <? rp_part_number y)
    (List.filter (λ row, String.eqb (rp_upload_id row) uploadID) (range_map (t_parts t)).*2))).

Definition sql_GetMultipartUpload (uploadID : string) : DB (MultipartUpload * list MultipartPart) :=
  u ← sqliteGetMultipartUpload uploadID;
  parts ← sqliteListMultipartParts uploadID;
  mret (u, parts).

Definition sql_UpsertMultipartPart (part : MultipartPart) : DB unit :=
  sql_GetMultipartUpload (mp_UploadID part) ;;
  sqlTx_UpsertMultipartPart part.

(** SELECT upload_id, bucket, object_key, initiated_at ... WHERE bucket = ? AND
    (? = '' OR object_key LIKE ?): four columns, of which [scanMultipartUpload] wants
    five. *)
Definition upload_listed (bucket prefix : string) (row : uploadRow) : bool :=
  String.eqb (ru_bucket row) bucket &&
  (String.eqb prefix "" || sql_like dialect (prefix +:+ "%") (ru_object_key row)).

Definition sql_ListMultipartUploads (bucket prefix : string) : DB (list MultipartUpload) :=
  sql_GetBucket bucket ;;
  select (λ t,
    match List.filter (upload_listed bucket prefix) (range_map (t_uploads t)).*2 with
    | [] => Ok []
    | _ => Err (scan_mismatch 4 5)
    end).

(** ** Credentials *)
Definition credential_row (record : CredentialRecord) : credentialRow :=
  mkCredentialRow (cr_AccessKeyID record) (cr_SecretHash record) (cr_Status record)
    (formatTime (cr_CreatedAt record)) (formatOptionalTime (cr_RotatedAt record)).

Definition sql_UpsertCredentialRecord (record : CredentialRecord) : DB unit :=
  upsert_row t_credentials with_credentials (cr_AccessKeyID record) (credential_row record) ;; mret tt.

Definition sql_GetCredentialRecord (accessKeyID : string) : DB CredentialRecord :=
  query_one (λ t, scanCredential <$> t_credentials t !! accessKeyID).

(** ** Configurations and tags *)
Definition sql_putConfig {A Row} (t : sql_table A Row) (cfg : A) : DB unit :=
  sql_GetBucket (sq_bucket t cfg) ;;
  upsert_row (sq_get t) (sq_set t) (sq_bucket t cfg) (sq_row t cfg) ;; mret tt.

Definition sql_getConfig {A Row} (t : sql_table A Row) (bucket : string) : DB A :=
  query_one (λ ts, sq_scan t <$> sq_get t ts !! bucket).

Definition sql_deleteConfig {A Row} (t : sql_table A Row) (bucket : string) : DB unit :=
  affecting (delete_row (sq_get t) (sq_set t) bucket).

Definition sql_PutBucketWebsite cfg : DB unit := sql_putConfig website_rows cfg.
Definition sql_GetBucketWebsite bucket : DB BucketWebsiteConfig := sql_getConfig website_rows bucket.
Definition sql_DeleteBucketWebsite bucket : DB unit := sql_deleteConfig website_rows bucket.
Definition sql_PutBucketCORS cfg : DB unit := sql_putConfig cors_rows cfg.
Definition sql_GetBucketCORS bucket : DB BucketCORSConfig := sql_getConfig cors_rows bucket.
Definition sql_DeleteBucketCORS bucket : DB unit := sql_deleteConfig cors_rows bucket.
Definition sql_PutBucketPolicy cfg : DB unit := sql_putConfig policy_rows cfg.
Definition sql_GetBucketPolicy bucket : DB BucketPolicy := sql_getConfig policy_rows bucket.
Definition sql_DeleteBucketPolicy bucket : DB unit := sql_deleteConfig policy_rows bucket.
Definition sql_PutBucketPublicAccessBlock cfg : DB unit := sql_putConfig access_rows cfg.
Definition sql_GetBucketPublicAccessBlock bucket : DB BucketPublicAccessBlock := sql_getConfig access_rows bucket.
Definition sql_DeleteBucketPublicAccessBlock bucket : DB unit := sql_deleteConfig access_rows bucket.
Definition sql_PutBucketLifecycle cfg : DB unit := sql_putConfig lifecycle_rows cfg.
Definition sql_GetBucketLifecycle bucket : DB BucketLifecycle := sql_getConfig lifecycle_rows bucket.
Definition sql_DeleteBucketLifecycle bucket : DB unit := sql_deleteConfig lifecycle_rows bucket.
Definition sql_PutBucketNotification cfg : DB unit := sql_putConfig notification_rows cfg.
Definition sql_GetBucketNotification bucket : DB BucketNotification := sql_getConfig notification_rows bucket.
Definition sql_DeleteBucketNotification bucket : DB unit := sql_deleteConfig notification_rows bucket.
Definition sql_PutBucketReplication cfg : DB unit := sql_putConfig replication_rows cfg.
Definition sql_GetBucketReplication bucket : DB BucketReplication := sql_getConfig replication_rows bucket.
Definition sql_DeleteBucketReplication bucket : DB unit := sql_deleteConfig replication_rows bucket.

Definition sql_PutObjectTagging (cfg : ObjectTagging) : DB unit :=
  upsert_row t_taggings with_taggings (ot_Bucket cfg, ot_Key cfg, ot_VersionID cfg) (ot_Document cfg) ;; mret tt.

Definition sql_GetObjectTagging (bucket key versionID : string) : DB ObjectTagging :=
  query_one (λ t, mkObjectTagging bucket key versionID <$> t_taggings t !! (bucket, key, versionID)).

Definition sql_DeleteObjectTagging (bucket key versionID : string) : DB unit :=
  affecting (delete_row t_taggings with_taggings (bucket, key, versionID)).

(** ** Transactions *)
Definition sql_run_tx_op (o : tx_op) : DB unit :=
  match o with
  | TxCreateBucket bucket => sql_CreateBucket bucket
  | TxDeleteBucket bucket => sql_DeleteBucket bucket
  | TxUpdateBucketVersioning bucket status => sql_UpdateBucketVersioning bucket status
  | TxPutObjectVersion version => sqlitePutObjectVersion version
  | TxDeleteObject bucket key versionID at_ => sql_DeleteObject bucket key versionID at_
  | TxCreateMultipartUpload upload => sql_CreateMultipartUpload upload
  | TxDeleteMultipartUpload uploadID => sqlTx_DeleteMultipartUpload uploadID
  | TxUpsertMultipartPart part => sqlTx_UpsertMultipartPart part
  | TxUpsertCredentialRecord record => sql_UpsertCredentialRecord record
  end.

Fixpoint sql_run_tx_prog (p : tx_prog) : DB unit := λ d,
  match p with
  | TxReturn r => (d, r)
  | TxCall o k => let '(d', r) := sql_run_tx_op o d in sql_run_tx_prog (k r) d'
  end.

Definition sql_RunInTx (fn : DB unit) : DB unit := in_tx fn.

(** ** Consistency *)

(** The versions of missing buckets, LIMIT 100. *)
Definition sql_ValidateConsistency : DB (list ConsistencyIssue) :=
  select (λ t, Ok ((λ row, mkConsistencyIssue "missing_bucket"
      (rv_bucket row +:+ "/" +:+ rv_object_key row +:+ " references a missing bucket")) <$>
    take 100 (List.filter (λ row, bool_decide (t_buckets t !! rv_bucket row = None)) (range_order (t_versions t))))).

Definition sql_RepairConsistency : DB Z := mret 0.

(** ** The mutating methods of [Store] *)
Definition sql_run_op (o : store_op) : DB unit :=
  match o with
  | OpTx (TxDeleteMultipartUpload uploadID) => sql_DeleteMultipartUpload uploadID
  | OpTx (TxUpsertMultipartPart part) => sql_UpsertMultipartPart part
  | OpTx o => sql_run_tx_op o
  | OpPutWebsite cfg => sql_PutBucketWebsite cfg
  | OpDeleteWebsite bucket => sql_DeleteBucketWebsite bucket
  | OpPutCORS cfg => sql_PutBucketCORS cfg
  | OpDeleteCORS bucket => sql_DeleteBucketCORS bucket
  | OpPutPolicy cfg => sql_PutBucketPolicy cfg
  | OpDeletePolicy bucket => sql_DeleteBucketPolicy bucket
  | OpPutPublicAccessBlock cfg => sql_PutBucketPublicAccessBlock cfg
  | OpDeletePublicAccessBlock bucket => sql_DeleteBucketPublicAccessBlock bucket
  | OpPutLifecycle cfg => sql_PutBucketLifecycle cfg
  | OpDeleteLifecycle bucket => sql_DeleteBucketLifecycle bucket
  | OpPutNotification cfg => sql_PutBucketNotification cfg
  | OpDeleteNotification bucket => sql_DeleteBucketNotification bucket
  | OpPutReplication cfg => sql_PutBucketReplication cfg
  | OpDeleteReplication bucket => sql_DeleteBucketReplication bucket
  | OpPutTagging cfg => sql_PutObjectTagging cfg
  | OpDeleteTagging bucket key versionID => sql_DeleteObjectTagging bucket key versionID
  | OpUpdateObjectMetadata bucket key versionID metadata => sql_UpdateObjectMetadata bucket key versionID metadata
  | OpDeleteObjectVersion bucket key versionID => sql_DeleteObjectVersion bucket key versionID ;; mret tt
  | OpDeleteAllObjectVersions bucket key => sql_DeleteAllObjectVersions bucket key ;; mret tt
  | OpRunInTx p => sql_RunInTx (sql_run_tx_prog p)
  | OpRepair => sql_RepairConsistency ;; mret tt
  end.
End store.
