(* ===== verification/SqlFacts.v ===== *)
(** * The tables as a state of the metadata model

    What the rows of the SQL store say, read as the state of the memory-backed store:
    the relation [sql_models], and that each method of the one follows the same method
    of the other.  SqlProps.v puts them together. *)
From S2P Require Import Prelude GoStrings StringFacts Model MemoryStore MemoryStoreFacts Listing Http Calendar Rfc3339 Sql SqlStore.

(** ** Columns are read as they were written *)
Definition in_years (t : Z) : Prop := year_0 ≤ t < year_10000.

Lemma formatTime_nonempty t : formatTime t ≠ "".
Proof.
  unfold formatTime, rfc3339_nano. intros E. apply str_app_eq_nil in E as [_ E].
  by apply str_app_eq_nil in E as [_ E].
Qed.

Lemma parse_formatTime t : in_years t → parseTime (formatTime t) = t.
Proof.
  intros Ht. unfold parseTime. rewrite (proj2 (String.eqb_neq _ _)) by apply formatTime_nonempty.
  unfold formatTime. by rewrite parse_rfc3339_nano.
Qed.

Lemma parse_formatOptionalTime t : in_years t → parseTime (formatOptionalTime t) = t.
Proof.
  intros Ht. unfold formatOptionalTime. destruct (Z.eqb_spec t zero_time) as [->|]; [done|]. by apply parse_formatTime.
Qed.

Lemma boolInt_back b : negb (boolInt b =? 0) = b.
Proof. by destruct b. Qed.

Section scans.
Context `{!JsonCodec (gmap string string)} `{!JsonCodec (list BucketWebsiteRoutingRule)}.

(** What the columns hold without loss. *)
Definition storable (version : ObjectVersion) : Prop :=
  in_years (ov_CreatedAt version) ∧ json_representable (ov_Metadata version).

Lemma scan_version_row version n : storable version → scanObject (version_row version n) = version.
Proof.
  intros [Ht Hm]. unfold scanObject, version_row. cbn.
  rewrite (proj2 (String.eqb_neq _ _)) by apply json_nonempty.
  rewrite json_round_trip, parse_formatTime, boolInt_back by done. by destruct version.
Qed.

Lemma scan_set_metadata json row : json ≠ "" →
  scanObject (set_metadata json row) = set_ov_Metadata (default ∅ (json_Unmarshal json)) (scanObject row).
Proof. intros Hj. unfold scanObject, set_metadata, set_ov_Metadata. cbn. by rewrite (proj2 (String.eqb_neq _ _)) by done. Qed.

Lemma scan_bucket_row b : in_years (b_CreatedAt b) → b_VersioningStatus b ≠ "" → scanBucket (bucket_row b) = b.
Proof.
  intros Ht Hs. unfold scanBucket, bucket_row, defaultVersioning. cbn.
  rewrite (proj2 (String.eqb_neq _ _)), parse_formatTime by done. by destruct b.
Qed.

Lemma scan_upload_row u : in_years (mu_InitiatedAt u) → scanMultipartUpload (upload_row u) = u.
Proof. intros Ht. unfold scanMultipartUpload, upload_row. cbn. rewrite parse_formatTime by done. by destruct u. Qed.

Lemma scan_part_row p : in_years (mp_CreatedAt p) → scanMultipartPart (part_row p) = p.
Proof. intros Ht. unfold scanMultipartPart, part_row. cbn. rewrite parse_formatTime by done. by destruct p. Qed.

Lemma scan_credential_row r : in_years (cr_CreatedAt r) → in_years (cr_RotatedAt r) →
  scanCredential (credential_row r) = r.
Proof.
  intros Hc Hr. unfold scanCredential, credential_row. cbn.
  rewrite parse_formatTime, parse_formatOptionalTime by done. by destruct r.
Qed.

(** A table of one row per bucket gives back what was put into it. *)
Class SqlTableLaws {A Row} (t : sql_table A Row) (storable_cfg : A → Prop) : Prop := {
  sq_scan_row cfg : storable_cfg cfg → sq_scan t (sq_row t cfg) = cfg;
  sq_get_set m ts : sq_get t (sq_set t m ts) = m;
}.

#[export] Instance website_laws : SqlTableLaws website_rows (λ cfg, json_representable (bw_RoutingRules cfg)).
Proof.
  split; [|done]. intros cfg Hr. cbn. unfold scanWebsite. cbn. rewrite json_round_trip, !boolInt_back by done. by destruct cfg.
Qed.
#[export] Instance cors_laws : SqlTableLaws cors_rows (λ _, True).
Proof. split; [|done]. intros cfg _. cbn. unfold scanCORS. cbn. rewrite boolInt_back. by destruct cfg. Qed.
#[export] Instance policy_laws : SqlTableLaws policy_rows (λ _, True).
Proof. split; [|done]. intros cfg _. cbn. unfold scanPolicy. cbn. rewrite boolInt_back. by destruct cfg. Qed.
#[export] Instance access_laws : SqlTableLaws access_rows (λ _, True).
Proof. split; [|done]. intros cfg _. cbn. unfold scanAccess. cbn. rewrite !boolInt_back. by destruct cfg. Qed.
#[export] Instance lifecycle_laws : SqlTableLaws lifecycle_rows (λ _, True).
Proof. split; [|done]. intros cfg _. cbn. unfold scanLifecycle. cbn. rewrite boolInt_back. by destruct cfg. Qed.
#[export] Instance notification_laws : SqlTableLaws notification_rows (λ _, True).
Proof. split; [|done]. intros cfg _. cbn. unfold scanNotification. cbn. rewrite boolInt_back. by destruct cfg. Qed.
#[export] Instance replication_laws : SqlTableLaws replication_rows (λ _, True).
Proof. split; [|done]. intros cfg _. cbn. unfold scanReplication. cbn. rewrite boolInt_back. by destruct cfg. Qed.
End scans.

(** ** The relation *)
Definition nul_free (s : string) : Prop := Contains s nul = false.

Section models.
Context `{!JsonCodec (gmap string string)} `{!JsonCodec (list BucketWebsiteRoutingRule)}.

Definition rows_of (t : tables) (k : objectKey) : list versionRow :=
  List.filter (row_of_key (ok_bucket k) (ok_key k)) (t_versions t).

(** Rows are in the order of their ordinals, none beyond the sequence. *)
Record ordered_rows (t : tables) : Prop := {
  or_sorted : StronglySorted (λ x y, rv_ordinal x < rv_ordinal y) (t_versions t);
  or_bound : Forall (λ row, rv_ordinal row ≤ t_ordinal t) (t_versions t);
}.

Record sql_models (t : tables) (st : memoryState) : Prop := {
  sm_ordered : ordered_rows t;
  sm_buckets : scanBucket <$> t_buckets t = st_buckets st;
  sm_versions k : scanObject <$> rows_of t k = versions_of st k;
  sm_unique k : NoDup (ov_VersionID <$> versions_of st k);
  sm_uploads : scanMultipartUpload <$> t_uploads t = st_multipart st;
  sm_parts id n : scanMultipartPart <$> t_parts t !! (id, n) = default ∅ (st_parts st !! id) !! n;
  sm_part_keys : map_Forall (λ k row, k = (rp_upload_id row, rp_part_number row)) (t_parts t);
  sm_credentials : scanCredential <$> t_credentials t = st_credentials st;
  sm_websites : scanWebsite <$> t_websites t = st_websites st;
  sm_cors : scanCORS <$> t_cors t = st_cors st;
  sm_policies : scanPolicy <$> t_policies t = st_policies st;
  sm_access : scanAccess <$> t_access t = st_publicAccess st;
  sm_lifecycles : scanLifecycle <$> t_lifecycles t = st_lifecycles st;
  sm_notifications : scanNotification <$> t_notifications t = st_notifications st;
  sm_replications : scanReplication <$> t_replications t = st_replications st;
  sm_taggings bucket key versionID : nul_free key →
    mkObjectTagging bucket key versionID <$> t_taggings t !! (bucket, key, versionID) =
    st_taggings st !! taggingKey bucket key versionID;
}.

Lemma models_empty label : sql_models empty_tables (emptyState label).
Proof.
  split; intros; try done.
  - split; constructor.
  - constructor.
Qed.

(** A table of one row per bucket and the map it stands for. *)
Class Matching {A Row} (t : sql_table A Row) (c : config_table A) : Prop := {
  matching_bucket cfg : sq_bucket t cfg = ct_bucket c cfg;
  matching_get ts st : sql_models ts st → sq_scan t <$> sq_get t ts = ct_get c st;
  matching_set ts st m : sql_models ts st → sql_models (sq_set t m ts) (ct_set c (sq_scan t <$> m) st);
}.

Ltac solve_matching :=
  split; [done|intros ts st []; assumption|
    intros ts st m [Hord]; split; first [assumption | reflexivity | destruct Hord; split; assumption]].

#[export] Instance website_matching : Matching website_rows websites_table.
Proof. solve_matching. Qed.
#[export] Instance cors_matching : Matching cors_rows cors_table.
Proof. solve_matching. Qed.
#[export] Instance policy_matching : Matching policy_rows policies_table.
Proof. solve_matching. Qed.
#[export] Instance access_matching : Matching access_rows publicAccess_table.
Proof. solve_matching. Qed.
#[export] Instance lifecycle_matching : Matching lifecycle_rows lifecycles_table.
Proof. solve_matching. Qed.
#[export] Instance notification_matching : Matching notification_rows notifications_table.
Proof. solve_matching. Qed.
#[export] Instance replication_matching : Matching replication_rows replications_table.
Proof. solve_matching. Qed.
End models.

(** ** Statements when the database answers *)
Section agreement.
Context `{!GoRuntime} `{!SqlDriver} `{!JsonCodec (gmap string string)} `{!JsonCodec (list BucketWebsiteRoutingRule)}.
Variable dialect : sqlDialect.
Hypothesis Hdialect : dialect ≠ sqlDialectMariaDB.

(** The methods of the two stores take related states to related states and give the
    same result. *)
Definition agree {A} (m : M sqlDB A) (m' : M memoryState A) (t : tables) (st : memoryState) : Prop :=
  ∃ t' st' r, m (mkDB t []) = (mkDB t' [], r) ∧ m' st = (st', r) ∧ sql_models t' st'.

(** A query of the tables that answers [r]. *)
Definition answers {A} (m : M sqlDB A) (t : tables) (r : result A) : Prop := m (mkDB t []) = (mkDB t [], r).

(** The runs computed, what is left is the relation of the states. *)
Ltac agreed := do 3 eexists; split; [reflexivity|split; [reflexivity|]].

Lemma query_one_run {A} (f : tables → option A) t :
  answers (query_one f) t (match f t with Some a => Ok a | None => Err ErrNotFound end).
Proof. unfold answers, query_one, select, statement. run_m. by destruct (f t). Qed.

Lemma query_then {A B} (q : M sqlDB A) (m : M sqlDB B) t a : answers q t (Ok a) → (q ;; m) (mkDB t []) = m (mkDB t []).
Proof. unfold answers. intros Hq. run_m. by rewrite Hq. Qed.

Lemma query_fails {A B} (q : M sqlDB A) (m : M sqlDB B) t e : answers q t (Err e) → answers (q ;; m) t (Err e).
Proof. unfold answers. intros Hq. run_m. by rewrite Hq. Qed.

Lemma affecting_run (f : tables → tables * Z) t :
  affecting (exec_stmt f) (mkDB t []) = (mkDB (f t).1 [], requireAffected (f t).2).
Proof. unfold affecting, exec_stmt, statement. run_m. by destruct (f t) as [t' n]. Qed.

Lemma upsert_run `{Countable K} {Row} (get : tables → gmap K Row) (set : gmap K Row → tables → tables) k row t :
  (upsert_row get set k row ;; mret tt) (mkDB t []) = (mkDB (set (<[k := row]> (get t)) t) [], Ok tt).
Proof. unfold upsert_row, exec_stmt, statement. by run_m. Qed.

Lemma mapSQLiteErr_duplicate table : mapSQLiteErr (duplicate_key dialect table) = ErrConflict.
Proof. unfold mapSQLiteErr. by rewrite duplicate_key_text. Qed.

Lemma insert_run `{Countable K} {Row} table (get : tables → gmap K Row) set k row t :
  mapping_errors (insert_row dialect table get set k row) (mkDB t []) =
  match get t !! k with
  | Some _ => (mkDB t [], Err ErrConflict)
  | None => (mkDB (set (<[k := row]> (get t)) t) [], Ok tt)
  end.
Proof.
  unfold mapping_errors, insert_row, statement. run_m. destruct (get t !! k); simpl; [|done].
  by rewrite mapSQLiteErr_duplicate.
Qed.

Lemma delete_row_run `{Countable K} {Row} (get : tables → gmap K Row) set k t :
  affecting (delete_row get set k) (mkDB t []) =
  match get t !! k with
  | Some _ => (mkDB (set (delete k (get t)) t) [], Ok tt)
  | None => (mkDB t [], Err ErrNotFound)
  end.
Proof. unfold delete_row. rewrite affecting_run. by destruct (get t !! k). Qed.

(** ** One component of the state at a time *)
Ltac models_set H :=
  destruct H as [Hord]; split; first [assumption | reflexivity | destruct Hord; split; assumption].

Lemma models_set_buckets t st m : sql_models t st → sql_models (with_buckets m t) (set_buckets (scanBucket <$> m) st).
Proof. intros HR. models_set HR. Qed.

Lemma models_set_uploads t st m :
  sql_models t st → sql_models (with_uploads m t) (set_multipart (scanMultipartUpload <$> m) st).
Proof. intros HR. models_set HR. Qed.

Lemma models_set_credentials t st m :
  sql_models t st → sql_models (with_credentials m t) (set_credentials (scanCredential <$> m) st).
Proof. intros HR. models_set HR. Qed.

Lemma models_set_versions t st rows n objs :
  sql_models t st → ordered_rows (with_versions rows n t) →
  (∀ k, scanObject <$> List.filter (row_of_key (ok_bucket k) (ok_key k)) rows = versions_of (set_objects objs st) k) →
  (∀ k, NoDup (ov_VersionID <$> versions_of (set_objects objs st) k)) →
  sql_models (with_versions rows n t) (set_objects objs st).
Proof. intros [] Ho Hv Hu. split; assumption. Qed.

Lemma models_set_parts t st m parts :
  sql_models t st → map_Forall (λ k row, k = (rp_upload_id row, rp_part_number row)) m →
  (∀ id n, scanMultipartPart <$> m !! (id, n) = default ∅ (parts !! id) !! n) →
  sql_models (with_parts m t) (set_parts parts st).
Proof. intros HR Hk Hp. models_set HR. Qed.

Lemma models_set_taggings t st m taggings :
  sql_models t st →
  (∀ bucket key versionID, nul_free key → mkObjectTagging bucket key versionID <$> m !! (bucket, key, versionID) =
     taggings !! taggingKey bucket key versionID) →
  sql_models (with_taggings m t) (set_taggings taggings st).
Proof. intros HR Ht. models_set HR. Qed.

(** ** Buckets *)
Lemma sql_bucket_lookup t st name : sql_models t st → st_buckets st !! name = scanBucket <$> t_buckets t !! name.
Proof. intros HR. by rewrite <-(sm_buckets _ _ HR), lookup_fmap. Qed.

Lemma GetBucket_answers t st name : sql_models t st →
  answers (sql_GetBucket name) t (match st_buckets st !! name with Some b => Ok b | None => Err ErrNotFound end).
Proof. intros HR. rewrite (sql_bucket_lookup t st) by done. exact (query_one_run (λ t, scanBucket <$> t_buckets t !! name) t). Qed.

Lemma agree_CreateBucket bucket t st : sql_models t st →
  b_Name bucket ≠ "" → b_VersioningStatus bucket ≠ "" → in_years (b_CreatedAt bucket) →
  agree (sql_CreateBucket dialect bucket) (createBucket bucket) t st.
Proof.
  intros HR Hn Hs Ht. unfold agree, sql_CreateBucket, createBucket. rewrite insert_run.
  rewrite (proj2 (String.eqb_neq _ _)), (sql_bucket_lookup t st) by done.
  destruct (t_buckets t !! b_Name bucket) eqn:E; simpl.
  - by agreed.
  - agreed.
    assert (<[b_Name bucket := bucket]> (st_buckets st) =
      scanBucket <$> <[b_Name bucket := bucket_row bucket]> (t_buckets t)) as ->
      by (by rewrite fmap_insert, scan_bucket_row, (sm_buckets _ _ HR)).
    by apply models_set_buckets.
Qed.

(** No configuration is kept for the bucket. *)
Definition unconfigured (st : memoryState) (bucket : string) : Prop :=
  st_websites st !! bucket = None ∧ st_cors st !! bucket = None ∧ st_policies st !! bucket = None ∧
  st_publicAccess st !! bucket = None ∧ st_lifecycles st !! bucket = None ∧
  st_notifications st !! bucket = None ∧ st_replications st !! bucket = None.

Lemma set_delete_id {A} (c : config_table A) bucket st (m : gmap string A) :
  (∀ s, ct_set c (ct_get c s) s = s) → ct_get c st = m → m !! bucket = None → ct_set c (delete bucket m) st = st.
Proof. intros Hc <- Hb. by rewrite delete_id. Qed.

Lemma set_get_id st : set_websites (st_websites st) st = st ∧ set_cors (st_cors st) st = st ∧
  set_policies (st_policies st) st = st ∧ set_publicAccess (st_publicAccess st) st = st ∧
  set_lifecycles (st_lifecycles st) st = st ∧ set_notifications (st_notifications st) st = st ∧
  set_replications (st_replications st) st = st.
Proof. by destruct st. Qed.

Lemma delete_unconfigured st bucket : unconfigured st bucket →
  locked_DeleteBucket bucket st = tx_DeleteBucket bucket st ∧
  tx_DeleteBucket bucket st =
    match st_buckets st !! bucket with
    | None => (st, Err ErrNotFound)
    | Some _ => (set_buckets (delete bucket (st_buckets st)) st, Ok tt)
    end.
Proof.
  intros (? & ? & ? & ? & ? & ? & ?). unfold locked_DeleteBucket, tx_DeleteBucket.
  destruct (st_buckets st !! bucket); [|done]. set (s1 := set_buckets _ st).
  assert (set_websites (delete bucket (st_websites st)) s1 = s1) as ->
    by (apply (set_delete_id websites_table); [intros ?; apply set_get_id|done..]).
  assert (set_cors (delete bucket (st_cors st)) s1 = s1) as ->
    by (apply (set_delete_id cors_table); [intros ?; apply set_get_id|done..]).
  assert (set_policies (delete bucket (st_policies st)) s1 = s1) as ->
    by (apply (set_delete_id policies_table); [intros ?; apply set_get_id|done..]).
  assert (set_publicAccess (delete bucket (st_publicAccess st)) s1 = s1) as ->
    by (apply (set_delete_id publicAccess_table); [intros ?; apply set_get_id|done..]).
  assert (set_lifecycles (delete bucket (st_lifecycles st)) s1 = s1) as ->
    by (apply (set_delete_id lifecycles_table); [intros ?; apply set_get_id|done..]).
  assert (set_notifications (delete bucket (st_notifications st)) s1 = s1) as ->
    by (apply (set_delete_id notifications_table); [intros ?; apply set_get_id|done..]).
  assert (set_replications (delete bucket (st_replications st)) s1 = s1) as ->
    by (apply (set_delete_id replications_table); [intros ?; apply set_get_id|done..]).
  done.
Qed.

Lemma agree_DeleteBucket bucket t st : sql_models t st → unconfigured st bucket →
  agree (sql_DeleteBucket bucket) (tx_DeleteBucket bucket) t st.
Proof.
  intros HR Hu. unfold agree, sql_DeleteBucket. rewrite delete_row_run, (proj2 (delete_unconfigured _ _ Hu)).
  rewrite (sql_bucket_lookup t st) by done. destruct (t_buckets t !! bucket) eqn:E; simpl.
  - agreed. rewrite <-(sm_buckets _ _ HR), <-fmap_delete. by apply models_set_buckets.
  - by agreed.
Qed.

Lemma agree_UpdateBucketVersioning bucket status t st : sql_models t st →
  agree (sql_UpdateBucketVersioning bucket status) (tx_UpdateBucketVersioning bucket status) t st.
Proof.
  intros HR. unfold agree, sql_UpdateBucketVersioning, tx_UpdateBucketVersioning. rewrite affecting_run.
  rewrite (sql_bucket_lookup t st) by done. destruct (t_buckets t !! bucket) as [row|] eqn:E; simpl.
  - agreed.
    change (set_b_VersioningStatus status (scanBucket row)) with
      (scanBucket (mkBucketRow (rb_name row) (rb_created_at row) (rb_region row) status)).
    rewrite <-(sm_buckets _ _ HR), <-fmap_insert. by apply models_set_buckets.
  - by agreed.
Qed.

(** ** Rows of one key *)
Lemma filter_fmap {A B} (f : A → B) (p : B → bool) l : List.filter p (f <$> l) = f <$> List.filter (λ x, p (f x)) l.
Proof. induction l as [|x l IH]; csimpl; [done|]. rewrite IH. by destruct (p (f x)). Qed.

Lemma filter_filter {A} (p q : A → bool) l : List.filter p (List.filter q l) = List.filter (λ x, q x && p x) l.
Proof. induction l as [|x l IH]; simpl; [done|]. destruct (q x); simpl; [|done]. destruct (p x); by rewrite IH. Qed.

Lemma filter_iff {A} (p q : A → bool) l : (∀ x, p x = q x) → List.filter p l = List.filter q l.
Proof. intros Hpq. induction l as [|x l IH]; simpl; [done|]. by rewrite Hpq, IH. Qed.

Lemma row_of_key_true bucket key row :
  row_of_key bucket key row = true ↔ rv_bucket row = bucket ∧ rv_object_key row = key.
Proof. unfold row_of_key. by rewrite andb_true_iff, !String.eqb_eq. Qed.

(** Removing versions of one key leaves the others. *)
Lemma filter_other_key k bucket key (p q : versionRow → bool) rows :
  (∀ row, p row = row_of_key bucket key row && q row) → k ≠ mkObjectKey bucket key →
  List.filter (row_of_key (ok_bucket k) (ok_key k)) (List.filter (λ row, negb (p row)) rows) =
  List.filter (row_of_key (ok_bucket k) (ok_key k)) rows.
Proof.
  intros Hp Hne. rewrite filter_filter. apply filter_iff. intros row. rewrite Hp.
  destruct (row_of_key (ok_bucket k) (ok_key k) row) eqn:E; [|by rewrite andb_false_r].
  destruct (row_of_key bucket key row) eqn:E'; [|done].
  apply row_of_key_true in E as [E1 E2], E' as [E3 E4]. destruct k. simpl in *. congruence.
Qed.

Lemma filter_same_key bucket key (p q : versionRow → bool) rows :
  (∀ row, p row = row_of_key bucket key row && q row) →
  List.filter (row_of_key bucket key) (List.filter (λ row, negb (p row)) rows) =
  List.filter (λ row, negb (q row)) (List.filter (row_of_key bucket key) rows).
Proof.
  intros Hp. rewrite !filter_filter. apply filter_iff. intros row. rewrite Hp. destruct (row_of_key bucket key row); simpl; by rewrite ?andb_true_r, ?andb_false_r.
Qed.

Lemma StronglySorted_List_filter {A} (R : A → A → Prop) (p : A → bool) l :
  StronglySorted R l → StronglySorted R (List.filter p l).
Proof.
  induction 1 as [|x l Hl IH Hx]; simpl; [constructor|]. destruct (p x); [|done].
  constructor; [done|]. by apply Forall_List_filter.
Qed.

Lemma ordered_filter (p : versionRow → bool) t : ordered_rows t →
  ordered_rows (with_versions (List.filter p (t_versions t)) (t_ordinal t) t).
Proof. intros [Hs Hb]. split; simpl; [by apply StronglySorted_List_filter|by apply Forall_List_filter]. Qed.

Lemma StronglySorted_snoc_lt l row n : StronglySorted (λ x y : versionRow, rv_ordinal x < rv_ordinal y) l →
  Forall (λ r, rv_ordinal r ≤ n) l → n < rv_ordinal row →
  StronglySorted (λ x y, rv_ordinal x < rv_ordinal y) (l ++ [row]).
Proof.
  intros Hs Hb Hn. apply StronglySorted_app. split_and!; [|done|by repeat constructor].
  intros x y Hx ->%list_elem_of_singleton. rewrite Forall_forall in Hb. specialize (Hb x Hx). simpl in *. lia.
Qed.

Lemma ordered_insert version t : ordered_rows t →
  ordered_rows (with_versions (t_versions t ++ [version_row version (t_ordinal t + 1)]) (t_ordinal t + 1) t).
Proof.
  intros [Hs Hb]. split; simpl.
  - eapply StronglySorted_snoc_lt; [done..|]. simpl. lia.
  - apply Forall_app. split; [eapply Forall_impl; [exact Hb|]; simpl; intros; lia|]. repeat constructor; simpl; lia.
Qed.

(** Statements on the versions, computed. *)
Lemma delete_versions_run p t :
  mapping_errors (delete_versions p) (mkDB t []) =
  (mkDB (with_versions (List.filter (λ row, negb (p row)) (t_versions t)) (t_ordinal t) t) [], Ok tt).
Proof. unfold mapping_errors, delete_versions, exec_stmt, statement. by run_m. Qed.

Lemma insert_version_run version t : identity_taken dialect version t = false →
  mapping_errors (insert_version dialect version) (mkDB t []) =
  (mkDB (with_versions (t_versions t ++ [version_row version (t_ordinal t + 1)]) (t_ordinal t + 1) t) [], Ok tt).
Proof. intros Hi. unfold mapping_errors, insert_version, statement. run_m. by rewrite Hi. Qed.

Lemma versions_of_rows t st k id : sql_models t st →
  existsb (row_of_version (ok_bucket k) (ok_key k) id) (t_versions t) =
  existsb (is_version id) (versions_of st k).
Proof.
  intros HR. rewrite <-(sm_versions _ _ HR). unfold rows_of, row_of_version.
  induction (t_versions t) as [|row rows IH]; [done|]. simpl. rewrite IH.
  destruct (row_of_key (ok_bucket k) (ok_key k) row); csimpl; [|done].
  by unfold is_version, scanObject.
Qed.

Lemma NoDup_ids_filter (p : ObjectVersion → bool) vs :
  NoDup (ov_VersionID <$> vs) → NoDup (ov_VersionID <$> List.filter p vs).
Proof.
  induction vs as [|v vs IH]; csimpl; [done|]. intros [Hv Hvs]%NoDup_cons. destruct (p v); [|by apply IH].
  csimpl. apply NoDup_cons. split; [|by apply IH]. intros Hin. apply Hv.
  apply list_elem_of_fmap in Hin as (w & -> & Hw). apply list_elem_of_fmap. exists w. split; [done|].
  apply list_elem_of_In, filter_In in Hw as [Hw _]. by apply list_elem_of_In.
Qed.

Lemma unique_kept version st k t : sql_models t st →
  NoDup (ov_VersionID <$> kept_versions version (versions_of st k)).
Proof.
  intros HR. unfold kept_versions. pose proof (sm_unique _ _ HR k) as Hu. destruct (is_null_version version); [|done].
  by apply NoDup_ids_filter.
Qed.

Lemma existsb_is_version id vs : existsb (is_version id) vs = false → id ∉ ov_VersionID <$> vs.
Proof.
  intros He Hin. apply list_elem_of_fmap in Hin as (v & -> & Hv). apply list_elem_of_In in Hv.
  assert (existsb (is_version (ov_VersionID v)) vs = true); [|congruence].
  apply existsb_exists. exists v. split; [done|]. unfold is_version. apply String.eqb_refl.
Qed.

Lemma models_put t st version rows n : sql_models t st → storable version →
  (∀ k, k ≠ mkObjectKey (ov_Bucket version) (ov_Key version) →
     List.filter (row_of_key (ok_bucket k) (ok_key k)) rows = rows_of t k) →
  scanObject <$> List.filter (row_of_key (ov_Bucket version) (ov_Key version)) rows =
    kept_versions version (versions_of st (mkObjectKey (ov_Bucket version) (ov_Key version))) →
  existsb (is_version (ov_VersionID version))
    (kept_versions version (versions_of st (mkObjectKey (ov_Bucket version) (ov_Key version)))) = false →
  ordered_rows (with_versions (rows ++ [version_row version n]) n t) →
  sql_models (with_versions (rows ++ [version_row version n]) n t) (putObjectVersion version st).
Proof.
  intros HR Hs Hother Hsame Hfresh Hord. rewrite putObjectVersion_eq. cbv zeta.
  set (k0 := mkObjectKey (ov_Bucket version) (ov_Key version)) in *.
  apply models_set_versions; [done|done| |].
  - intros k. rewrite List.filter_app, fmap_app. destruct (decide (k = k0)) as [->|Hne].
    + rewrite versions_of_set_objects_eq. simpl ok_bucket; simpl ok_key. rewrite Hsame. f_equal.
      cbn [List.filter]. rewrite (proj2 (row_of_key_true _ _ (version_row version n))) by done.
      csimpl. by rewrite scan_version_row.
    + rewrite versions_of_set_objects_ne, <-(sm_versions _ _ HR), Hother by done.
      cbn [List.filter]. destruct (row_of_key _ _ (version_row version n)) eqn:E; [|by rewrite app_nil_r].
      apply row_of_key_true in E as [E1 E2]. simpl in E1, E2. destruct k; simpl in *. unfold k0 in Hne. congruence.
  - intros k. destruct (decide (k = k0)) as [->|Hne].
    + rewrite versions_of_set_objects_eq, fmap_app. apply NoDup_app. split; [by eapply unique_kept|].
      split; [|by repeat constructor; set_solver].
      intros id Hid. csimpl. rewrite list_elem_of_singleton. intros ->. by apply existsb_is_version in Hfresh.
    + rewrite versions_of_set_objects_ne by done. apply (sm_unique _ _ HR).
Qed.

(** The identity of a version is free, or it is the null version, which is replaced. *)
Definition fresh_version (st : memoryState) (version : ObjectVersion) : Prop :=
  ov_VersionID version = "null" ∨
  existsb (is_version (ov_VersionID version))
    (versions_of st (mkObjectKey (ov_Bucket version) (ov_Key version))) = false.

Lemma agree_PutObjectVersion version t st : sql_models t st → storable version → fresh_version st version →
  agree (sqlitePutObjectVersion dialect version) (tx_PutObjectVersion version) t st.
Proof.
  intros HR Hs Hf. unfold sqlitePutObjectVersion, tx_PutObjectVersion.
  set (k := mkObjectKey (ov_Bucket version) (ov_Key version)).
  assert (Hk : is_null_version version = String.eqb (ov_VersionID version) "null") by done.
  destruct (String.eqb_spec (ov_VersionID version) "null") as [Hid|Hid].
  - set (p := row_of_version (ov_Bucket version) (ov_Key version) (ov_VersionID version)).
    set (t1 := with_versions (List.filter (λ row, negb (p row)) (t_versions t)) (t_ordinal t) t).
    assert (Hsame : scanObject <$> List.filter (row_of_key (ov_Bucket version) (ov_Key version)) (t_versions t1) =
      kept_versions version (versions_of st k)).
    { unfold t1. cbn [t_versions with_versions]. rewrite (filter_same_key _ _ p (λ row, String.eqb (rv_version_id row) (ov_VersionID version))) by done. unfold kept_versions, filter_not_null.
      rewrite Hk, <-(sm_versions _ _ HR), filter_fmap. f_equal. apply filter_iff. intros row. by rewrite Hid. }
    assert (Hfree : existsb (is_version (ov_VersionID version)) (kept_versions version (versions_of st k)) = false).
    { unfold kept_versions. rewrite Hk, Hid. pose proof (filter_not_null_no_null (versions_of st k)) as Hn.
      apply not_true_iff_false. intros (v & Hv & Hv')%existsb_exists. apply List_filter_length_le with (x := v) in Hn; [|by apply list_elem_of_In].
      unfold is_version in Hv'. unfold is_null_version in Hn. congruence. }
    exists (with_versions (t_versions t1 ++ [version_row version (t_ordinal t1 + 1)]) (t_ordinal t1 + 1) t1),
      (putObjectVersion version st), (Ok tt). split_and!; [|done|].
    + unfold mbind at 1, M_bind. fold p. rewrite delete_versions_run. fold t1. rewrite insert_version_run; [done|].
      unfold identity_taken. by rewrite Hid, andb_false_r.
    + apply (models_put t st version (t_versions t1)); [done|done| |exact Hsame|exact Hfree|].
      * intros k' Hne. unfold t1. cbn [t_versions with_versions].
        apply (filter_other_key k' (ov_Bucket version) (ov_Key version) p (λ row, String.eqb (rv_version_id row) (ov_VersionID version))); done.
      * apply (ordered_insert version t1), ordered_filter, (sm_ordered _ _ HR).
  - destruct Hf as [|Hf]; [done|]. fold k in Hf.
    exists (with_versions (t_versions t ++ [version_row version (t_ordinal t + 1)]) (t_ordinal t + 1) t),
      (putObjectVersion version st), (Ok tt). split_and!; [|done|].
    + unfold mbind at 1, M_bind, mret at 1, M_ret. rewrite insert_version_run; [done|].
      unfold identity_taken. rewrite (versions_of_rows t st k) by done. rewrite Hf. by rewrite andb_false_r.
    + apply (models_put t st version (t_versions t)); [done|done|done| | |by apply ordered_insert, (sm_ordered _ _ HR)].
      * unfold kept_versions. rewrite Hk. apply (sm_versions _ _ HR k).
      * unfold kept_versions. by rewrite Hk.
Qed.

(** ** The first match is the only one *)
Lemma update_first_unique id (f : ObjectVersion → ObjectVersion) vs : NoDup (ov_VersionID <$> vs) →
  update_first (is_version id) f vs =
  if existsb (is_version id) vs then Some ((λ v, if is_version id v then f v else v) <$> vs) else None.
Proof.
  induction vs as [|v vs IH]; csimpl; [done|]. intros [Hv Hvs]%NoDup_cons.
  destruct (is_version id v) eqn:E; simpl.
  - do 2 f_equal. apply String.eqb_eq in E as <-. clear IH Hvs. induction vs as [|w vs IH]; [done|]. csimpl in *.
    apply not_elem_of_cons in Hv as [Hw Hv]. unfold is_version at 1.
    rewrite (proj2 (String.eqb_neq _ _)) by done. f_equal. by apply IH.
  - rewrite IH by done. by destruct (existsb _ vs).
Qed.

Lemma remove_first_unique id vs : NoDup (ov_VersionID <$> vs) →
  remove_first (is_version id) vs =
  match List.find (is_version id) vs with
  | Some v => Some (v, List.filter (λ v, negb (is_version id v)) vs)
  | None => None
  end.
Proof.
  induction vs as [|v vs IH]; csimpl; [done|]. intros [Hv Hvs]%NoDup_cons.
  destruct (is_version id v) eqn:E; simpl.
  - do 2 f_equal. apply String.eqb_eq in E as <-. clear IH Hvs. induction vs as [|w vs IH]; [done|]. csimpl in *.
    apply not_elem_of_cons in Hv as [Hw Hv]. unfold is_version at 1.
    rewrite (proj2 (String.eqb_neq _ _)) by done. simpl. f_equal. by apply IH.
  - rewrite IH by done. by destruct (List.find _ vs).
Qed.

Lemma find_existsb {A} (p : A → bool) l :
  existsb p l = match List.find p l with Some _ => true | None => false end.
Proof. induction l as [|x l IH]; simpl; [done|]. by destruct (p x). Qed.

Lemma filter_nil_existsb {A} (p : A → bool) l : existsb p l = negb (Z.of_nat (length (List.filter p l)) =? 0).
Proof. induction l as [|x l IH]; simpl; [done|]. destruct (p x); [|done]. simpl. by destruct (length _). Qed.

Lemma requireAffected_filter {A} (p : A → bool) l :
  requireAffected (Z.of_nat (length (List.filter p l))) = if existsb p l then Ok tt else Err ErrNotFound.
Proof. unfold requireAffected. rewrite filter_nil_existsb. by destruct (_ =? 0). Qed.

Lemma filter_none {A} (p : A → bool) l : existsb p l = false → List.filter (λ x, negb (p x)) l = l.
Proof.
  induction l as [|x l IH]; simpl; [done|]. destruct (p x); simpl; [done|]. intros Hp. by rewrite IH.
Qed.

Lemma with_versions_same t : with_versions (t_versions t) (t_ordinal t) t = t.
Proof. by destruct t. Qed.

Lemma fmap_none {A} (p : A → bool) (f : A → A) l : existsb p l = false → (λ x, if p x then f x else x) <$> l = l.
Proof.
  induction l as [|x l IH]; csimpl; [done|]. destruct (p x); simpl; [done|]. intros Hp. by rewrite IH.
Qed.

Lemma StronglySorted_fmap_ordinal (f : versionRow → versionRow) l : (∀ x, rv_ordinal (f x) = rv_ordinal x) →
  StronglySorted (λ x y, rv_ordinal x < rv_ordinal y) l → StronglySorted (λ x y, rv_ordinal x < rv_ordinal y) (f <$> l).
Proof.
  intros Hf. induction 1 as [|x l Hl IH Hx]; csimpl; constructor; [done|].
  apply Forall_fmap. eapply Forall_impl; [exact Hx|]. intros y. simpl. by rewrite !Hf.
Qed.

Lemma filter_fmap_same {A} (p : A → bool) (f : A → A) l : (∀ x, p (f x) = p x) →
  List.filter p (f <$> l) = f <$> List.filter p l.
Proof. intros Hf. rewrite filter_fmap. f_equal. by apply filter_iff. Qed.

Lemma agree_UpdateObjectMetadata bucket key id md t st : sql_models t st → json_representable md →
  agree (sql_UpdateObjectMetadata bucket key id md) (locked_UpdateObjectMetadata bucket key id md) t st.
Proof.
  intros HR Hmd. set (k := mkObjectKey bucket key). set (p := row_of_version bucket key id).
  set (g := λ row, if p row then set_metadata (json_Marshal md) row else row).
  assert (Hg : ∀ row, rv_ordinal (g row) = rv_ordinal row) by (intros; unfold g; by destruct (p row)).
  unfold sql_UpdateObjectMetadata, agree. rewrite affecting_run. fold p g. cbn [fst snd]. rewrite requireAffected_filter.
  unfold locked_UpdateObjectMetadata. fold k.
  rewrite update_first_unique, copyStringMap_id by apply (sm_unique _ _ HR).
  pose proof (versions_of_rows t st k id HR) as Hrows. change (existsb p (t_versions t) = existsb (is_version id) (versions_of st k)) in Hrows.
  rewrite Hrows.
  destruct (existsb (is_version id) (versions_of st k)) eqn:Ex.
  - do 3 eexists. split; [reflexivity|]. split; [reflexivity|].
    assert (Hids : ∀ vs : list ObjectVersion, ov_VersionID <$> ((λ v, if is_version id v then set_ov_Metadata md v else v) <$> vs) =
      ov_VersionID <$> vs).
    { intros vs. rewrite <-list_fmap_compose. apply list_fmap_ext. intros _ v _. simpl. by destruct (is_version id v). }
    apply models_set_versions; [done| | |].
    + destruct (sm_ordered _ _ HR) as [Hs Hb]. split; simpl; [by apply StronglySorted_fmap_ordinal|].
      apply Forall_fmap. eapply Forall_impl; [exact Hb|]. intros row. simpl. by rewrite Hg.
    + intros k'. rewrite filter_fmap_same by (intros row; unfold g; by destruct (p row)).
      destruct (decide (k' = k)) as [->|Hne].
      * rewrite versions_of_set_objects_eq, <-(sm_versions _ _ HR), <-!list_fmap_compose. unfold rows_of.
        apply list_fmap_ext. intros i row Hrow. simpl. apply list_elem_of_lookup_2, list_elem_of_In, filter_In in Hrow as [_ Hrow].
        unfold g, p, row_of_version. simpl in Hrow. rewrite Hrow. unfold is_version. simpl.
        destruct (String.eqb (rv_version_id row) id); [|done].
        rewrite scan_set_metadata by apply json_nonempty. by rewrite json_round_trip.
      * rewrite versions_of_set_objects_ne by done. rewrite <-(sm_versions _ _ HR). unfold rows_of. f_equal.
        etrans; [|apply list_fmap_id]. apply list_fmap_ext. intros i row Hrow.
        apply list_elem_of_lookup_2, list_elem_of_In, filter_In in Hrow as [_ Hrow]. unfold g, p, row_of_version.
        destruct (row_of_key bucket key row) eqn:E; [|done]. apply row_of_key_true in E as [E1 E2].
        apply row_of_key_true in Hrow as [E3 E4]. destruct k'. simpl in *. unfold k in Hne. congruence.
    + intros k'. destruct (decide (k' = k)) as [->|Hne].
      * rewrite versions_of_set_objects_eq, Hids. apply (sm_unique _ _ HR).
      * rewrite versions_of_set_objects_ne by done. apply (sm_unique _ _ HR).
  - do 3 eexists. split; [reflexivity|]. split; [reflexivity|].
    unfold g. rewrite fmap_none; [by rewrite with_versions_same|done].
Qed.

(** ** Rows in the order of their ordinals *)
Definition ascending (x y : versionRow) : bool := rv_ordinal x <? rv_ordinal y.

Lemma ascending_strict_weak : StrictWeak ascending.
Proof. split; unfold ascending; intros; rewrite ?Z.ltb_lt, ?Z.ltb_ge in *; lia. Qed.

Lemma newest_first_strict_weak : StrictWeak newest_first.
Proof. split; unfold newest_first; intros; rewrite ?Z.ltb_lt, ?Z.ltb_ge in *; lia. Qed.

Lemma ordinals_distinct l x y : StronglySorted (λ x y : versionRow, rv_ordinal x < rv_ordinal y) l →
  x ∈ l → y ∈ l → rv_ordinal x = rv_ordinal y → x = y.
Proof.
  induction 1 as [|z l Hl IH Hz]; [by intros ?%elem_of_nil|]. rewrite Forall_forall in Hz.
  intros [->|Hx]%elem_of_cons [->|Hy]%elem_of_cons Ho; [done| | |by apply IH].
  - specialize (Hz _ Hy). simpl in Hz. lia.
  - specialize (Hz _ Hx). simpl in Hz. lia.
Qed.

Lemma rows_of_sorted t k : ordered_rows t → StronglySorted (λ x y, rv_ordinal x < rv_ordinal y) (rows_of t k).
Proof. intros Ho. apply StronglySorted_List_filter, Ho. Qed.

Lemma sort_ascending l : StronglySorted (λ x y, rv_ordinal x < rv_ordinal y) l → sort_slice ascending l = l.
Proof.
  intros Hs. apply sort_slice_unique; [apply ascending_strict_weak|done| |].
  - intros x y Hx Hy Hxy Hyx. eapply ordinals_distinct; [done..|].
    unfold ascending in *. rewrite Z.ltb_ge in *. lia.
  - eapply StronglySorted_weaken; [|exact Hs]. intros x y. unfold not_after, ascending. rewrite Z.ltb_ge. lia.
Qed.

Lemma StronglySorted_reverse {A} (R : A → A → Prop) l : StronglySorted R l → StronglySorted (flip R) (reverse l).
Proof.
  induction 1 as [|x l Hl IH Hx]; [constructor|]. rewrite reverse_cons. apply StronglySorted_app. split_and!; [|done|by repeat constructor].
  intros y z Hy ->%list_elem_of_singleton. rewrite elem_of_reverse in Hy. rewrite Forall_forall in Hx. by apply Hx.
Qed.

Lemma sort_newest_first l : StronglySorted (λ x y, rv_ordinal x < rv_ordinal y) l → sort_slice newest_first l = reverse l.
Proof.
  intros Hs. apply sort_slice_unique; [apply newest_first_strict_weak|by rewrite reverse_Permutation| |].
  - intros x y Hx Hy Hxy Hyx. eapply ordinals_distinct; [done..|].
    unfold newest_first in *. rewrite Z.ltb_ge in *. lia.
  - eapply StronglySorted_weaken; [|by apply StronglySorted_reverse]. intros x y. unfold not_after, newest_first, flip.
    rewrite Z.ltb_ge. lia.
Qed.

Lemma last_fmap {A B} (f : A → B) l : last (f <$> l) = f <$> last l.
Proof. by rewrite fmap_last. Qed.

(** ** Reading versions *)
Lemma GetLatest_answers bucket key t st : sql_models t st →
  answers (sql_GetLatestObjectVersion bucket key) t
    (match last (versions_of st (mkObjectKey bucket key)) with Some v => Ok v | None => Err ErrNotFound end).
Proof.
  intros HR. rewrite <-(sm_versions _ _ HR), last_fmap. unfold rows_of. simpl.
  rewrite <-head_reverse, <-sort_newest_first by apply (rows_of_sorted t (mkObjectKey bucket key)), (sm_ordered _ _ HR).
  exact (query_one_run (λ t, scanObject <$> head (sort_slice newest_first (List.filter (row_of_key bucket key) (t_versions t)))) t).
Qed.

Lemma find_singleton id vs : NoDup (ov_VersionID <$> vs) →
  List.filter (is_version id) vs = option_list (List.find (is_version id) vs).
Proof.
  induction vs as [|v vs IH]; csimpl; [done|]. intros [Hv Hvs]%NoDup_cons. destruct (is_version id v) eqn:E; [|by apply IH].
  simpl. f_equal. apply String.eqb_eq in E as <-. apply List_filter_nil. intros w Hw. apply String.eqb_neq. intros Hid.
  apply Hv. rewrite <-Hid. apply list_elem_of_fmap. by exists w.
Qed.

Lemma rows_of_version_scan bucket key id t st : sql_models t st →
  scanObject <$> List.filter (row_of_version bucket key id) (t_versions t) =
  option_list (List.find (is_version id) (versions_of st (mkObjectKey bucket key))).
Proof.
  intros HR. rewrite <-find_singleton by apply (sm_unique _ _ HR). rewrite <-(sm_versions _ _ HR), filter_fmap.
  unfold rows_of. by rewrite filter_filter.
Qed.

Lemma GetObjectVersion_answers bucket key id t st : sql_models t st → id ≠ "" →
  answers (sql_GetObjectVersion bucket key id) t
    (match List.find (is_version id) (versions_of st (mkObjectKey bucket key)) with Some v => Ok v | None => Err ErrNotFound end).
Proof.
  intros HR Hid. unfold sql_GetObjectVersion. rewrite (proj2 (String.eqb_neq _ _)) by done.
  pose proof (rows_of_version_scan bucket key id t st HR) as Hscan.
  set (rows := List.filter (row_of_version bucket key id) (t_versions t)) in *.
  assert (Hhead : scanObject <$> head (range_order rows) = List.find (is_version id) (versions_of st (mkObjectKey bucket key))).
  { destruct (List.find _ _) as [v|]; simpl in Hscan.
    - destruct rows as [|row [|? ?]]; try done. pose proof (range_order_perm [row]) as Hp.
      apply Permutation_singleton_r in Hp as ->. simpl. by injection Hscan as ->.
    - destruct rows; [|done]. pose proof (range_order_perm (@nil versionRow)) as Hp. by apply Permutation_nil_r in Hp as ->. }
  rewrite <-Hhead. unfold rows.
  exact (query_one_run (λ t, scanObject <$> head (range_order (List.filter (row_of_version bucket key id) (t_versions t)))) t).
Qed.

(** ** Deleting versions *)
Lemma versions_of_delete_eq st k : versions_of (set_objects (delete k (st_objects st)) st) k = [].
Proof. unfold versions_of; simpl. by rewrite lookup_delete_eq. Qed.

Lemma versions_of_delete_ne st k k' : k ≠ k' → versions_of (set_objects (delete k (st_objects st)) st) k' = versions_of st k'.
Proof. intros. unfold versions_of; simpl. by rewrite lookup_delete_ne. Qed.

(** The rows of some versions of a key go, and the key keeps the others. *)
Lemma models_delete bucket key (p q : versionRow → bool) (keep : ObjectVersion → bool) t st objs :
  sql_models t st → (∀ row, p row = row_of_key bucket key row && q row) →
  (∀ row, keep (scanObject row) = negb (q row)) →
  (∀ k, k ≠ mkObjectKey bucket key → versions_of (set_objects objs st) k = versions_of st k) →
  versions_of (set_objects objs st) (mkObjectKey bucket key) = List.filter keep (versions_of st (mkObjectKey bucket key)) →
  sql_models (with_versions (List.filter (λ row, negb (p row)) (t_versions t)) (t_ordinal t) t) (set_objects objs st).
Proof.
  intros HR Hp Hq Hother Hsame. apply models_set_versions; [done|by apply ordered_filter, (sm_ordered _ _ HR)| |].
  - intros k. destruct (decide (k = mkObjectKey bucket key)) as [->|Hne].
    + simpl. rewrite (filter_same_key _ _ _ q), Hsame, <-(sm_versions _ _ HR), filter_fmap by done. f_equal.
      apply filter_iff. intros row. by rewrite Hq.
    + rewrite (filter_other_key _ bucket key _ q), Hother by done. apply (sm_versions _ _ HR).
  - intros k. destruct (decide (k = mkObjectKey bucket key)) as [->|Hne]; [|rewrite Hother by done; apply (sm_unique _ _ HR)].
    rewrite Hsame. apply NoDup_ids_filter, (sm_unique _ _ HR).
Qed.

Lemma agree_DeleteObjectVersion bucket key id t st : sql_models t st → id ≠ "" →
  agree (sql_DeleteObjectVersion bucket key id) (locked_DeleteObjectVersion bucket key id) t st.
Proof.
  intros HR Hid. set (k := mkObjectKey bucket key). set (p := row_of_version bucket key id).
  unfold locked_DeleteObjectVersion. fold k. unfold agree. rewrite remove_first_unique by apply (sm_unique _ _ HR).
  pose proof (GetObjectVersion_answers bucket key id t st HR Hid) as Hget. fold k in Hget.
  pose proof (versions_of_rows t st k id HR) as Hrows.
  change (existsb p (t_versions t) = existsb (is_version id) (versions_of st k)) in Hrows.
  rewrite (find_existsb _ (versions_of st k)) in Hrows. unfold sql_DeleteObjectVersion.
  destruct (List.find (is_version id) (versions_of st k)) as [v|] eqn:E.
  - set (vs := List.filter (λ v, negb (is_version id v)) (versions_of st k)).
    set (objs := match vs with [] => delete k (st_objects st) | _ => <[k := vs]> (st_objects st) end).
    exists (with_versions (List.filter (λ row, negb (p row)) (t_versions t)) (t_ordinal t) t),
      (set_objects objs st), (Ok v). split_and!.
    + unfold mbind at 1, M_bind. rewrite Hget. unfold mbind, M_bind, delete_versions. rewrite affecting_run. fold p.
      cbn [fst snd]. rewrite requireAffected_filter, Hrows. done.
    + fold vs. unfold objs. by destruct vs.
    + apply (models_delete bucket key p (λ row, String.eqb (rv_version_id row) id) (λ v, negb (is_version id v)));
        [done|done|done| |].
      * intros k' Hne. unfold objs. destruct vs; [by apply versions_of_delete_ne|by apply versions_of_set_objects_ne].
      * unfold objs. fold k vs. destruct vs; [by rewrite versions_of_delete_eq|by rewrite versions_of_set_objects_eq].
  - exists t, st, (Err ErrNotFound). split_and!; [|done|done]. unfold mbind at 1, M_bind. by rewrite Hget.
Qed.

Lemma agree_DeleteAll bucket key t st : sql_models t st →
  agree (sql_DeleteAllObjectVersions bucket key) (locked_DeleteAllObjectVersions bucket key) t st.
Proof.
  intros HR. set (k := mkObjectKey bucket key). unfold locked_DeleteAllObjectVersions, sql_DeleteAllObjectVersions. fold k.
  assert (Hsel : scanObject <$> sort_slice (λ x y, rv_ordinal x <? rv_ordinal y) (List.filter (row_of_key bucket key) (t_versions t)) =
    versions_of st k).
  { rewrite <-(sm_versions _ _ HR). f_equal. apply (sort_ascending (rows_of t k)), rows_of_sorted, (sm_ordered _ _ HR). }
  unfold agree, select, statement. unfold mbind at 1, M_bind. cbn [db_faults db_tables tail]. rewrite Hsel.
  destruct (versions_of st k) as [|v vs] eqn:E; [by exists t, st, (Err ErrNotFound)|].
  exists (with_versions (List.filter (λ row, negb (row_of_key bucket key row)) (t_versions t)) (t_ordinal t) t),
    (set_objects (delete k (st_objects st)) st), (Ok (v :: vs)). split_and!; [done|done|].
  apply (models_delete bucket key _ (λ _, true) (λ _, false)); [done| |done| |].
  - intros row. by rewrite andb_true_r.
  - intros k' Hne. by apply versions_of_delete_ne.
  - fold k. rewrite versions_of_delete_eq. symmetry. by apply List_filter_nil.
Qed.

(** ** Uploads, parts, credentials *)
Lemma upload_lookup t st id : sql_models t st → st_multipart st !! id = scanMultipartUpload <$> t_uploads t !! id.
Proof. intros HR. by rewrite <-(sm_uploads _ _ HR), lookup_fmap. Qed.

Lemma agree_CreateMultipartUpload u t st : sql_models t st → in_years (mu_InitiatedAt u) →
  agree (sql_CreateMultipartUpload dialect u) (tx_CreateMultipartUpload u) t st.
Proof.
  intros HR Ht. unfold agree, sql_CreateMultipartUpload, tx_CreateMultipartUpload. rewrite insert_run, (upload_lookup t st) by done.
  destruct (t_uploads t !! mu_UploadID u) eqn:E; simpl; [by agreed|]. agreed.
  assert (<[mu_UploadID u := u]> (st_multipart st) =
    scanMultipartUpload <$> <[mu_UploadID u := upload_row u]> (t_uploads t)) as ->
    by (by rewrite fmap_insert, scan_upload_row, (sm_uploads _ _ HR)).
  by apply models_set_uploads.
Qed.

Lemma parts_lookup_ne t st id id' n : sql_models t st → id ≠ id' →
  filter (λ e : string * Z * partRow, e.1.1 ≠ id) (t_parts t) !! (id', n) = t_parts t !! (id', n).
Proof.
  intros HR Hne. destruct (t_parts t !! (id', n)) eqn:E.
  - apply map_lookup_filter_Some. split; [done|]. simpl. congruence.
  - apply map_lookup_filter_None. by left.
Qed.

Lemma agreeTx_DeleteMultipartUpload id t st : sql_models t st →
  agree (sqlTx_DeleteMultipartUpload id) (tx_DeleteMultipartUpload id) t st.
Proof.
  intros HR. unfold agree, sqlTx_DeleteMultipartUpload, tx_DeleteMultipartUpload. unfold mbind at 1, M_bind.
  rewrite delete_row_run, (upload_lookup t st) by done.
  destruct (t_uploads t !! id) eqn:E; simpl; [|by agreed].
  agreed. apply models_set_parts.
  - rewrite <-(sm_uploads _ _ HR), <-fmap_delete. by apply models_set_uploads.
  - apply map_Forall_filter_keep, (sm_part_keys _ _ HR).
  - intros id' n. cbn [t_parts with_uploads]. destruct (decide (id = id')) as [<-|Hne].
    + rewrite lookup_delete_eq. simpl. rewrite lookup_empty. apply fmap_None, map_lookup_filter_None. right.
      intros row _. simpl. by intros [].
    + rewrite lookup_delete_ne, <-(sm_parts _ _ HR) by done. f_equal. by apply (parts_lookup_ne t st).
Qed.

Lemma agree_UpsertPart p t st : sql_models t st → in_years (mp_CreatedAt p) →
  is_Some (st_multipart st !! mp_UploadID p) →
  agree (sqlTx_UpsertMultipartPart p) (tx_UpsertMultipartPart p) t st.
Proof.
  intros HR Ht [u Hu]. unfold agree, sqlTx_UpsertMultipartPart, tx_UpsertMultipartPart. rewrite upsert_run, Hu. agreed.
  apply models_set_parts; [done| |].
  - apply map_Forall_insert_2; [done|apply (sm_part_keys _ _ HR)].
  - intros id n. destruct (decide (id = mp_UploadID p)) as [->|Hid].
    + rewrite lookup_insert_eq. simpl. destruct (decide (n = mp_PartNumber p)) as [->|Hn].
      * rewrite !lookup_insert_eq. simpl. by rewrite scan_part_row.
      * rewrite !lookup_insert_ne by congruence. apply (sm_parts _ _ HR).
    + rewrite !lookup_insert_ne by congruence. apply (sm_parts _ _ HR).
Qed.

Lemma agree_UpsertCredential r t st : sql_models t st → in_years (cr_CreatedAt r) → in_years (cr_RotatedAt r) →
  agree (sql_UpsertCredentialRecord r) (tx_UpsertCredentialRecord r) t st.
Proof.
  intros HR Hc Hr. unfold agree, sql_UpsertCredentialRecord, tx_UpsertCredentialRecord. rewrite upsert_run. agreed.
  assert (<[cr_AccessKeyID r := r]> (st_credentials st) =
    scanCredential <$> <[cr_AccessKeyID r := credential_row r]> (t_credentials t)) as ->
    by (by rewrite fmap_insert, scan_credential_row, (sm_credentials _ _ HR)).
  by apply models_set_credentials.
Qed.

(** ** Configurations and tags *)
Section configs.
Context {A Row : Type} (tb : sql_table A Row) (c : config_table A) {ok : A → Prop}.
Context `{!SqlTableLaws tb ok} `{!Matching tb c}.

Lemma config_lookup t st bucket : sql_models t st → ct_get c st !! bucket = sq_scan tb <$> sq_get tb t !! bucket.
Proof. intros HR. by rewrite <-(matching_get t st), lookup_fmap. Qed.

Lemma agree_putConfig cfg t st : sql_models t st → ok cfg → agree (sql_putConfig tb cfg) (putConfig c cfg) t st.
Proof.
  intros HR Hok. unfold agree, sql_putConfig, putConfig. rewrite (matching_bucket cfg).
  pose proof (GetBucket_answers t st (ct_bucket c cfg) HR) as Hget.
  destruct (st_buckets st !! ct_bucket c cfg) as [b|].
  - rewrite (query_then _ _ _ _ Hget), upsert_run. agreed.
    assert (<[ct_bucket c cfg := cfg]> (ct_get c st) =
      sq_scan tb <$> <[ct_bucket c cfg := sq_row tb cfg]> (sq_get tb t)) as ->
      by (by rewrite fmap_insert, sq_scan_row, (matching_get t st)).
    by apply matching_set.
  - exists t, st, (Err ErrNotFound). split_and!; [by apply query_fails|done|done].
Qed.

Lemma agree_deleteConfig bucket t st : sql_models t st → agree (sql_deleteConfig tb bucket) (deleteConfig c bucket) t st.
Proof.
  intros HR. unfold agree, sql_deleteConfig, deleteConfig. rewrite delete_row_run, (config_lookup t st) by done.
  destruct (sq_get tb t !! bucket) eqn:E; simpl; [|by agreed]. agreed.
  rewrite <-(matching_get t st) by done. rewrite <-fmap_delete. by apply matching_set.
Qed.

Lemma getConfig_answers bucket t st : sql_models t st → answers (sql_getConfig tb bucket) t (getConfig c bucket st).
Proof.
  intros HR. unfold getConfig. rewrite (config_lookup t st) by done.
  exact (query_one_run (λ ts, sq_scan tb <$> sq_get tb ts !! bucket) t).
Qed.
End configs.

Lemma taggingKey_inj b k v b' k' v' : nul_free k → nul_free k' →
  taggingKey b k v = taggingKey b' k' v' → (b, k, v) = (b', k', v').
Proof.
  unfold taggingKey. intros Hk Hk' E. injection E as -> Hs. unfold nul in Hs. rewrite !str_app_cons, !str_app_nil_l in Hs.
  by destruct (split_at_byte (ascii_of_nat 0) k k' v v' Hk Hk' Hs) as [-> ->].
Qed.

Lemma agree_PutObjectTagging cfg t st : sql_models t st → nul_free (ot_Key cfg) →
  agree (sql_PutObjectTagging cfg) (locked_PutObjectTagging cfg) t st.
Proof.
  intros HR Hk. unfold agree, sql_PutObjectTagging, locked_PutObjectTagging. rewrite upsert_run. agreed.
  apply models_set_taggings; [done|]. intros b k v Hnk.
  destruct (decide ((b, k, v) = (ot_Bucket cfg, ot_Key cfg, ot_VersionID cfg))) as [[= -> -> ->]|Hne].
  - rewrite !lookup_insert_eq. by destruct cfg.
  - rewrite !lookup_insert_ne; [by apply (sm_taggings _ _ HR)| |congruence].
    intros Heq. apply Hne. symmetry. by apply taggingKey_inj.
Qed.

Lemma agree_DeleteObjectTagging b k v t st : sql_models t st → nul_free k →
  agree (sql_DeleteObjectTagging b k v) (locked_DeleteObjectTagging b k v) t st.
Proof.
  intros HR Hk. unfold agree, sql_DeleteObjectTagging, locked_DeleteObjectTagging. rewrite delete_row_run.
  rewrite <-(sm_taggings _ _ HR) by done. destruct (t_taggings t !! (b, k, v)) eqn:E; simpl; [|by agreed]. agreed.
  apply models_set_taggings; [done|]. intros b' k' v' Hnk. destruct (decide ((b, k, v) = (b', k', v'))) as [[= <- <- <-]|Hne].
  - by rewrite !lookup_delete_eq.
  - rewrite !lookup_delete_ne; [by apply (sm_taggings _ _ HR)| |congruence]. intros Heq. apply Hne. by apply taggingKey_inj.
Qed.
End agreement.
