(* ===== verification/SqlQueries.v ===== *)
(** * What the queries of the SQL store answer

    On tables that stand for a state of the metadata model, the queries answer what the
    memory-backed store answers for that state; a listing, up to the order that one of
    the two leaves open. *)
From S2P Require Import Prelude GoStrings StringFacts Model MemoryStore MemoryStoreFacts Listing Http Calendar Rfc3339 Sql SqlStore SqlFacts.

Section queries.
Context `{!GoRuntime} `{!SqlDriver} `{!JsonCodec (gmap string string)} `{!JsonCodec (list BucketWebsiteRoutingRule)}.
Context {t : tables} {st : memoryState} (HR : sql_models t st).

Lemma ListBuckets_answers : ∃ bs,
  answers sql_ListBuckets t (Ok bs) ∧ bs ≡ₚ (range_map (st_buckets st)).*2 ∧
  StronglySorted (λ x y, String.ltb (b_Name y) (b_Name x) = false) bs.
Proof.
  set (less := λ x y : bucketRow, String.ltb (rb_name x) (rb_name y)).
  assert (StrictWeak less) as Hw.
  { split; unfold less; intros *; [apply string_ltb_asym|apply string_ltb_negtrans]. }
  exists (scanBucket <$> sort_slice less (range_map (t_buckets t)).*2). split_and!; [done| |].
  - rewrite sort_slice_perm. unfold range_map. rewrite !range_order_perm, <-(sm_buckets _ _ HR), map_to_list_fmap.
    rewrite <-!list_fmap_compose. apply reflexive_eq, list_fmap_ext. by intros _ [k row] _.
  - pose proof (sort_slice_sorted less (range_map (t_buckets t)).*2 Hw) as Hs.
    induction Hs as [|x l Hl IH Hx]; csimpl; constructor; [done|]. apply Forall_fmap.
    eapply Forall_impl; [exact Hx|]. done.
Qed.

(** ** Objects *)
Lemma elem_of_rows k row : row ∈ rows_of t k ↔ row ∈ t_versions t ∧ rv_bucket row = ok_bucket k ∧ rv_object_key row = ok_key k.
Proof. unfold rows_of. rewrite list_elem_of_In, filter_In, <-list_elem_of_In, row_of_key_true. done. Qed.

Lemma versions_keyed k v : v ∈ versions_of st k → ov_Bucket v = ok_bucket k ∧ ov_Key v = ok_key k.
Proof.
  rewrite <-(sm_versions _ _ HR). intros (row & -> & Hrow)%list_elem_of_fmap.
  apply elem_of_rows in Hrow as (_ & Hb & Hk). done.
Qed.

(** The row with the greatest ordinal of its key is the last of the key. *)
Lemma latest_row_last k row : row ∈ rows_of t k → ∀ p, (∀ r, r ∈ rows_of t k → p r = true) →
  latest_row (List.filter p (t_versions t)) row = true ↔ last (rows_of t k) = Some row.
Proof.
  intros Hrow p Hp. pose proof (rows_of_sorted t k (sm_ordered _ _ HR)) as Hs.
  unfold latest_row. rewrite forallb_forall. apply elem_of_rows in Hrow as Hr. destruct Hr as (Hin & Hb & Hk).
  split.
  - intros Hmax. destruct (last (rows_of t k)) as [r|] eqn:E; [|by apply last_None in E; rewrite E in Hrow; apply elem_of_nil in Hrow].
    apply last_Some in E as [l E]. f_equal.
    assert (Hr : r ∈ rows_of t k) by (rewrite E; apply elem_of_app; right; by left).
    specialize (Hmax r). apply elem_of_rows in Hr as Hr'. destruct Hr' as (Hrin & Hrb & Hrk).
    assert (row_of_key (rv_bucket row) (rv_object_key row) r = true) as Hrr by (apply row_of_key_true; by rewrite Hb, Hk).
    rewrite Hrr in Hmax. simpl in Hmax.
    assert (rv_ordinal r ≤ rv_ordinal row) by (apply Z.leb_le, Hmax, filter_In; split; [by apply list_elem_of_In|by apply Hp]).
    rewrite E in Hs, Hrow. apply StronglySorted_app in Hs as (Hlt & _ & _).
    apply elem_of_app in Hrow as [Hl|Hl]; [|by apply list_elem_of_singleton in Hl].
    specialize (Hlt row r Hl ltac:(by left)). simpl in Hlt. lia.
  - intros E other [Ho _]%filter_In. apply list_elem_of_In in Ho. apply last_Some in E as [l E].
    destruct (row_of_key (rv_bucket row) (rv_object_key row) other) eqn:Ek; [|done]. simpl. apply Z.leb_le.
    apply row_of_key_true in Ek as [E1 E2].
    assert (other ∈ rows_of t k) as Hok by (apply elem_of_rows; by rewrite E1, E2).
    rewrite E in Hs, Hok. apply StronglySorted_app in Hs as (Hlt & _ & _).
    apply elem_of_app in Hok as [Hl|Hl]; [|by apply list_elem_of_singleton in Hl as ->].
    specialize (Hlt other row Hl ltac:(by left)). simpl in Hlt. lia.
Qed.

(** What [ListObjects] of the memory-backed store shows of a bucket. *)
Lemma elem_of_visible bucket v :
  v ∈ omap (visible_latest bucket) (range_map (st_objects st)) ↔
  ∃ key, last (versions_of st (mkObjectKey bucket key)) = Some v ∧ ov_DeleteMarker v = false.
Proof.
  rewrite list_elem_of_omap. split.
  - intros ([k vs] & Hin & Hv). apply elem_of_range_map in Hin. unfold visible_latest, latest_of in Hv.
    destruct (String.eqb_spec (ok_bucket k) bucket) as [<-|]; [|done]. simpl in Hv.
    destruct (last vs) as [w|] eqn:E; [|done]. destruct (ov_DeleteMarker w) eqn:Em; [done|]. injection Hv as ->.
    exists (ok_key k). unfold versions_of. replace (mkObjectKey (ok_bucket k) (ok_key k)) with k by (by destruct k).
    by rewrite Hin.
  - intros (key & Hl & Hm). unfold versions_of in Hl. destruct (st_objects st !! mkObjectKey bucket key) as [vs|] eqn:E; [|done].
    exists (mkObjectKey bucket key, vs). split; [by apply elem_of_range_map|]. simpl in *. rewrite String.eqb_refl. simpl.
    unfold latest_of. by rewrite Hl, Hm.
Qed.

Lemma visible_keys_nodup bucket : NoDup (ov_Key <$> omap (visible_latest bucket) (range_map (st_objects st))).
Proof.
  assert (Hk : ∀ k vs, (k, vs) ∈ range_map (st_objects st) → ∀ v, v ∈ vs → ov_Key v = ok_key k).
  { intros k vs Hin v Hv. apply elem_of_range_map in Hin. apply (versions_keyed k). unfold versions_of. by rewrite Hin. }
  pose proof (NoDup_fst_range_map (st_objects st)) as Hnd. revert Hk Hnd.
  induction (range_map (st_objects st)) as [|[k vs] l IH]; intros Hk Hnd; [constructor|]. csimpl in *.
  apply NoDup_cons in Hnd as [Hni Hnd]. specialize (IH ltac:(intros; eapply Hk; [by right|done]) Hnd).
  destruct (String.eqb_spec (ok_bucket k) bucket) as [<-|]; [|done]. simpl.
  unfold latest_of. destruct (last vs) as [v|] eqn:E; [|done]. destruct (ov_DeleteMarker v); [done|]. csimpl.
  apply NoDup_cons. split; [|done]. intros (w & Hw & Hin)%list_elem_of_fmap. apply Hni.
  apply list_elem_of_omap in Hin as ([k' vs'] & Hin & Hv). unfold visible_latest, latest_of in Hv.
  destruct (String.eqb_spec (ok_bucket k') (ok_bucket k)) as [Eb|]; [|done]. simpl in Hv.
  destruct (last vs') as [w'|] eqn:E'; [|done]. destruct (ov_DeleteMarker w'); [done|]. injection Hv as ->.
  apply last_Some in E as [l1 ->]. apply last_Some in E' as [l2 ->].
  assert (ov_Key v = ok_key k) by (eapply Hk; [by left|apply elem_of_app; right; by left]).
  assert (ov_Key w = ok_key k') by (eapply Hk; [by right|apply elem_of_app; right; by left]).
  apply list_elem_of_fmap. exists (k', l2 ++ [w]). split; [|done]. simpl. destruct k, k'; simpl in *. congruence.
Qed.

(** The rows a listing takes from a bucket: the latest ones that are no markers of the
    keys that [g] admits. *)
Lemma elem_of_latest p bucket (g : string → bool) v :
  (∀ row, p row = String.eqb (rv_bucket row) bucket && g (rv_object_key row)) →
  v ∈ scanObject <$> latest_rows p t ↔
  ∃ key, g key = true ∧ last (versions_of st (mkObjectKey bucket key)) = Some v ∧ ov_DeleteMarker v = false.
Proof.
  intros Hp. unfold latest_rows. rewrite list_elem_of_fmap. split.
  - intros (row & -> & Hrow). rewrite elem_of_sort_slice in Hrow. apply list_elem_of_In, filter_In in Hrow as [Hrow Hl].
    apply filter_In in Hrow as [Hin Hpr]. apply list_elem_of_In in Hin. apply andb_prop in Hl as [Hl Hm].
    pose proof Hpr as Hpr'. rewrite Hp in Hpr'. apply andb_prop in Hpr' as [Hb Hg]. apply String.eqb_eq in Hb.
    exists (rv_object_key row). split; [done|]. set (k := mkObjectKey bucket (rv_object_key row)).
    assert (Hrk : row ∈ rows_of t k) by (by apply elem_of_rows).
    split; [|unfold scanObject; cbn; by rewrite Hm].
    rewrite <-(sm_versions _ _ HR), last_fmap. apply fmap_Some. exists row. split; [|done].
    apply (latest_row_last k row Hrk p); [|done]. intros r (_ & E1 & E2)%elem_of_rows. rewrite Hp, E1, E2. simpl.
    by rewrite String.eqb_refl.
  - intros (key & Hg & Hl & Hm). set (k := mkObjectKey bucket key). fold k in Hl.
    rewrite <-(sm_versions _ _ HR), last_fmap in Hl. apply fmap_Some in Hl as (row & Hl & ->).
    exists row. split; [done|]. apply last_Some in Hl as Hl'. destruct Hl' as [l Hl'].
    assert (Hrk : row ∈ rows_of t k) by (rewrite Hl'; apply elem_of_app; right; by left).
    assert (Hpk : ∀ r, r ∈ rows_of t k → p r = true).
    { intros r (_ & E1 & E2)%elem_of_rows. rewrite Hp, E1, E2. simpl. by rewrite String.eqb_refl. }
    apply elem_of_sort_slice, list_elem_of_In, filter_In. split.
    + apply filter_In. split; [|by apply Hpk]. apply elem_of_rows in Hrk as [Hin _]. by apply list_elem_of_In.
    + apply andb_true_intro. split; [by apply (latest_row_last k row Hrk p Hpk)|].
      unfold scanObject in Hm. cbn in Hm. by apply negb_false_iff in Hm.
Qed.

Lemma by_key_row_strict_weak : StrictWeak by_key_row.
Proof. split; unfold by_key_row; intros *; [apply string_ltb_asym|apply string_ltb_negtrans]. Qed.

Lemma latest_sorted p : StronglySorted (λ x y, String.ltb (ov_Key y) (ov_Key x) = false) (scanObject <$> latest_rows p t).
Proof.
  unfold latest_rows. pose proof (sort_slice_sorted by_key_row
    (List.filter (λ row, latest_row (List.filter p (t_versions t)) row && (rv_delete_marker row =? 0)) (List.filter p (t_versions t)))
    by_key_row_strict_weak) as Hs.
  induction Hs as [|x l Hl IH Hx]; csimpl; constructor; [done|]. apply Forall_fmap. eapply Forall_impl; [exact Hx|]. done.
Qed.

Lemma rows_nodup : NoDup (t_versions t).
Proof.
  pose proof (or_sorted _ (sm_ordered _ _ HR)) as Hs. induction Hs as [|x l Hl IH Hx]; constructor; [|done].
  intros Hin. rewrite Forall_forall in Hx. specialize (Hx _ Hin). simpl in Hx. lia.
Qed.

Lemma NoDup_List_filter {A} (p : A → bool) l : NoDup l → NoDup (List.filter p l).
Proof.
  induction 1 as [|x l Hx Hl IH]; simpl; [constructor|]. destruct (p x); [|done]. constructor; [|done].
  rewrite list_elem_of_In, filter_In, <-list_elem_of_In. by intros [? _].
Qed.

(** No key is listed twice. *)
Lemma latest_keys_nodup p bucket (g : string → bool) :
  (∀ row, p row = String.eqb (rv_bucket row) bucket && g (rv_object_key row)) →
  NoDup (ov_Key <$> (scanObject <$> latest_rows p t)).
Proof.
  intros Hp. rewrite <-list_fmap_compose. unfold latest_rows. rewrite sort_slice_perm.
  apply NoDup_fmap_2_strong; [|by apply NoDup_List_filter, NoDup_List_filter, rows_nodup].
  assert (Hrow : ∀ r, r ∈ List.filter (λ row, latest_row (List.filter p (t_versions t)) row && (rv_delete_marker row =? 0))
      (List.filter p (t_versions t)) → last (rows_of t (mkObjectKey bucket (rv_object_key r))) = Some r).
  { intros r Hr. apply list_elem_of_In, filter_In in Hr as [Hr Hl]. apply filter_In in Hr as [Hin Hpr].
    apply list_elem_of_In in Hin. apply andb_prop in Hl as [Hl _]. rewrite Hp in Hpr. apply andb_prop in Hpr as [Hb Hg].
    apply String.eqb_eq in Hb. set (k := mkObjectKey bucket (rv_object_key r)).
    apply (latest_row_last k r) in Hl; [done|by apply elem_of_rows|].
    intros r' (_ & E1 & E2)%elem_of_rows. rewrite Hp, E1, E2. simpl. by rewrite String.eqb_refl. }
  intros x y Hx Hy E. apply Hrow in Hx, Hy. simpl in E. rewrite E in Hx. congruence.
Qed.

Lemma NoDup_fmap_NoDup {A B} (f : A → B) l : NoDup (f <$> l) → NoDup l.
Proof. apply NoDup_fmap_1. Qed.

Lemma ListObjects_answers bucket b : st_buckets st !! bucket = Some b → ∃ vs,
  answers (sql_ListObjects bucket) t (Ok vs) ∧
  vs ≡ₚ omap (visible_latest bucket) (range_map (st_objects st)) ∧
  StronglySorted (λ x y, String.ltb (ov_Key y) (ov_Key x) = false) vs.
Proof.
  intros Hb. pose proof (GetBucket_answers t st bucket HR) as Hget. rewrite Hb in Hget.
  exists (scanObject <$> latest_rows (λ row, String.eqb (rv_bucket row) bucket) t).
  assert (Hp : ∀ row, (λ row, String.eqb (rv_bucket row) bucket) row = String.eqb (rv_bucket row) bucket && true)
    by (intros; by rewrite andb_true_r).
  split_and!; [|  |apply latest_sorted].
  - unfold sql_ListObjects, answers. by rewrite (query_then _ _ _ _ Hget).
  - apply NoDup_Permutation.
    + eapply NoDup_fmap_NoDup, (latest_keys_nodup _ bucket (λ _, true)), Hp.
    + eapply NoDup_fmap_NoDup, visible_keys_nodup.
    + intros v. rewrite (elem_of_latest _ bucket (λ _, true)) by done. rewrite elem_of_visible. naive_solver.
Qed.

Lemma missing_bucket_answers {A} (m : M sqlDB A) bucket : st_buckets st !! bucket = None →
  answers (sql_GetBucket bucket ;; m) t (Err ErrNotFound).
Proof. intros Hb. pose proof (GetBucket_answers t st bucket HR) as Hget. rewrite Hb in Hget. by apply query_fails. Qed.

(** ** Pages *)
Lemma sorted_by_key_unique (l l' : list ObjectVersion) : l ≡ₚ l' → NoDup (ov_Key <$> l) →
  StronglySorted (λ x y, String.ltb (ov_Key y) (ov_Key x) = false) l →
  StronglySorted (λ x y, String.ltb (ov_Key y) (ov_Key x) = false) l' → l = l'.
Proof.
  intros Hp Hnd Hs Hs'. apply (StronglySorted_unique_strong (λ x y, String.ltb (ov_Key y) (ov_Key x) = false)); [|done..].
  intros x y Hx Hy H1 H2. rewrite <-Hp in Hy. assert (ov_Key x = ov_Key y) as E by (by apply string_ltb_eq).
  clear Hs Hs' Hp H1 H2. induction l as [|z l IH]; [by apply elem_of_nil in Hx|]. csimpl in *.
  apply NoDup_cons in Hnd as [Hz Hnd]. apply elem_of_cons in Hx as [->|Hx], Hy as [->|Hy]; [done| | |by apply IH].
  - destruct Hz. rewrite E. by apply list_elem_of_fmap_2.
  - destruct Hz. rewrite <-E. by apply list_elem_of_fmap_2.
Qed.

(** The page of the SQL store is the page that Listing.v computes on what is visible. *)
Lemma ListObjectsV2_answers bucket b opts : st_buckets st !! bucket = Some b →
  answers (sql_ListObjectsV2 bucket opts) t
    (Ok (sqliteListObjectsV2 (omap (visible_latest bucket) (range_map (st_objects st))) opts)).
Proof.
  intros Hb. pose proof (GetBucket_answers t st bucket HR) as Hget. rewrite Hb in Hget.
  unfold sql_ListObjectsV2, answers. rewrite (query_then _ _ _ _ Hget). unfold sqliteListObjectsV2. cbv zeta.
  destruct (Z.min 1000 (Z.max 0 (lo_MaxKeys opts)) =? 0); [done|]. unfold select, statement. simpl. do 4 f_equal.
  set (g := λ key, negb (String.ltb key (lo_Prefix opts)) && String.ltb (lo_StartAfter opts) key &&
    match stringPrefixUpperBound (lo_Prefix opts) with Some upper => String.ltb key upper | None => true end).
  assert (Hp : ∀ row, row_in_bounds bucket opts row = String.eqb (rv_bucket row) bucket && g (rv_object_key row)).
  { intros row. unfold row_in_bounds, g. by rewrite !andb_assoc. }
  unfold sql_list_rows. set (visible := omap _ _). change (λ obj : ObjectVersion, _) with (λ obj, g (ov_Key obj)).
  assert (StrictWeak less_object_key) as Hw by (split; unfold less_object_key; intros *; [apply string_ltb_asym|apply string_ltb_negtrans]).
  apply sorted_by_key_unique; [|by eapply latest_keys_nodup|apply latest_sorted|by apply (sort_slice_sorted less_object_key)].
  rewrite sort_slice_perm. apply NoDup_Permutation.
  - by eapply NoDup_fmap_NoDup, latest_keys_nodup.
  - eapply NoDup_List_filter, NoDup_fmap_NoDup, visible_keys_nodup.
  - intros v. rewrite (elem_of_latest _ bucket g) by done. rewrite list_elem_of_In, filter_In, <-list_elem_of_In.
    unfold visible. rewrite elem_of_visible. split.
    + intros (key & Hg & Hl & Hm). split; [by exists key|].
      apply last_Some in Hl as [l Hl]. destruct (versions_keyed (mkObjectKey bucket key) v) as [_ ->]; [|done].
      rewrite Hl. apply elem_of_app. right. by left.
    + intros [(key & Hl & Hm) Hg]. exists key. split_and!; [|done|done].
      apply last_Some in Hl as [l Hl]. destruct (versions_keyed (mkObjectKey bucket key) v) as [_ E]; [|by rewrite E in Hg].
      rewrite Hl. apply elem_of_app. right. by left.
Qed.

(** ** All versions of a bucket *)
Definition bucket_versions (bucket : string) : list ObjectVersion :=
  concat (snd <$> List.filter (λ '(key, _), String.eqb (ok_bucket key) bucket) (range_map (st_objects st))).

Lemma elem_of_bucket_versions bucket v :
  v ∈ bucket_versions bucket ↔ ∃ key, v ∈ versions_of st (mkObjectKey bucket key).
Proof.
  unfold bucket_versions. rewrite list_elem_of_In, in_concat. split.
  - intros (vs & Hvs & Hv). apply list_elem_of_In, list_elem_of_fmap in Hvs as ([k vs'] & -> & Hin).
    apply list_elem_of_In, filter_In in Hin as [Hin Hb]. apply String.eqb_eq in Hb as <-.
    apply list_elem_of_In, elem_of_range_map in Hin. exists (ok_key k). unfold versions_of.
    replace (mkObjectKey (ok_bucket k) (ok_key k)) with k by (by destruct k). rewrite Hin. by apply list_elem_of_In.
  - intros (key & Hv). unfold versions_of in Hv. destruct (st_objects st !! mkObjectKey bucket key) as [vs|] eqn:E;
      [|by apply elem_of_nil in Hv].
    exists vs. split; [|by apply list_elem_of_In]. apply list_elem_of_In, list_elem_of_fmap. exists (mkObjectKey bucket key, vs).
    split; [done|]. apply list_elem_of_In, filter_In. split; [by apply list_elem_of_In, elem_of_range_map|]. simpl. by rewrite String.eqb_refl.
Qed.

Lemma nodup_versions k : NoDup (versions_of st k).
Proof. eapply NoDup_fmap_NoDup, (sm_unique _ _ HR). Qed.

Lemma bucket_versions_nodup bucket : NoDup (bucket_versions bucket).
Proof.
  unfold bucket_versions.
  assert (Hk : ∀ k vs, (k, vs) ∈ range_map (st_objects st) → vs = versions_of st k).
  { intros k vs Hin. apply elem_of_range_map in Hin. unfold versions_of. by rewrite Hin. }
  pose proof (NoDup_fst_range_map (st_objects st)) as Hnd. revert Hk Hnd.
  induction (range_map (st_objects st)) as [|[k vs] l IH]; intros Hk Hnd; [constructor|]. csimpl in *.
  apply NoDup_cons in Hnd as [Hni Hnd]. specialize (IH ltac:(intros; apply Hk; by right) Hnd).
  destruct (String.eqb (ok_bucket k) bucket) eqn:Eb; [|done]. csimpl. apply NoDup_app.
  rewrite (Hk k vs) by (by left). split_and!; [apply nodup_versions| |done].
  intros v Hv Hin. apply list_elem_of_In, in_concat in Hin as (vs' & Hvs' & Hv').
  apply list_elem_of_In, list_elem_of_fmap in Hvs' as ([k' w] & -> & Hin). apply list_elem_of_In, filter_In in Hin as [Hin Eb'].
  apply list_elem_of_In in Hin, Hv'. simpl in *. rewrite (Hk k' w) in Hv' by (by right).
  apply versions_keyed in Hv as [E1 E2], Hv' as [E3 E4]. apply Hni, list_elem_of_fmap. exists (k', w). split; [|done].
  destruct k, k'; simpl in *. congruence.
Qed.

Lemma ListObjectVersions_answers bucket b : st_buckets st !! bucket = Some b → ∃ vs,
  answers (sql_ListObjectVersions bucket) t (Ok vs) ∧ vs ≡ₚ bucket_versions bucket ∧
  StronglySorted (λ x y, String.ltb (ov_Key y) (ov_Key x) = false) vs.
Proof.
  intros Hb. pose proof (GetBucket_answers t st bucket HR) as Hget. rewrite Hb in Hget.
  set (rows := List.filter (λ row, String.eqb (rv_bucket row) bucket) (t_versions t)).
  exists (scanObject <$> sort_slice (less_by rv_object_key newest_first) rows). split_and!.
  - unfold sql_ListObjectVersions, answers. by rewrite (query_then _ _ _ _ Hget).
  - rewrite sort_slice_perm.
    assert (Hin : ∀ row, row ∈ rows ↔ row ∈ t_versions t ∧ rv_bucket row = bucket).
    { intros row. unfold rows. by rewrite list_elem_of_In, filter_In, <-list_elem_of_In, String.eqb_eq. }
    apply NoDup_Permutation; [|apply bucket_versions_nodup|].
    + apply NoDup_fmap_2_strong; [|by apply NoDup_List_filter, rows_nodup].
      intros x y [Hx Hxb]%Hin [Hy Hyb]%Hin E. set (k := mkObjectKey bucket (rv_object_key x)).
      assert (Ek : rv_object_key x = rv_object_key y) by (change (ov_Key (scanObject x) = ov_Key (scanObject y)); by rewrite E).
      assert (x ∈ rows_of t k ∧ y ∈ rows_of t k) as [Hxk Hyk] by (rewrite !elem_of_rows; simpl; by rewrite <-Ek).
      pose proof (nodup_versions k) as Hnd. rewrite <-(sm_versions _ _ HR) in Hnd.
      apply list_elem_of_lookup_1 in Hxk as [i Hi], Hyk as [j Hj].
      assert (i = j) as ->; [|congruence].
      apply (NoDup_lookup (scanObject <$> rows_of t k) i j (scanObject x)); [done|by rewrite list_lookup_fmap, Hi|].
      rewrite E. by rewrite list_lookup_fmap, Hj.
    + intros v. rewrite elem_of_bucket_versions, list_elem_of_fmap. split.
      * intros (row & -> & [Hr Hrb]%Hin). exists (rv_object_key row). rewrite <-(sm_versions _ _ HR).
        apply list_elem_of_fmap_2. by apply elem_of_rows.
      * intros (key & Hv). rewrite <-(sm_versions _ _ HR) in Hv. apply list_elem_of_fmap in Hv as (row & -> & Hr).
        apply elem_of_rows in Hr as (Hr & Hrb & _). exists row. split; [done|]. by apply Hin.
  - assert (StrictWeak (less_by rv_object_key newest_first)) as Hw by (apply less_by_strict_weak, newest_first_strict_weak).
    pose proof (sort_slice_sorted _ rows Hw) as Hs. induction Hs as [|x l Hl IH Hx]; csimpl; constructor; [done|].
    apply Forall_fmap. eapply Forall_impl; [exact Hx|]. intros y. unfold not_after, less_by. simpl.
    destruct (String.eqb_spec (rv_object_key y) (rv_object_key x)) as [->|]; [by rewrite string_ltb_irrefl|done].
Qed.

(** ** Uploads *)
Definition less_part (x y : partRow) : bool := rp_part_number x <? rp_part_number y.

Lemma parts_listed id :
  scanMultipartPart <$> sort_slice less_part (List.filter (λ row, String.eqb (rp_upload_id row) id) (range_map (t_parts t)).*2) =
  omap (λ partNo, default ∅ (st_parts st !! id) !! partNo)
    (sort_slice Z.ltb (range_map (default ∅ (st_parts st !! id))).*1).
Proof.
  set (pm := default ∅ (st_parts st !! id)). set (rows := List.filter _ _).
  assert (Hrow : ∀ row, row ∈ rows ↔ t_parts t !! (id, rp_part_number row) = Some row).
  { intros row. unfold rows. rewrite list_elem_of_In, filter_In, <-list_elem_of_In, String.eqb_eq, list_elem_of_fmap. split.
    - intros [([k row'] & -> & Hin) <-]. apply elem_of_range_map in Hin. simpl.
      pose proof (sm_part_keys _ _ HR _ _ Hin) as E. simpl in E. by rewrite <-E.
    - intros Hl. pose proof (sm_part_keys _ _ HR _ _ Hl) as E. simpl in E. injection E as ->. split; [|done].
      exists ((rp_upload_id row, rp_part_number row), row). split; [done|]. by apply elem_of_range_map. }
  assert (Hnd : NoDup (rp_part_number <$> rows)).
  { apply NoDup_fmap_2_strong.
    - intros x y Hx%Hrow Hy%Hrow E. rewrite E in Hx. congruence.
    - unfold rows. apply NoDup_List_filter. apply NoDup_fmap_2_strong.
      + intros [k1 r1] [k2 r2] H1%elem_of_range_map H2%elem_of_range_map E. simpl in E. subst r2.
        apply (sm_part_keys _ _ HR) in H1, H2. congruence.
      + eapply NoDup_fmap_NoDup, NoDup_fst_range_map. }
  assert (Hwp : StrictWeak less_part) by (split; unfold less_part; intros; rewrite ?Z.ltb_lt, ?Z.ltb_ge in *; lia).
  assert (Hwz : StrictWeak Z.ltb) by (split; intros; rewrite ?Z.ltb_lt, ?Z.ltb_ge in *; lia).
  assert (Hnums : rp_part_number <$> sort_slice less_part rows = sort_slice Z.ltb (range_map pm).*1).
  { symmetry. apply sort_slice_unique; [done| | |].
    - rewrite sort_slice_perm. apply NoDup_Permutation; [apply NoDup_fst_range_map|done|]. intros n.
      rewrite !list_elem_of_fmap. split.
      + intros ([n' p] & -> & Hin). apply elem_of_range_map in Hin. simpl. unfold pm in Hin. rewrite <-(sm_parts _ _ HR) in Hin.
        apply fmap_Some in Hin as (row & Hl & ->). pose proof (sm_part_keys _ _ HR _ _ Hl) as E. injection E as E1 E2.
        exists row. split; [done|]. apply Hrow. by rewrite <-E2.
      + intros (row & -> & Hl%Hrow). exists (rp_part_number row, scanMultipartPart row). split; [done|].
        apply elem_of_range_map. unfold pm. by rewrite <-(sm_parts _ _ HR), Hl.
    - intros x y _ _ H1 H2. rewrite Z.ltb_ge in *. lia.
    - pose proof (sort_slice_sorted less_part rows Hwp) as Hs. induction Hs as [|x l Hl IH Hx]; csimpl; constructor; [done|].
      apply Forall_fmap. eapply Forall_impl; [exact Hx|]. done. }
  rewrite <-Hnums. assert (Hall : ∀ row, row ∈ sort_slice less_part rows → pm !! rp_part_number row = Some (scanMultipartPart row)).
  { intros row Hin. rewrite elem_of_sort_slice in Hin. apply Hrow in Hin. unfold pm. by rewrite <-(sm_parts _ _ HR), Hin. }
  clear Hnums. induction (sort_slice less_part rows) as [|row l IH]; [done|]. csimpl. rewrite (Hall row) by (by left).
  f_equal. apply IH. intros r Hr. apply Hall. by right.
Qed.

Lemma GetMultipartUpload_answers id {P} `{!StatePersister P} :
  answers (sql_GetMultipartUpload id) t (GetMultipartUpload id (mkStore (None : option P) st)).
Proof.
  unfold GetMultipartUpload. simpl. rewrite (upload_lookup t st) by done.
  pose proof (query_one_run (λ t, scanMultipartUpload <$> t_uploads t !! id) t) as Hq. unfold answers in *.
  unfold sql_GetMultipartUpload, sqliteGetMultipartUpload. unfold mbind at 1, M_bind. rewrite Hq.
  destruct (t_uploads t !! id) as [row|]; simpl; [|done]. unfold mbind, M_bind, sqliteListMultipartParts, select, statement. simpl.
  pose proof (parts_listed id) as Hp. unfold less_part in Hp. by rewrite Hp.
Qed.

(** Listing uploads reads one column less than it selects: it fails on the first row. *)
Lemma ListMultipartUploads_answers dialect bucket prefix b : st_buckets st !! bucket = Some b →
  answers (sql_ListMultipartUploads dialect bucket prefix) t
    (if existsb (λ e, String.eqb (ru_bucket e.2) bucket &&
                      (String.eqb prefix "" || sql_like dialect (prefix +:+ "%") (ru_object_key e.2))) (range_map (t_uploads t))
     then Err (scan_mismatch 4 5) else Ok []).
Proof.
  intros Hb. pose proof (GetBucket_answers t st bucket HR) as Hget. rewrite Hb in Hget.
  unfold sql_ListMultipartUploads, answers. rewrite (query_then _ _ _ _ Hget). unfold select, statement. simpl.
  do 2 f_equal. induction (range_map (t_uploads t)) as [|[k row] l IH]; [done|]. csimpl. unfold upload_listed at 1.
  destruct (String.eqb (ru_bucket row) bucket && _); simpl; [done|]. exact IH.
Qed.

Lemma GetCredential_answers id {P} `{!StatePersister P} :
  answers (sql_GetCredentialRecord id) t (GetCredentialRecord id (mkStore (None : option P) st)).
Proof.
  unfold GetCredentialRecord. simpl. rewrite <-(sm_credentials _ _ HR), lookup_fmap.
  exact (query_one_run (λ t, scanCredential <$> t_credentials t !! id) t).
Qed.

Lemma GetObjectTagging_answers b k v {P} `{!StatePersister P} : nul_free k →
  answers (sql_GetObjectTagging b k v) t (GetObjectTagging b k v (mkStore (None : option P) st)).
Proof.
  intros Hk. unfold GetObjectTagging. simpl. rewrite <-(sm_taggings _ _ HR) by done.
  exact (query_one_run (λ t, mkObjectTagging b k v <$> t_taggings t !! (b, k, v)) t).
Qed.
End queries.
