(* ===== verification/SqlProps.v ===== *)
(** * The SQL store implements the metadata model

    Step by step the SQL store follows the memory-backed store, as long as the database
    answers and within the conditions [op_ok]; its queries then answer alike.  When the
    database fails, what a method leaves behind. *)
From S2P Require Import Prelude GoStrings StringFacts Model MemoryStore MemoryStoreFacts MemoryStoreProps Listing Http Calendar Rfc3339.
From S2P Require Import Sql SqlStore SqlFacts SqlQueries.

Section refinement.
Context `{!GoRuntime} `{!SqlDriver} `{!JsonCodec (gmap string string)} `{!JsonCodec (list BucketWebsiteRoutingRule)}.
Context {P : Type} `{!StatePersister P}.
Variable dialect : sqlDialect.
Hypothesis Hdialect : dialect ≠ sqlDialectMariaDB.

(** ** Where the two stores agree

    Columns hold instants of the years 0 to 9999 and what json represents; a version id
    is new unless it is null; only the memory-backed store refuses an empty bucket name,
    keeps an empty versioning status, drops the configurations of a deleted bucket,
    checks the upload of a part in a transaction, and repairs.  A program that goes on
    in a transaction after a statement failed is left out: PostgreSQL refuses all that
    follows (no code under src/ does so). *)
Definition tx_ok (st : memoryState) (o : tx_op) : Prop :=
  match o with
  | TxCreateBucket b => b_Name b ≠ "" ∧ b_VersioningStatus b ≠ "" ∧ in_years (b_CreatedAt b)
  | TxDeleteBucket bucket => unconfigured st bucket
  | TxUpdateBucketVersioning _ _ => True
  | TxPutObjectVersion v => storable v ∧ fresh_version st v
  | TxDeleteObject bucket key id at_ =>
      storable (delete_marker bucket key id at_) ∧ fresh_version st (delete_marker bucket key id at_)
  | TxCreateMultipartUpload u => in_years (mu_InitiatedAt u)
  | TxDeleteMultipartUpload _ => True
  | TxUpsertMultipartPart p => in_years (mp_CreatedAt p) ∧ is_Some (st_multipart st !! mp_UploadID p)
  | TxUpsertCredentialRecord r => in_years (cr_CreatedAt r) ∧ in_years (cr_RotatedAt r)
  end.

Fixpoint prog_ok (st : memoryState) (p : tx_prog) : Prop :=
  match p with
  | TxReturn _ => True
  | TxCall o k => tx_ok st o ∧ let '(st', r) := run_tx_op o st in
                  (is_ok r = false → ∃ e, k r = TxReturn (Err e)) ∧ prog_ok st' (k r)
  end.

Definition op_ok (st : memoryState) (o : store_op) : Prop :=
  match o with
  | OpTx (TxUpsertMultipartPart p) => in_years (mp_CreatedAt p)
  | OpTx o => tx_ok st o
  | OpPutWebsite cfg => json_representable (bw_RoutingRules cfg)
  | OpPutTagging cfg => nul_free (ot_Key cfg)
  | OpDeleteTagging _ key _ => nul_free key
  | OpUpdateObjectMetadata _ _ _ metadata => json_representable metadata
  | OpDeleteObjectVersion _ _ id => id ≠ ""
  | OpRunInTx p => prog_ok st p
  | OpRepair => repairState st = (st, 0)
  | _ => True
  end.

(** ** One operation *)
Lemma agree_tx_op o t st : sql_models t st → tx_ok st o → agree (sql_run_tx_op dialect o) (run_tx_op o) t st.
Proof.
  intros HR. destruct o; simpl.
  - intros (? & ? & ?). by apply agree_CreateBucket.
  - intros ?. by apply agree_DeleteBucket.
  - intros _. by apply agree_UpdateBucketVersioning.
  - intros [? ?]. by apply agree_PutObjectVersion.
  - intros [? ?]. by apply agree_PutObjectVersion.
  - intros ?. by apply agree_CreateMultipartUpload.
  - intros _. by apply agreeTx_DeleteMultipartUpload.
  - intros [? ?]. by apply agree_UpsertPart.
  - intros [? ?]. by apply agree_UpsertCredential.
Qed.

Lemma agree_tx_prog p t st : sql_models t st → prog_ok st p →
  agree (sql_run_tx_prog dialect p) (run_tx_prog p) t st.
Proof.
  revert t st. induction p as [r|o k IH]; intros t st HR; simpl.
  - intros _. by exists t, st, r.
  - intros [Ho Hk]. destruct (agree_tx_op o t st HR Ho) as (t' & st' & r & E & E' & HR').
    rewrite E' in Hk. destruct Hk as [_ Hk]. unfold agree. simpl. rewrite E, E'. by apply IH.
Qed.

(** A transaction of the database against the clone of the memory-backed store. *)
Lemma agree_in_tx {A} (m : M sqlDB A) (m' : M memoryState A) t st : sql_models t st → agree m m' t st →
  agree (in_tx m) (λ s, match m' s with (s', Ok a) => (s', Ok a) | (_, Err e) => (s, Err e) end) t st.
Proof.
  intros HR (t' & st' & r & E & E' & HR'). unfold agree, in_tx, select, statement. simpl. rewrite E, E'.
  destruct r as [a|e]; [by exists t', st', (Ok a)|by exists t, st, (Err e)].
Qed.

(** An action on the state of a memory-backed store without a persister. *)
Definition follows (m : M sqlDB unit) (m' : M (memoryBackedStore P) unit) (t : tables) (st : memoryState) : Prop :=
  ∃ t' st' r, m (mkDB t []) = (mkDB t' [], r) ∧ m' (mkStore None st) = (mkStore None st', r) ∧ sql_models t' st'.

Lemma follows_change (m : M sqlDB unit) (m' : M memoryState unit) t st :
  agree m m' t st → follows m (change_and_persist m') t st.
Proof.
  intros (t' & st' & r & E & E' & HR'). exists t', st', r. split_and!; [done| |done].
  unfold change_and_persist, on_st, persistLocked. unfold mbind, M_bind. simpl. rewrite E'. by destruct r as [[]|e].
Qed.

Lemma follows_result {A} (m : M sqlDB A) (m' : M memoryState A) t st :
  agree m m' t st → follows (m ;; mret tt) ((a ← on_st m'; persistLocked ;; mret a) ;; mret tt) t st.
Proof.
  intros (t' & st' & r & E & E' & HR'). exists t', st', (match r with Ok _ => Ok tt | Err e => Err e end).
  unfold on_st, persistLocked, mbind, M_bind. simpl. rewrite E, E'. by destruct r.
Qed.

Lemma follows_tx o t st : sql_models t st → tx_ok st o →
  follows (sql_run_tx_op dialect o) (change_and_persist (run_tx_op o)) t st.
Proof. intros HR Ho. by apply follows_change, agree_tx_op. Qed.

Lemma sql_step o t st : sql_models t st → op_ok st o → follows (sql_run_op dialect o) (run_op o) t st.
Proof.
  intros HR. destruct o as [o| | | | | | | | | | | | | | | | | | | |p|]; simpl.
  - destruct o as [bucket|bucket|bucket status|v|bucket key id at_|u|uploadID|part|r]; intros Ho.
    + exact (follows_tx (TxCreateBucket bucket) t st HR Ho).
    + apply follows_change. destruct (agree_DeleteBucket bucket t st HR Ho) as (t' & st' & r & E & E' & HR').
      exists t', st', r. by rewrite (proj1 (delete_unconfigured _ _ Ho)).
    + exact (follows_tx (TxUpdateBucketVersioning bucket status) t st HR Ho).
    + exact (follows_tx (TxPutObjectVersion v) t st HR Ho).
    + exact (follows_tx (TxDeleteObject bucket key id at_) t st HR Ho).
    + exact (follows_tx (TxCreateMultipartUpload u) t st HR Ho).
    + destruct (agree_in_tx _ _ t st HR (agreeTx_DeleteMultipartUpload uploadID t st HR)) as (t' & st' & r & E & E' & HR').
      apply follows_change. exists t', st', r. split_and!; [exact E| |done]. revert E'. unfold tx_DeleteMultipartUpload.
      by destruct (st_multipart st !! uploadID).
    + apply follows_change. unfold agree, sql_UpsertMultipartPart, tx_UpsertMultipartPart.
      pose proof (GetMultipartUpload_answers (t := t) HR (mp_UploadID part) (P := P)) as Hget. unfold GetMultipartUpload in Hget. simpl in Hget.
      destruct (st_multipart st !! mp_UploadID part) as [u|] eqn:E.
      * rewrite (query_then _ _ _ _ Hget). pose proof (agree_UpsertPart part t st HR Ho (ex_intro _ _ E)) as Ha.
        unfold agree, tx_UpsertMultipartPart in Ha. by rewrite E in Ha.
      * exists t, st, (Err ErrNotFound). split_and!; [by apply query_fails|done|done].
    + exact (follows_tx (TxUpsertCredentialRecord r) t st HR Ho).
  - intros Hr. by apply follows_change, (agree_putConfig website_rows websites_table).
  - intros _. by apply follows_change, (agree_deleteConfig website_rows websites_table).
  - intros _. by apply follows_change, (agree_putConfig cors_rows cors_table).
  - intros _. by apply follows_change, (agree_deleteConfig cors_rows cors_table).
  - intros _. by apply follows_change, (agree_putConfig policy_rows policies_table).
  - intros _. by apply follows_change, (agree_deleteConfig policy_rows policies_table).
  - intros _. by apply follows_change, (agree_putConfig access_rows publicAccess_table).
  - intros _. by apply follows_change, (agree_deleteConfig access_rows publicAccess_table).
  - intros _. by apply follows_change, (agree_putConfig lifecycle_rows lifecycles_table).
  - intros _. by apply follows_change, (agree_deleteConfig lifecycle_rows lifecycles_table).
  - intros _. by apply follows_change, (agree_putConfig notification_rows notifications_table).
  - intros _. by apply follows_change, (agree_deleteConfig notification_rows notifications_table).
  - intros _. by apply follows_change, (agree_putConfig replication_rows replications_table).
  - intros _. by apply follows_change, (agree_deleteConfig replication_rows replications_table).
  - intros Hk. by apply follows_change, agree_PutObjectTagging.
  - intros Hk. by apply follows_change, agree_DeleteObjectTagging.
  - intros Hm. by apply follows_change, agree_UpdateObjectMetadata.
  - intros Hid. by apply follows_result, agree_DeleteObjectVersion.
  - intros _. by apply follows_result, agree_DeleteAll.
  - intros Hp. destruct (agree_in_tx _ _ t st HR (agree_tx_prog p t st HR Hp)) as (t' & st' & r & E & E' & HR').
    exists t', st', r. split_and!; [exact E| |done]. unfold RunInTx. simpl. rewrite cloneState_id.
    destruct (run_tx_prog p st) as [st'' [[]|e]]; by injection E' as -> <-.
  - intros Hr. exists t, st, (Ok tt). split_and!; [done| |done]. unfold RepairConsistency, mbind, M_bind. simpl. by rewrite Hr.
Qed.

(** ** Runs *)
Fixpoint run_all {S O} (step : O → M S unit) (ops : list O) (s : S) : S * list (result unit) :=
  match ops with
  | [] => (s, [])
  | o :: ops => let '(s', r) := step o s in let '(s'', rs) := run_all step ops s' in (s'', r :: rs)
  end.

Fixpoint ops_ok (s : memoryBackedStore P) (ops : list store_op) : Prop :=
  match ops with
  | [] => True
  | o :: ops => op_ok (ms_st s) o ∧ ops_ok (exec (run_op o) s) ops
  end.

Lemma sql_steps ops t st : sql_models t st → ops_ok (mkStore None st) ops → ∃ t' st' rs,
  run_all (sql_run_op dialect) ops (mkDB t []) = (mkDB t' [], rs) ∧
  run_all run_op ops (mkStore None st) = (mkStore None st', rs) ∧ sql_models t' st'.
Proof.
  revert t st. induction ops as [|o ops IH]; intros t st HR; simpl; [by exists t, st, []|]. intros [Ho Hops].
  destruct (sql_step o t st HR Ho) as (t1 & st1 & r & E & E' & HR1). unfold exec in Hops. rewrite E' in Hops.
  destruct (IH t1 st1 HR1 Hops) as (t' & st' & rs & F & F' & HR'). exists t', st', (r :: rs). by rewrite E, F, E', F'.
Qed.

Lemma GetBucket_same name t st : sql_models t st →
  answers (sql_GetBucket name) t (GetBucket name (mkStore (None : option P) st)).
Proof. apply GetBucket_answers. Qed.

Lemma GetObjectVersion_same b k id t st : sql_models t st →
  answers (sql_GetObjectVersion b k id) t (GetObjectVersion b k id (mkStore (None : option P) st)).
Proof.
  intros HR. unfold GetObjectVersion. destruct (String.eqb_spec id "") as [->|Hid].
  - unfold sql_GetObjectVersion. simpl. pose proof (GetLatest_answers b k t st HR) as Hl.
    unfold GetLatestObjectVersion, latest_of. simpl. by destruct (last (versions_of st (mkObjectKey b k))).
  - pose proof (GetObjectVersion_answers b k id t st HR Hid) as Hl. simpl in *. by destruct (List.find _ _).
Qed.

(** What the handlers read of a store. *)
Definition same_answers (t : tables) (s : memoryBackedStore P) : Prop :=
  (∀ b, answers (sql_GetBucket b) t (GetBucket b s)) ∧
  (∀ b k id, answers (sql_GetObjectVersion b k id) t (GetObjectVersion b k id s)) ∧
  (∀ b opts, is_ok (GetBucket b s) = true →
     answers (sql_ListObjectsV2 b opts) t
       (Ok (sqliteListObjectsV2 (omap (visible_latest b) (range_map (st_objects (ms_st s)))) opts))) ∧
  (∀ id, answers (sql_GetMultipartUpload id) t (GetMultipartUpload id s)) ∧
  (∀ id, answers (sql_GetCredentialRecord id) t (GetCredentialRecord id s)) ∧
  (∀ b, answers (sql_GetBucketPolicy b) t (GetBucketPolicy b s)) ∧
  (∀ b, answers (sql_GetBucketPublicAccessBlock b) t (GetBucketPublicAccessBlock b s)) ∧
  (∀ b, answers (sql_GetBucketLifecycle b) t (GetBucketLifecycle b s)) ∧
  (∀ b, answers (sql_GetBucketWebsite b) t (GetBucketWebsite b s)).

Lemma models_same_answers t st : sql_models t st → same_answers t (mkStore None st).
Proof.
  intros HR. repeat split; intros.
  - by apply GetBucket_same.
  - by apply GetObjectVersion_same.
  - unfold GetBucket in *. simpl in *. destruct (st_buckets st !! b) as [b'|] eqn:E; [|done].
    by apply (ListObjectsV2_answers HR b b').
  - by apply GetMultipartUpload_answers.
  - by apply GetCredential_answers.
  - by apply (getConfig_answers policy_rows policies_table).
  - by apply (getConfig_answers access_rows publicAccess_table).
  - by apply (getConfig_answers lifecycle_rows lifecycles_table).
  - by apply (getConfig_answers website_rows websites_table).
Qed.

End refinement.

(** ** When the database fails *)
Section failures.
Context `{!GoRuntime} `{!SqlDriver} `{!JsonCodec (gmap string string)} `{!JsonCodec (list BucketWebsiteRoutingRule)}.
Variable dialect : sqlDialect.

(** A method that leaves the tables alone when it fails. *)
Definition failing_keeps {A} (m : M sqlDB A) : Prop :=
  ∀ d d' e, m d = (d', Err e) → db_tables d' = db_tables d.

(** A method that never changes the tables. *)
Definition reads_only {A} (m : M sqlDB A) : Prop := ∀ d, db_tables (m d).1 = db_tables d.

Lemma reads_select {A} (f : tables → result A) : reads_only (select f).
Proof. intros [t [|[e|] faults]]; done. Qed.

Lemma reads_lift {A} (r : result A) : reads_only (lift r : M sqlDB A).
Proof. done. Qed.

Lemma query_bind {A B} (m : M sqlDB A) (k : A → M sqlDB B) : reads_only m → (∀ a, reads_only (k a)) → reads_only (a ← m; k a).
Proof.
  intros Hm Hk d. unfold mbind, M_bind. pose proof (Hm d) as E. destruct (m d) as [d' [a|e]]; simpl in *; [|done].
  by rewrite Hk.
Qed.

Lemma reads_query_one {A} (f : tables → option A) : reads_only (query_one f).
Proof.
  intros [t faults]. unfold query_one, select, statement. run_m. destruct faults as [|[e|] faults]; simpl; [|done|].
  - by destruct (f t).
  - by destruct (f t).
Qed.

Lemma keeps_then {A B} (q : M sqlDB A) (m : A → M sqlDB B) : reads_only q → (∀ a, failing_keeps (m a)) →
  failing_keeps (a ← q; m a).
Proof.
  intros Hq Hm d d' e. unfold mbind, M_bind. pose proof (Hq d) as E. destruct (q d) as [d1 [a|e1]]; simpl in *.
  - intros Ha%Hm. by rewrite Ha.
  - by intros [= <- <-].
Qed.

Lemma keeps_ret {A B} (m : M sqlDB A) (f : A → B) : failing_keeps m → failing_keeps (a ← m; mret (f a)).
Proof.
  intros Hm d d' e. unfold mbind, M_bind. destruct (m d) as [d1 [a|e1]] eqn:E; [done|]. intros [= <- <-]. by eapply Hm.
Qed.

(** A statement that changes nothing without counting a row. *)
Lemma keeps_affecting (f : tables → tables * Z) : (∀ t, (f t).2 = 0 → (f t).1 = t) → failing_keeps (affecting (exec_stmt f)).
Proof.
  intros Hf [t faults] d' e. unfold affecting, exec_stmt, statement. run_m.
  destruct faults as [|[e1|] faults]; simpl; [|by intros [= <- <-]|];
    (destruct (f t) as [t1 n] eqn:E; pose proof (Hf t) as Ht; rewrite E in Ht; simpl in *;
     unfold requireAffected; destruct (Z.eqb_spec n 0) as [->|]; [|done]; intros [= <- <-]; simpl; by apply Ht).
Qed.

Lemma keeps_statement {A} (f : tables → tables * result A) : (∀ t t' e, f t = (t', Err e) → t' = t) → failing_keeps (statement f).
Proof.
  intros Hf [t faults] d' e. unfold statement. simpl. destruct faults as [|[e1|] faults]; simpl; [|by intros [= <- <-]|];
    (destruct (f t) as [t1 [a|e1]] eqn:E; [done|]; intros [= <- <-]; simpl; by eapply Hf).
Qed.

Lemma keeps_exec (f : tables → tables * Z) : failing_keeps (exec_stmt f).
Proof. apply keeps_statement. intros t t' e. by destruct (f t). Qed.

Lemma keeps_mapping (m : M sqlDB Z) : failing_keeps m → failing_keeps (mapping_errors m).
Proof.
  intros Hm d d' e. unfold mapping_errors. run_m. destruct (m d) as [d1 [a|e1]] eqn:E; [done|]. intros [= <- <-].
  by eapply Hm.
Qed.

Lemma keeps_delete_row `{Countable K} {Row} (get : tables → gmap K Row) set k : failing_keeps (affecting (delete_row get set k)).
Proof. apply keeps_affecting. intros t. by destruct (get t !! k). Qed.

Lemma keeps_insert_row `{Countable K} {Row} table (get : tables → gmap K Row) set k row :
  failing_keeps (mapping_errors (insert_row dialect table get set k row)).
Proof. apply keeps_mapping, keeps_statement. intros t t' e. destruct (get t !! k); [by intros [= <- _]|done]. Qed.

Lemma keeps_upsert_row `{Countable K} {Row} (get : tables → gmap K Row) set k row :
  failing_keeps (upsert_row get set k row ;; mret tt).
Proof. apply (keeps_ret _ (λ _, tt)), keeps_exec. Qed.

Lemma keeps_delete_versions p : failing_keeps (affecting (delete_versions p)).
Proof.
  apply keeps_affecting. intros t. simpl. intros Hn. rewrite filter_none; [by apply with_versions_same|].
  by rewrite filter_nil_existsb, Hn.
Qed.

Lemma keeps_in_tx {A} (m : M sqlDB A) : failing_keeps (in_tx m).
Proof.
  intros [t faults] d' e. unfold in_tx. pose proof (reads_select (λ _, Ok tt) (mkDB t faults)) as Hs.
  destruct (select (λ _, Ok tt) (mkDB t faults)) as [d1 [[]|e1]]; simpl in *; [|by intros [= <- <-]].
  destruct (m d1) as [d2 [a|e1]]; simpl; [|by intros [= <- <-]].
  pose proof (reads_select (λ _, Ok a) d2) as Hs2. destruct (select (λ _, Ok a) d2) as [d3 [a'|e1]]; simpl in *; [done|].
  by intros [= <- <-].
Qed.

Lemma keeps_insert_version version : failing_keeps (mapping_errors (insert_version dialect version)).
Proof.
  apply keeps_mapping, keeps_statement. intros t t' e. by destruct (identity_taken dialect version t); [intros [= <- _]|].
Qed.

(** The version a mutating call writes with a statement that deletes and one that
    inserts, outside of a transaction. *)
Definition null_written (o : store_op) : option ObjectVersion :=
  match o with
  | OpTx (TxPutObjectVersion version) =>
      if String.eqb (ov_VersionID version) "null" then Some version else None
  | OpTx (TxDeleteObject bucket key id at_) =>
      if String.eqb id "null" then Some (delete_marker bucket key id at_) else None
  | _ => None
  end.

Definition without_null (version : ObjectVersion) (t : tables) : tables :=
  with_versions (List.filter (λ row, negb (row_of_version (ov_Bucket version) (ov_Key version) "null" row)) (t_versions t))
    (t_ordinal t) t.

Lemma put_failing version d d' e : sqlitePutObjectVersion dialect version d = (d', Err e) →
  db_tables d' = db_tables d ∨ ov_VersionID version = "null" ∧ db_tables d' = without_null version (db_tables d).
Proof.
  unfold sqlitePutObjectVersion. destruct (String.eqb_spec (ov_VersionID version) "null") as [Hn|_].
  - unfold mbind at 1, M_bind. destruct (mapping_errors (delete_versions _) d) as [d1 [[]|e1]] eqn:E.
    + intros ->%keeps_insert_version. right. split; [done|]. rewrite Hn in E. unfold without_null. revert E.
      unfold mapping_errors, delete_versions, exec_stmt, statement. run_m. destruct d as [t [|[e1|] faults]]; simpl; [|done|];
        by intros [= <-].
    + intros [= <- <-]. left. revert E. apply (keeps_mapping _ (keeps_exec _)).
  - unfold mbind at 1, M_bind. simpl. intros ->%keeps_insert_version. by left.
Qed.

Lemma keeps_putConfig {A Row} (tb : sql_table A Row) cfg : failing_keeps (sql_putConfig tb cfg).
Proof.
  unfold sql_putConfig. apply (keeps_then (sql_GetBucket _)); [apply reads_query_one|]. intros _. apply keeps_upsert_row.
Qed.

Lemma reads_GetObjectVersion b k id : reads_only (sql_GetObjectVersion b k id).
Proof. unfold sql_GetObjectVersion. destruct (String.eqb id ""); apply reads_query_one. Qed.

Lemma reads_GetMultipartUpload id : reads_only (sql_GetMultipartUpload id).
Proof.
  unfold sql_GetMultipartUpload, sqliteGetMultipartUpload. apply query_bind; [apply reads_query_one|]. intros u.
  apply query_bind; [apply reads_select|done].
Qed.

Lemma keeps_DeleteAll b k : failing_keeps (sql_DeleteAllObjectVersions b k).
Proof.
  unfold sql_DeleteAllObjectVersions. apply keeps_then; [apply reads_select|]. intros [|v vs].
  - intros d d' e [= <- _]. done.
  - apply (keeps_ret _ (λ _, v :: vs)), keeps_exec.
Qed.

Lemma keeps_DeleteVersion b k id : failing_keeps (sql_DeleteObjectVersion b k id).
Proof.
  unfold sql_DeleteObjectVersion. apply keeps_then; [apply reads_GetObjectVersion|]. intros v.
  apply (keeps_ret _ (λ _, v)), keeps_delete_versions.
Qed.
End failures.

Section failure_props.
Context `{!GoRuntime} `{!SqlDriver} `{!JsonCodec (gmap string string)} `{!JsonCodec (list BucketWebsiteRoutingRule)}.
Variable dialect : sqlDialect.


Lemma delete_create_bucket name b t : is_Some (t_buckets t !! name) → b_Name b = name →
  (sql_DeleteBucket name ;; sql_CreateBucket dialect b) (mkDB t []) =
  (mkDB (with_buckets (<[name := bucket_row b]> (delete name (t_buckets t))) t) [], Ok tt).
Proof.
  intros [row Hrow] Hb. unfold sql_DeleteBucket, sql_CreateBucket. unfold mbind, M_bind.
  rewrite delete_row_run, Hrow. unfold mapping_errors, insert_row, statement. run_m. rewrite Hb.
  by rewrite lookup_delete_eq.
Qed.

Lemma locked_DeleteBucket_parts name st : is_Some (st_buckets st !! name) →
  ∃ st', locked_DeleteBucket name st = (st', Ok tt) ∧
    st_buckets st' = delete name (st_buckets st) ∧ st_policies st' = delete name (st_policies st).
Proof. intros [b Hb]. unfold locked_DeleteBucket. rewrite Hb. eexists. split_and!; reflexivity. Qed.

Lemma createBucket_policies b st : st_policies (exec (createBucket b) st) = st_policies st.
Proof. unfold createBucket, exec. destruct (String.eqb (b_Name b) ""); [done|]. by destruct (st_buckets st !! b_Name b). Qed.

Lemma change_unpersisted {P} `{!StatePersister P} m (st : memoryState) :
  change_and_persist m (mkStore (None : option P) st) = (mkStore None (exec m st), eval m st).
Proof. unfold change_and_persist, on_st, persistLocked. run_m. by destruct (m st) as [st' [[]|e]]. Qed.

Lemma memory_delete_create_bucket {P} `{!StatePersister P} name b st : is_Some (st_buckets st !! name) →
  GetBucketPolicy name (exec (DeleteBucket name ;; CreateBucket b) (mkStore (None : option P) st)) = Err ErrNotFound.
Proof.
  intros Hb. destruct (locked_DeleteBucket_parts name st Hb) as (st' & E & _ & Hp).
  assert (E' : DeleteBucket name (mkStore (None : option P) st) = (mkStore None st', Ok tt)).
  { unfold DeleteBucket. rewrite change_unpersisted. unfold exec, eval. by rewrite E. }
  unfold exec at 1, mbind, M_bind. rewrite E'. unfold CreateBucket. rewrite change_unpersisted.
  unfold GetBucketPolicy, getConfig. simpl. by rewrite createBucket_policies, Hp, lookup_delete_eq.
Qed.

(** Deleting a bucket of the SQL store deletes the row of the bucket only. When a
    bucket of that name is created again, the policy of the old one holds for it (as do
    its website, CORS, access block and the rest), where the memory-backed store, in
    the same state before, answers that there is none. *)
Theorem sql_recreated_bucket_keeps_policy {P} `{!StatePersister P} t st name b row :
  sql_models t st → is_Some (t_buckets t !! name) → b_Name b = name →
  t_policies t !! name = Some row →
  ∃ t', (sql_DeleteBucket name ;; sql_CreateBucket dialect b) (mkDB t []) = (mkDB t' [], Ok tt) ∧
    answers (sql_GetBucketPolicy name) t' (Ok (scanPolicy row)) ∧
    GetBucketPolicy name (exec (DeleteBucket name ;; CreateBucket b) (mkStore (None : option P) st)) = Err ErrNotFound.
Proof.
  intros HR Hrow Hb Hp. eexists. split_and!; [by apply delete_create_bucket| |].
  - pose proof (query_one_run (λ ts, scanPolicy <$> t_policies ts !! name)
      (with_buckets (<[name:=bucket_row b]> (delete name (t_buckets t))) t)) as Hq. simpl in Hq. by rewrite Hp in Hq.
  - apply memory_delete_create_bucket. rewrite (sql_bucket_lookup t) by done. by apply fmap_is_Some.
Qed.
End failure_props.

(** ** Evaluation on concrete tables *)
Section sql_witnesses.
#[local] Existing Instance go_runtime_ref.

Definition unique_violation (d : sqlDialect) : error :=
  match d with
  | sqlDialectSQLite => ErrSentinel "constraint failed: UNIQUE constraint failed (2067)"
  | sqlDialectPostgreSQL => ErrSentinel "ERROR: duplicate key value violates unique constraint (SQLSTATE 23505)"
  | sqlDialectMariaDB => ErrSentinel "Error 1062 (23000): Duplicate entry"
  end.

#[local] Instance ex_driver : SqlDriver.
Proof.
  refine {| duplicate_key d _ := unique_violation d; sql_like d p s := true |}; [|done].
  intros [] table Hd; [vm_compute; reflexivity|vm_compute; reflexivity|done].
Defined.

(** json of empty metadata and of no routing rules. *)
#[local] Instance ex_metadata_json : JsonCodec (gmap string string).
Proof. refine {| json_Marshal _ := "{}"; json_Unmarshal _ := Some ∅; json_representable m := m = ∅ |}; [done|by intros ? ->]. Defined.
#[local] Instance ex_rules_json : JsonCodec (list BucketWebsiteRoutingRule).
Proof. refine {| json_Marshal _ := "[]"; json_Unmarshal _ := Some []; json_representable l := l = [] |}; [done|by intros ? ->]. Defined.

Definition conn_done : error := ErrSentinel "sql: connection is already closed".
Definition sq_bucket0 : Bucket := mkBucket "photos" 0 "us-east-1" "Enabled".
Definition sq_version (key id : string) (at_ : Z) : ObjectVersion :=
  mkObjectVersion "photos" key id 3 "etag" "" "" "" "" "path" ∅ false at_.
Definition sq_policy : BucketPolicy := mkBucketPolicy "photos" "{}" true.
Definition sq_part (n : Z) : MultipartPart := mkMultipartPart "u1" n "e" 4 "" "" "" "" "p" 6.

Definition sq_ops : list store_op :=
  [ OpTx (TxCreateBucket sq_bucket0);
    OpTx (TxCreateBucket sq_bucket0);
    OpTx (TxPutObjectVersion (sq_version "b" "v1" 1));
    OpTx (TxPutObjectVersion (sq_version "a" "null" 2));
    OpTx (TxPutObjectVersion (sq_version "a" "null" 3));
    OpTx (TxDeleteObject "photos" "b" "v2" 4);
    OpTx (TxCreateMultipartUpload (mkMultipartUpload "u1" "photos" "big" "" 5));
    OpTx (TxUpsertMultipartPart (sq_part 2));
    OpTx (TxUpsertMultipartPart (sq_part 1));
    OpPutPolicy sq_policy;
    OpDeleteObjectVersion "photos" "b" "v1";
    OpDeleteObjectVersion "photos" "b" "v1" ].

Definition sq_tables : tables := db_tables (run_all (sql_run_op sqlDialectSQLite) sq_ops (mkDB empty_tables [])).1.
Definition sq_store : memoryBackedStore scripted_persister := (run_all run_op sq_ops (mkStore None (emptyState "sqlite"))).1.

Lemma sq_years (n : Z) : (0 <=? n) && (n <=? 10) = true → in_years n.
Proof. unfold in_years, year_0, year_10000, second. rewrite andb_true_iff, !Z.leb_le. intros. lia. Qed.

Lemma sq_ops_ok : ops_ok (mkStore (None : option scripted_persister) (emptyState "sqlite")) sq_ops.
Proof.
  assert (Hs : ∀ key id n, (0 <=? n) && (n <=? 10) = true → storable (sq_version key id n)).
  { intros. split; [by apply sq_years|reflexivity]. }
  assert (Hm : storable (delete_marker "photos" "b" "v2" 4)) by (split; [by apply sq_years|reflexivity]).
  split. { split_and!; [discriminate|discriminate|by apply sq_years]. }
  split. { split_and!; [discriminate|discriminate|by apply sq_years]. }
  split. { split; [by apply Hs|]. right. vm_compute. reflexivity. }
  split. { split; [by apply Hs|]. by left. }
  split. { split; [by apply Hs|]. by left. }
  split. { split; [exact Hm|]. right. vm_compute. reflexivity. }
  split; [by apply sq_years|]. split; [by apply sq_years|]. split; [by apply sq_years|].
  split; [exact I|]. split; [discriminate|]. split; [discriminate|]. exact I.
Qed.



Lemma sq_models : sql_models sq_tables (ms_st sq_store).
Proof.
  destruct (sql_steps sqlDialectSQLite ltac:(discriminate) sq_ops empty_tables (emptyState "sqlite")
    (models_empty "sqlite") sq_ops_ok) as (t & st & rs & E & E' & HR).
  unfold sq_tables, sq_store. by rewrite E, E'.
Qed.

Lemma sql_recreated_bucket_keeps_policy_witness : ∃ t',
  (sql_DeleteBucket "photos" ;; sql_CreateBucket sqlDialectSQLite sq_bucket0) (mkDB sq_tables []) = (mkDB t' [], Ok tt) ∧
  answers (sql_GetBucketPolicy "photos") t' (Ok sq_policy) ∧
  GetBucketPolicy "photos" (exec (DeleteBucket "photos" ;; CreateBucket sq_bucket0)
    (mkStore (None : option scripted_persister) (ms_st sq_store))) = Err ErrNotFound.
Proof.
  apply (sql_recreated_bucket_keeps_policy sqlDialectSQLite sq_tables (ms_st sq_store) "photos" sq_bucket0
    (mkDocumentRow "photos" "{}" 1) sq_models); [vm_compute; eauto|reflexivity|vm_compute; reflexivity].
Defined.
End sql_witnesses.
