(* ===== verification/Backend.v ===== *)
(** * Backends of the metadata (src/internal/metadata/backend.go, connections.go,
    persister.go, store.go; src/internal/recovery/recovery.go for the last path)

    Which backends there are, what a configuration has to name, how connections are
    opened and which store is built on them.  The drivers of database/sql and the
    client of Valkey are the class [Drivers]. *)
From S2P Require Import Prelude GoStrings StringFacts Model MemoryStore FileSystem Blob Sql.

(** ** Backends *)
Abbreviation Backend := string.
Definition BackendSQLite : Backend := "sqlite".
Definition BackendLibSQL : Backend := "libsql".
Definition BackendPostgreSQL : Backend := "postgresql".
Definition BackendMariaDB : Backend := "mariadb".
Definition BackendValkey : Backend := "valkey".

Definition ParseBackend (value : string) : result Backend :=
  let v := ToLower (TrimSpace value) in
  if String.eqb v BackendSQLite then Ok BackendSQLite
  else if String.eqb v BackendLibSQL then Ok BackendLibSQL
  else if String.eqb v BackendPostgreSQL then Ok BackendPostgreSQL
  else if String.eqb v BackendMariaDB then Ok BackendMariaDB
  else if String.eqb v BackendValkey then Ok BackendValkey
  else Err (Errorf "unsupported metadata backend %q" [value]).

Record Capabilities := mkCapabilities {
  cap_Name : string;
  cap_Relational : bool;
  cap_SupportsTransactions : bool;
  cap_SupportsMigrations : bool;
  cap_AuthoritativeStore : bool;
}.

Definition CapabilityMatrix : gmap Backend Capabilities := list_to_map [
  (BackendSQLite, mkCapabilities "SQLite" true true true true);
  (BackendLibSQL, mkCapabilities "libSQL" true true true true);
  (BackendPostgreSQL, mkCapabilities "PostgreSQL" true true true true);
  (BackendMariaDB, mkCapabilities "MariaDB" true true true true);
  (BackendValkey, mkCapabilities "Valkey" false true false false)].

(** A database by driver and data source; a client of Valkey by its address. *)
Record metadataConfig := mkMetadataConfig {
  mc_Backend : Backend;
  mc_DSN : string;
  mc_ValkeyAddr : string;
  mc_SQLDB : option (string * string);
  mc_Valkey : option string;
}.

Definition isNativeSQLBackend (backend : Backend) : bool :=
  String.eqb backend BackendSQLite || String.eqb backend BackendLibSQL ||
  String.eqb backend BackendPostgreSQL || String.eqb backend BackendMariaDB.

Definition Validate (c : metadataConfig) : result unit :=
  if String.eqb (mc_Backend c) "" then Err (Errorf "metadata backend is required" [])
  else if isNativeSQLBackend (mc_Backend c) then
    if String.eqb (TrimSpace (mc_DSN c)) "" then Err (Errorf "metadata dsn is required for backend %q" [mc_Backend c]) else Ok tt
  else if String.eqb (mc_Backend c) BackendValkey then
    if String.eqb (TrimSpace (mc_ValkeyAddr c)) "" then Err (Errorf "valkey address is required for backend %q" [mc_Backend c])
    else Ok tt
  else Err (Errorf "unsupported metadata backend %q" [mc_Backend c]).

(** ** Paths in data source names *)

(** [filepath.Clean] and [filepath.Dir] *)
Definition clean_elem (rooted : bool) (stack : list string) (elem : string) : list string :=
  if String.eqb elem "" || String.eqb elem "." then stack
  else if String.eqb elem ".." then
    match last stack with
    | Some top => if String.eqb top ".." then stack ++ [".."] else removelast stack
    | None => if rooted then stack else stack ++ [".."]
    end
  else stack ++ [elem].

Definition filepath_Clean (p : string) : string :=
  let rooted := HasPrefix p "/" in
  let out := Join (fold_left (clean_elem rooted) (Split p "/") []) "/" in
  if rooted then "/" +:+ out else if String.eqb out "" then "." else out.

Definition filepath_Dir (p : string) : string :=
  filepath_Clean match last_slash p with Some i => str_take (S i) p | None => "" end.

Definition before_query (s : string) : string := match Index s "?" with Some i => str_take i s | None => s end.

Definition sqlitePathFromDSN (dsn : string) : string :=
  let value := TrimSpace dsn in
  if String.eqb value "" then ""
  else if HasPrefix value "file:" then before_query (TrimPrefix value "file:") else value.

Definition ensureSQLiteParentDir (dsn : string) : M world unit :=
  let path := sqlitePathFromDSN dsn in
  if String.eqb path "" || String.eqb path ":memory:" then mret tt else os_MkdirAll (filepath_Dir path).

Definition persistentFilePath (backend : Backend) (dsn : string) : option string :=
  if negb (String.eqb backend BackendSQLite) && negb (String.eqb backend BackendLibSQL) then None
  else
    let value := TrimSpace dsn in
    if negb (HasPrefix value "file:") then None
    else
      let pathPart := TrimSpace (before_query (TrimPrefix value "file:")) in
      if String.eqb pathPart "" || HasPrefix pathPart ":" then None
      else if negb (HasPrefix pathPart "/") && String.eqb (filepath_Dir pathPart) "." then None
      else Some pathPart.

(** The file of the metadata a backup copies (recovery.go). *)
Definition metadataFileFromDSN (dsn : string) : string :=
  let value := TrimSpace dsn in
  if String.eqb value "" then ""
  else
    let value := if HasPrefix value "file:" then before_query (TrimPrefix value "file:") else value in
    if String.eqb value ":memory:" || Contains value "://" then "" else value.

Example dsn_ex :
  persistentFilePath "sqlite" "file:./data/s000-metadata.db?mode=rw" = Some "./data/s000-metadata.db" ∧
  persistentFilePath "sqlite" "file:meta.db" = None ∧ persistentFilePath "sqlite" "file::memory:?cache=shared" = None ∧
  persistentFilePath "postgresql" "file:/x/y" = None ∧
  sqlitePathFromDSN " file:a/b.db?x=1" = "a/b.db" ∧ filepath_Dir "a//b/../c.db" = "a" ∧ filepath_Dir "x" = "." ∧
  filepath_Dir "../x" = ".." ∧ filepath_Dir "/x" = "/" ∧
  metadataFileFromDSN "postgres://host/db" = "" ∧ metadataFileFromDSN "host=db user=x" = "host=db user=x".
Proof. vm_compute. split_and!; reflexivity. Qed.

(** ** Connections *)

(** Drivers by name and data source; [redis.ParseURL] gives the address. *)
Class Drivers := {
  sql_Open : string → string → option error;
  sql_Ping : string → string → option error;
  redis_ParseURL : string → result string;
  redis_Ping : string → option error;
}.

Record Connections := mkConnections {
  cn_Backend : Backend;
  cn_SQLDB : option (string * string);
  cn_Valkey : option string;
}.

Section connections.
Context `{!Drivers}.

(** [sql.Open] and a ping, under the name the messages use. *)
Definition open_database (backend driver name dsn : string) : M world Connections :=
  match sql_Open driver dsn with
  | Some e => throw (ErrWrap ("open " +:+ name +:+ " connection: %w") [] e)
  | None =>
    match sql_Ping driver dsn with
    | Some e => throw (ErrWrap ("ping " +:+ name +:+ " connection: %w") [] e)
    | None => mret (mkConnections backend (Some (driver, dsn)) None)
    end
  end.

Definition OpenConnections (cfg : metadataConfig) : M world Connections :=
  match Validate cfg with
  | Err e => throw e
  | Ok _ =>
    if String.eqb (mc_Backend cfg) BackendSQLite then
      guard_io (ensureSQLiteParentDir (mc_DSN cfg)) no_cleanup "prepare sqlite path: %w" ;;
      open_database BackendSQLite "sqlite" "sqlite" (mc_DSN cfg)
    else if String.eqb (mc_Backend cfg) BackendLibSQL then open_database BackendLibSQL "libsql" "libsql" (mc_DSN cfg)
    else if String.eqb (mc_Backend cfg) BackendPostgreSQL then
      open_database BackendPostgreSQL "pgx" "postgresql" (mc_DSN cfg)
    else if String.eqb (mc_Backend cfg) BackendMariaDB then open_database BackendMariaDB "mysql" "mariadb" (mc_DSN cfg)
    else if String.eqb (mc_Backend cfg) BackendValkey then
      match (if Contains (mc_DSN cfg) "://" then redis_ParseURL (mc_DSN cfg) else Ok (mc_ValkeyAddr cfg)) with
      | Err e => throw (ErrWrap "parse valkey url: %w" [] e)
      | Ok addr =>
        match redis_Ping addr with
        | Some e => throw (ErrWrap "ping valkey connection: %w" [] e)
        | None => mret (mkConnections BackendValkey None (Some addr))
        end
      end
    else throw (Errorf "unsupported metadata backend %q" [mc_Backend cfg])
  end.

Definition Ping (c : option Connections) : result unit :=
  match c with
  | None => Err (Errorf "connections are nil" [])
  | Some c =>
    match cn_SQLDB c ≫= λ '(driver, dsn), sql_Ping driver dsn with
    | Some e => Err e
    | None => match cn_Valkey c ≫= redis_Ping with Some e => Err e | None => Ok tt end
    end
  end.
End connections.

(** ** The store on a configuration *)

(** What keeps the state of a memory-backed store. *)
Inductive persister_kind :=
  | SQLPersister (db : string * string)
  | ValkeyPersister (addr : string)
  | FilePersister (path : string)
  | NoPersister.

Definition newStatePersister (cfg : metadataConfig) : persister_kind :=
  match mc_SQLDB cfg, isNativeSQLBackend (mc_Backend cfg) with
  | Some db, true => SQLPersister db
  | _, _ =>
    match mc_Valkey cfg, String.eqb (mc_Backend cfg) BackendValkey with
    | Some addr, true => ValkeyPersister addr
    | _, _ => match persistentFilePath (mc_Backend cfg) (mc_DSN cfg) with
              | Some path => FilePersister path
              | None => NoPersister
              end
    end
  end.

Definition dialectForBackend (backend : Backend) : sqlDialect :=
  if String.eqb backend BackendPostgreSQL then sqlDialectPostgreSQL
  else if String.eqb backend BackendMariaDB then sqlDialectMariaDB else sqlDialectSQLite.

(** The database of a [sqliteStore], opened by its driver when none is given. *)
Definition store_database (cfg : metadataConfig) : string * string :=
  match mc_SQLDB cfg with
  | Some db => db
  | None => (if String.eqb (mc_Backend cfg) BackendLibSQL then "libsql"
             else if String.eqb (mc_Backend cfg) BackendPostgreSQL then "pgx"
             else if String.eqb (mc_Backend cfg) BackendMariaDB then "mysql" else "sqlite", mc_DSN cfg)
  end.

Definition shouldUseNativeSQL (cfg : metadataConfig) : bool :=
  bool_decide (is_Some (mc_SQLDB cfg)) || bool_decide (is_Some (persistentFilePath (mc_Backend cfg) (mc_DSN cfg))).

Definition requiresNativeMetadataStore (cfg : metadataConfig) : bool :=
  if String.eqb (mc_Backend cfg) BackendValkey then false
  else if HasPrefix (TrimSpace (mc_DSN cfg)) "local://" then false
  else bool_decide (is_Some (mc_Valkey cfg)).

(** The store [NewStore] builds: on tables, or in memory with its persister. *)
Inductive store_kind :=
  | SQLStore (db : string * string) (dialect : sqlDialect)
  | MemoryStore (label : string) (persister : persister_kind).

Definition NewStore (cfg : metadataConfig) : result store_kind :=
  match Validate cfg with
  | Err e => Err e
  | Ok _ =>
    if isNativeSQLBackend (mc_Backend cfg) && shouldUseNativeSQL cfg
    then Ok (SQLStore (store_database cfg) (dialectForBackend (mc_Backend cfg)))
    else if requiresNativeMetadataStore cfg
    then Err (Errorf "metadata backend %q does not yet have a native row-level store; use sqlite/libsql or local:// compatibility mode" [mc_Backend cfg])
    else if isNativeSQLBackend (mc_Backend cfg) || String.eqb (mc_Backend cfg) BackendValkey
    then Ok (MemoryStore (mc_Backend cfg) (newStatePersister cfg))
    else Err (Errorf "unsupported metadata backend %q" [mc_Backend cfg])
  end.

(** ** Which store there is *)
Definition backends : list Backend := [BackendSQLite; BackendLibSQL; BackendPostgreSQL; BackendMariaDB; BackendValkey].

Lemma ParseBackend_spec value b : ParseBackend value = Ok b → b ∈ backends ∧ ToLower (TrimSpace value) = b.
Proof.
  unfold ParseBackend. intros E.
  repeat match type of E with context [String.eqb ?x ?y] => destruct (String.eqb_spec x y) as [Hv|_] end; simplify_eq.
  all: split; [unfold backends; set_solver|exact Hv].
Qed.

Lemma known_backends_have_capabilities b : b ∈ backends ↔ is_Some (CapabilityMatrix !! b).
Proof.
  assert (E : dom CapabilityMatrix = list_to_set backends) by (apply set_eq; vm_compute; done).
  rewrite <- elem_of_dom, E. by rewrite elem_of_list_to_set.
Qed.

Section opened.
Context `{!Drivers}.

Lemma open_database_ok b driver name dsn w w' c : open_database b driver name dsn w = (w', Ok c) →
  c = mkConnections b (Some (driver, dsn)) None.
Proof. unfold open_database. destruct (sql_Open driver dsn); [done|]. destruct (sql_Ping driver dsn); [done|]. by intros [= _ <-]. Qed.

(** With the connections [OpenConnections] opens for a backend, [NewStore] builds a
    store: for an SQL backend the store on that database's tables in the dialect of
    the backend, for Valkey the memory-backed store whose state is saved there - never
    one that keeps nothing. *)
Theorem opened_store_is_backed value b dsn addr (w w' : world) c :
  ParseBackend value = Ok b →
  OpenConnections (mkMetadataConfig b dsn addr None None) w = (w', Ok c) →
  let store := NewStore (mkMetadataConfig b dsn addr (cn_SQLDB c) (cn_Valkey c)) in
  (∃ db, cn_SQLDB c = Some db ∧ store = Ok (SQLStore db (dialectForBackend b))) ∨
  (∃ a, b = BackendValkey ∧ cn_Valkey c = Some a ∧ store = Ok (MemoryStore b (ValkeyPersister a))).
Proof.
  intros Hb%ParseBackend_spec Ho. destruct Hb as [Hb _]. unfold OpenConnections in Ho. simpl in Ho.
  set (cfg := mkMetadataConfig b dsn addr None None) in *.
  destruct (Validate cfg) as [[]|e] eqn:Ev; [|discriminate].
  assert (Hv : Validate (mkMetadataConfig b dsn addr (cn_SQLDB c) (cn_Valkey c)) = Ok tt) by exact Ev.
  unfold backends in Hb. rewrite !elem_of_cons, elem_of_nil in Hb. cbv zeta. unfold NewStore. rewrite Hv.
  destruct_or! Hb; try done; subst b; simpl in Ho.
  1: { unfold mbind, M_bind in Ho. destruct (guard_io _ _ _ w) as [w1 [[]|e]]; [|discriminate].
    apply open_database_ok in Ho as ->. left. by eexists. }
  1-3: apply open_database_ok in Ho as ->; left; by eexists.
  right. destruct (if Contains dsn "://" then redis_ParseURL dsn else Ok addr) as [a|e]; [|discriminate].
  destruct (redis_Ping a); [discriminate|]. injection Ho as _ <-. exists a. split_and!; try done.
Qed.
End opened.

#[local] Instance ex_drivers : Drivers := {|
  sql_Open _ _ := None;
  sql_Ping _ _ := None;
  redis_ParseURL s := Ok s;
  redis_Ping _ := None;
|}.

Lemma opened_store_is_backed_witness :
  let w := mkWorld ∅ ∅ ∅ [] false 0 in
  let c := mkConnections BackendSQLite (Some ("sqlite", "file:./data/x.db")) None in
  let store := NewStore (mkMetadataConfig BackendSQLite "file:./data/x.db" "" (cn_SQLDB c) (cn_Valkey c)) in
  (∃ db, cn_SQLDB c = Some db ∧ store = Ok (SQLStore db sqlDialectSQLite)) ∨
  (∃ a, BackendSQLite = BackendValkey ∧ cn_Valkey c = Some a ∧ store = Ok (MemoryStore BackendSQLite (ValkeyPersister a))).
Proof.
  intros w c store.
  apply (opened_store_is_backed " SQLite" BackendSQLite "file:./data/x.db" "" w (exec (os_MkdirAll "data") w) c); vm_compute; reflexivity.
Defined.

(** Without connections, a data source that names no file of its own leaves the state
    in memory only. *)
Example relative_file_is_not_kept :
  NewStore (mkMetadataConfig BackendSQLite "file:meta.db" "" None None) = Ok (MemoryStore BackendSQLite NoPersister) ∧
  NewStore (mkMetadataConfig BackendPostgreSQL "postgres://db" "" None None) = Ok (MemoryStore BackendPostgreSQL NoPersister) ∧
  NewStore (mkMetadataConfig BackendSQLite "file:./data/meta.db" "" None None) =
    Ok (SQLStore ("sqlite", "file:./data/meta.db") sqlDialectSQLite).
Proof. vm_compute. split_and!; reflexivity. Qed.
