(* ===== verification/Recovery.v ===== *)
(** * Backups (src/internal/recovery/recovery.go)

    The copy of the data directory and of the metadata file, and the check of a backup
    before it is restored, on the file system of FileSystem.v.  Every call may fail by
    the schedule.  A file is read when it is copied, after the copy was created. *)
From S2P Require Import Prelude GoStrings StringFacts Model MemoryStore FileSystem Blob BlobFacts DirWalk Sql Backend.

Record BackupConfig := mkBackupConfig {
  bc_DataDir : string;
  bc_MetadataDSN : string;
  bc_OutputDir : string;
}.

(** [os.Open]: the file has to be there.  [os.Create]: an empty file in a directory. *)
Definition os_Open (p : string) : M world unit :=
  fault_point ;; gets (λ w, match fs_files w !! p with Some _ => Ok tt | None => Err ErrNotExist end).

Definition ErrIsDir : error := ErrSentinel "is a directory".
Definition os_Create (p : string) : M world unit :=
  fault_point ;;
  w ← get;
  if bool_decide (p ∈ fs_dirs w) then throw ErrIsDir
  else if bool_decide (path_dir p ∈ fs_dirs w) then put (set_files (<[p := ""]> (fs_files w)) w)
  else throw ErrNotExist.

(** [io.Copy]: what the source holds now. *)
Definition io_Copy (dst src : string) : M world unit :=
  content ← gets (λ w, Ok (default "" (fs_files w !! src)));
  os_WriteFile dst content.

Definition copyFile (src dst : string) : M world unit :=
  os_Open src ;;
  os_MkdirAll (path_dir dst) ;;
  os_Create dst ;;
  io_Copy dst src ;;
  os_Sync.

(** [filepath.Join(dstRoot, rel)] for the path of the walk. *)
Definition copy_target (srcRoot dstRoot path : string) : string :=
  if String.eqb path srcRoot then dstRoot else join_path dstRoot (str_drop (String.length srcRoot + 1) path).

Definition copy_entry (srcRoot dstRoot path : string) (isDir : bool) : M world unit :=
  let target := copy_target srcRoot dstRoot path in
  if isDir then os_MkdirAll target else copyFile path target.

(** An error that is wrapped, without a cleanup. *)
Definition wrapping {A} (m : M world A) (msg : string) : M world A := guard_io m no_cleanup msg.

Section backup.
Context `{!GoRuntime}.

Definition copyTree (srcRoot dstRoot : string) : M world unit := λ w,
  WalkDir (copy_entry srcRoot dstRoot) (walk_fuel w) srcRoot w.

Definition CreateBackup (cfg : BackupConfig) : M world unit :=
  if String.eqb (TrimSpace (bc_DataDir cfg)) "" then throw (Errorf "data dir is required" [])
  else if String.eqb (TrimSpace (bc_OutputDir cfg)) "" then throw (Errorf "output dir is required" [])
  else
    let out := filepath_Clean (bc_OutputDir cfg) in
    wrapping (os_MkdirAll out) "create output dir: %w" ;;
    wrapping (copyTree (filepath_Clean (bc_DataDir cfg)) (join_path out "data")) "copy data dir: %w" ;;
    let metadataPath := metadataFileFromDSN (bc_MetadataDSN cfg) in
    if String.eqb metadataPath "" then mret tt
    else
      wrapping (os_MkdirAll (join_path out "metadata")) "create metadata backup dir: %w" ;;
      wrapping (copyFile (filepath_Clean metadataPath) (join_path (join_path out "metadata") "s000-metadata.db"))
        "copy metadata db: %w".

(** [os.Stat] and [IsDir] in one condition. *)
Definition is_directory (p : string) : M world bool :=
  st ← try (os_Stat p);
  gets (λ w, Ok (is_ok st && bool_decide (p ∈ fs_dirs w))).

Definition ValidateRestore (backupDir : string) : M world unit :=
  if String.eqb (TrimSpace backupDir) "" then throw (Errorf "backup dir is required" [])
  else
    let dir := filepath_Clean backupDir in
    ok ← is_directory dir;
    if negb ok then throw (Errorf "backup dir is not accessible" [])
    else
      ok ← is_directory (join_path (join_path dir "data") "objects");
      if negb ok then throw (Errorf "backup missing data/objects" [])
      else
        st ← try (os_Stat (join_path (join_path dir "metadata") "s000-metadata.db"));
        match st with
        | Err _ => throw (Errorf "backup missing metadata db" [])
        | Ok _ => mret tt
        end.
End backup.

(** ** What a backup holds *)
Lemma last_slash_split p i : last_slash p = Some i → p = str_take i p +:+ "/" +:+ str_drop (S i) p.
Proof.
  revert i. induction p as [|c p IH]; intros i; [done|]. simpl. destruct (last_slash p) as [j|].
  - intros [= <-]. simpl. rewrite str_app_cons. f_equal. by apply IH.
  - destruct (Ascii.eqb_spec c "/") as [-> |]; [|done]. by intros [= <-].
Qed.

Lemma path_dir_below p : path_dir p = "." ∨ path_dir p = "/" ∨ below (path_dir p) p = true.
Proof.
  unfold path_dir. destruct (last_slash p) as [[|i]|] eqn:E; [by right; left| |by left]. right; right.
  apply below_path. exists (str_drop (S (S i)) p). by apply last_slash_split.
Qed.

(** The places above every path. *)
Definition top (q : string) : Prop := q ∈ [""; "."; "/"].

Lemma below_letter q (c : ascii) : below q (String c "") = true → q = "".
Proof.
  intros [t Ht]%below_path. unfold join_path in Ht. destruct q as [|d q]; [done|]. rewrite str_app_cons in Ht.
  injection Ht as _ Ht. symmetry in Ht. by apply str_app_eq_nil in Ht as [_ ?].
Qed.

Definition above (q p : string) : Prop := q = p ∨ below q p = true ∨ top q.

Lemma above_dir q p : above q (path_dir p) → above q p.
Proof.
  assert (Htop : ∀ q c, below q (String c "") = true → top q) by (intros ? ? ->%below_letter; by left).
  intros Hq. right. destruct (path_dir_below p) as [E | [E | Hb]].
  1,2: rewrite E in Hq; right; destruct Hq as [-> | [Hq | ?]]; [unfold top; set_solver|by eapply Htop|done].
  destruct Hq as [-> | [Hq | ?]]; [by left| |by right]. left. by eapply below_trans.
Qed.

Lemma ancestors_above fuel p q : q ∈ ancestors fuel p → above q p.
Proof.
  revert p. induction fuel as [|fuel IH]; intros p; simpl; [rewrite list_elem_of_singleton; by left|].
  destruct (_ || _); [rewrite list_elem_of_singleton; by left|]. intros [-> | Hq]%elem_of_cons; [by left|].
  by apply above_dir, IH.
Qed.

(** What is above a place outside a tree is outside it. *)
Lemma apart_above root p q : root ≠ "" → ¬ top root → ¬ in_tree root p → above q p → ¬ in_tree root q.
Proof.
  intros Hne Hroot Hp Habove Hq. destruct Habove as [-> | [Hb | Ht]]; [done| |].
  - apply Hp. right. destruct Hq as [-> | Hq]; [done|]. by eapply below_trans.
  - destruct Hq as [-> | Hq]; [done|]. unfold top in Ht. rewrite !elem_of_cons, elem_of_nil in Ht.
    destruct_or! Ht; subst; try done; try (by apply below_letter in Hq).
    apply below_path in Hq as [t Ht]. unfold join_path in Ht. by destruct root.
Qed.

Lemma MkdirAll_Ok p w w' : os_MkdirAll p w = (w', Ok tt) →
  fs_files w' = fs_files w ∧ p ∈ fs_dirs w' ∧ ∀ q, q ∈ fs_dirs w' → q ∈ fs_dirs w ∨ above q p.
Proof.
  unfold os_MkdirAll. intros Hr. apply M_bind_inv in Hr as (w1 & [] & Hf & Hr). apply fault_point_keeps in Hf as [Ef Ed].
  unfold modify in Hr. simplify_eq. simpl. rewrite Ed. split_and!; [done| |].
  - apply elem_of_union_r, elem_of_list_to_set. destruct (String.length p); simpl; [set_solver|]. destruct (_ || _); set_solver.
  - intros q [Hq | Hq%elem_of_list_to_set]%elem_of_union; [by left|]. right. by eapply ancestors_above.
Qed.

Lemma MkdirAll_grows p w w' : os_MkdirAll p w = (w', Ok tt) → fs_dirs w ⊆ fs_dirs w'.
Proof.
  unfold os_MkdirAll. intros Hr. apply M_bind_inv in Hr as (w1 & [] & Hf & Hr). apply fault_point_keeps in Hf as [Ef Ed].
  unfold modify in Hr. simplify_eq. simpl. rewrite Ed. set_solver.
Qed.

Lemma copyFile_Ok src dst w w' : src ≠ dst → copyFile src dst w = (w', Ok tt) →
  ∃ c, fs_files w !! src = Some c ∧ fs_files w' = <[dst := c]> (fs_files w) ∧ fs_dirs w ⊆ fs_dirs w' ∧
    ∀ q, q ∈ fs_dirs w' → q ∈ fs_dirs w ∨ above q dst.
Proof.
  intros Hne Hr. unfold copyFile in Hr. apply M_bind_inv in Hr as (w1 & [] & Ho & Hr).
  apply M_bind_inv in Hr as (w2 & [] & Hm & Hr). apply M_bind_inv in Hr as (w3 & [] & Hc & Hr).
  apply M_bind_inv in Hr as (w4 & [] & Hw & Hs).
  unfold os_Open in Ho. apply M_bind_inv in Ho as (w1' & [] & Hf & Ho). apply fault_point_keeps in Hf as [Ef Ed].
  unfold gets in Ho. destruct (fs_files w1' !! src) as [c|] eqn:Hsrc; [|done]. simplify_eq. rewrite Ef in Hsrc.
  pose proof (MkdirAll_grows _ _ _ Hm) as Hg. apply MkdirAll_Ok in Hm as (Ef2 & _ & Hd2).
  unfold os_Create in Hc. apply M_bind_inv in Hc as (w2' & [] & Hf & Hc). apply fault_point_keeps in Hf as [Ef3 Ed3].
  unfold mbind, M_bind, get in Hc. case_bool_decide; [done|]. case_bool_decide; [|done]. unfold put in Hc. simplify_eq. simpl in Hw.
  unfold io_Copy, os_WriteFile in Hw. apply M_bind_inv in Hw as (w5 & c' & Hg5 & Hw). unfold gets in Hg5. simplify_eq. simpl in Hw.
  apply M_bind_inv in Hw as (w6 & [] & Hf & Hw). apply fault_point_keeps in Hf as [Ef6 Ed6]. unfold modify in Hw. simplify_eq.
  apply fault_point_keeps in Hs as [Ef7 Ed7]. simpl in *. rewrite Ef7, Ed7, Ef6, Ed6, Ef3, Ed3, Ef2, Ef, <- Ed.
  exists c. split_and!; [done| |done|].
  - rewrite lookup_insert_ne, Hsrc by done. simpl. by rewrite insert_insert_eq.
  - intros q Hq. destruct (Hd2 q Hq) as [?|Ha]; [by left|right]. by apply above_dir.
Qed.

Lemma copy_target_root root dst : copy_target root dst root = dst.
Proof. unfold copy_target. by rewrite String.eqb_refl. Qed.

Lemma copy_target_join root dst t : copy_target root dst (join_path root t) = join_path dst t.
Proof.
  unfold copy_target. destruct (String.eqb_spec (join_path root t) root) as [E|]; [|by rewrite drop_join].
  apply (f_equal String.length) in E. unfold join_path in E. rewrite !length_str_app in E. simpl in E. lia.
Qed.

Section copied.
Context `{!GoRuntime}.
Variables root dst : string.
Variable F0 : gmap string string.
Variable D0 : gset string.
(** Files outside the tree that are not to change either, directories that stay. *)
Variables K E0 : gset string.

(** The copy is neither in the tree nor above it. *)
Record copy_apart : Prop := {
  ca_root : root ≠ "" ∧ ¬ top root;
  ca_dst : ¬ in_tree root dst ∧ dst ∉ K;
  ca_below t : ¬ in_tree root (join_path dst t) ∧ join_path dst t ∉ K;
}.
Hypothesis apart : copy_apart.
Hypothesis tree : tree_ok root F0 D0.

Definition source_kept (w : world) : Prop :=
  tree_kept root F0 D0 w ∧ E0 ⊆ fs_dirs w ∧ ∀ p, p ∈ K → fs_files w !! p = F0 !! p.
Definition copied (p : string) (isDir : bool) (w : world) : Prop :=
  in_tree root p ∧
  if isDir then copy_target root dst p ∈ fs_dirs w else fs_files w !! copy_target root dst p = F0 !! p.

Lemma target_apart p : in_tree root p → ¬ in_tree root (copy_target root dst p) ∧ copy_target root dst p ∉ K.
Proof.
  intros [-> | [t ->]%below_path]; [rewrite copy_target_root; apply ca_dst, apart|rewrite copy_target_join; apply ca_below, apart].
Qed.

Lemma target_inj p q : in_tree root p → in_tree root q → copy_target root dst p = copy_target root dst q → p = q.
Proof.
  assert (Hlen : ∀ t, dst ≠ join_path dst t).
  { intros t E. apply (f_equal String.length) in E. rewrite length_join in E. lia. }
  intros [-> | [t ->]%below_path] [-> | [u ->]%below_path]; rewrite ?copy_target_root, ?copy_target_join; intros E; try done.
  - by apply Hlen in E.
  - symmetry in E. by apply Hlen in E.
  - apply (f_equal (str_drop (String.length dst + 1))) in E. rewrite !drop_join in E. by subst.
Qed.

Lemma still_onward A (m : M world A) w w' r : still m → source_kept w → m w = (w', r) → onward source_kept copied w w'.
Proof.
  intros Hm (Ht & HE & Hk) Hr. destruct (Hm w) as [Ef Ed]. rewrite Hr in Ef, Ed. simpl in Ef, Ed. split.
  - split; [|split; [by rewrite Ed|intros p Hp; rewrite Ef; by apply Hk]]. intros p Hp. unfold world_of, world_HasWorld. rewrite Ef, Ed. by apply Ht.
  - intros p [] [Hp Hc]; split; [done| |done|]; by rewrite ?Ef, ?Ed.
Qed.

(** A step that changes the file of one target at most and adds directories above it. *)
Lemma step_onward p x w w' : in_tree root p → source_kept w →
  (fs_files w' = fs_files w ∨ is_Some (F0 !! p) ∧ Some x = F0 !! p ∧ fs_files w' = <[copy_target root dst p := x]> (fs_files w)) →
  fs_dirs w ⊆ fs_dirs w' → (∀ q, q ∈ fs_dirs w' → q ∈ fs_dirs w ∨ above q (copy_target root dst p)) → onward source_kept copied w w'.
Proof.
  intros Hp (Ht & HE & Hk) Hf Hg Hd. destruct (target_apart p Hp) as [Hn HnK]. destruct (ca_root apart) as [Hne Htop].
  assert (Hsame : ∀ q, q ≠ copy_target root dst p → fs_files w' !! q = fs_files w !! q).
  { intros q Hq. destruct Hf as [-> | (_ & _ & ->)]; [done|]. by rewrite lookup_insert_ne. }
  split; [split_and!|].
  - intros q Hq. destruct (Ht q Hq) as [Eq Edq]. unfold world_of, world_HasWorld in *. split.
    + rewrite Hsame; [done|]. by intros ->.
    + rewrite <- Edq. split; [|by apply Hg]. intros Hq'. destruct (Hd q Hq') as [|Ha]; [done|]. by destruct (apart_above _ _ _ Hne Htop Hn Ha).
  - by etrans.
  - intros q Hq. rewrite Hsame; [by apply Hk|]. by intros ->.
  - intros q [] [Hq Hc]; (split; [done|]); [by apply Hg|].
    destruct (decide (copy_target root dst q = copy_target root dst p)) as [E|E]; [|by rewrite Hsame].
    destruct Hf as [-> | (_ & Hx & ->)]; [done|]. rewrite E, lookup_insert_eq. by rewrite (target_inj _ _ Hq Hp E).
Qed.

Lemma copyTree_copies w w' : source_kept w → root ∈ D0 → copyTree root dst w = (w', Ok tt) →
  source_kept w' ∧ ∀ p b, kind F0 D0 p b → (p = root ∧ b = true ∨ below root p = true) → copied p b w'.
Proof.
  intros Hk Hroot Hc. unfold copyTree in Hc.
  destruct (WalkDir_covers (copy_entry root dst) root F0 D0 source_kept copied tree) with (fuel := walk_fuel w) (s := w) (s' := w')
    as [Ho Hcov]; try done.
  - intros s [Hs _]. exact Hs.
  - intros A m s s' r Hm Hs Hr. by eapply still_onward.
  - intros p s s' Hp Hin Hs Hr. unfold copy_entry in Hr. pose proof (MkdirAll_Ok _ _ _ Hr) as (Ef & Hd & Ha).
    split; [|by split]. apply (step_onward p "" s s'); [done..|by left|by eapply MkdirAll_grows|done].
  - intros p s s' Hp Hb Hs Hr. assert (Hin : in_tree root p) by by right. unfold copy_entry in Hr.
    destruct (target_apart p Hin) as [Hn _]. assert (Hne : p ≠ copy_target root dst p) by (intros E; by rewrite <- E in Hn).
    destruct (copyFile_Ok _ _ _ _ Hne Hr) as (c & Hsrc & Ef & Hg & Ha).
    assert (Hc0 : F0 !! p = Some c) by (rewrite <- Hsrc; symmetry; exact (proj1 (proj1 Hs p Hin))).
    split; [|split; [done|by rewrite Ef, lookup_insert_eq]]. apply (step_onward p c s s'); [done..| |done|done].
    right. split; [done|]. by split.
  - split; [apply Ho|]. intros p b Hp Hpb. apply Hcov; [done|]. destruct Hpb as [[-> ->] | Hb]; [by left|by right].
Qed.
End copied.
Lemma join_comparable a b t u : join_path a t = join_path b u → a = b ∨ below a b = true ∨ below b a = true.
Proof.
  unfold join_path. revert b. induction a as [|c a IH]; intros [|d b]; rewrite ?str_app_nil_l, ?str_app_cons; [by left| | |].
  - intros [= <- E]. right; left. apply below_path. by exists b.
  - intros [= -> E]. right; right. apply below_path. by exists a.
  - intros [= -> E]. rewrite !below_path. destruct (IH b E) as [-> | [Hb | Hb]]; [by left| |]; apply below_path in Hb as [v ->].
    + right; left. by exists v.
    + right; right. by exists v.
Qed.

Lemma apart_join root out t : ¬ in_tree root out → below out root = false → ¬ in_tree root (join_path out t).
Proof.
  intros Hn Hb [E | [u E]%below_path].
  - assert (below out root = true); [|congruence]. apply below_path. eauto.
  - apply join_comparable in E as [-> | [E | E]]; [|congruence|]; apply Hn; [by left|by right].
Qed.

Lemma run_of {S A} (m : M S A) s x : (m s).2 = Ok x → m s = ((m s).1, Ok x).
Proof. destruct (m s). simpl. by intros ->. Qed.

Lemma wrapping_Ok {A} (m : M world A) msg w w' x : wrapping m msg w = (w', Ok x) → m w = (w', Ok x).
Proof. apply guard_io_Ok. Qed.

Section complete.
Context `{!GoRuntime}.
Variable cfg : BackupConfig.
Let root := filepath_Clean (bc_DataDir cfg).
Let out := filepath_Clean (bc_OutputDir cfg).
Let data := join_path out "data".
Let meta := filepath_Clean (metadataFileFromDSN (bc_MetadataDSN cfg)).
Let meta_copy := join_path (join_path out "metadata") "s000-metadata.db".

(** The data directory, the output and the metadata file are apart. *)
Record backup_apart : Prop := {
  ba_root : ¬ top root;
  ba_out : ¬ in_tree root out ∧ below out root = false;
  ba_meta : below out meta = false;
}.
Hypothesis apart : backup_apart.

Lemma out_apart t : ¬ in_tree root (join_path out t) ∧ meta ≠ join_path out t.
Proof.
  split; [by apply apart_join; apply ba_out|]. intros E. pose proof (ba_meta apart) as Hm.
  assert (below out meta = true); [|congruence]. apply below_path. eauto.
Qed.

Lemma data_apart : copy_apart root data {[meta]}.
Proof.
  split.
  - split; [|apply ba_root, apart]. pose proof (ba_root apart) as Hr. intros E. apply Hr. rewrite E. by left.
  - unfold data. rewrite not_elem_of_singleton. split; [apply out_apart|]. intros E. by apply (proj2 (out_apart "data")).
  - intros t. unfold data. rewrite join_path_assoc, not_elem_of_singleton. split; [apply out_apart|]. intros E.
    by apply (proj2 (out_apart (join_path "data" t))).
Qed.

Lemma meta_copy_apart p : in_tree root p → p ≠ meta_copy ∧ copy_target root data p ≠ meta_copy.
Proof.
  intros Hp. unfold meta_copy. rewrite join_path_assoc. split.
  - intros ->. by apply (proj1 (out_apart (join_path "metadata" "s000-metadata.db"))).
  - intros E. assert (∃ t, join_path out t = join_path out (join_path "metadata" "s000-metadata.db") ∧ (t = "data" ∨ below "data" t = true)) as (t & E' & Ht).
    { destruct Hp as [-> | [u ->]%below_path].
      - rewrite copy_target_root in E. exists "data". split; [done|by left].
      - rewrite copy_target_join in E. unfold data in E. rewrite join_path_assoc in E. exists (join_path "data" u).
        split; [done|]. right. apply below_path. eauto. }
    apply (f_equal (str_drop (String.length out + 1))) in E'. rewrite !drop_join in E'. subst t.
    by destruct Ht.
Qed.

(** The data part of a backup that succeeds. *)
Lemma backup_data w w1 w2 : tree_ok root (fs_files w) (fs_dirs w) → root ∈ fs_dirs w →
  os_MkdirAll out w = (w1, Ok tt) → copyTree root data w1 = (w2, Ok tt) →
  source_kept root (fs_files w) (fs_dirs w) {[meta]} {[out]} w2 ∧
  ∀ p b, kind (fs_files w) (fs_dirs w) p b → (p = root ∧ b = true ∨ below root p = true) →
    copied root data (fs_files w) p b w2.
Proof.
  intros Htree Hroot Hm Hc. pose proof (MkdirAll_Ok _ _ _ Hm) as (Ef & Hout & Ha).
  apply (copyTree_copies _ _ _ _ _ _ data_apart Htree w1 w2); [|done|done].
  split_and!; [|set_solver|intros p _; by rewrite Ef].
  intros p Hp. unfold world_of, world_HasWorld. rewrite Ef. split; [done|].
  split; [|by apply (MkdirAll_grows _ _ _ Hm)]. intros Hp'. destruct (Ha p Hp') as [|Hab]; [done|]. exfalso.
  assert (Hne : root ≠ "") by (intros E; apply (ba_root apart); rewrite E; by left).
  by apply (apart_above _ _ _ Hne (ba_root apart) (proj1 (ba_out apart)) Hab).
Qed.

(** The metadata part. *)
Lemma backup_meta w2 w3 w4 : below out meta = false →
  os_MkdirAll (join_path out "metadata") w2 = (w3, Ok tt) → copyFile meta meta_copy w3 = (w4, Ok tt) →
  ∃ c, fs_files w2 !! meta = Some c ∧ fs_files w4 = <[meta_copy := c]> (fs_files w2) ∧ fs_dirs w2 ⊆ fs_dirs w4.
Proof.
  intros Hb Hm Hc. assert (Hne : meta ≠ meta_copy).
  { unfold meta_copy. rewrite join_path_assoc. apply out_apart. }
  destruct (copyFile_Ok _ _ _ _ Hne Hc) as (c & Hs & Ef & Hg & _). pose proof (MkdirAll_grows _ _ _ Hm) as Hg2.
  apply MkdirAll_Ok in Hm as (Ef2 & _). rewrite Ef2 in Hs, Ef. exists c. split_and!; [done|done|by etrans].
Qed.

(** A world without faults. *)
Definition calm (w : world) : Prop := fs_faults w = [] ∧ fs_crashed w = false.

Lemma is_directory_calm p w : calm w → p ∈ fs_dirs w → is_directory p w = (w, Ok true).
Proof.
  destruct w as [files dirs mtimes faults crashed clock]. intros [Hf Hc] Hp. simpl in *. subst.
  unfold is_directory, os_Stat, try, fault_point, gets, mbind, M_bind. simpl.
  rewrite (bool_decide_true (p ∈ dirs ∨ _)) by by left. simpl. by rewrite bool_decide_true.
Qed.

Lemma restore_accepted w : TrimSpace (bc_OutputDir cfg) ≠ "" → calm w → out ∈ fs_dirs w → join_path data "objects" ∈ fs_dirs w →
  is_Some (fs_files w !! meta_copy) → ValidateRestore (bc_OutputDir cfg) w = (w, Ok tt).
Proof.
  intros Ht Hcalm Ho Hd Hm. unfold ValidateRestore. destruct (String.eqb_spec (TrimSpace (bc_OutputDir cfg)) ""); [done|].
  fold out. unfold mbind at 1, M_bind at 1. rewrite (is_directory_calm _ _ Hcalm Ho). cbn [negb].
  unfold mbind at 1, M_bind at 1. fold data. rewrite (is_directory_calm _ _ Hcalm Hd). cbn [negb].
  destruct w as [files dirs mtimes faults crashed clock], Hcalm as [Hf Hc]. simpl in *. subst.
  fold meta_copy. unfold os_Stat, try, fault_point, gets, mbind, M_bind. simpl. by rewrite bool_decide_true by by right.
Qed.

(** What a backup that succeeds consists of. *)
Lemma CreateBackup_steps w w' : CreateBackup cfg w = (w', Ok tt) → TrimSpace (bc_OutputDir cfg) ≠ "" ∧
  ∃ w1 w2, os_MkdirAll out w = (w1, Ok tt) ∧ copyTree root data w1 = (w2, Ok tt) ∧
  (metadataFileFromDSN (bc_MetadataDSN cfg) = "" ∧ w' = w2 ∨ metadataFileFromDSN (bc_MetadataDSN cfg) ≠ "" ∧
   ∃ w3, os_MkdirAll (join_path out "metadata") w2 = (w3, Ok tt) ∧ copyFile meta meta_copy w3 = (w', Ok tt)).
Proof.
  unfold CreateBackup. destruct (String.eqb _ _); [done|]. destruct (String.eqb_spec (TrimSpace (bc_OutputDir cfg)) ""); [done|].
  intros Hr. split; [done|]. apply M_bind_inv in Hr as (w1 & [] & H1%wrapping_Ok & Hr).
  apply M_bind_inv in Hr as (w2 & [] & H2%wrapping_Ok & Hr). exists w1, w2. split_and!; [done|done|].
  destruct (String.eqb_spec (metadataFileFromDSN (bc_MetadataDSN cfg)) ""); [left|right].
  - unfold mret, M_ret in Hr. by simplify_eq.
  - split; [done|]. apply M_bind_inv in Hr as (w3 & [] & H3%wrapping_Ok & H4%wrapping_Ok). by exists w3.
Qed.

End complete.

(** ** A backup of two objects, and two that go wrong *)
Section examples.
#[local] Existing Instance go_runtime_ref.

Definition ex_data : world :=
  mkWorld (list_to_map [("srv/data/objects/a", "one"); ("srv/data/objects/b/c", "two"); ("srv/data/s000-metadata.db", "db")])
    (list_to_set ["srv"; "srv/data"; "srv/data/objects"; "srv/data/objects/b"; "srv/data/tmp"]) ∅ [] false 0.

Definition ex_backup (dsn out : string) : world * result unit := CreateBackup (mkBackupConfig "./srv/data" dsn out) ex_data.

Example backup_ex :
  let (w, r) := ex_backup "file:./srv/data/s000-metadata.db" "bak" in
  r = Ok tt ∧ fs_files w !! "bak/data/objects/b/c" = Some "two" ∧ fs_files w !! "bak/metadata/s000-metadata.db" = Some "db" ∧
  (ValidateRestore "bak" w).2 = Ok tt.
Proof. vm_compute. split_and!; reflexivity. Qed.

Definition ex_backup_config : BackupConfig := mkBackupConfig "./srv/data" "file:./srv/data/s000-metadata.db" "bak".

Lemma ex_backup_apart : backup_apart ex_backup_config.
Proof.
  split.
  - unfold top. rewrite !elem_of_cons, elem_of_nil. intros E. destruct_or! E; vm_compute in E; done.
  - split; [|done]. intros [E | E]; vm_compute in E; done.
  - done.
Qed.

(** The conditions on a tree, decided on what is there. *)
Definition tree_okb (root : string) (F : gmap string string) (D : gset string) : bool :=
  forallb (λ p, negb (below root p) ||
    negb (bool_decide (is_Some (F !! p) ∧ p ∈ D)) && forallb (λ i, let q := str_take i p in
      negb (String.eqb q root || below root q) || negb (below q p) || bool_decide (q ∈ D)) (seq 0 (String.length p)))
    (elements (dom F ∪ D)).

Lemma take_join q t : str_take (String.length q) (join_path q t) = q.
Proof. unfold join_path. apply str_take_app. Qed.

Lemma tree_okb_ok root F D : tree_okb root F D = true → tree_ok root F D.
Proof.
  unfold tree_okb. rewrite forallb_forall. intros Hall p b Hk Hb.
  assert (Hin : is_Some (F !! p) ∨ p ∈ D) by (destruct b; [by right|by left]).
  specialize (Hall p). rewrite <- list_elem_of_In, elem_of_elements, elem_of_union, elem_of_dom, Hb in Hall.
  specialize (Hall Hin). simpl in Hall. apply andb_prop in Hall as [Hone Habove]. split.
  - destruct b; unfold kind in Hk; [by rewrite bool_decide_true|]. rewrite bool_decide_false; [done|]. intros Hd.
    by rewrite bool_decide_true in Hone.
  - intros q Hq [t ->]%below_path. rewrite forallb_forall in Habove. specialize (Habove (String.length q)).
    rewrite <- list_elem_of_In, elem_of_seq, length_join in Habove. specialize (Habove ltac:(lia)). cbv zeta in Habove.
    rewrite take_join in Habove. rewrite (proj2 (below_path q _)) in Habove by eauto. rewrite orb_false_r in Habove.
    destruct Hq as [-> | Hq]; [rewrite String.eqb_refl in Habove|rewrite Hq, orb_true_r in Habove]; by apply bool_decide_eq_true in Habove.
Qed.

Lemma ex_tree_ok : tree_ok (filepath_Clean (bc_DataDir ex_backup_config)) (fs_files ex_data) (fs_dirs ex_data).
Proof. apply tree_okb_ok. vm_compute. reflexivity. Qed.


(** With the parent of the data directory as output every file is copied onto itself:
    creating the copy empties it. *)
Example backup_destroys_data :
  let (w, r) := ex_backup "" "srv" in
  r = Ok tt ∧ fs_files w !! "srv/data/objects/a" = Some "" ∧ fs_files w !! "srv/data/objects/b/c" = Some "".
Proof. vm_compute. split_and!; reflexivity. Qed.

(** Into a directory of the data the walk goes on in its own copy, as deep as there is
    fuel; without a file for the metadata a complete backup is not valid. *)
Example backup_that_fails :
  is_ok (ex_backup "" "srv/data/backup").2 = false ∧
  (let (w, r) := ex_backup "postgres://db" "bak" in r = Ok tt ∧ is_ok (ValidateRestore "bak" w).2 = false).
Proof. vm_compute. split_and!; reflexivity. Qed.
End examples.
