(* ===== verification/Importer.v ===== *)
(** * Import of a directory at startup (src/internal/bootstrap/importer.go)

    Every directory below the import directory becomes a bucket, every file below it an
    object with the version "null", unless there is one already.  The walk reads the file
    system that the blob store writes to.  There are no symbolic links in FileSystem.v. *)
From S2P Require Import Prelude GoStrings StringFacts Model MemoryStore MemoryStoreFacts MemoryStoreProps FileSystem Blob BlobFacts DirWalk Sql Backend Recovery.
From S2P Require Import NetHttp Website.

Record ImportResult := mkImportResult {
  ir_BucketsCreated : Z;
  ir_ObjectsAdded : Z;
  ir_ObjectsSkipped : Z;
}.

(** The metadata store is in the state; [io_Metadata] is false when it is nil.  The clock
    of the process is that of the file system unless [Now] is another. *)
Record ImportOptions := mkImportOptions {
  io_Directory : string;
  io_Region : string;
  io_Metadata : bool;
  io_Blob : option blobStore;
  io_Now : option (world → Z);
}.

Record import_state (P : Type) := mkImportState {
  im_store : memoryBackedStore P;
  im_world : world;
  im_result : ImportResult;
}.
Arguments mkImportState {_} _ _ _.
Arguments im_store {_} _.
Arguments im_world {_} _.
Arguments im_result {_} _.

(** An error that is wrapped. *)
Definition wrapped {S A} (m : M S A) (msg : string) (args : list string) : M S A :=
  r ← try m;
  match r with Ok x => mret x | Err e => throw (ErrWrap msg args e) end.

Section import.
Context `{!GoRuntime} `{!Hashes} `{!TempNames} `{!MimeTypes} {P : Type} `{!StatePersister P}.
Abbreviation IM := (M (import_state P)).

Definition in_world {A} (m : M world A) : IM A := λ s,
  let '(w, r) := m (im_world s) in (mkImportState (im_store s) w (im_result s), r).
Definition in_store {A} (m : M (memoryBackedStore P) A) : IM A := λ s,
  let '(st, r) := m (im_store s) in (mkImportState st (im_world s) (im_result s), r).
Definition ask_store {A} (f : memoryBackedStore P → result A) : IM A := gets (λ s, f (im_store s)).
Definition count (f : ImportResult → ImportResult) : IM unit :=
  modify (λ s, mkImportState (im_store s) (im_world s) (f (im_result s))).

Definition add_bucket (r : ImportResult) : ImportResult :=
  mkImportResult (ir_BucketsCreated r + 1) (ir_ObjectsAdded r) (ir_ObjectsSkipped r).
Definition add_object (r : ImportResult) : ImportResult :=
  mkImportResult (ir_BucketsCreated r) (ir_ObjectsAdded r + 1) (ir_ObjectsSkipped r).
Definition skip_object (r : ImportResult) : ImportResult :=
  mkImportResult (ir_BucketsCreated r) (ir_ObjectsAdded r) (ir_ObjectsSkipped r + 1).

#[export] Program Instance import_HasWorld : HasWorld (import_state P) := {|
  world_of := im_world;
  on_world A m := in_world m;
|}.
Next Obligation. intros A m s. unfold in_world. by destruct (m (im_world s)). Qed.

Definition contentTypeForPath (path : string) : string :=
  let contentType := TypeByExtension (ToLower (path_Ext path)) in
  if String.eqb contentType "" then "application/octet-stream" else contentType.

Definition ensureBucket (name region : string) (now : world → Z) : IM bool :=
  r ← try (ask_store (GetBucket name));
  match r with
  | Ok _ => mret false
  | Err e =>
    if negb (errors_Is e ErrNotFound) then throw (ErrWrap "check bucket %q: %w" [name] e)
    else
      at_ ← in_world (gets (λ w, Ok (now w)));
      c ← try (in_store (CreateBucket (mkBucket name at_ region "Suspended")));
      match c with
      | Ok _ => mret true
      | Err e => if errors_Is e ErrConflict then mret false else throw (ErrWrap "create bucket %q: %w" [name] e)
      end
  end.

(** The version that is stored for a file. *)
Definition import_version (bucket key : string) (meta : ObjectMeta) : ObjectVersion :=
  mkObjectVersion bucket key "null" (om_Size meta) (om_MD5Hex meta) (om_SHA256B64 meta) (om_SHA1B64 meta)
    (om_CRC32B64 meta) (om_CRC32CB64 meta) (om_Path meta) {["content-type" := contentTypeForPath key]}
    false (om_CreatedAt meta).

(** A file that is not there yet as an object. *)
Definition import_object (bs : blobStore) (bucket key path : string) : IM unit :=
  content ← wrapped (in_world (os_ReadFile path)) "open import object %q: %w" [path];
  meta ← wrapped (in_world (WriteObject bs (mkObjectRef bucket key "null") (bytes_reader content)))
    "write object %s/%s: %w" [bucket; key];
  wrapped (in_store (PutObjectVersion (import_version bucket key meta))) "write metadata for %s/%s: %w" [bucket; key] ;;
  count add_object.

Definition import_entry (bs : blobStore) (bucket bucketRoot path : string) (isDir : bool) : IM unit :=
  if String.eqb path bucketRoot then mret tt
  else if isDir then mret tt
  else
    let key := str_drop (String.length bucketRoot + 1) path in
    latest ← try (ask_store (GetLatestObjectVersion bucket key));
    match latest with
    | Ok v => if negb (ov_DeleteMarker v) then count skip_object else import_object bs bucket key path
    | Err e =>
      if errors_Is e ErrNotFound then import_object bs bucket key path
      else throw (ErrWrap "check existing object %s/%s: %w" [bucket; key] e)
    end.

Definition import_bucket (bs : blobStore) (region : string) (now : world → Z) (root : string) (entry : string * bool) : IM unit :=
  if negb entry.2 then mret tt
  else
    created ← ensureBucket entry.1 region now;
    (if created : bool then count add_bucket else mret tt) ;;
    let bucketRoot := join_path root entry.1 in
    wrapped (λ s, WalkDir (import_entry bs entry.1 bucketRoot) (walk_fuel (im_world s)) bucketRoot s)
      "import bucket %q: %w" [entry.1].

Definition ImportDirectory (opts : ImportOptions) : IM ImportResult :=
  if negb (io_Metadata opts) then throw (Errorf "metadata store is required" [])
  else match io_Blob opts with
  | None => throw (Errorf "blob store is required" [])
  | Some bs =>
    let dir := TrimSpace (io_Directory opts) in
    if String.eqb dir "" then mret (mkImportResult 0 0 0)
    else
      let now := default fs_clock (io_Now opts) in
      let region := if String.eqb (TrimSpace (io_Region opts)) "" then "us-east-1" else io_Region opts in
      let root := filepath_Clean dir in
      wrapped (in_world (os_Stat root)) "inspect import directory %q: %w" [dir] ;;
      isDir ← in_world (gets (λ w, Ok (bool_decide (root ∈ fs_dirs w))));
      if negb isDir then throw (Errorf "import directory %q is not a directory" [dir])
      else
        entries ← wrapped (in_world (dir_entries root)) "read import directory %q: %w" [dir];
        count (λ _, mkImportResult 0 0 0) ;;
        forM entries (import_bucket bs region now root) ;;
        gets (λ s, Ok (im_result s))
  end.
End import.

(** ** What writing an object does to the directories *)
Definition dirs_same {A} (m : M world A) : Prop := ∀ w w' x, m w = (w', Ok x) → fs_dirs w' = fs_dirs w.

Lemma dirs_same_bind {A B} (m : M world A) (f : A → M world B) : dirs_same m → (∀ x, dirs_same (f x)) → dirs_same (mbind f m).
Proof. intros Hm Hf w w' y (w1 & x & H1 & H2)%M_bind_inv. by rewrite (Hf _ _ _ _ H2), (Hm _ _ _ H1). Qed.

Lemma dirs_same_still {A} (m : M world A) : still m → dirs_same m.
Proof. intros Hm w w' x Hr. destruct (Hm w) as [_ Hd]. by rewrite Hr in Hd. Qed.

Lemma dirs_same_modify (f : world → world) : (∀ w, fs_dirs (f w) = fs_dirs w) → dirs_same (modify f).
Proof. intros Hf w w' x Hr. unfold modify in Hr. by simplify_eq. Qed.

Lemma dirs_same_CreateTemp `{!TempNames} dir : dirs_same (os_CreateTemp dir).
Proof.
  apply dirs_same_bind; [apply dirs_same_still, still_fault_point|]. intros _ w w' x Hr. unfold get, put, mret, M_ret, mbind, M_bind in Hr.
  case_bool_decide; [|done]. by simplify_eq/=.
Qed.

Lemma dirs_same_copy path src : dirs_same (copy_to_file path src).
Proof.
  apply dirs_same_bind; [|intros _ w w' x Hr; destruct (rd_error src); [done|]; unfold mret, M_ret in Hr; by simplify_eq].
  apply dirs_same_bind; [apply dirs_same_still, still_fault_point|intros _; by apply dirs_same_modify].
Qed.

Lemma dirs_same_Rename p q : dirs_same (os_Rename p q).
Proof.
  apply dirs_same_bind; [apply dirs_same_still, still_fault_point|]. intros _ w w' x Hr. unfold get, put, mret, M_ret, mbind, M_bind in Hr.
  destruct (fs_files w !! p); [|done]. case_bool_decide; [|done]. by simplify_eq/=.
Qed.

Lemma still_ret {A} (x : A) : still (mret x : M world A).
Proof. by intros w. Qed.
Lemma still_ReadFile p : still (os_ReadFile p).
Proof. apply still_bind; [apply still_fault_point|intros _; apply still_gets]. Qed.
Lemma still_syncFile bs : still (syncFile bs).
Proof. unfold syncFile, os_Sync. destruct (bs_fsyncMode bs); try apply still_fault_point. apply still_ret. Qed.
Lemma still_syncParentDir bs p : still (syncParentDir bs p).
Proof.
  unfold syncParentDir, os_Sync. destruct (bs_fsyncMode bs); try apply still_ret.
  apply still_bind; [apply still_Stat|intros _; apply still_fault_point].
Qed.

Lemma WriteObject_Ok `{!Hashes} `{!TempNames} bs ref src w w' meta : roots_apart bs → WriteObject bs ref src w = (w', Ok meta) →
  fs_files w' = <[ObjectPath bs ref := rd_bytes src]> (fs_files w) ∧
  (∃ at_, meta = object_meta ref (ObjectPath bs ref) (rd_bytes src) at_) ∧ fs_dirs w ⊆ fs_dirs w' ∧
  ∀ q, q ∈ fs_dirs w' → q ∈ fs_dirs w ∨ above q (ObjectPath bs ref).
Proof.
  intros Hr Hw. pose proof (WriteObject_spec bs ref src (fs_files w) Hr w eq_refl) as Hs. rewrite Hw in Hs. simpl in Hs.
  destruct Hs as [[HF _] Hm]. split; [done|]. split; [by apply Hm|]. clear HF Hm.
  unfold WriteObject in Hw. destruct (_ || _); [done|]. 
  apply M_bind_inv in Hw as (w1 & tmp & H1%guard_io_Ok & Hw). apply M_bind_inv in Hw as (w2 & n & H2%guard_io_Ok & Hw).
  apply M_bind_inv in Hw as (w3 & [] & H3%guard_io_Ok & Hw). apply M_bind_inv in Hw as (w4 & [] & H4%guard_io_Ok & Hw).
  apply M_bind_inv in Hw as (w5 & [] & H5%guard_io_Ok & Hw). apply M_bind_inv in Hw as (w6 & [] & H6%guard_io_Ok & Hw).
  apply M_bind_inv in Hw as (w7 & [] & H7%guard_io_Ok & Hw). apply M_bind_inv in Hw as (w8 & at_ & H8 & Hw).
  unfold mret, M_ret in Hw. unfold blob_now, gets in H8. simplify_eq.
  apply dirs_same_CreateTemp in H1. apply dirs_same_copy in H2. apply dirs_same_still in H3; [|apply still_syncFile].
  apply dirs_same_still in H4; [|apply still_fault_point]. apply dirs_same_Rename in H6.
  apply dirs_same_still in H7; [|apply still_syncParentDir]. pose proof (MkdirAll_grows _ _ _ H5) as Hg.
  apply MkdirAll_Ok in H5 as (_ & _ & Ha). rewrite H7, H6. assert (fs_dirs w4 = fs_dirs w) as E by congruence. rewrite E in *.
  split; [done|]. intros q Hq. destruct (Ha q Hq) as [|Hab]; [by left|right]. by apply above_dir.
Qed.

Lemma wrapped_Ok {S A} (m : M S A) msg args s s' x : wrapped m msg args s = (s', Ok x) → m s = (s', Ok x).
Proof. unfold wrapped, try, throw, mret, M_ret, mbind, M_bind. destruct (m s) as [s1 [a|e]]; [by intros [= -> ->]|done]. Qed.

Lemma ObjectPath_join `{!Hashes} bs ref : ∃ t, ObjectPath bs ref = join_path (bs_objectsRoot bs) t.
Proof. unfold ObjectPath, objectKeyDir. rewrite !join_path_assoc. by eexists. Qed.

Lemma below_contains a b : below a b = true → Contains b "/" = true.
Proof.
  intros [t ->]%below_path. unfold join_path. induction a as [|c a IH].
  - rewrite str_app_nil_l, str_app_cons. by rewrite Contains_byte.
  - rewrite str_app_cons, Contains_byte, IH. by destruct (Ascii.eqb _ _).
Qed.

(** A bucket and its key in one path. *)
Lemma join_first_inj b k b' k' : Contains b "/" = false → Contains b' "/" = false →
  join_path b k = join_path b' k' → b = b' ∧ k = k'.
Proof.
  intros Hb Hb' E. destruct (join_comparable _ _ _ _ E) as [-> | [Hc%below_contains | Hc%below_contains]]; [|congruence..].
  split; [done|]. apply (f_equal (str_drop (String.length b' + 1))) in E. by rewrite !drop_join in E.
Qed.

Lemma join_path_inj a t u : join_path a t = join_path a u → t = u.
Proof. intros E. apply (f_equal (str_drop (String.length a + 1))) in E. by rewrite !drop_join in E. Qed.

Section imported.
Context `{!GoRuntime} `{!Hashes} `{!TempNames} `{!MimeTypes} {P : Type} `{!StatePersister P}.
Variable bs : blobStore.
Variable root : string.
Variable F0 : gmap string string.
Variable D0 : gset string.
Variable store0 : memoryBackedStore P.

Definition source_path (b k : string) : string := join_path (join_path root b) k.
Definition a_file (b k : string) : Prop := Contains b "/" = false ∧ is_Some (F0 !! source_path b k).
Definition null_ref (b k : string) : ObjectRef := mkObjectRef b k "null".

(** The import directory and the blob store are apart, and no two files share a path in
    the blob store. *)
Record import_apart : Prop := {
  ia_root : ¬ top root;
  ia_blobs : ¬ in_tree root (bs_objectsRoot bs) ∧ below (bs_objectsRoot bs) root = false;
  ia_roots : roots_apart bs;
  ia_files b k b' k' : a_file b k → a_file b' k' →
    ObjectPath bs (null_ref b k) = ObjectPath bs (null_ref b' k') → b = b' ∧ k = k';
}.
Hypothesis apart : import_apart.
Hypothesis tree : tree_ok root F0 D0.

(** An object that can be read. *)
Definition live (st : memoryBackedStore P) (b k : string) (v : ObjectVersion) : Prop :=
  GetLatestObjectVersion b k st = Ok v ∧ ov_DeleteMarker v = false.

(** The object of a file: it was there, or it has the content of the file. *)
Definition has_content (b k : string) (v : ObjectVersion) (w : world) : Prop :=
  ∃ c at_, F0 !! source_path b k = Some c ∧ fs_files w !! ov_StoragePath v = Some c ∧
    v = import_version b k (object_meta (null_ref b k) (ObjectPath bs (null_ref b k)) c at_).
Definition imported (b k : string) (s : import_state P) : Prop := ∃ v, live (im_store s) b k v.
Definition made (b : string) (s : import_state P) : Prop := is_ok (GetBucket b (im_store s)) = true.

Definition import_kept (s : import_state P) : Prop :=
  tree_kept root F0 D0 s ∧ (∀ b k v, live store0 b k v → live (im_store s) b k v) ∧
  ∀ b k v, a_file b k → live (im_store s) b k v → live store0 b k v ∨ has_content b k v (im_world s).
Definition advance (s s' : import_state P) : Prop :=
  import_kept s' ∧ (∀ b k v, live (im_store s) b k v → live (im_store s') b k v) ∧ ∀ b, made b s → made b s'.

Lemma advance_trans s1 s2 s3 : advance s1 s2 → advance s2 s3 → advance s1 s3.
Proof. intros (_ & Hi & Hm) (Hk & Hi' & Hm'). split_and!; eauto. Qed.

Lemma advance_refl s : import_kept s → advance s s.
Proof. intros Hk. by split_and!. Qed.

(** Steps that leave the files and what the store answers. *)
Lemma advance_same s s' : import_kept s → fs_files (im_world s') = fs_files (im_world s) → fs_dirs (im_world s') = fs_dirs (im_world s) →
  (∀ b k, GetLatestObjectVersion b k (im_store s') = GetLatestObjectVersion b k (im_store s)) → (∀ b, made b s → made b s') → advance s s'.
Proof.
  intros (Ht & Hl & Hc) Ef Ed Es Hb.
  assert (Hlive : ∀ b k v, live (im_store s') b k v ↔ live (im_store s) b k v) by (intros; unfold live; by rewrite Es).
  split; [split; [|split]|split; [|exact Hb]].
  - intros p Hp. unfold world_of, import_HasWorld. rewrite Ef, Ed. by apply Ht.
  - intros b k v Hv. by apply Hlive, Hl.
  - intros b k v Hf Hv%Hlive. unfold has_content. rewrite Ef. by apply Hc.
  - intros b k v Hv. by apply Hlive.
Qed.

Lemma in_world_Ok {A} (m : M world A) (s s' : import_state P) x : in_world m s = (s', x) →
  m (im_world s) = (im_world s', x) ∧ im_store s' = im_store s ∧ im_result s' = im_result s.
Proof. unfold in_world. destruct (m (im_world s)). intros ?. by simplify_eq/=. Qed.

Lemma in_store_Ok {A} (m : M (memoryBackedStore P) A) (s s' : import_state P) x : in_store m s = (s', x) →
  m (im_store s) = (im_store s', x) ∧ im_world s' = im_world s ∧ im_result s' = im_result s.
Proof. unfold in_store. destruct (m (im_store s)). intros ?. by simplify_eq/=. Qed.

Lemma advance_still {A} (m : M world A) s s' x : still m → import_kept s → in_world m s = (s', x) → advance s s'.
Proof.
  intros Hm Hk (Hr & Es & _)%in_world_Ok. destruct (Hm (im_world s)) as [Ef Ed]. rewrite Hr in Ef, Ed.
  apply advance_same; [done..| |]; [intros; by rewrite Es|]. intros b. unfold made. by rewrite Es.
Qed.

Lemma advance_count f s s' : import_kept s → count f s = (s', Ok tt) → advance s s'.
Proof. unfold count, modify. intros Hk ?. simplify_eq. by apply advance_same. Qed.

(** What a blob is written to is not in the import directory. *)
Lemma blob_apart ref : ¬ in_tree root (ObjectPath bs ref).
Proof. destruct (ObjectPath_join bs ref) as [t ->]. apply apart_join; apply (ia_blobs apart). Qed.

Lemma write_keeps_tree ref content w w' meta : WriteObject bs ref (bytes_reader content) w = (w', Ok meta) →
  ∀ p, in_tree root p → fs_files w' !! p = fs_files w !! p ∧ (p ∈ fs_dirs w' ↔ p ∈ fs_dirs w).
Proof.
  intros Hw p Hp. destruct (WriteObject_Ok _ _ _ _ _ _ (ia_roots apart) Hw) as (Ef & _ & Hg & Ha). split.
  - rewrite Ef, lookup_insert_ne; [done|]. intros <-. by apply (blob_apart ref).
  - split; [|by apply Hg]. intros Hin. destruct (Ha p Hin) as [|Hab]; [done|]. exfalso.
    assert (Hne : root ≠ "") by (intros E; apply (ia_root apart); rewrite E; by left).
    by apply (apart_above _ _ _ Hne (ia_root apart) (blob_apart ref) Hab).
Qed.

Lemma put_keeps_buckets v (st st' : memoryBackedStore P) r : PutObjectVersion v st = (st', r) → ∀ b, GetBucket b st' = GetBucket b st.
Proof.
  intros Hp b. unfold GetBucket. assert (ms_st st' = putObjectVersion v (ms_st st)) as ->; [|by rewrite putObjectVersion_eq].
  pose proof (ms_st_change' (tx_PutObjectVersion v) st) as E. unfold PutObjectVersion in Hp. unfold exec in E. by rewrite Hp in E.
Qed.

(** A file becomes an object. *)
Lemma import_object_Ok b k s s' : a_file b k → import_kept s → (∀ v, ¬ live (im_store s) b k v) →
  import_object bs b k (source_path b k) s = (s', Ok tt) → advance s s' ∧ imported b k s'.
Proof.
  intros Hfile Hk Hnew Hi. unfold import_object in Hi.
  apply M_bind_inv in Hi as (s1 & c & Hr%wrapped_Ok & Hi). pose proof (advance_still _ _ _ _ (still_ReadFile _) Hk Hr) as Ha1.
  apply in_world_Ok in Hr as (Hr & Es1 & _). apply M_bind_inv in Hi as (s2 & meta & Hw%wrapped_Ok & Hi).
  apply in_world_Ok in Hw as (Hw & Es2 & _). apply M_bind_inv in Hi as (s3 & [] & Hp%wrapped_Ok & Hi).
  apply in_store_Ok in Hp as (Hp & Ew3 & _). pose proof (proj1 Ha1) as Hk1.
  assert (Hc : F0 !! source_path b k = Some c).
  { rewrite <- (proj1 (proj1 Hk (source_path b k) ltac:(right; unfold source_path; rewrite join_path_assoc; apply below_path; eauto))).
    unfold os_ReadFile in Hr. apply M_bind_inv in Hr as (w & [] & Hf & Hg). apply fault_point_keeps in Hf as [Ef _].
    unfold gets in Hg. rewrite Ef in Hg. unfold world_of, import_HasWorld. destruct (fs_files (im_world s) !! _); by simplify_eq. }
  destruct (WriteObject_Ok _ _ _ _ _ _ (ia_roots apart) Hw) as (Ef & [at_ ->] & _).
  set (v := import_version b k _) in Hp. pose proof (PutObjectVersion_spec (im_store s2) v) as (Hnow & _ & _ & Hother).
  pose proof (put_keeps_buckets _ _ _ _ Hp) as Hbuckets. unfold exec in Hnow, Hother. rewrite Hp in Hnow, Hother. simpl in Hnow, Hother.
  rewrite Es2 in Hother, Hbuckets. pose proof (λ b' k' Hne, Hother b' k' Hne "") as Hlatest. clear Hother.
  enough (advance s1 s3 ∧ imported b k s3) as [Ha Him].
  { pose proof (advance_count _ _ _ (proj1 Ha) Hi) as Hl. split; [|destruct Him as [u Hu]; exists u; by apply Hl].
    eapply advance_trans; [exact Ha1|]. by eapply advance_trans. }
  assert (Hwas : ∀ b' k' u, live (im_store s1) b' k' u → live (im_store s3) b' k' u).
  { intros b' k' u Hu. rewrite Es1 in Hu. assert ((b', k') ≠ (b, k)) as Hne by (intros [= -> ->]; by apply (Hnew u)).
    destruct Hu as [Hg Hu]. split; [|done]. rewrite <- Hg, <- Es1. by apply Hlatest. }
  split; [split_and!; [split_and!|done|]|by exists v].
  - intros p Hin. destruct (write_keeps_tree _ _ _ _ _ Hw p Hin) as [E1 E2]. destruct (proj1 Hk1 p Hin) as [E3 E4].
    unfold world_of, import_HasWorld in *. by rewrite Ew3, E1, E2.
  - intros b' k' u Hu. by apply Hwas, Hk1.
  - intros b' k' u Hfile' Hu. destruct (decide ((b', k') = (b, k))) as [[= -> ->]|Hne].
    { right. destruct Hu as [Hu _]. rewrite Hnow in Hu. simplify_eq. exists c, at_. split_and!; [done| |done]. by rewrite Ew3, Ef; apply lookup_insert_eq. }
    assert (live (im_store s1) b' k' u) as Hu1 by (destruct Hu as [Hg Hu]; split; [by rewrite <- Hg; symmetry; apply Hlatest|done]).
    destruct (proj2 (proj2 Hk1) _ _ _ Hfile' Hu1) as [?|(c' & at' & Hc' & Hs' & ->)]; [by left|right]. exists c', at'. split_and!; [done| |done].
    rewrite Ew3, Ef, lookup_insert_ne; [done|]. intros E. destruct (ia_files apart _ _ _ _ Hfile Hfile' E) as [-> ->]. done.
  - intros b' Hb'. unfold made. by rewrite Hbuckets.
Qed.

Lemma ask_Ok {A} (f : memoryBackedStore P → result A) (s s' : import_state P) r : try (ask_store f) s = (s', Ok r) → s' = s ∧ r = f (im_store s).
Proof. unfold try, ask_store, gets. by intros [= -> ->]. Qed.

Lemma create_bucket_spec b (st st' : memoryBackedStore P) r : CreateBucket b st = (st', r) →
  (∀ b' k, GetLatestObjectVersion b' k st' = GetLatestObjectVersion b' k st) ∧
  (∀ b', is_ok (GetBucket b' st) = true → is_ok (GetBucket b' st') = true) ∧
  (r = Err (Errorf "bucket name is required" []) ∨ is_ok (GetBucket (b_Name b) st') = true).
Proof.
  intros Hc. assert (Hr : exec (CreateBucket b) st = st') by (unfold exec; by rewrite Hc).
  unfold CreateBucket in Hr. apply (f_equal ms_st) in Hr. rewrite ms_st_change' in Hr. unfold exec, createBucket in Hr.
  unfold GetLatestObjectVersion, GetBucket. destruct (String.eqb_spec (b_Name b) "") as [En|En].
  - rewrite <- Hr. split_and!; [done..|]. left. unfold CreateBucket, change_and_persist, on_st, createBucket in Hc.
    rewrite En in Hc. unfold mbind, M_bind in Hc. simpl in Hc. by simplify_eq.
  - destruct (st_buckets (ms_st st) !! b_Name b) eqn:Eb; simpl in Hr; rewrite <- Hr; [rewrite Eb; split_and!; [done..|by right]|].
    split_and!; [done| |right; simpl; by rewrite lookup_insert_eq]. intros b'. simpl.
    destruct (decide (b' = b_Name b)) as [->|]; [by rewrite lookup_insert_eq|by rewrite lookup_insert_ne].
Qed.

Lemma ensureBucket_Ok b region now s s' created : import_kept s → ensureBucket b region now s = (s', Ok created) →
  advance s s' ∧ made b s'.
Proof.
  intros Hk He. unfold ensureBucket in He. apply M_bind_inv in He as (s1 & r & [-> ->]%ask_Ok & He).
  destruct (GetBucket b (im_store s)) as [x|e] eqn:Eb.
  { unfold mret, M_ret in He. simplify_eq. split; [by apply advance_refl|]. unfold made. by rewrite Eb. }
  destruct (negb _); [done|]. apply M_bind_inv in He as (s2 & at_ & Hn & He).
  pose proof (advance_still _ _ _ _ (still_gets _) Hk Hn) as Ha. apply M_bind_inv in He as (s3 & c & Hc & He).
  unfold try in Hc. destruct (in_store (CreateBucket (mkBucket b at_ region "Suspended")) s2) as [s4 r] eqn:Hr. simplify_eq.
  apply in_store_Ok in Hr as (Hr & Ew & _). destruct (create_bucket_spec _ _ _ _ Hr) as (Hl & Hb & Hm). simpl in Hm.
  assert (advance s s3) as Has.
  { eapply advance_trans; [exact Ha|]. apply advance_same; [by apply Ha|by rewrite Ew..|done|done]. }
  destruct Hm as [-> | Hm]; [done|].
  destruct c as [[]|e']; [|destruct (errors_Is e' ErrConflict); [|done]]; unfold mret, M_ret in He; by simplify_eq.
Qed.

(** One file of a bucket. *)
Lemma import_entry_file b k s s' : a_file b k → import_kept s →
  import_entry bs b (join_path root b) (source_path b k) false s = (s', Ok tt) → advance s s' ∧ imported b k s'.
Proof.
  intros Hfile Hk He. unfold import_entry in He. destruct (String.eqb_spec (source_path b k) (join_path root b)) as [E|_].
  { unfold source_path in E. apply (f_equal String.length) in E. rewrite length_join in E. lia. }
  rewrite (drop_join (join_path root b) k : str_drop _ (source_path b k) = k) in He. apply M_bind_inv in He as (s1 & r & [-> ->]%ask_Ok & He).
  destruct (GetLatestObjectVersion b k (im_store s)) as [v|e] eqn:El; [destruct (ov_DeleteMarker v) eqn:Em; simpl in He|destruct (errors_Is e ErrNotFound); [|done]].
  - apply import_object_Ok; [done|done| |done]. intros u [Eu Hu]. rewrite El in Eu. simplify_eq. congruence.
  - pose proof (advance_count _ _ _ Hk He) as Ha. split; [done|]. exists v. by apply Ha.
  - apply import_object_Ok; [done|done| |done]. intros u [Eu Hu]. by rewrite El in Eu.
Qed.

Lemma below_bucket b p : in_tree (join_path root b) p → below root p = true.
Proof.
  assert (Hb : below root (join_path root b) = true) by (apply below_path; eauto).
  intros [-> | Hp]; [done|by eapply below_trans].
Qed.

Lemma bucket_tree b : tree_ok (join_path root b) F0 D0.
Proof.
  intros p d Hk Hp. destruct (tree p d Hk) as [Hd Ha]; [apply (below_bucket b); by right|]. split; [done|].
  intros q Hq. apply Ha. right. by apply (below_bucket b).
Qed.

(** The files of one bucket. *)
Lemma import_walk b fuel s s' : Contains b "/" = false → join_path root b ∈ D0 → import_kept s →
  WalkDir (import_entry bs b (join_path root b)) fuel (join_path root b) s = (s', Ok tt) →
  advance s s' ∧ ∀ k, a_file b k → imported b k s'.
Proof.
  intros Hb Hd Hk Hw.
  destruct (WalkDir_covers (import_entry bs b (join_path root b)) (join_path root b) F0 D0 (advance s)
    (λ p d t, d = false → ∀ k, p = source_path b k → imported b k t) (bucket_tree b)) with (fuel := fuel) (s := s) (s' := s')
    as [[Ha _] Hcov]; [..|split; [done|]].
  - intros t [Ht _] p Hp. apply Ht. right. by apply (below_bucket b).
  - intros A m t t' r Hm Ht Hr. pose proof (advance_still _ _ _ _ Hm (proj1 Ht) Hr) as Ha. split; [by eapply advance_trans|].
    intros p d Hdone Ed k Ep. destruct (Hdone Ed k Ep) as [v Hv]. exists v. by apply Ha.
  - intros p t t' _ _ Ht He. assert (t' = t) as ->.
    { unfold import_entry in He. destruct (String.eqb _ _); unfold mret, M_ret in He; by simplify_eq. }
    by split; [split|].
  - intros p t t' Hf Hp Ht He. destruct (proj1 (below_path _ _) Hp) as [k ->].
    destruct (import_entry_file b k t t') as [Ha Hi]; [by split|apply Ht|done|]. split; [split; [by eapply advance_trans|]|].
    + intros p d Hdone Ed k' Ep. destruct (Hdone Ed k' Ep) as [v Hv]. exists v. by apply Ha.
    + intros _ k' E%join_path_inj. by subst.
  - done.
  - by apply advance_refl.
  - done.
  - intros k Hf. apply (Hcov (source_path b k) false); [apply Hf| |done|done]. right. split; [done|]. apply below_path. by exists k.
Qed.

Lemma import_bucket_Ok region now e s s' : Contains e.1 "/" = false → e.2 = bool_decide (join_path root e.1 ∈ D0) → import_kept s →
  import_bucket bs region now root e s = (s', Ok tt) →
  advance s s' ∧ (e.2 = true → made e.1 s' ∧ ∀ k, a_file e.1 k → imported e.1 k s').
Proof.
  intros Hc Hd Hk Hi. unfold import_bucket in Hi. destruct e as [b []]; simpl in *.
  2: { unfold mret, M_ret in Hi. simplify_eq. split; [by apply advance_refl|done]. }
  symmetry in Hd. apply bool_decide_eq_true in Hd. apply M_bind_inv in Hi as (s1 & created & He & Hi).
  destruct (ensureBucket_Ok _ _ _ _ _ _ Hk He) as [Ha1 Hm1]. apply M_bind_inv in Hi as (s2 & [] & Hcount & Hw%wrapped_Ok).
  assert (Ha2 : advance s1 s2).
  { destruct created; [by eapply advance_count; [apply Ha1|]|]. unfold mret, M_ret in Hcount. simplify_eq. by apply advance_refl, Ha1. }
  destruct (import_walk _ _ _ _ Hc Hd (proj1 Ha2) Hw) as [Ha3 Hfiles].
  split; [by eapply advance_trans; [|eapply advance_trans]|]. intros _. split; [|done]. by apply Ha3, Ha2.
Qed.

Lemma import_buckets_Ok region now es s s' : import_kept s →
  (∀ e, e ∈ es → Contains e.1 "/" = false ∧ e.2 = bool_decide (join_path root e.1 ∈ D0)) →
  forM es (import_bucket bs region now root) s = (s', Ok tt) →
  advance s s' ∧ ∀ e, e ∈ es → e.2 = true → made e.1 s' ∧ ∀ k, a_file e.1 k → imported e.1 k s'.
Proof.
  revert s. induction es as [|e es IH]; intros s Hk Hes Hf; simpl in Hf.
  - unfold mret, M_ret in Hf. simplify_eq. split; [by apply advance_refl|]. by intros e ?%elem_of_nil.
  - apply M_bind_inv in Hf as (s1 & [] & Hi & Hf). destruct (Hes e) as [Hc Hd]; [by left|].
    destruct (import_bucket_Ok _ _ _ _ _ Hc Hd Hk Hi) as [Ha Hone].
    destruct (IH s1) as [Ha' Hrest]; [apply Ha|intros; apply Hes; by right|done|].
    split; [by eapply advance_trans|]. intros e' [-> | He']%elem_of_cons Hd'; [|by apply Hrest].
    destruct (Hone Hd') as [Hm Hk']. split; [by apply Ha'|]. intros k Hfile. destruct (Hk' k Hfile) as [v Hv]. exists v. by apply Ha'.
Qed.

(** ** A second import *)
Definition settled (s : import_state P) : Prop :=
  tree_kept root F0 D0 s ∧ (∀ b k, a_file b k → imported b k s) ∧
  ∀ b, Contains b "/" = false → join_path root b ∈ D0 → made b s.

(** Nothing but the number of skipped objects changes. *)
Definition idle (s s' : import_state P) : Prop :=
  im_store s' = im_store s ∧ fs_files (im_world s') = fs_files (im_world s) ∧ fs_dirs (im_world s') = fs_dirs (im_world s) ∧
  ir_BucketsCreated (im_result s') = ir_BucketsCreated (im_result s) ∧ ir_ObjectsAdded (im_result s') = ir_ObjectsAdded (im_result s).

Lemma idle_refl s : idle s s.
Proof. done. Qed.
Lemma idle_trans s1 s2 s3 : idle s1 s2 → idle s2 s3 → idle s1 s3.
Proof. intros (? & ? & ? & ? & ?) (? & ? & ? & ? & ?). split_and!; congruence. Qed.

Lemma idle_settled s s' : settled s → idle s s' → settled s'.
Proof.
  intros (Ht & Hf & Hm) (Es & Ef & Ed & _). unfold settled, imported, made. rewrite Es. split_and!; [|done|done].
  intros p Hp. unfold world_of, import_HasWorld. rewrite Ef, Ed. by apply Ht.
Qed.

Lemma idle_still {A} (m : M world A) s s' x : still m → in_world m s = (s', x) → idle s s'.
Proof.
  intros Hm (Hr & Es & Er)%in_world_Ok. destruct (Hm (im_world s)) as [Ef Ed]. rewrite Hr in Ef, Ed.
  split_and!; [done|done|done|by rewrite Er|by rewrite Er].
Qed.

Lemma settled_walk b fuel s s' : Contains b "/" = false → join_path root b ∈ D0 → settled s →
  WalkDir (import_entry bs b (join_path root b)) fuel (join_path root b) s = (s', Ok tt) → idle s s'.
Proof.
  intros Hb Hd Hs Hw.
  destruct (WalkDir_covers (import_entry bs b (join_path root b)) (join_path root b) F0 D0 (idle s) (λ _ _ _, True) (bucket_tree b))
    with (fuel := fuel) (s := s) (s' := s') as [[Ha _] _]; [..|done].
  - intros t Ht p Hp. apply (idle_settled _ _ Hs Ht). right. by apply (below_bucket b).
  - intros A m t t' r Hm Ht Hr. split; [|done]. eapply idle_trans; [exact Ht|by eapply idle_still].
  - intros p t t' _ _ Ht He. assert (t' = t) as ->; [|by split; [split|]].
    unfold import_entry in He. destruct (String.eqb _ _); unfold mret, M_ret in He; by simplify_eq.
  - intros p t t' Hf Hp Ht He. split; [|done]. split; [|done]. destruct (proj1 (below_path _ _) Hp) as [k ->].
    unfold import_entry in He. destruct (String.eqb_spec (join_path (join_path root b) k) (join_path root b)) as [E|_].
    { apply (f_equal String.length) in E. rewrite length_join in E. lia. }
    rewrite drop_join in He.
    apply M_bind_inv in He as (t1 & r & [-> ->]%ask_Ok & He).
    destruct (proj1 (proj2 (idle_settled _ _ Hs Ht)) b k) as (v & Hv & Hm); [by split|]. rewrite Hv, Hm in He. simpl in He.
    unfold count, modify in He. simplify_eq. eapply idle_trans; [exact Ht|]. by split_and!.
  - done.
  - done.
  - done.
Qed.

Lemma settled_buckets region now es s s' : settled s →
  (∀ e, e ∈ es → Contains e.1 "/" = false ∧ e.2 = bool_decide (join_path root e.1 ∈ D0)) →
  forM es (import_bucket bs region now root) s = (s', Ok tt) → idle s s'.
Proof.
  revert s. induction es as [|[b d] es IH]; intros s Hs Hes Hf; simpl in Hf.
  - unfold mret, M_ret in Hf. by simplify_eq.
  - apply M_bind_inv in Hf as (s1 & [] & Hi & Hf). destruct (Hes (b, d)) as [Hc Hd]; [by left|]. simpl in Hc, Hd.
    assert (idle s s1) as Ha; [|eapply idle_trans; [exact Ha|]; apply (IH s1); [by eapply idle_settled|intros; apply Hes; by right|done]].
    unfold import_bucket in Hi. destruct d; simpl in Hi; [|unfold mret, M_ret in Hi; by simplify_eq].
    symmetry in Hd. apply bool_decide_eq_true in Hd. apply M_bind_inv in Hi as (s2 & created & He & Hi).
    unfold ensureBucket in He. apply M_bind_inv in He as (s3 & r & [-> ->]%ask_Ok & He).
    pose proof (proj2 (proj2 Hs) b Hc Hd) as Hm. unfold made in Hm. destruct (GetBucket b (im_store s)); [|done].
    unfold mret, M_ret in He. simplify_eq. apply M_bind_inv in Hi as (s4 & [] & Hcount & Hw%wrapped_Ok).
    unfold mret, M_ret in Hcount. simplify_eq. by eapply settled_walk.
Qed.
End imported.

Section import_properties.
Context `{!GoRuntime} `{!Hashes} `{!TempNames} `{!MimeTypes} {P : Type} `{!StatePersister P}.
Variable opts : ImportOptions.
Variable bs : blobStore.
Hypothesis has_blob : io_Blob opts = Some bs.
Hypothesis has_dir : TrimSpace (io_Directory opts) ≠ "".
Let root := filepath_Clean (TrimSpace (io_Directory opts)).

(** What an import that succeeds consists of. *)
Lemma ImportDirectory_steps (s s' : import_state P) res : ImportDirectory opts s = (s', Ok res) →
  ∃ region now es s1, root ∈ fs_dirs (im_world s) ∧ im_store s1 = im_store s ∧ im_result s1 = mkImportResult 0 0 0 ∧
  fs_files (im_world s1) = fs_files (im_world s) ∧ fs_dirs (im_world s1) = fs_dirs (im_world s) ∧
  (∀ e, e ∈ es ↔ Contains e.1 "/" = false ∧ e.2 = bool_decide (join_path root e.1 ∈ fs_dirs (im_world s)) ∧
    (is_Some (fs_files (im_world s) !! join_path root e.1) ∨ join_path root e.1 ∈ fs_dirs (im_world s))) ∧
  forM es (import_bucket bs region now root) s1 = (s', Ok tt) ∧ res = im_result s'.
Proof.
  unfold ImportDirectory. destruct (negb _); [done|]. rewrite has_blob. destruct (String.eqb_spec (TrimSpace (io_Directory opts)) ""); [done|].
  fold root. intros Hi. apply M_bind_inv in Hi as (s1 & [] & Hs%wrapped_Ok & Hi). pose proof (idle_still _ _ _ _ (still_Stat root) Hs) as Hi1.
  apply M_bind_inv in Hi as (s2 & d & Hd & Hi). pose proof (idle_still _ _ _ _ (still_gets _) Hd) as Hi2.
  apply in_world_Ok in Hd as (Hd & _). unfold gets in Hd. injection Hd as _ Hd. destruct d; [|done]. simpl in Hi.
  apply bool_decide_eq_true in Hd. apply M_bind_inv in Hi as (s3 & es & He%wrapped_Ok & Hi).
  pose proof (idle_still _ _ _ _ (still_entries root) He) as Hi3. pose proof (idle_trans _ _ _ Hi1 Hi2) as (Es2 & Ef2 & Ed2 & _).
  pose proof (idle_trans _ _ _ Hi1 (idle_trans _ _ _ Hi2 Hi3)) as (Es & Ef & Ed & _).
  apply in_world_Ok in He as (He & _). pose proof (dir_entries_elem _ _ _ _ He) as Hes. rewrite Ef2, Ed2 in Hes.
  apply M_bind_inv in Hi as (s4 & [] & Hc & Hi). unfold count, modify in Hc. injection Hc as <-.
  apply M_bind_inv in Hi as (s5 & [] & Hf & Hi). unfold gets in Hi. simplify_eq.
  eexists _, _, es, (mkImportState (im_store s3) (im_world s3) (mkImportResult 0 0 0)). split_and!; [|exact Es|reflexivity|exact Ef|exact Ed|exact Hes|exact Hf|done].
  destruct Hi1 as (_ & _ & Ed1 & _). by rewrite <- Ed1.
Qed.

(** The run of an import from a state: what is kept, and what every file has become. *)
Lemma import_run (s s' : import_state P) res :
  import_apart bs root (fs_files (im_world s)) → tree_ok root (fs_files (im_world s)) (fs_dirs (im_world s)) →
  ImportDirectory opts s = (s', Ok res) →
  import_kept bs root (fs_files (im_world s)) (fs_dirs (im_world s)) (im_store s) s' ∧
  settled root (fs_files (im_world s)) (fs_dirs (im_world s)) s'.
Proof.
  intros Hapart Htree (region & now & es & s1 & Hroot & Es & _ & Ef & Ed & Hes & Hf & _)%ImportDirectory_steps.
  assert (Hk : import_kept bs root (fs_files (im_world s)) (fs_dirs (im_world s)) (im_store s) s1).
  { unfold import_kept. rewrite Es. split_and!; [|done|by left]. intros p _. unfold world_of, import_HasWorld. by rewrite Ef, Ed. }
  destruct (import_buckets_Ok bs root _ _ _ Hapart Htree region now es s1 s' Hk) as [(Hk' & _ & _) Hall]; [|done|].
  { intros e He. apply Hes in He. tauto. }
  split; [done|]. split; [apply Hk'|].
  assert (Hin : ∀ b, Contains b "/" = false → join_path root b ∈ fs_dirs (im_world s) → (b, true) ∈ es).
  { intros b Hb Hd. apply Hes. simpl. split_and!; [done|by rewrite bool_decide_true|by right]. }
  split; [|intros b Hb Hd; by apply (Hall (b, true) (Hin b Hb Hd))].
  intros b k Hfile. destruct Hfile as [Hb Hsrc]. apply (Hall (b, true)); [|done|by split]. apply (Hin b Hb).
  unfold source_path in Hsrc. destruct (Htree _ false Hsrc) as [_ Habove].
  { rewrite join_path_assoc. apply below_path. eauto. }
  apply Habove; [right; apply below_path; eauto|apply below_path; eauto].
Qed.


(** An import is idempotent: the same import again adds no bucket and no object, and
    leaves the metadata and every file as they are. *)
Theorem import_again_adds_nothing (s s1 s2 : import_state P) res1 res2 :
  import_apart bs root (fs_files (im_world s)) → tree_ok root (fs_files (im_world s)) (fs_dirs (im_world s)) →
  ImportDirectory opts s = (s1, Ok res1) → ImportDirectory opts s1 = (s2, Ok res2) →
  im_store s2 = im_store s1 ∧ fs_files (im_world s2) = fs_files (im_world s1) ∧
  ir_BucketsCreated res2 = 0 ∧ ir_ObjectsAdded res2 = 0.
Proof.
  intros Hapart Htree H1' H2'. destruct (import_run _ _ _ Hapart Htree H1') as [_ Hs].
  apply ImportDirectory_steps in H2' as (region & now & es & t & Hroot & Es & Er & Ef & Ed & Hes & Hf & ->).
  assert (Ht : settled root (fs_files (im_world s)) (fs_dirs (im_world s)) t).
  { destruct Hs as (Hk & Hfiles & Hm). unfold settled, imported, made. rewrite Es. split_and!; [|done|done].
    intros p Hp. unfold world_of, import_HasWorld. rewrite Ef, Ed. by apply Hk. }
  destruct (settled_buckets bs root _ _ Htree region now es t s2 Ht) as (E1 & E2 & _ & E4 & E5); [|done|].
  { intros e He. apply Hes in He as (Hc & -> & _). split; [done|]. apply bool_decide_ext.
    apply (proj1 Hs). right. apply below_path. eauto. }
  rewrite E1, Es, E2, Ef, E4, E5, Er. by split_and!.
Qed.
End import_properties.

(** ** An import of three files *)
Section import_examples.
#[local] Existing Instance go_runtime_ref.
#[local] Existing Instance ex_hashes.
#[local] Existing Instance ex_temp_names.
#[local] Instance ex_txt_mime : MimeTypes := {| TypeByExtension ext := if String.eqb ext ".txt" then "text/plain" else "" |}.

Definition ex_import_options : ImportOptions := mkImportOptions " ./imp " "" true (Some ex_bs) None.

Definition ex_import : import_state scripted_persister :=
  mkImportState (mkStore None (emptyState "memory"))
    (mkWorld (list_to_map [("imp/photos/raw/A.TXT", "one"); ("imp/docs/b", "two"); ("imp/top", "ignored")])
       (list_to_set ["imp"; "imp/photos"; "imp/photos/raw"; "imp/docs"; "data"; "data/objects"; "data/tmp"]) ∅ [] false 7)
    (mkImportResult 0 0 0).

Definition ex_imported : import_state scripted_persister * result ImportResult := ImportDirectory ex_import_options ex_import.
Definition ex_reimported : import_state scripted_persister * result ImportResult := ImportDirectory ex_import_options ex_imported.1.

Lemma ex_imported_Ok : ex_imported.2 = Ok (mkImportResult 2 2 0).
Proof. vm_compute. reflexivity. Qed.
Lemma ex_reimported_Ok : ex_reimported.2 = Ok (mkImportResult 0 0 2).
Proof. vm_compute. reflexivity. Qed.

(** An object that was deleted is there again after the next start. *)
Example import_revives : ∃ st, DeleteObject "photos" "raw/A.TXT" "m" 9 (im_store ex_imported.1) = (st, Ok tt) ∧
  is_ok (GetLatestObjectVersion "photos" "raw/A.TXT" st) = true ∧
  (ImportDirectory ex_import_options (mkImportState st (im_world ex_imported.1) (mkImportResult 0 0 0))).2 = Ok (mkImportResult 0 1 1).
Proof. eexists. split; [vm_compute; reflexivity|]. vm_compute. by split. Qed.

Lemma ex_import_tree : tree_ok "imp" (fs_files (im_world ex_import)) (fs_dirs (im_world ex_import)).
Proof. apply tree_okb_ok. vm_compute. reflexivity. Qed.

Lemma ex_paths p : is_Some (fs_files (im_world ex_import) !! p) → p ∈ ["imp/photos/raw/A.TXT"; "imp/docs/b"; "imp/top"].
Proof.
  intros Hp%elem_of_dom. change (p ∈ dom (fs_files (im_world ex_import))) in Hp. unfold ex_import in Hp. simpl fs_files in Hp.
  rewrite !dom_insert, dom_empty in Hp. set_solver.
Qed.

Lemma ex_files b k : a_file "imp" (fs_files (im_world ex_import)) b k → (b, k) = ("photos", "raw/A.TXT") ∨ (b, k) = ("docs", "b").
Proof.
  intros [Hb Hsrc%ex_paths]. unfold source_path in Hsrc. rewrite join_path_assoc in Hsrc. set_unfold in Hsrc.
  destruct Hsrc as [E | [E | [E | []]]].
  - apply (join_path_inj "imp" _ (join_path "photos" "raw/A.TXT")), join_first_inj in E as [-> ->]; [by left|done|done].
  - apply (join_path_inj "imp" _ (join_path "docs" "b")), join_first_inj in E as [-> ->]; [by right|done|done].
  - apply (join_path_inj "imp" _ "top") in E. apply (f_equal (λ s, Contains s "/")) in E. unfold join_path in E.
    rewrite !Contains_byte_app, Hb in E. done.
Qed.

Lemma ex_import_apart : import_apart ex_bs "imp" (fs_files (im_world ex_import)).
Proof.
  split.
  - unfold top. rewrite !elem_of_cons, elem_of_nil. intros E. by destruct_or! E.
  - split; [|done]. by intros [E | E].
  - exact ex_roots_apart.
  - intros b k b' k' [[= -> ->] | [= -> ->]]%ex_files [[= -> ->] | [= -> ->]]%ex_files E; try done; vm_compute in E; discriminate E.
Qed.

Lemma ex_import_dir : TrimSpace (io_Directory ex_import_options) ≠ "".
Proof. vm_compute. discriminate. Qed.

Lemma ex_file : a_file "imp" (fs_files (im_world ex_import)) "photos" "raw/A.TXT".
Proof. split; [done|]. vm_compute. by eexists. Qed.


Lemma import_again_adds_nothing_witness : im_store ex_reimported.1 = im_store ex_imported.1.
Proof.
  exact (proj1 (import_again_adds_nothing ex_import_options ex_bs eq_refl ex_import_dir ex_import ex_imported.1 ex_reimported.1
    (mkImportResult 2 2 0) (mkImportResult 0 0 2) ex_import_apart ex_import_tree (run_of _ _ _ ex_imported_Ok) (run_of _ _ _ ex_reimported_Ok))).
Defined.
End import_examples.
