(* ===== verification/Ctl.v ===== *)
(** * The command s000ctl (src/cmd/s000ctl/main.go)

    Commands as steps of a process: flags, environment, files, and what is printed to
    the two streams; the answers of a server are a parameter.  [flag.FlagSet.Parse] and
    [url.Parse] of absolute URLs are modelled as far as the commands use them. *)
From S2P Require Import Prelude GoStrings StringFacts Url Base64 FileSystem Blob BlobFacts Listing Http Calendar Duration Credentials SigV4.
From S2P Require Import SigV4Facts SigV4Props PersonalTokens S3State S3Router NetHttp Gate WebForms WebLinks Sql Backend DirWalk Recovery.

(** ** Package flag *)
Inductive flag_value := FString (s : string) | FDuration (d : Z).
Definition flags : Type := gmap string flag_value.

Inductive flag_outcome := FlagsParsed (fs : flags) | FlagsHelp | FlagsBad (msg : error).

Definition flag_Set (cur : flag_value) (value : string) : option flag_value :=
  match cur with FString _ => Some (FString value) | FDuration _ => FDuration <$> ParseDuration value end.

(** [fs.Parse(args)] without boolean flags: it stops at the first text that is no flag. *)
Fixpoint flag_Parse (fs : flags) (args : list string) : flag_outcome :=
  match args with
  | [] => FlagsParsed fs
  | s :: args =>
    if (String.length s <? 2)%nat || negb (HasPrefix s "-") then FlagsParsed fs
    else if String.eqb s "--" then FlagsParsed fs
    else
      let name := if HasPrefix s "--" then str_drop 2 s else str_drop 1 s in
      if String.eqb name "" || HasPrefix name "-" || HasPrefix name "=" then FlagsBad (Errorf "bad flag syntax: %s" [s])
      else
        let '(name, value, hasValue) := Cut name "=" in
        match fs !! name with
        | None => if String.eqb name "help" || String.eqb name "h" then FlagsHelp
                  else FlagsBad (Errorf "flag provided but not defined: -%s" [name])
        | Some cur =>
          if hasValue then
            match flag_Set cur value with
            | Some v => flag_Parse (<[name := v]> fs) args
            | None => FlagsBad (Errorf "invalid value %q for flag -%s: %v" [value; name])
            end
          else match args with
          | [] => FlagsBad (Errorf "flag needs an argument: -%s" [name])
          | value :: args =>
            match flag_Set cur value with
            | Some v => flag_Parse (<[name := v]> fs) args
            | None => FlagsBad (Errorf "invalid value %q for flag -%s: %v" [value; name])
            end
          end
        end
  end.

Definition flag_string (fs : flags) (name : string) : string :=
  match fs !! name with Some (FString s) => s | _ => "" end.
Definition flag_duration (fs : flags) (name : string) : Z :=
  match fs !! name with Some (FDuration d) => d | _ => 0 end.

(** ** Absolute URLs (net/url) *)
Definition is_digit (c : ascii) : bool := bool_decide (is_Some (digit_of c)).
Definition letter (c : ascii) : bool :=
  let n := N_of_ascii c in ((65 <=? n) && (n <=? 90) || (97 <=? n) && (n <=? 122))%N.
Definition scheme_char (c : ascii) : bool :=
  is_digit c || Ascii.eqb c "+" || Ascii.eqb c "-" || Ascii.eqb c ".".

(** [getScheme]: the scheme, none, or the error of a text that begins with a colon. *)
Definition prepend_scheme (c : ascii) (r : option (option (string * string))) : option (option (string * string)) :=
  option_map (option_map (λ p, (String c p.1, p.2))) r.
Fixpoint scheme_from (first : bool) (s : string) : option (option (string * string)) :=
  match s with
  | "" => Some None
  | String c s =>
    if letter c then prepend_scheme c (scheme_from false s)
    else if scheme_char c then
      if first then Some None else prepend_scheme c (scheme_from false s)
    else if Ascii.eqb c ":" then if first then None else Some (Some ("", s))
    else Some None
  end.

(** [parseAuthority]: what stands before the host, and the host; the way they are
    printed; the hosts that stay as they are. *)
Definition host_char (c : ascii) : bool := letter c || is_digit c || Ascii.eqb c "." || Ascii.eqb c "-".
Definition plain_authority (s : string) : bool :=
  let '(host, port, found) := Cut s ":" in
  negb (String.eqb host "") && str_forall host_char host &&
  (if found : bool then negb (String.eqb port "") && str_forall is_digit port else true).
Class UrlAuthority := {
  parseAuthority : string → option (string * string);
  authority_String : string * string → string;
  parseAuthority_plain s : plain_authority s = true → parseAuthority s = Some ("", s);
  authority_String_plain s : plain_authority s = true → authority_String ("", s) = s;
}.

Record absolute_url := mkAbsoluteURL {
  au_Scheme : string;
  au_Opaque : string;
  au_Authority : option (string * string);
  au_rest : local_url;
}.

Definition au_Host (u : absolute_url) : string := default "" (snd <$> au_Authority u).

Section urls.
Context `{!UrlAuthority}.

(** What follows the scheme: query, authority, path. *)
Definition parse_rest (scheme rest tail : string) : option absolute_url :=
  if HasPrefix rest "/" then
    if HasPrefix rest "//" && (negb (String.eqb scheme "") || negb (HasPrefix rest "///")) then
      let '(authority, path) := match Index (str_drop 2 rest) "/" with
        | Some i => (str_take i (str_drop 2 rest), str_drop i (str_drop 2 rest))
        | None => (str_drop 2 rest, "") end in
      a ← parseAuthority authority;
      mkAbsoluteURL scheme "" (Some a) <$> url_Parse (path +:+ tail)
    else mkAbsoluteURL scheme "" None <$> url_Parse (rest +:+ tail)
  else if negb (String.eqb scheme "") then mkAbsoluteURL scheme rest None <$> url_Parse tail
  else let '(segment, _, _) := Cut rest "/" in
       if Contains segment ":" then None else mkAbsoluteURL "" "" None <$> url_Parse (rest +:+ tail).

(** [url.Parse] *)
Definition absolute_Parse (s : string) : option absolute_url :=
  let '(u, frag, hasFrag) := Cut s "#" in
  let '(p, query, found) := Cut u "?" in
  let tail := (if found : bool then "?" +:+ query else "") +:+ (if hasFrag : bool then "#" +:+ frag else "") in
  if negb (str_forall (λ c, negb (control_char c)) u) then None
  else match scheme_from true p with
  | None => None
  | Some None => parse_rest "" p tail
  | Some (Some (scheme, rest)) => parse_rest (ToLower scheme) rest tail
  end.

(** [u.String()] *)
Definition absolute_String (u : absolute_url) : string :=
  (if String.eqb (au_Scheme u) "" then "" else au_Scheme u +:+ ":") +:+
  (if negb (String.eqb (au_Opaque u) "") then au_Opaque u
   else match au_Authority u with Some a => "//" +:+ authority_String a | None => "" end) +:+
  url_String (au_rest u).

Definition lu_EscapedPath (u : local_url) : string := escaped_or_raw path_plain (lu_Path u) (lu_RawPath u).

(** [http.NewRequest]: the URL without an empty port, and the request. *)
Definition http_NewRequest (method url : string) (body : reader) : option (absolute_url * request) :=
  u ← absolute_Parse url;
  let a := (λ x, (x.1, TrimSuffix x.2 ":")) <$> au_Authority u in
  let u := mkAbsoluteURL (au_Scheme u) (au_Opaque u) a (au_rest u) in
  let l := au_rest u in
  Some (u, mkRequest method (au_Host u) (lu_Path l) (ParseQuery (lu_RawQuery l)) ∅ body "" "" (Ok tt)
    (lu_EscapedPath l) (lu_RawQuery l) (au_Host u) "" false).
End urls.

(** ** The process *)
Inductive printed := Text (s : string) | Failure (msg : string) (e : error) | Usage (name : string).

Record process := mkProcess {
  pc_env : gmap string string;
  pc_world : world;
  pc_random : string;
  pc_out : list printed;
  pc_err : list printed;
}.

(** What a server answers: the status, its line, the body. *)
Definition remote_answer : Type := Z * string * string.

Section commands.
Context `{!GoRuntime} `{!Hashes} `{!UrlAuthority} `{!JsonCodec personalAccessTokenClaims}.
(** [client.Do] with its timeout. *)
Variable client_Do : Z → absolute_url → request → result remote_answer.
Abbreviation PM := (M process).

Definition print_out (x : printed) : PM unit :=
  modify (λ p, mkProcess (pc_env p) (pc_world p) (pc_random p) (pc_out p ++ [x]) (pc_err p)).
Definition print_err (x : printed) : PM unit :=
  modify (λ p, mkProcess (pc_env p) (pc_world p) (pc_random p) (pc_out p) (pc_err p ++ [x])).
Definition on_files {A} (m : M world A) : PM (result A) := λ p,
  let '(w, r) := m (pc_world p) in (mkProcess (pc_env p) w (pc_random p) (pc_out p) (pc_err p), Ok r).
Definition Getenv (name : string) (p : process) : string := default "" (pc_env p !! name).

(** Printed to the second stream, with the exit status. *)
Definition failed (msg : string) (e : error) : PM Z := print_err (Failure msg e) ;; mret 1.
Definition refused (msg : string) : PM Z := print_err (Text msg) ;; mret 2.

Definition with_flags (name : string) (fs : flags) (args : list string) (k : flags → PM Z) : PM Z :=
  match flag_Parse fs args with
  | FlagsParsed fs => k fs
  | FlagsHelp => print_err (Usage name) ;; mret 0
  | FlagsBad e => print_err (Failure "%v" e) ;; print_err (Usage name) ;; mret 2
  end.

Definition rootHelp : string := Join [
  "s000ctl - s000 admin and ops CLI"; "";
  "Usage:"; "  s000ctl <command> [flags]"; "";
  "Commands:";
  "  backup-create      Create cold backup snapshot";
  "  restore-validate   Validate backup restore layout";
  "  health-inspect     Check /healthz and /readyz on one endpoint";
  "  token-create       Create personal access token";
  "  put-object         Upload object with bearer token";
  "  presign-url        Generate SigV4 presigned object URL";
  "  completion         Print shell completion script snippet";
  "  help               Show this help"; "";
  "Examples:";
  "  s000ctl backup-create --data-dir ./data --metadata-dsn file:./data/s000-metadata.db --out ./backup";
  "  s000ctl restore-validate --path ./backup";
  "  s000ctl health-inspect --endpoint http://127.0.0.1:9000";
  "  s000ctl token-create --subject cli --ttl 24h";
  "  s000ctl put-object --endpoint http://127.0.0.1:9000 --bucket my-bucket --key hello.txt --file ./hello.txt --token <token>";
  "  s000ctl presign-url --endpoint http://127.0.0.1:9000 --bucket my-bucket --key hello.txt --method GET --expires 15m";
  "  s000ctl completion --shell bash"; ""] newline.

Definition runBackupCreate (args : list string) : PM Z :=
  with_flags "backup-create" (list_to_map [("data-dir", FString ""); ("metadata-dsn", FString ""); ("out", FString "")]) args (λ fs,
    r ← on_files (CreateBackup (mkBackupConfig (flag_string fs "data-dir") (flag_string fs "metadata-dsn") (flag_string fs "out")));
    match r with
    | Err e => failed "backup-create failed: %v" e
    | Ok _ => print_out (Text "backup created") ;; mret 0
    end).

Definition runRestoreValidate (args : list string) : PM Z :=
  with_flags "restore-validate" {["path" := FString ""]} args (λ fs,
    r ← on_files (ValidateRestore (flag_string fs "path"));
    match r with
    | Err e => failed "restore validation failed: %v" e
    | Ok _ => print_out (Text "restore validation passed") ;; mret 0
    end).

Definition ErrURL (url : string) : error := Errorf "parse %q" [url].

(** [probeEndpoint] *)
Definition probeEndpoint (timeout : Z) (endpoint path : string) : result unit :=
  let url := trim_right_char "/" endpoint +:+ path in
  match http_NewRequest "GET" url (bytes_reader "") with
  | None => Err (ErrURL url)
  | Some (u, req) =>
    match client_Do timeout u req with
    | Err e => Err e
    | Ok (status, _, _) => if negb (status =? StatusOK) then Err (Errorf "unexpected status %d" [FormatInt status]) else Ok tt
    end
  end.

Definition runHealthInspect (args : list string) : PM Z :=
  with_flags "health-inspect" (list_to_map [("endpoint", FString "http://127.0.0.1:9000"); ("timeout", FDuration (5 * second))]) args (λ fs,
    let probe := probeEndpoint (flag_duration fs "timeout") (flag_string fs "endpoint") in
    match probe "/healthz" with
    | Err e => failed "healthz failed: %v" e
    | Ok _ =>
      match probe "/readyz" with
      | Err e => failed "readyz failed: %v" e
      | Ok _ => print_out (Text "health: ok") ;; print_out (Text "ready: ok") ;; mret 0
      end
    end).

Definition token_flags (signingKey : string) : flags :=
  list_to_map [("subject", FString "cli"); ("ttl", FDuration (24 * hour)); ("signing-key", FString signingKey)].

Definition runTokenCreate (args : list string) : PM Z :=
  env ← gets (λ p, Ok (TrimSpace (Getenv "S000_PAT_SIGNING_KEY" p), TrimSpace (Getenv "S000_ADMIN_SECRET_KEY" p)));
  let signingKey := if String.eqb env.1 "" then env.2 else env.1 in
  with_flags "token-create" (token_flags signingKey) args (λ fs,
    drawn ← gets (λ p, Ok (fs_clock (pc_world p), pc_random p));
    match CreatePersonalAccessToken (flag_string fs "subject") (flag_string fs "signing-key") drawn.1 (flag_duration fs "ttl") drawn.2 with
    | Err e => failed "token-create failed: %v" e
    | Ok token => print_out (Text token) ;; mret 0
    end).

Definition escapeObjectKey (key : string) : string := Join (PathEscape <$> Split key "/") "/".

Definition objectURL (endpoint bucket key : string) : string :=
  trim_right_char "/" endpoint +:+ "/" +:+ PathEscape bucket +:+ "/" +:+ escapeObjectKey key.

(** The request of put-object, its file read when it is opened. *)
Definition put_request (token contentType : string) (r : request) : request :=
  mkRequest (rq_Method r) (rq_Host r) (rq_Path r) (rq_Query r)
    (header_set "Content-Type" contentType (header_set "Authorization" ("Bearer " +:+ token) (rq_Header r)))
    (rq_Body r) (rq_RequestID r) (rq_Principal r) (rq_Acquire r) (rq_EscapedPath r) (rq_RawQuery r) (rq_URLHost r)
    (rq_RemoteAddr r) (rq_TLS r).

Definition runPutObject (args : list string) : PM Z :=
  env ← gets (λ p, Ok (TrimSpace (Getenv "S000_ACCESS_TOKEN" p)));
  with_flags "put-object" (list_to_map [("endpoint", FString "http://127.0.0.1:9000"); ("bucket", FString ""); ("key", FString "");
    ("file", FString ""); ("token", FString env); ("content-type", FString "application/octet-stream");
    ("timeout", FDuration (30 * second))]) args (λ fs,
    let arg name := TrimSpace (flag_string fs name) in
    let bucket := arg "bucket" in let key := arg "key" in let filePath := arg "file" in let token := arg "token" in
    if String.eqb bucket "" || String.eqb key "" || String.eqb filePath "" || String.eqb token ""
    then refused "put-object failed: bucket, key, file, and token are required"
    else
      f ← on_files (os_ReadFile (filepath_Clean filePath));
      match f with
      | Err e => failed "put-object failed: %v" e
      | Ok content =>
        st ← on_files (os_Stat (filepath_Clean filePath));
        match st with
        | Err e => failed "put-object failed: %v" e
        | Ok _ =>
          let url := objectURL (flag_string fs "endpoint") bucket key in
          match http_NewRequest "PUT" url (bytes_reader content) with
          | None => failed "put-object failed: %v" (ErrURL url)
          | Some (u, req) =>
            match client_Do (flag_duration fs "timeout") u (put_request token (flag_string fs "content-type") req) with
            | Err e => failed "put-object failed: %v" e
            | Ok (status, line, body) =>
              if negb (status =? StatusOK)
              then failed "put-object failed: %v" (Errorf "server returned %s: %s" [line; TrimSpace (str_take 4096 body)])
              else print_out (Text ("uploaded " +:+ path_Base filePath +:+ " to s3://" +:+ bucket +:+ "/" +:+ key)) ;; mret 0
            end
          end
        end
      end).

Definition presign_methods : list string := ["GET"; "PUT"; "HEAD"; "DELETE"].

(** The URL with the query of the signed request. *)
Definition with_query_of (u : absolute_url) (r : request) : absolute_url :=
  let l := au_rest u in
  mkAbsoluteURL (au_Scheme u) (au_Opaque u) (au_Authority u)
    (mkLocalURL (lu_Path l) (lu_RawPath l) (lu_ForceQuery l) (rq_RawQuery r) (lu_Fragment l) (lu_RawFragment l)).

Definition presign_flags (accessKey secretKey : string) : flags :=
  list_to_map [("endpoint", FString "http://127.0.0.1:9000"); ("bucket", FString ""); ("key", FString "");
    ("method", FString "GET"); ("expires", FDuration (15 * minute)); ("access-key", FString accessKey);
    ("secret-key", FString secretKey); ("region", FString "us-east-1")].

Definition runPresignURL (args : list string) : PM Z :=
  env ← gets (λ p, Ok (TrimSpace (Getenv "S000_ADMIN_ACCESS_KEY" p), TrimSpace (Getenv "S000_ADMIN_SECRET_KEY" p)));
  with_flags "presign-url" (presign_flags env.1 env.2) args (λ fs,
    let arg name := TrimSpace (flag_string fs name) in
    let bucket := arg "bucket" in let key := arg "key" in let method := ToUpper (arg "method") in
    let accessKey := arg "access-key" in let secretKey := arg "secret-key" in
    if String.eqb bucket "" || String.eqb key "" || String.eqb accessKey "" || String.eqb secretKey ""
    then refused "presign-url failed: bucket, key, access-key, and secret-key are required"
    else if negb (bool_decide (method ∈ presign_methods)) then refused "presign-url failed: method must be GET, PUT, HEAD, or DELETE"
    else
      let url := objectURL (flag_string fs "endpoint") bucket key in
      match http_NewRequest method url (bytes_reader "") with
      | None => failed "presign-url failed: %v" (ErrURL url)
      | Some (u, req) =>
        now ← gets (λ p, Ok (fs_clock (pc_world p)));
        match eval (PresignRequest req accessKey secretKey now
                 (mkPresignOptions (arg "region") "s3" "" (flag_duration fs "expires"))) (rq_Header req) with
        | Err e => failed "presign-url failed: %v" e
        | Ok signed => print_out (Text (absolute_String (with_query_of u signed))) ;; mret 0
        end
      end).

Definition in_quotes (s : string) : string := String (ascii_of_nat 34) (s +:+ String (ascii_of_nat 34) "").
Definition command_names : list string :=
  ["backup-create"; "restore-validate"; "health-inspect"; "token-create"; "put-object"; "presign-url"; "completion"; "help"].

Definition completionScript (shell : string) : result string :=
  let commands := Join command_names " " in
  let name := ToLower (TrimSpace shell) in
  if String.eqb name "bash" then Ok ("complete -W " +:+ in_quotes commands +:+ " s000ctl")
  else if String.eqb name "zsh" then Ok ("#compdef s000ctl" +:+ newline +:+ "_arguments '1: :((" +:+ commands +:+ "))'")
  else if String.eqb name "fish" then Ok ("complete -c s000ctl -f -a " +:+ in_quotes commands)
  else if String.eqb name "powershell" || String.eqb name "pwsh" then
    Ok ("Register-ArgumentCompleter -CommandName s000ctl -ScriptBlock { param($wordToComplete) '" +:+
        Join command_names "','" +:+ "' | Where-Object { $_ -like " +:+ in_quotes "$wordToComplete*" +:+ " } }")
  else Err (Errorf "unsupported shell" []).

Definition runCompletion (args : list string) : PM Z :=
  with_flags "completion" {["shell" := FString "bash"]} args (λ fs,
    match completionScript (flag_string fs "shell") with
    | Err e => failed "completion failed: %v" e
    | Ok script => print_out (Text script) ;; mret 0
    end).

(** The exit status. *)
Definition run (args : list string) : PM Z :=
  match args with
  | [] => print_out (Text rootHelp) ;; mret 0
  | command :: args =>
    if bool_decide (command ∈ ["help"; "-h"; "--help"]) then print_out (Text rootHelp) ;; mret 0
    else if String.eqb command "backup-create" then runBackupCreate args
    else if String.eqb command "restore-validate" then runRestoreValidate args
    else if String.eqb command "health-inspect" then runHealthInspect args
    else if String.eqb command "token-create" then runTokenCreate args
    else if String.eqb command "put-object" then runPutObject args
    else if String.eqb command "presign-url" then runPresignURL args
    else if String.eqb command "completion" then runCompletion args
    else print_err (Failure "unknown command %q" (ErrSentinel command)) ;; print_err (Text rootHelp) ;; mret 2
  end.
End commands.

(** ** URLs that the commands print *)
Definition url_char (c : ascii) : bool := path_plain c || Ascii.eqb c "%".
Definition url_text (s : string) : bool := str_forall url_char s.

Lemma url_text_app s t : url_text s = true → url_text t = true → url_text (s +:+ t) = true.
Proof. unfold url_text. intros Hs Ht. by rewrite str_forall_app, Hs, Ht. Qed.

Lemma url_text_lacks d s : url_char d = false → url_text s = true → Contains s (String d "") = false.
Proof. intros Hd Hs. by apply (Contains_byte_forall url_char). Qed.

Lemma url_text_printable s : url_text s = true → str_forall (λ c, negb (control_char c)) s = true.
Proof.
  apply str_forall_impl. intros c. apply implb_true_iff. revert c. apply bytes_check. vm_compute. done.
Qed.

Lemma PathEscape_url s : url_text (PathEscape s) = true.
Proof.
  unfold PathEscape. induction s as [|c s IH]; [done|]. simpl. apply url_text_app; [|done]. revert c. clear.
  apply (bytes_check (λ c, url_text (if segment_plain c then String c "" else percent c))). vm_compute. done.
Qed.

Lemma escapeObjectKey_url k : url_text (escapeObjectKey k) = true.
Proof.
  unfold escapeObjectKey. induction (Split k "/") as [|x l IH]; [done|]. destruct l as [|y l]; [apply PathEscape_url|].
  rewrite fmap_cons, Join_cons by done. apply url_text_app; [apply PathEscape_url|]. by apply (url_text_app "/").
Qed.

Lemma Cut_absent s d : Contains s (String d "") = false → Cut s (String d "") = (s, "", false).
Proof. intros Hs. unfold Cut. by rewrite Index_byte_None. Qed.

Lemma Cut_found s d t : Contains s (String d "") = false → Cut (s +:+ String d t) (String d "") = (s, t, true).
Proof.
  intros Hs. unfold Cut. rewrite Index_byte_app by done. rewrite str_take_app.
  assert (E : s +:+ String d t = (s +:+ String d "") +:+ t) by by rewrite str_app_assoc.
  rewrite E. f_equal. f_equal. replace (String.length s + String.length (String d ""))%nat with (String.length (s +:+ String d ""))
    by by rewrite length_str_app. apply str_drop_app.
Qed.

(** The query of a URL, when it has one. *)
Definition query_part (q : option string) : string := match q with Some q => "?" +:+ q | None => "" end.

Lemma cut_query p q : url_text p = true → url_text (default "" q) = true →
  Cut (p +:+ query_part q) "#" = (p +:+ query_part q, "", false) ∧
  Cut (p +:+ query_part q) "?" = (p, default "" q, bool_decide (is_Some q)) ∧
  str_forall (λ c, negb (control_char c)) (p +:+ query_part q) = true.
Proof.
  intros Hp Hq. destruct q as [q|]; simpl query_part; simpl default in Hq.
  - split_and!.
    + apply Cut_absent. by rewrite !Contains_byte_app, (url_text_lacks "#" p), (url_text_lacks "#" q) by done.
    + by apply Cut_found, url_text_lacks.
    + rewrite !str_forall_app. by rewrite (url_text_printable p), (url_text_printable q) by done.
  - rewrite str_app_nil_r. split_and!; [by apply Cut_absent, url_text_lacks..|by apply url_text_printable].
Qed.

Lemma Values_Encode_url v : url_text (Values_Encode v) = true.
Proof.
  assert (Hq : ∀ s, url_text (QueryEscape s) = true).
  { intros s. eapply str_forall_impl; [|apply QueryEscape_chars]. intros c. apply implb_true_iff. revert c. apply bytes_check. vm_compute. done. }
  unfold Values_Encode. induction (sorted_values v ≫= entry_pairs) as [|e l IH]; [done|].
  assert (He : url_text (encode_pair e.1 e.2) = true) by (apply url_text_app; [apply Hq|apply (url_text_app "="); [done|apply Hq]]).
  destruct l as [|e' l]; [exact He|]. rewrite fmap_cons, Join_cons by done. apply url_text_app; [done|]. by apply (url_text_app "&").
Qed.

Lemma url_text_valid p : url_text p = true → valid_encoded path_plain p = true.
Proof. apply str_forall_impl. intros c. apply implb_true_iff. revert c. apply bytes_check. vm_compute. done. Qed.

(** The parts of a URL of a path and a query. *)
Definition plain_local (text path : string) (q : option string) : local_url :=
  mkLocalURL text (if String.eqb (escape_unless path_plain text) path then "" else path)
    (bool_decide (is_Some q) && String.eqb (default "" q) "") (default "" q) "" "".

Lemma url_Parse_plain path text q : url_text path = true → url_text (default "" q) = true → PathUnescape path = Some text →
  url_Parse (path +:+ query_part q) = Some (plain_local text path q).
Proof.
  intros Hp Hq Ht. destruct (cut_query path q Hp Hq) as (E1 & E2 & E3). unfold url_Parse. rewrite E1, E2, E3. cbn [negb].
  by rewrite Ht.
Qed.

Lemma escaped_plain text path : url_text path = true → path ≠ "" → PathUnescape path = Some text →
  escaped_or_raw path_plain text (if String.eqb (escape_unless path_plain text) path then "" else path) = path.
Proof.
  intros Hp Hne Ht. unfold escaped_or_raw. destruct (String.eqb_spec (escape_unless path_plain text) path) as [E|_]; [done|].
  rewrite (proj2 (String.eqb_neq path "")), url_text_valid, bool_decide_true by done. done.
Qed.

Definition web_scheme (s : string) : Prop := s = "http" ∨ s = "https".

Lemma plain_authority_url a : plain_authority a = true → url_text a = true ∧ Contains a "/" = false.
Proof.
  assert (Hc : ∀ s, str_forall host_char s = true → url_text s = true ∧ Contains s "/" = false).
  { intros s Hs. split; [|by apply (Contains_byte_forall host_char)]. eapply str_forall_impl; [|exact Hs].
    intros c. apply implb_true_iff. revert c. apply bytes_check. vm_compute. done. }
  assert (Hd : ∀ s, str_forall is_digit s = true → str_forall host_char s = true).
  { intros s. apply str_forall_impl. intros c. apply implb_true_iff. revert c. apply bytes_check. vm_compute. done. }
  unfold plain_authority. destruct (Cut a ":") as [[host port] found] eqn:E. intros [[_ Hh]%andb_prop Hp]%andb_prop.
  unfold Cut in E. destruct (Index a ":") as [i|] eqn:Hi; [|by simplify_eq; apply Hc].
  apply Index_Some in Hi as [Ha _]. injection E as <- <- <-. change (String.length ":") with 1%nat in *. apply andb_prop in Hp as [_ Hp%Hd].
  rewrite Ha. destruct (Hc _ Hh) as [Hu1 Hs1], (Hc _ Hp) as [Hu2 Hs2].
  split; [by apply url_text_app; [|apply (url_text_app ":")]|]. by rewrite !Contains_byte_app, Hs1, Hs2.
Qed.

Section printed_urls.
Context `{!UrlAuthority}.

(** A URL of a server's object. *)
Definition full_url (scheme auth path : string) (q : option string) : string :=
  scheme +:+ "://" +:+ auth +:+ path +:+ query_part q.
Definition full_parts (scheme auth text path : string) (q : option string) : absolute_url :=
  mkAbsoluteURL scheme "" (Some ("", auth)) (plain_local text path q).

Lemma absolute_Parse_full scheme auth path text q : web_scheme scheme → plain_authority auth = true → url_text path = true →
  HasPrefix path "/" = true → url_text (default "" q) = true → PathUnescape path = Some text →
  absolute_Parse (full_url scheme auth path q) = Some (full_parts scheme auth text path q).
Proof.
  intros Hs Ha Hp [rest ->]%HasPrefix_spec Hq Ht. destruct (plain_authority_url _ Ha) as [Hau Has].
  set (path := "/" +:+ rest) in *. set (p := scheme +:+ "://" +:+ auth +:+ path).
  assert (Hpu : url_text p = true) by (unfold p; destruct Hs as [-> | ->]; apply url_text_app; try done; by apply (url_text_app "://"), url_text_app).
  assert (E : full_url scheme auth path q = p +:+ query_part q) by (unfold full_url, p; by rewrite !str_app_assoc).
  destruct (cut_query p q Hpu Hq) as (E1 & E2 & E3). unfold absolute_Parse. rewrite E, E1, E2, E3. cbn [negb].
  assert (scheme_from true p = Some (Some (scheme, "//" +:+ auth +:+ path))) as -> by (unfold p; by destruct Hs as [-> | ->]).
  assert (ToLower scheme = scheme) as -> by by destruct Hs as [-> | ->].
  unfold parse_rest. rewrite (proj2 (HasPrefix_spec _ "/")) by (by exists ("/" +:+ auth +:+ path)). rewrite (proj2 (HasPrefix_spec _ "//")) by (by exists (auth +:+ path)).
  assert (String.eqb scheme "" = false) as -> by by destruct Hs as [-> | ->]. cbn [negb orb andb].
  change (str_drop 2 ("//" +:+ auth +:+ path)) with (auth +:+ path).
  assert (Index (auth +:+ path) "/" = Some (String.length auth)) as -> by by apply Index_byte_app.
  rewrite str_take_app, str_drop_app, parseAuthority_plain by done. cbn [mbind option_bind].
  assert ((if bool_decide (is_Some q) then "?" +:+ default "" q else "") +:+ "" = query_part q) as -> by (by destruct q; rewrite str_app_nil_r).
  by rewrite (url_Parse_plain path text q).
Qed.

Lemma absolute_String_full scheme auth path text q : web_scheme scheme → plain_authority auth = true → url_text path = true → path ≠ "" →
  PathUnescape path = Some text → q ≠ Some "" → absolute_String (full_parts scheme auth text path q) = full_url scheme auth path q.
Proof.
  intros Hs Ha Hp Hne Ht Hq. unfold absolute_String, full_parts, full_url. simpl au_Scheme. simpl au_Opaque. simpl au_Authority.
  assert (String.eqb scheme "" = false) as -> by by destruct Hs as [-> | ->]. rewrite authority_String_plain by done. cbn [negb String.eqb].
  unfold url_String, plain_local. simpl lu_Path. simpl lu_RawPath. simpl lu_RawQuery. simpl lu_Fragment. simpl lu_ForceQuery.
  rewrite escaped_plain by done.
  assert ((if bool_decide (is_Some q) && String.eqb (default "" q) "" || negb (String.eqb (default "" q) "") then "?" +:+ default "" q else "") =
    query_part q) as ->.
  { destruct q as [q|]; [|done]. simpl. destruct (String.eqb_spec q "") as [->|]; done. }
  change (if String.eqb "" "" then "" else _) with "". by rewrite !str_app_assoc, str_app_nil_r.
Qed.
End printed_urls.

(** ** The URL of presign-url *)
Definition object_url_path (b k : string) : string := "/" +:+ PathEscape b +:+ "/" +:+ escapeObjectKey k.

Lemma object_url_path_text b k : url_text (object_url_path b k) = true ∧
  PathUnescape (object_url_path b k) = Some ("/" +:+ b +:+ "/" +:+ k).
Proof.
  split.
  - unfold object_url_path. apply (url_text_app "/"); [done|]. apply url_text_app; [apply PathEscape_url|].
    apply (url_text_app "/"); [done|apply escapeObjectKey_url].
  - unfold object_url_path, escapeObjectKey. rewrite (PathUnescape_text "/"), PathUnescape_Escape, (PathUnescape_text "/") by done.
    pose proof (PathUnescape_segments (Split k "/") "") as E. rewrite !str_app_nil_r in E. rewrite E, Join_Split.
    change (PathUnescape "") with (Some ""). cbn [fmap option_fmap option_map]. by rewrite str_app_nil_r.
Qed.

(** A path of a bucket and a key is read as these. *)
Lemma bucketAndKey_path r domain b k : rq_Path r = "/" +:+ b +:+ "/" +:+ k → b ≠ "" → Contains b "/" = false →
  parseVirtualHostStyle r domain = None → bucketAndKey r domain = Some (b, k).
Proof.
  intros Hp Hb Hs Hv. unfold bucketAndKey. rewrite Hv, Hp, TrimPrefix_app.
  rewrite (Split_segment "/" b k Hs : Split (b +:+ "/" +:+ k) "/" = _).
  destruct b as [|c b]; [done|]. by rewrite Join_Split.
Qed.

Section presigned.
Context `{!GoRuntime} `{!Hashes} `{!UrlAuthority} `{!JsonCodec personalAccessTokenClaims}.
Variable client_Do : Z → absolute_url → request → result remote_answer.

(** The request that a URL of an object makes. *)
Definition object_request (method auth b k : string) (q : option string) : request :=
  mkRequest method auth ("/" +:+ b +:+ "/" +:+ k) (ParseQuery (default "" q)) ∅ (bytes_reader "") "" "" (Ok tt)
    (object_url_path b k) (default "" q) auth "" false.

Lemma app_suffix s b t c : s +:+ b = t +:+ c → (String.length c ≤ String.length b)%nat → ∃ u, b = u +:+ c.
Proof.
  revert t. induction s as [|x s IH]; intros t E Hl; [by exists t|]. destruct t as [|y t].
  - rewrite str_app_nil_l, str_app_cons in E. subst c. simpl in Hl. rewrite length_str_app in Hl. lia.
  - rewrite !str_app_cons in E. injection E as _ E. by apply (IH t).
Qed.

Lemma authority_no_empty_port a : plain_authority a = true → TrimSuffix a ":" = a.
Proof.
  intros Ha. unfold TrimSuffix. destruct (HasSuffix a ":") eqn:E; [|done]. exfalso. apply HasSuffix_spec in E as [t ->].
  unfold plain_authority, Cut in Ha. destruct (Index (t +:+ ":") ":") as [i|] eqn:Hi.
  - apply Index_Some in Hi as [Ht Hl]. apply andb_prop in Ha as [_ [Hne Hd]%andb_prop]. rewrite <- str_app_assoc in Ht. symmetry in Ht.
    apply app_suffix in Ht as [u Hu].
    + rewrite Hu, str_forall_app in Hd. by apply andb_prop in Hd as [_ Hd].
    + destruct (str_drop _ _); [done|simpl; lia].
  - pose proof (Contains_byte_app ":" t ":") as Hc. unfold Contains in Hc at 1. rewrite Hi in Hc. by rewrite orb_true_r in Hc.
Qed.

Lemma NewRequest_object method scheme auth b k q : web_scheme scheme → plain_authority auth = true → url_text (default "" q) = true →
  http_NewRequest method (full_url scheme auth (object_url_path b k) q) (bytes_reader "") =
  Some (full_parts scheme auth ("/" +:+ b +:+ "/" +:+ k) (object_url_path b k) q, object_request method auth b k q).
Proof.
  intros Hs Ha Hq. destruct (object_url_path_text b k) as [Hp Ht]. unfold http_NewRequest.
  assert (Hslash : HasPrefix (object_url_path b k) "/" = true) by (apply HasPrefix_spec; by eexists).
  rewrite (absolute_Parse_full _ _ _ _ _ Hs Ha Hp Hslash Hq Ht). cbn [mbind option_bind]. unfold full_parts. cbn [au_Authority fmap option_fmap option_map].
  cbn [fst snd au_Scheme au_Opaque au_rest]. rewrite authority_no_empty_port by done. unfold object_request, lu_EscapedPath, plain_local.
  cbn [lu_Path lu_RawPath lu_RawQuery au_Host au_Authority]. by rewrite escaped_plain.
Qed.

(** The arguments, parsed over the environment. *)
Definition presign_args (p : process) (args : list string) : flag_outcome :=
  flag_Parse (presign_flags (TrimSpace (Getenv "S000_ADMIN_ACCESS_KEY" p)) (TrimSpace (Getenv "S000_ADMIN_SECRET_KEY" p))) args.

Definition presign_options (fs : flags) : PresignOptions :=
  mkPresignOptions (TrimSpace (flag_string fs "region")) "s3" "" (flag_duration fs "expires").

(** What the command does when it succeeds. *)
Lemma presign_run fs args p p' : presign_args p args = FlagsParsed fs → run client_Do ("presign-url" :: args) p = (p', Ok 0) →
  let b := TrimSpace (flag_string fs "bucket") in let k := TrimSpace (flag_string fs "key") in
  (b ≠ "" ∧ TrimSpace (flag_string fs "secret-key") ≠ "") ∧ ∃ u req signed,
    http_NewRequest (ToUpper (TrimSpace (flag_string fs "method"))) (objectURL (flag_string fs "endpoint") b k) (bytes_reader "") = Some (u, req) ∧
    eval (PresignRequest req (TrimSpace (flag_string fs "access-key")) (TrimSpace (flag_string fs "secret-key"))
      (fs_clock (pc_world p)) (presign_options fs)) (rq_Header req) = Ok signed ∧
    pc_out p' = pc_out p ++ [Text (absolute_String (with_query_of u signed))].
Proof.
  intros Hargs Hr b k. change (run client_Do ("presign-url" :: args)) with (runPresignURL args) in Hr. unfold runPresignURL in Hr.
  apply M_bind_inv in Hr as (p0 & env & He & Hr). unfold gets in He. injection He as <- <-. cbn [fst snd] in Hr.
  unfold with_flags in Hr. unfold presign_args in Hargs. rewrite Hargs in Hr. cbv zeta in Hr. fold b k in Hr.
  destruct (_ || _) eqn:Hne; [done|]. apply orb_false_iff in Hne as [[[Hb _]%orb_false_iff _]%orb_false_iff Hs%String.eqb_neq].
  apply String.eqb_neq in Hb. split; [by split|]. clear Hs. destruct (negb _); [done|].
  destruct (http_NewRequest _ _ _) as [[u req]|]; [|done]. apply M_bind_inv in Hr as (p1 & now & Hn & Hr). unfold gets in Hn. injection Hn as <- <-.
  fold (presign_options fs) in Hr. destruct (eval _ _) as [signed|] eqn:Hs; [|done]. unfold print_out, modify, mret, M_ret, mbind, M_bind in Hr.
  injection Hr as <-. by exists u, req, signed.
Qed.
Lemma Values_Encode_nonempty v k x : v !! k = Some [x] → Values_Encode v ≠ "".
Proof.
  intros Hk. assert (Hin : (k, x) ∈ sorted_values v ≫= entry_pairs).
  { apply list_elem_of_bind. exists (k, [x]). split; [by left|]. rewrite sorted_values_perm. by apply elem_of_map_to_list. }
  unfold Values_Encode. destruct (sorted_values v ≫= entry_pairs) as [|e [|e' l]]; [by apply elem_of_nil in Hin|..];
    rewrite ?fmap_cons, ?Join_cons by done; unfold encode_pair; intros E; rewrite ?str_app_assoc in E; by apply str_app_eq_nil in E as [_ ?].
Qed.

(** The printed text makes the request that was signed. *)
Lemma printed_url_is_signed scheme auth method b k id secret now opts u req signed :
  web_scheme scheme → plain_authority auth = true →
  http_NewRequest method (full_url scheme auth (object_url_path b k) None) (bytes_reader "") = Some (u, req) →
  eval (PresignRequest req id secret now opts) (rq_Header req) = Ok signed →
  snd <$> http_NewRequest method (absolute_String (with_query_of u signed)) (bytes_reader "") = Some signed ∧
  rq_Path signed = "/" +:+ b +:+ "/" +:+ k.
Proof.
  intros Hs Ha Hreq Hsign. rewrite NewRequest_object in Hreq by done. injection Hreq as <- <-.
  apply PresignRequest_inv in Hsign as (_ & _ & _ & Hsigned). cbv zeta in Hsigned. set (v := values_set "X-Amz-Signature" _ _) in Hsigned.
  assert (Hne : Values_Encode v ≠ "") by (eapply Values_Encode_nonempty, lookup_insert_eq).
  assert (E : signed = object_request method auth b k (Some (Values_Encode v))) by exact Hsigned.
  clear Hsigned. clearbody v. split; [|by rewrite E]. destruct (object_url_path_text b k) as [Hp Ht].
  assert (Eu : with_query_of (full_parts scheme auth ("/" +:+ b +:+ "/" +:+ k) (object_url_path b k) None) signed =
    full_parts scheme auth ("/" +:+ b +:+ "/" +:+ k) (object_url_path b k) (Some (Values_Encode v))).
  { rewrite E. unfold with_query_of, full_parts, plain_local, object_request. cbn. by rewrite (proj2 (String.eqb_neq _ _) Hne). }
  rewrite Eu, absolute_String_full by (done || congruence). rewrite NewRequest_object by (done || apply Values_Encode_url). by rewrite E.
Qed.
Lemma presigned_url_run fs args p p' scheme auth :
  let arg name := TrimSpace (flag_string fs name) in
  let opts := presign_options fs in
  let signedAt := fs_clock (pc_world p) in
  presign_args p args = FlagsParsed fs → run client_Do ("presign-url" :: args) p = (p', Ok 0) →
  trim_right_char "/" (flag_string fs "endpoint") = scheme +:+ "://" +:+ auth → web_scheme scheme → plain_authority auth = true →
  Contains (arg "bucket") "/" = false → scope_part (arg "access-key") → scope_part (presign_region opts) →
  year_0 ≤ signedAt < year_10000 → second ≤ presign_expires opts →
  arg "secret-key" ≠ "" ∧ ∃ url r, pc_out p' = pc_out p ++ [Text url] ∧
    snd <$> http_NewRequest (ToUpper (arg "method")) url (bytes_reader "") = Some r ∧
    (∀ domain, parseVirtualHostStyle r domain = None → bucketAndKey r domain = Some (arg "bucket", arg "key")) ∧
    ∀ v store now got, delivers r got → vf_service v = "s3" → vf_terminal v = "aws4_request" → vf_store v = Some store →
      arg "secret-key" ∈ (resolveSecrets store (arg "access-key") (now 2%nat)).1.1 →
      let t := signedAt / second * second in
      Z.abs (now 0%nat - t) ≤ int64_max →
      (VerifyRequest (Some v) now got (rq_Header got)).2 =
        if vf_maxSkew v <? Z.abs (now 0%nat - t) then Err ErrRequestTimeTooSkewed
        else if t + Z.quot (presign_expires opts) second * second <? now 1%nat then Err ErrAccessDenied
        else Ok tt.
Proof.
  intros arg opts signedAt Hargs Hrun Hend Hs Ha Hb Hid Hregion Hyear Hexp.
  destruct (presign_run _ _ _ _ Hargs Hrun) as ([Hbne Hsne] & u & req & signed & Hreq & Hsign & Hout). fold (arg "bucket") (arg "key") in *.
  assert (Eurl : objectURL (flag_string fs "endpoint") (arg "bucket") (arg "key") =
    full_url scheme auth (object_url_path (arg "bucket") (arg "key")) None).
  { unfold objectURL, full_url. rewrite Hend. cbn [query_part]. by rewrite str_app_nil_r, !str_app_assoc. }
  rewrite Eurl in Hreq. destruct (printed_url_is_signed _ _ _ _ _ _ _ _ _ _ _ _ Hs Ha Hreq Hsign) as [Hnew Hpath].
  split; [exact Hsne|]. eexists _, signed. split_and!; [exact Hout|exact Hnew|intros domain; by apply bucketAndKey_path|].
  intros v store now got Hgot Hsv Htm Hstore Hsecret t Hskew.
  assert (Hscope : Forall scope_part [arg "access-key"; presign_region opts; presign_service opts; presign_terminal opts]).
  { do 2 (constructor; [done|]). do 2 (constructor; [by split|]). constructor. }
  by rewrite (presigned_verifies v store now req (arg "access-key") (arg "secret-key") signedAt opts signed got Hsign Hgot Hyear Hexp Hscope
    (eq_sym Hsv) (eq_sym Htm) Hstore Hsecret Hskew).
Qed.

(** A URL that presign-url prints works.  Against an endpoint of a plain host, whatever
    the key: the request the printed URL makes is for that bucket and key, and wherever
    it is delivered with its path, query and host, a verifier that holds the secret
    accepts it exactly within the skew of the signing time and until the URL expires. *)
Theorem presigned_url_works fs args p p' scheme auth :
  let arg name := TrimSpace (flag_string fs name) in
  let opts := presign_options fs in
  let signedAt := fs_clock (pc_world p) in
  presign_args p args = FlagsParsed fs → run client_Do ("presign-url" :: args) p = (p', Ok 0) →
  trim_right_char "/" (flag_string fs "endpoint") = scheme +:+ "://" +:+ auth → web_scheme scheme → plain_authority auth = true →
  Contains (arg "bucket") "/" = false → scope_part (arg "access-key") → scope_part (presign_region opts) →
  year_0 ≤ signedAt < year_10000 → second ≤ presign_expires opts →
  ∃ url r, pc_out p' = pc_out p ++ [Text url] ∧
    snd <$> http_NewRequest (ToUpper (arg "method")) url (bytes_reader "") = Some r ∧
    (∀ domain, parseVirtualHostStyle r domain = None → bucketAndKey r domain = Some (arg "bucket", arg "key")) ∧
    ∀ v store now got, delivers r got → vf_service v = "s3" → vf_terminal v = "aws4_request" → vf_store v = Some store →
      arg "secret-key" ∈ (resolveSecrets store (arg "access-key") (now 2%nat)).1.1 →
      let t := signedAt / second * second in
      Z.abs (now 0%nat - t) ≤ int64_max →
      (VerifyRequest (Some v) now got (rq_Header got)).2 =
        if vf_maxSkew v <? Z.abs (now 0%nat - t) then Err ErrRequestTimeTooSkewed
        else if t + Z.quot (presign_expires opts) second * second <? now 1%nat then Err ErrAccessDenied
        else Ok tt.
Proof. intros arg opts signedAt ? ? ? ? ? ? ? ? ? ?. by apply (presigned_url_run fs args p p' scheme auth). Qed.
End presigned.

(** ** Exit status and messages *)
Section statuses.
Context `{!GoRuntime} `{!Hashes} `{!UrlAuthority} `{!JsonCodec personalAccessTokenClaims}.
Variable client_Do : Z → absolute_url → request → result remote_answer.

(** What is printed, by the status a command ends with. *)
Definition reported (p p' : process) (c : Z) : Prop :=
  ∃ out err, pc_out p' = pc_out p ++ out ∧ pc_err p' = pc_err p ++ err ∧
  (c = 0 ∧ (err = [] ∧ out ≠ [] ∨ out = [] ∧ ∃ name, err = [Usage name]) ∨ (c = 1 ∨ c = 2) ∧ out = [] ∧ err ≠ []).
Definition reports (m : M process Z) : Prop := ∀ p, ∃ p' c, m p = (p', Ok c) ∧ reported p p' c.

(** Steps that print nothing. *)
Definition mute {A} (m : M process A) : Prop := ∀ p, ∃ p' x, m p = (p', Ok x) ∧ pc_out p' = pc_out p ∧ pc_err p' = pc_err p.

Lemma mute_files {A} (m : M world A) : mute (on_files m).
Proof. intros p. unfold on_files. destruct (m (pc_world p)) as [w r]. by do 2 eexists. Qed.
Lemma mute_asks {A} (f : process → A) : mute (gets (λ p, Ok (f p))).
Proof. intros p. by do 2 eexists. Qed.

Lemma reports_bind {A} (m : M process A) k : mute m → (∀ x, reports (k x)) → reports (mbind k m).
Proof.
  intros Hm Hk p. destruct (Hm p) as (p1 & x & E & Ho & He). unfold mbind, M_bind. rewrite E.
  destruct (Hk x p1) as (p2 & c & E2 & Hr). exists p2, c. split; [done|]. unfold reported in *. by rewrite <- Ho, <- He.
Qed.

Lemma reports_failed msg e : reports (failed msg e).
Proof. intros p. do 2 eexists. split; [reflexivity|]. exists [], [Failure msg e]. rewrite app_nil_r. split_and!; [done..|]. right. split_and!; [by left|done|done]. Qed.
Lemma reports_refused msg : reports (refused msg).
Proof. intros p. do 2 eexists. split; [reflexivity|]. exists [], [Text msg]. rewrite app_nil_r. split_and!; [done..|]. right. split_and!; [by right|done|done]. Qed.
Lemma reports_printed s : reports (print_out (Text s) ;; mret 0).
Proof. intros p. do 2 eexists. split; [reflexivity|]. exists [Text s], []. rewrite app_nil_r. split_and!; [done..|]. left. split; [done|by left]. Qed.
Lemma reports_flags name fs args k : (∀ fs, reports (k fs)) → reports (with_flags name fs args k).
Proof.
  intros Hk p. unfold with_flags. destruct (flag_Parse fs args) as [fs'| |e]; [apply Hk|..]; do 2 eexists; (split; [reflexivity|]).
  - exists [], [Usage name]. rewrite app_nil_r. split_and!; [done..|]. left. split; [done|]. right. split; [done|by eexists].
  - exists [], [Failure "%v" e; Usage name]. rewrite app_nil_r. split_and!; [done|simpl; by rewrite <- app_assoc|]. right. split_and!; [by right|done|done].
Qed.

Ltac report :=
  repeat first
    [ apply reports_failed | apply reports_refused | apply reports_printed
    | apply reports_bind; [apply mute_files || apply mute_asks|intros ?]
    | apply reports_flags; intros ? | progress cbv zeta | case_match ].

Lemma reports_health args : reports (runHealthInspect client_Do args).
Proof.
  apply reports_flags. intros fs. cbv zeta. destruct (probeEndpoint _ _ _ "/healthz"); [|apply reports_failed].
  destruct (probeEndpoint _ _ _ "/readyz"); [|apply reports_failed]. intros p. do 2 eexists. split; [reflexivity|].
  exists [Text "health: ok"; Text "ready: ok"], []. rewrite app_nil_r. split_and!; [simpl; by rewrite <- app_assoc|done|].
  left. split; [done|by left].
Qed.

(** C38: Every run ends, with the status 0, 1 or 2.  A run that fails prints a message to the
    second stream and nothing to the first, so that no half of an answer is taken for
    one; a run that succeeds prints to the first stream alone, unless it was asked for
    the usage of a command. *)
Theorem failures_are_reported args p : ∃ p' c, run client_Do args p = (p', Ok c) ∧ reported p p' c.
Proof.
  revert p. change (reports (run client_Do args)). destruct args as [|command args]; [apply reports_printed|]. unfold run.
  destruct (bool_decide _); [apply reports_printed|].
  repeat (destruct (String.eqb command _); [unfold runBackupCreate, runRestoreValidate, runTokenCreate, runPutObject, runPresignURL, runCompletion;
    (apply reports_health || report)|]).
  intros p. do 2 eexists. split; [reflexivity|]. exists [], [Failure "unknown command %q" (ErrSentinel command); Text rootHelp].
  rewrite app_nil_r. split_and!; [done|simpl; by rewrite <- app_assoc|]. right. split_and!; [by right|done|done].
Qed.

(** The token that token-create prints is accepted with the key it was signed with, for
    the subject that was asked for, until the second its lifetime ends. *)
Theorem created_token_is_accepted fs env_key args p p' at_ :
  env_key = (let k := TrimSpace (Getenv "S000_PAT_SIGNING_KEY" p) in if String.eqb k "" then TrimSpace (Getenv "S000_ADMIN_SECRET_KEY" p) else k) →
  flag_Parse (token_flags env_key) args = FlagsParsed fs → run client_Do ("token-create" :: args) p = (p', Ok 0) →
  let subject := flag_string fs "subject" in
  let now := fs_clock (pc_world p) in let ttl := flag_duration fs "ttl" in
  json_representable (token_claims subject now ttl (pc_random p)) → 0 < unix (now + ttl) →
  ∃ token, pc_out p' = pc_out p ++ [Text token] ∧
    VerifyPersonalAccessToken token (flag_string fs "signing-key") at_ =
      if unix (now + ttl) <=? unix at_ then Err ErrExpiredPersonalAccessToken else Ok (TrimSpace subject).
Proof.
  intros -> Hargs Hrun subject now ttl Hjson Hpos.
  change (run client_Do ("token-create" :: args)) with (runTokenCreate args) in Hrun. unfold runTokenCreate in Hrun.
  apply M_bind_inv in Hrun as (p0 & env & He & Hrun). unfold gets in He. injection He as <- <-. cbn [fst snd] in Hrun.
  unfold with_flags in Hrun. cbv zeta in Hargs, Hrun. rewrite Hargs in Hrun.
  apply M_bind_inv in Hrun as (p1 & drawn & Hd & Hrun). unfold gets in Hd. injection Hd as <- <-. cbn [fst snd] in Hrun.
  unfold CreatePersonalAccessToken in Hrun. destruct (String.eqb (pc_random p) ""); [done|].
  destruct (createPersonalAccessTokenWithID _ _ _ _ _) as [token|] eqn:Ht; [|done].
  exists token. unfold print_out, modify, mret, M_ret, mbind, M_bind in Hrun. injection Hrun as <-. split; [done|].
  by apply (verify_created _ _ _ _ _ _ at_ Ht Hjson Hpos).
Qed.
End statuses.

(** ** Runs *)
Section run_examples.
#[local] Existing Instance go_runtime_ref.
#[local] Existing Instance ex_hashes.
#[local] Existing Instance ex_claims_codec.

Lemma ex_parse_plain s : plain_authority s = true → (if plain_authority s then Some ("", s) else None) = Some ("", s).
Proof. by intros ->. Qed.
Lemma ex_print_plain s : plain_authority s = true → "" +:+ s = s.
Proof. done. Qed.
#[local] Instance ex_authority : UrlAuthority := {|
  parseAuthority s := if plain_authority s then Some ("", s) else None;
  authority_String a := a.1 +:+ a.2;
  parseAuthority_plain := ex_parse_plain;
  authority_String_plain := ex_print_plain;
|}.

Definition ex_process : process :=
  mkProcess (list_to_map [("S000_ADMIN_ACCESS_KEY", "AK"); ("S000_ADMIN_SECRET_KEY", " secret ")])
    (mkWorld ∅ ∅ ∅ [] false (1000000000 * second)) "0a1b" [] [].

Definition ex_no_server (timeout : Z) (u : absolute_url) (r : request) : result remote_answer := Err (ErrSentinel "connection refused").
Definition ex_presign_args : list string :=
  ["--endpoint=http://127.0.0.1:9000/"; "-bucket"; "b1"; "--key"; "a b/?c"; "--expires"; "1m"; "more"].
Definition ex_presigned : process * result Z := run ex_no_server ("presign-url" :: ex_presign_args) ex_process.

Definition ex_status (args : list string) : result Z := (run ex_no_server args ex_process).2.

Example run_ex : ex_presigned.2 = Ok 0 ∧
  ex_status ["presign-url"; "--bucket"; "b1"; "--key"; "k"; "--expires"; "200h"] = Ok 1 ∧ ex_status ["presign-url"; "--bucket"; "b1"] = Ok 2 ∧
  ex_status ["presign-url"; "--help"] = Ok 0 ∧ ex_status ["presign-url"; "--nothing"] = Ok 2 ∧ ex_status ["presign-url"; "--expires=x"] = Ok 2 ∧
  ex_status ["health-inspect"] = Ok 1 ∧ ex_status ["completion"; "-shell=PWSH"] = Ok 0 ∧ ex_status ["completion"; "--shell"; "csh"] = Ok 1 ∧
  ex_status ["token-create"; "--ttl"; "1h"] = Ok 0 ∧ ex_status ["nothing"] = Ok 2 ∧ ex_status [] = Ok 0.
Proof. vm_compute. split_and!; reflexivity. Qed.

(** A lifetime below a second is written as 0 seconds, which the verifier refuses. *)
Example presign_below_a_second :
  let s := run ex_no_server ["presign-url"; "--bucket"; "b1"; "--key"; "k"; "--expires"; "500ms"] ex_process in
  s.2 = Ok 0 ∧ match pc_out s.1 with [Text url] => Contains url "X-Amz-Expires=0&" | _ => false end = true.
Proof. vm_compute. by split. Qed.

Definition ex_flags : flags :=
  match presign_args ex_process ex_presign_args with FlagsParsed fs => fs | _ => ∅ end.

Lemma ex_flags_parsed : presign_args ex_process ex_presign_args = FlagsParsed ex_flags.
Proof. vm_compute. reflexivity. Qed.

Lemma ex_presigned_run : run ex_no_server ("presign-url" :: ex_presign_args) ex_process = (ex_presigned.1, Ok 0).
Proof. apply (run_of (run ex_no_server ("presign-url" :: ex_presign_args))). vm_compute. reflexivity. Qed.

Lemma ex_flag_values : flag_string ex_flags "endpoint" = "http://127.0.0.1:9000/" ∧ TrimSpace (flag_string ex_flags "bucket") = "b1" ∧
  TrimSpace (flag_string ex_flags "key") = "a b/?c" ∧ TrimSpace (flag_string ex_flags "access-key") = "AK" ∧
  presign_region (presign_options ex_flags) = "us-east-1" ∧ presign_expires (presign_options ex_flags) = minute.
Proof. vm_compute. split_and!; reflexivity. Qed.

Lemma ex_endpoint_trim : trim_right_char "/" "http://127.0.0.1:9000/" = "http" +:+ "://" +:+ "127.0.0.1:9000".
Proof. reflexivity. Qed.
Lemma ex_bucket_plain : Contains "b1" "/" = false.
Proof. reflexivity. Qed.
Lemma ex_scope_key : scope_part "AK".
Proof. done. Qed.
Lemma ex_scope_region : scope_part "us-east-1".
Proof. done. Qed.
Lemma ex_signed_in_range : year_0 ≤ fs_clock (pc_world ex_process) < year_10000.
Proof. done. Qed.
Lemma ex_minute_long : second ≤ minute.
Proof. done. Qed.

Lemma presigned_url_works_witness : ∃ url r, pc_out ex_presigned.1 = [Text url] ∧
  ∀ domain, parseVirtualHostStyle r domain = None → bucketAndKey r domain = Some ("b1", "a b/?c").
Proof.
  destruct ex_flag_values as (E1 & E2 & E3 & E4 & E5 & E6).
  destruct (presigned_url_works ex_no_server ex_flags ex_presign_args ex_process ex_presigned.1 "http" "127.0.0.1:9000"
    ex_flags_parsed ex_presigned_run (eq_ind_r (λ e, trim_right_char "/" e = _) ex_endpoint_trim E1) (or_introl eq_refl) eq_refl
    (eq_ind_r (λ b, Contains b "/" = false) ex_bucket_plain E2) (eq_ind_r scope_part ex_scope_key E4) (eq_ind_r scope_part ex_scope_region E5)
    ex_signed_in_range (eq_ind_r (λ x, second ≤ x) ex_minute_long E6)) as (url & r & Hout & _ & Hkey & _).
  exists url, r. split; [exact Hout|]. intros domain Hv. exact (eq_trans (Hkey domain Hv) (f_equal2 (λ b k, Some (b, k)) E2 E3)).
Defined.

Definition ex_token_run : process * result Z := run ex_no_server ["token-create"; "--subject"; " ada "; "--ttl"; "1h"] ex_process.
Definition ex_token_flags : flags :=
  match flag_Parse (token_flags "secret") ["--subject"; " ada "; "--ttl"; "1h"] with FlagsParsed fs => fs | _ => ∅ end.

Lemma ex_token_parsed : flag_Parse (token_flags "secret") ["--subject"; " ada "; "--ttl"; "1h"] = FlagsParsed ex_token_flags.
Proof. vm_compute. reflexivity. Qed.
Lemma ex_token_values : flag_string ex_token_flags "subject" = " ada " ∧ flag_string ex_token_flags "signing-key" = "secret" ∧
  flag_duration ex_token_flags "ttl" = hour.
Proof. vm_compute. split_and!; reflexivity. Qed.
Lemma ex_token_ran : run ex_no_server ["token-create"; "--subject"; " ada "; "--ttl"; "1h"] ex_process = (ex_token_run.1, Ok 0).
Proof. apply (run_of (run ex_no_server ["token-create"; "--subject"; " ada "; "--ttl"; "1h"])). vm_compute. reflexivity. Qed.

Lemma ex_token_plain : plain_claims (token_claims " ada " (1000000000 * second) hour "0a1b").
Proof. vm_compute. split_and!; done. Qed.

Lemma ex_token_late : 0 < unix (1000000000 * second + hour).
Proof. done. Qed.

Lemma ex_token_answer subject ttl : subject = " ada " → ttl = hour →
  (if unix (1000000000 * second + ttl) <=? unix (1000003599 * second) then Err ErrExpiredPersonalAccessToken else Ok (TrimSpace subject)) = Ok "ada".
Proof. by intros -> ->. Qed.

Lemma created_token_is_accepted_witness : ∃ token, pc_out ex_token_run.1 = [Text token] ∧
  VerifyPersonalAccessToken token "secret" (1000003599 * second) = Ok "ada".
Proof.
  destruct ex_token_values as (E1 & E2 & E3).
  destruct (created_token_is_accepted ex_no_server ex_token_flags "secret" ["--subject"; " ada "; "--ttl"; "1h"] ex_process ex_token_run.1
    (1000003599 * second) eq_refl ex_token_parsed ex_token_ran) as (token & Hout & Hok).
  - exact (eq_ind_r (λ x, plain_claims (token_claims x _ _ _)) (eq_ind_r (λ x, plain_claims (token_claims _ _ x _)) ex_token_plain E3) E1).
  - exact (eq_ind_r (λ x, 0 < unix (_ + x)) ex_token_late E3).
  - exists token. split; [exact Hout|]. rewrite <- E2. exact (eq_trans Hok (ex_token_answer _ _ E1 E3)).
Defined.
End run_examples.
