(* ===== verification/Startup.v ===== *)
(** * Startup (src/cmd/s000/main.go, src/internal/server/http_server.go)

    From the settings to a server that listens: the order in which the parts are built,
    every setting that is refused, and what the parts are given.  An error ends the
    process.  Which store is built for a backend is [NewStore] of Backend.v; how a store
    of that kind is opened (Persisters.v, Migrations.v) is a parameter, and the store it
    gives is one that behaves as the memory-backed store does (SqlProps.v).  Not here:
    listening, signals, the log, and the ticks of the workers. *)
From S2P Require Import Prelude GoStrings StringFacts Base64 Model MemoryStore MemoryStoreFacts MemoryStoreProps FileSystem Blob BlobFacts Listing Http Calendar Duration Config.
From S2P Require Import LifecycleRules Sse Credentials SigV4 SigV4Props PersonalTokens Protector Observability S3State S3Router NetHttp Website.
From S2P Require Import Gate WebUI WebActions WebPages Lifecycle DebugPages Server Sql Backend Importer Ctl.

(** ** net/http's server *)
Record HTTPServerOptions := mkHTTPServerOptions {
  ho_ReadHeaderTimeout : Z;
  ho_ReadTimeout : Z;
  ho_WriteTimeout : Z;
  ho_IdleTimeout : Z;
  ho_MaxHeaderBytes : Z;
  ho_DisableKeepAlive : bool;
  ho_EnableTLS : bool;
  ho_TLSMinVersion : Z;
}.

(** The fields of [http.Server]; TLS with its least version when there is a TLS configuration. *)
Record httpServer := mkHttpServer {
  hs_Addr : string;
  hs_ReadHeaderTimeout : Z;
  hs_ReadTimeout : Z;
  hs_WriteTimeout : Z;
  hs_IdleTimeout : Z;
  hs_MaxHeaderBytes : Z;
  hs_KeepAlives : bool;
  hs_TLS : option Z;
}.

Definition defaultMaxHeaderBytes : Z := 1048576.

Definition NewHTTPServerWithOptions (addr : string) (opts : HTTPServerOptions) : httpServer :=
  mkHttpServer addr
    (if ho_ReadHeaderTimeout opts <=? 0 then 5 * second else ho_ReadHeaderTimeout opts)
    (ho_ReadTimeout opts) (ho_WriteTimeout opts)
    (if ho_IdleTimeout opts <=? 0 then 60 * second else ho_IdleTimeout opts)
    (if ho_MaxHeaderBytes opts <=? 0 then defaultMaxHeaderBytes else ho_MaxHeaderBytes opts)
    (negb (ho_DisableKeepAlive opts))
    (if ho_EnableTLS opts then Some (if ho_TLSMinVersion opts =? 0 then VersionTLS12 else ho_TLSMinVersion opts) else None).

(** The options of both servers. *)
Definition server_options (cfg : Config) (tlsMinVersion : Z) : HTTPServerOptions :=
  mkHTTPServerOptions (cfg_HTTPReadHeaderTimeout cfg) (cfg_HTTPReadTimeout cfg) (cfg_HTTPWriteTimeout cfg)
    (cfg_HTTPIdleTimeout cfg) (cfg_HTTPMaxHeaderBytes cfg) (cfg_HTTPDisableKeepAlive cfg) (cfg_TLSEnabled cfg) tlsMinVersion.

(** [log.Fatal(err)] *)
Definition or_fatal {S A} (r : result A) : M S A := λ s, (s, r).

Section startup.
Context `{!GoRuntime} `{!Hashes} `{!TempNames} `{!MimeTypes} `{!Drivers} {P : Type} `{!StatePersister P}.
Variable open_store : store_kind → M world (memoryBackedStore P).

Definition bootstrapped (cfg : Config) (now : Z) : result CredentialStore :=
  if negb (String.eqb (cfg_AdminAccessKey cfg) "") && negb (String.eqb (cfg_AdminSecretKey cfg) "")
  then match BootstrapAdminCredential now (cfg_AdminAccessKey cfg) (cfg_AdminSecretKey cfg) NewCredentialStore with
       | (creds, Ok _) => Ok creds
       | (_, Err e) => Err e
       end
  else Ok NewCredentialStore.

Fixpoint count_objects (buckets : list Bucket) (store : memoryBackedStore P) (n : Z) : result Z :=
  match buckets with
  | [] => Ok n
  | b :: buckets =>
    match ListObjects (b_Name b) store with
    | Err e => Err e
    | Ok objects => count_objects buckets store (n + Z.of_nat (length objects))
    end
  end.

Definition metadataCatalogCounts (store : memoryBackedStore P) : result (Z * Z) :=
  match ListBuckets store with
  | Err e => Err e
  | Ok buckets =>
    match count_objects buckets store 0 with
    | Err e => Err e
    | Ok n => Ok (Z.of_nat (length buckets), n)
    end
  end.

(** The import of a directory, when one is given. *)
Definition startup_import (directory : string) (bs : blobStore) (store : memoryBackedStore P) : M world (memoryBackedStore P) := λ w,
  if String.eqb directory "" then (w, Ok store)
  else
    let '(s, r) := ImportDirectory (mkImportOptions directory "us-east-1" true (Some bs) None) (mkImportState store w (mkImportResult 0 0 0)) in
    (im_world s, match r with Ok _ => Ok (im_store s) | Err e => Err e end).

(** [flag.Parse] of the process: its one flag over the setting. *)
Definition import_directory (args : list string) (cfg : Config) : result string :=
  match flag_Parse {["import-directory" := FString (cfg_ImportDirectory cfg)]} args with
  | FlagsParsed fs => Ok (TrimSpace (flag_string fs "import-directory"))
  | FlagsHelp => Err (ErrSentinel "flag: help requested")
  | FlagsBad e => Err e
  end.

Definition sse_master_key (cfg : Config) : result string :=
  if String.eqb (cfg_SSEMasterKey cfg) "" then Ok ""
  else match b64_decode StdEncoding (cfg_SSEMasterKey cfg) with
       | Some key => if (String.length key =? 32)%nat then Ok key
                     else Err (Errorf "S000_SSE_MASTER_KEY must be a base64-encoded 32-byte key" [])
       | None => Err (Errorf "S000_SSE_MASTER_KEY must be a base64-encoded 32-byte key" [])
       end.

Definition pat_signing_key (cfg : Config) : string :=
  if String.eqb (cfg_PATSigningKey cfg) "" then cfg_AdminSecretKey cfg else cfg_PATSigningKey cfg.

Definition lifecycle_worker (cfg : Config) (rules : list Rule) : result Worker :=
  NewWorker true true (mkWorker rules (cfg_LifecycleInterval cfg) (cfg_LifecycleBatchSize cfg) (cfg_LifecycleMaxRetries cfg)
    (cfg_LifecycleBackoff cfg) (cfg_LifecycleDryRun cfg) true).

(** What serves when the process listens. *)
Record started := mkStarted {
  sd_kind : store_kind;
  sd_store : memoryBackedStore P;
  sd_blob : blobStore;
  sd_worker : Worker;
  sd_tokens : option PersonalAccessTokenManager;
  sd_sseKey : string;
  sd_options : Options;
  sd_ui : webUI;
  sd_server : httpServer;
  sd_website : option (httpServer * WebsiteHandler);
}.

Definition handler_options (cfg : Config) (creds : CredentialStore) (conns : Connections) (bs : blobStore) (sseKey : string) : Options :=
  mkOptions (cfg_Domain cfg) (cfg_MaxInFlight cfg) (Some (NewVerifier (Some creds) (cfg_AuthMaxSkew cfg) "" "")) (cfg_MetricsPath cfg) true
    (pat_signing_key cfg) (newS3API true (cfg_Domain cfg) bs "us-east-1" true sseKey)
    (NewWebsiteHandlerWithSSE true bs (cfg_Domain cfg) sseKey) (Some (Ping (Some conns))).

Definition startup (args : list string) (cfg : Config) : M world started :=
  directory ← or_fatal (import_directory args cfg);
  or_fatal (ValidateTLSEnabledSettings cfg) ;;
  tlsMinVersion ← or_fatal (ParseTLSMinVersion (cfg_TLSMinVersion cfg));
  w ← get;
  creds ← or_fatal (bootstrapped cfg (fs_clock w));
  backend ← or_fatal (ParseBackend (cfg_MetadataBackend cfg));
  conns ← OpenConnections (mkMetadataConfig backend (cfg_MetadataDSN cfg) (cfg_MetadataValkeyAddr cfg) None None);
  kind ← or_fatal (NewStore (mkMetadataConfig backend (cfg_MetadataDSN cfg) (cfg_MetadataValkeyAddr cfg) (cn_SQLDB conns) (cn_Valkey conns)));
  store ← open_store kind;
  or_fatal (metadataCatalogCounts store) ;;
  bs ← NewBlobStore (mkBlobConfig (cfg_DataDir cfg) (Some FsyncSafe) 0 0);
  store ← startup_import directory bs store;
  rules ← or_fatal (ParseRules (cfg_LifecycleRules cfg));
  worker ← or_fatal (lifecycle_worker cfg rules);
  sseKey ← or_fatal (sse_master_key cfg);
  let tokens := if String.eqb (pat_signing_key cfg) "" then None else Some (NewPersonalAccessTokenManager (pat_signing_key cfg)) in
  mret (mkStarted kind store bs worker tokens sseKey (handler_options cfg creds conns bs sseKey)
    (mkWebUI true true bs sseKey (cfg_AdminAccessKey cfg) (cfg_AdminSecretKey cfg) (cfg_UITheme cfg) true)
    (NewHTTPServerWithOptions (cfg_Addr cfg) (server_options cfg tlsMinVersion))
    (if cfg_WebsiteEnabled cfg
     then Some (NewHTTPServerWithOptions (cfg_WebsiteAddr cfg) (server_options cfg tlsMinVersion),
                NewWebsiteHandlerWithSSE true bs (cfg_WebsiteDomain cfg) sseKey)
     else None)).
End startup.
Arguments started P : clear implicits.

(** ** What is served after a startup that succeeds *)
Section started.
Context `{!GoRuntime} `{!Hashes} `{!TempNames} `{!MimeTypes} `{!Drivers} {P : Type} `{!StatePersister P}.
Variable open_store : store_kind → M world (memoryBackedStore P).

Lemma or_fatal_Ok {S A} (r : result A) (s s' : S) x : or_fatal r s = (s', Ok x) → s' = s ∧ r = Ok x.
Proof. unfold or_fatal. by intros [= -> ->]. Qed.

(** The parts of a server that has started, as the settings give them. *)
Record started_from (cfg : Config) (st : started P) (kind : store_kind) (creds : CredentialStore) (conns : Connections)
    (tls : Z) (rules : list Rule) : Prop := {
  sf_tls : ValidateTLSEnabledSettings cfg = Ok tt ∧ ParseTLSMinVersion (cfg_TLSMinVersion cfg) = Ok tls;
  sf_creds : ∃ now, bootstrapped cfg now = Ok creds;
  sf_store : ∃ backend w w', ParseBackend (cfg_MetadataBackend cfg) = Ok backend ∧
    OpenConnections (mkMetadataConfig backend (cfg_MetadataDSN cfg) (cfg_MetadataValkeyAddr cfg) None None) w = (w', Ok conns) ∧
    NewStore (mkMetadataConfig backend (cfg_MetadataDSN cfg) (cfg_MetadataValkeyAddr cfg) (cn_SQLDB conns) (cn_Valkey conns)) = Ok kind;
  sf_kind : sd_kind st = kind;
  sf_rules : ParseRules (cfg_LifecycleRules cfg) = Ok rules ∧ lifecycle_worker cfg rules = Ok (sd_worker st);
  sf_key : sse_master_key cfg = Ok (sd_sseKey st);
  sf_options : sd_options st = handler_options cfg creds conns (sd_blob st) (sd_sseKey st);
  sf_server : sd_server st = NewHTTPServerWithOptions (cfg_Addr cfg) (server_options cfg tls);
  sf_website : sd_website st = if cfg_WebsiteEnabled cfg
    then Some (NewHTTPServerWithOptions (cfg_WebsiteAddr cfg) (server_options cfg tls),
      NewWebsiteHandlerWithSSE true (sd_blob st) (cfg_WebsiteDomain cfg) (sd_sseKey st)) else None;
}.

Lemma startup_Ok args cfg w w' st : startup open_store args cfg w = (w', Ok st) →
  ∃ kind creds conns tls rules, started_from cfg st kind creds conns tls rules.
Proof.
  unfold startup. intros Hr. apply M_bind_inv in Hr as (? & directory & [-> _]%or_fatal_Ok & Hr).
  apply M_bind_inv in Hr as (? & [] & [-> Htls]%or_fatal_Ok & Hr). apply M_bind_inv in Hr as (? & tls & [-> Hv]%or_fatal_Ok & Hr).
  apply M_bind_inv in Hr as (w0 & w1 & Hg & Hr). unfold get in Hg. injection Hg as <- <-.
  apply M_bind_inv in Hr as (? & creds & [-> Hcreds]%or_fatal_Ok & Hr). apply M_bind_inv in Hr as (? & backend & [-> Hb]%or_fatal_Ok & Hr).
  apply M_bind_inv in Hr as (w2 & conns & Hconns & Hr). apply M_bind_inv in Hr as (? & kind & [-> Hkind]%or_fatal_Ok & Hr).
  apply M_bind_inv in Hr as (w3 & store & _ & Hr). apply M_bind_inv in Hr as (? & counts & [-> _]%or_fatal_Ok & Hr).
  apply M_bind_inv in Hr as (w4 & bs & _ & Hr). apply M_bind_inv in Hr as (w5 & store' & _ & Hr).
  apply M_bind_inv in Hr as (? & rules & [-> Hrules]%or_fatal_Ok & Hr). apply M_bind_inv in Hr as (? & worker & [-> Hworker]%or_fatal_Ok & Hr).
  apply M_bind_inv in Hr as (? & key & [-> Hkey]%or_fatal_Ok & Hr). unfold mret, M_ret in Hr. injection Hr as _ <-.
  exists kind, creds, conns, tls, rules. split; eauto 10.
Qed.

Lemma bootstrapped_admin cfg now creds : bootstrapped cfg now = Ok creds → cfg_AdminAccessKey cfg ≠ "" → cfg_AdminSecretKey cfg ≠ "" →
  ∀ t, (resolveSecrets creds (cfg_AdminAccessKey cfg) t).1.1 = [cfg_AdminSecretKey cfg].
Proof.
  intros Hb Ha Hs t. unfold bootstrapped, BootstrapAdminCredential in Hb.
  rewrite (proj2 (String.eqb_neq _ _) Ha), (proj2 (String.eqb_neq _ _) Hs) in Hb. cbn [negb andb orb] in Hb.
  unfold mbind, M_bind, get, put, NewCredentialStore in Hb. rewrite map_size_empty in Hb. injection Hb as <-.
  unfold resolveSecrets. rewrite lookup_insert_eq. done.
Qed.
Lemma sse_key_length cfg key : sse_master_key cfg = Ok key → key = "" ∨ String.length key = 32%nat.
Proof.
  unfold sse_master_key. destruct (String.eqb _ _); [intros [= <-]; by left|]. destruct (b64_decode _ _) as [k|]; [|done].
  destruct (Nat.eqb_spec (String.length k) 32); [|done]. intros [= <-]. by right.
Qed.

Lemma bad_rule_none i rules : bad_rule i rules = None → ∀ rule, rule ∈ rules → 0 < lr_ExpireAfter rule.
Proof.
  revert i. induction rules as [|r rules IH]; intros i; simpl; [by intros _ ? ?%elem_of_nil|].
  destruct (Z.leb_spec (lr_ExpireAfter r) 0); [done|]. intros Hb rule [-> | Hr]%elem_of_cons; [done|by eapply IH].
Qed.

Lemma tls_of_server addr cfg tls : cfg_TLSEnabled cfg = true → ParseTLSMinVersion (cfg_TLSMinVersion cfg) = Ok tls →
  hs_TLS (NewHTTPServerWithOptions addr (server_options cfg tls)) = Some tls ∧ VersionTLS12 ≤ tls.
Proof.
  intros Ht Hv. assert (VersionTLS12 ≤ tls) as Hle by (unfold ParseTLSMinVersion in Hv; repeat case_match; simplify_eq; done).
  split; [|done]. unfold NewHTTPServerWithOptions, server_options. simpl. rewrite Ht. unfold VersionTLS12 in *.
  destruct (Z.eqb_spec tls 0); [lia|done].
Qed.


End started.

(** ** Two starts *)
Section startup_examples.
#[local] Existing Instance go_runtime_ref.
#[local] Existing Instance ex_hashes.
#[local] Existing Instance ex_temp_names.
#[local] Existing Instance ex_txt_mime.
#[local] Existing Instance ex_drivers.
#[local] Existing Instance ex_authority.
#[local] Existing Instance ex_claims_codec.

Definition ex_open (kind : store_kind) : M world (memoryBackedStore scripted_persister) := mret (mkStore None (emptyState "sqlite")).

Definition ex_settings (extra : list (string * string)) : Config :=
  LoadFromEnv (ex_env (extra ++ [("S000_ADMIN_ACCESS_KEY", "AK"); ("S000_ADMIN_SECRET_KEY", "secret"); ("S000_DATA_DIR", "srv");
    ("S000_TLS_ENABLED", "true"); ("S000_TLS_CERT_FILE", "c.pem"); ("S000_TLS_KEY_FILE", "k.pem")])).

Definition ex_boot (args : list string) (extra : list (string * string)) : world * result (started scripted_persister) :=
  startup ex_open args (ex_settings extra) (im_world ex_import).

(** What is wrong with a setting may come to light after the import has written its
    objects: the key of the encryption and the lifecycle rules are read last. *)
Example import_before_settings :
  let (w, r) := ex_boot ["--import-directory"; "imp"] [("S000_SSE_MASTER_KEY", "short")] in
  is_ok r = false ∧ (size (fs_files w) =? size (fs_files (im_world ex_import)))%nat = false.
Proof. vm_compute. by split. Qed.

Lemma ok_run {S A} (m : M S A) s : is_ok (m s).2 = true → ∃ s' x, m s = (s', Ok x).
Proof. destruct (m s) as [s' [x|e]]; [by eauto|done]. Qed.

Lemma ex_started : ∃ w st, startup ex_open [] (ex_settings []) (im_world ex_import) = (w, Ok st).
Proof. apply ok_run. vm_compute. reflexivity. Qed.

Lemma ex_admin_keys : cfg_AdminAccessKey (ex_settings []) = "AK" ∧ cfg_AdminSecretKey (ex_settings []) = "secret" ∧ cfg_TLSEnabled (ex_settings []) = true.
Proof. vm_compute. split_and!; reflexivity. Qed.


Lemma ex_secret_flag : TrimSpace (flag_string ex_flags "secret-key") = "secret".
Proof. vm_compute. reflexivity. Qed.

End startup_examples.
