(* ===== verification/SqlText.v ===== *)
(** * The SQL of the metadata store (src/internal/metadata/sqlite_store.go)

    The texts of the schema and of the statements in each dialect, as they are sent to
    the database, and the columns a database made by an older version gets.  The texts
    are read by a small analysis - tables, columns, names, parameters - that checks
    them against one another. *)
From S2P Require Import Prelude GoStrings StringFacts Sql.

(** ** The schema *)
Definition postgresql_schema : list string := [
  "CREATE TABLE IF NOT EXISTS buckets (name TEXT PRIMARY KEY, created_at TEXT NOT NULL, region TEXT NOT NULL DEFAULT '', versioning_status TEXT NOT NULL DEFAULT 'Suspended')";
  "CREATE TABLE IF NOT EXISTS object_versions (bucket TEXT NOT NULL, object_key TEXT NOT NULL, version_id TEXT NOT NULL, ordinal BIGSERIAL PRIMARY KEY, size BIGINT NOT NULL, etag TEXT NOT NULL, checksum_sha256 TEXT NOT NULL, checksum_sha1 TEXT NOT NULL DEFAULT '', checksum_crc32 TEXT NOT NULL DEFAULT '', checksum_crc32c TEXT NOT NULL DEFAULT '', storage_path TEXT NOT NULL DEFAULT '', metadata_json TEXT NOT NULL DEFAULT '{}', delete_marker INTEGER NOT NULL, created_at TEXT NOT NULL)";
  "DROP INDEX IF EXISTS ux_object_versions_identity";
  "CREATE UNIQUE INDEX IF NOT EXISTS ux_object_versions_identity_versioned ON object_versions(bucket, object_key, version_id) WHERE version_id <> 'null'";
  "CREATE INDEX IF NOT EXISTS idx_object_versions_latest ON object_versions(bucket, object_key, ordinal DESC)";
  "CREATE INDEX IF NOT EXISTS idx_object_versions_bucket_key ON object_versions(bucket, object_key)";
  "CREATE TABLE IF NOT EXISTS multipart_uploads (upload_id TEXT PRIMARY KEY, bucket TEXT NOT NULL, object_key TEXT NOT NULL, sse_algorithm TEXT NOT NULL DEFAULT '', initiated_at TEXT NOT NULL)";
  "CREATE TABLE IF NOT EXISTS multipart_parts (upload_id TEXT NOT NULL, part_number INTEGER NOT NULL, etag TEXT NOT NULL, size BIGINT NOT NULL, checksum_sha256 TEXT NOT NULL, checksum_sha1 TEXT NOT NULL DEFAULT '', checksum_crc32 TEXT NOT NULL DEFAULT '', checksum_crc32c TEXT NOT NULL DEFAULT '', storage_path TEXT NOT NULL DEFAULT '', created_at TEXT NOT NULL DEFAULT '', PRIMARY KEY (upload_id, part_number))";
  "CREATE INDEX IF NOT EXISTS idx_multipart_uploads_bucket_key ON multipart_uploads(bucket, object_key)";
  "CREATE TABLE IF NOT EXISTS credential_records (access_key_id TEXT PRIMARY KEY, secret_hash TEXT NOT NULL, status TEXT NOT NULL, created_at TEXT NOT NULL, rotated_at TEXT NOT NULL DEFAULT '')";
  "CREATE TABLE IF NOT EXISTS bucket_websites (bucket TEXT PRIMARY KEY, index_document TEXT NOT NULL, error_document TEXT NOT NULL, redirect_all_host TEXT NOT NULL, redirect_all_protocol TEXT NOT NULL, routing_rules_json TEXT NOT NULL DEFAULT '[]', enabled INTEGER NOT NULL, public_read INTEGER NOT NULL)";
  "CREATE TABLE IF NOT EXISTS bucket_cors (bucket TEXT PRIMARY KEY, allowed_origins TEXT NOT NULL, allowed_methods TEXT NOT NULL, allowed_headers TEXT NOT NULL, expose_headers TEXT NOT NULL, max_age_seconds INTEGER NOT NULL, enabled INTEGER NOT NULL)";
  "CREATE TABLE IF NOT EXISTS bucket_policies (bucket TEXT PRIMARY KEY, document TEXT NOT NULL, enabled INTEGER NOT NULL)";
  "CREATE TABLE IF NOT EXISTS bucket_public_access_blocks (bucket TEXT PRIMARY KEY, block_public_acls INTEGER NOT NULL, ignore_public_acls INTEGER NOT NULL, block_public_policy INTEGER NOT NULL, restrict_public_buckets INTEGER NOT NULL)";
  "CREATE TABLE IF NOT EXISTS bucket_lifecycles (bucket TEXT PRIMARY KEY, document TEXT NOT NULL, enabled INTEGER NOT NULL)";
  "CREATE TABLE IF NOT EXISTS bucket_notifications (bucket TEXT PRIMARY KEY, document TEXT NOT NULL, enabled INTEGER NOT NULL)";
  "CREATE TABLE IF NOT EXISTS bucket_replications (bucket TEXT PRIMARY KEY, document TEXT NOT NULL, enabled INTEGER NOT NULL)";
  "CREATE TABLE IF NOT EXISTS object_taggings (bucket TEXT NOT NULL, object_key TEXT NOT NULL, version_id TEXT NOT NULL, document TEXT NOT NULL, PRIMARY KEY (bucket, object_key, version_id))"].

Definition mariadb_schema : list string := [
  "CREATE TABLE IF NOT EXISTS buckets (name VARCHAR(255) PRIMARY KEY, created_at TEXT NOT NULL, region TEXT NOT NULL DEFAULT '', versioning_status TEXT NOT NULL DEFAULT 'Suspended')";
  "CREATE TABLE IF NOT EXISTS object_versions (bucket VARCHAR(255) NOT NULL, object_key VARCHAR(1024) NOT NULL, version_id VARCHAR(255) NOT NULL, ordinal BIGINT AUTO_INCREMENT PRIMARY KEY, size BIGINT NOT NULL, etag TEXT NOT NULL, checksum_sha256 TEXT NOT NULL, checksum_sha1 TEXT NOT NULL DEFAULT '', checksum_crc32 TEXT NOT NULL DEFAULT '', checksum_crc32c TEXT NOT NULL DEFAULT '', storage_path TEXT NOT NULL DEFAULT '', metadata_json TEXT NOT NULL DEFAULT '{}', delete_marker INTEGER NOT NULL, created_at TEXT NOT NULL, INDEX idx_object_versions_latest (bucket, object_key, ordinal), INDEX idx_object_versions_bucket_key (bucket, object_key))";
  "CREATE TABLE IF NOT EXISTS multipart_uploads (upload_id VARCHAR(255) PRIMARY KEY, bucket VARCHAR(255) NOT NULL, object_key VARCHAR(1024) NOT NULL, sse_algorithm TEXT NOT NULL DEFAULT '', initiated_at TEXT NOT NULL, INDEX idx_multipart_uploads_bucket_key (bucket, object_key))";
  "CREATE TABLE IF NOT EXISTS multipart_parts (upload_id VARCHAR(255) NOT NULL, part_number INTEGER NOT NULL, etag TEXT NOT NULL, size BIGINT NOT NULL, checksum_sha256 TEXT NOT NULL, checksum_sha1 TEXT NOT NULL DEFAULT '', checksum_crc32 TEXT NOT NULL DEFAULT '', checksum_crc32c TEXT NOT NULL DEFAULT '', storage_path TEXT NOT NULL DEFAULT '', created_at TEXT NOT NULL DEFAULT '', PRIMARY KEY (upload_id, part_number))";
  "CREATE TABLE IF NOT EXISTS credential_records (access_key_id VARCHAR(255) PRIMARY KEY, secret_hash TEXT NOT NULL, status TEXT NOT NULL, created_at TEXT NOT NULL, rotated_at TEXT NOT NULL DEFAULT '')";
  "CREATE TABLE IF NOT EXISTS bucket_websites (bucket VARCHAR(255) PRIMARY KEY, index_document TEXT NOT NULL, error_document TEXT NOT NULL, redirect_all_host TEXT NOT NULL, redirect_all_protocol TEXT NOT NULL, routing_rules_json TEXT NOT NULL DEFAULT '[]', enabled INTEGER NOT NULL, public_read INTEGER NOT NULL)";
  "CREATE TABLE IF NOT EXISTS bucket_cors (bucket VARCHAR(255) PRIMARY KEY, allowed_origins TEXT NOT NULL, allowed_methods TEXT NOT NULL, allowed_headers TEXT NOT NULL, expose_headers TEXT NOT NULL, max_age_seconds INTEGER NOT NULL, enabled INTEGER NOT NULL)";
  "CREATE TABLE IF NOT EXISTS bucket_policies (bucket VARCHAR(255) PRIMARY KEY, document TEXT NOT NULL, enabled INTEGER NOT NULL)";
  "CREATE TABLE IF NOT EXISTS bucket_public_access_blocks (bucket VARCHAR(255) PRIMARY KEY, block_public_acls INTEGER NOT NULL, ignore_public_acls INTEGER NOT NULL, block_public_policy INTEGER NOT NULL, restrict_public_buckets INTEGER NOT NULL)";
  "CREATE TABLE IF NOT EXISTS bucket_lifecycles (bucket VARCHAR(255) PRIMARY KEY, document TEXT NOT NULL, enabled INTEGER NOT NULL)";
  "CREATE TABLE IF NOT EXISTS bucket_notifications (bucket VARCHAR(255) PRIMARY KEY, document TEXT NOT NULL, enabled INTEGER NOT NULL)";
  "CREATE TABLE IF NOT EXISTS bucket_replications (bucket VARCHAR(255) PRIMARY KEY, document TEXT NOT NULL, enabled INTEGER NOT NULL)";
  "CREATE TABLE IF NOT EXISTS object_taggings (bucket VARCHAR(255) NOT NULL, object_key VARCHAR(1024) NOT NULL, version_id VARCHAR(255) NOT NULL, document TEXT NOT NULL, PRIMARY KEY (bucket, object_key, version_id))"].

Definition sqlite_schema : list string := [
  "CREATE TABLE IF NOT EXISTS buckets (name TEXT PRIMARY KEY, created_at TEXT NOT NULL, region TEXT NOT NULL DEFAULT '', versioning_status TEXT NOT NULL DEFAULT 'Suspended')";
  "CREATE TABLE IF NOT EXISTS object_versions (bucket TEXT NOT NULL, object_key TEXT NOT NULL, version_id TEXT NOT NULL, ordinal INTEGER PRIMARY KEY AUTOINCREMENT, size INTEGER NOT NULL, etag TEXT NOT NULL, checksum_sha256 TEXT NOT NULL, checksum_sha1 TEXT NOT NULL DEFAULT '', checksum_crc32 TEXT NOT NULL DEFAULT '', checksum_crc32c TEXT NOT NULL DEFAULT '', storage_path TEXT NOT NULL DEFAULT '', metadata_json TEXT NOT NULL DEFAULT '{}', delete_marker INTEGER NOT NULL, created_at TEXT NOT NULL)";
  "DROP INDEX IF EXISTS ux_object_versions_identity";
  "CREATE UNIQUE INDEX IF NOT EXISTS ux_object_versions_identity_versioned ON object_versions(bucket, object_key, version_id) WHERE version_id <> 'null'";
  "CREATE INDEX IF NOT EXISTS idx_object_versions_latest ON object_versions(bucket, object_key, ordinal DESC)";
  "CREATE INDEX IF NOT EXISTS idx_object_versions_bucket_key ON object_versions(bucket, object_key)";
  "CREATE TABLE IF NOT EXISTS multipart_uploads (upload_id TEXT PRIMARY KEY, bucket TEXT NOT NULL, object_key TEXT NOT NULL, sse_algorithm TEXT NOT NULL DEFAULT '', initiated_at TEXT NOT NULL)";
  "CREATE TABLE IF NOT EXISTS multipart_parts (upload_id TEXT NOT NULL, part_number INTEGER NOT NULL, etag TEXT NOT NULL, size INTEGER NOT NULL, checksum_sha256 TEXT NOT NULL, checksum_sha1 TEXT NOT NULL DEFAULT '', checksum_crc32 TEXT NOT NULL DEFAULT '', checksum_crc32c TEXT NOT NULL DEFAULT '', storage_path TEXT NOT NULL DEFAULT '', created_at TEXT NOT NULL DEFAULT '', PRIMARY KEY (upload_id, part_number))";
  "CREATE INDEX IF NOT EXISTS idx_multipart_uploads_bucket_key ON multipart_uploads(bucket, object_key)";
  "CREATE TABLE IF NOT EXISTS credential_records (access_key_id TEXT PRIMARY KEY, secret_hash TEXT NOT NULL, status TEXT NOT NULL, created_at TEXT NOT NULL, rotated_at TEXT NOT NULL DEFAULT '')";
  "CREATE TABLE IF NOT EXISTS bucket_websites (bucket TEXT PRIMARY KEY, index_document TEXT NOT NULL, error_document TEXT NOT NULL, redirect_all_host TEXT NOT NULL, redirect_all_protocol TEXT NOT NULL, routing_rules_json TEXT NOT NULL DEFAULT '[]', enabled INTEGER NOT NULL, public_read INTEGER NOT NULL)";
  "CREATE TABLE IF NOT EXISTS bucket_cors (bucket TEXT PRIMARY KEY, allowed_origins TEXT NOT NULL, allowed_methods TEXT NOT NULL, allowed_headers TEXT NOT NULL, expose_headers TEXT NOT NULL, max_age_seconds INTEGER NOT NULL, enabled INTEGER NOT NULL)";
  "CREATE TABLE IF NOT EXISTS bucket_policies (bucket TEXT PRIMARY KEY, document TEXT NOT NULL, enabled INTEGER NOT NULL)";
  "CREATE TABLE IF NOT EXISTS bucket_public_access_blocks (bucket TEXT PRIMARY KEY, block_public_acls INTEGER NOT NULL, ignore_public_acls INTEGER NOT NULL, block_public_policy INTEGER NOT NULL, restrict_public_buckets INTEGER NOT NULL)";
  "CREATE TABLE IF NOT EXISTS bucket_lifecycles (bucket TEXT PRIMARY KEY, document TEXT NOT NULL, enabled INTEGER NOT NULL)";
  "CREATE TABLE IF NOT EXISTS bucket_notifications (bucket TEXT PRIMARY KEY, document TEXT NOT NULL, enabled INTEGER NOT NULL)";
  "CREATE TABLE IF NOT EXISTS bucket_replications (bucket TEXT PRIMARY KEY, document TEXT NOT NULL, enabled INTEGER NOT NULL)";
  "CREATE TABLE IF NOT EXISTS object_taggings (bucket TEXT NOT NULL, object_key TEXT NOT NULL, version_id TEXT NOT NULL, document TEXT NOT NULL, PRIMARY KEY (bucket, object_key, version_id))"].

Definition schemaStatements (dialect : sqlDialect) : list string :=
  match dialect with
  | sqlDialectPostgreSQL => postgresql_schema
  | sqlDialectMariaDB => mariadb_schema
  | sqlDialectSQLite => sqlite_schema
  end.

(** ** Statements *)

(** [sqlQuery]: PostgreSQL numbers its parameters. *)
Fixpoint number_parameters (n : Z) (query : string) : string :=
  match query with
  | "" => ""
  | String c query =>
    if Ascii.eqb c "?" then "$" +:+ FormatInt n +:+ number_parameters (n + 1) query
    else String c (number_parameters n query)
  end.

Definition sqlQuery (dialect : sqlDialect) (query : string) : string :=
  match dialect with sqlDialectPostgreSQL => number_parameters 1 query | _ => query end.

Definition upsertSQL (dialect : sqlDialect) (table : string) (columns conflict updates : list string) : string :=
  let base := "INSERT INTO " +:+ table +:+ " (" +:+ Join columns ", " +:+ ") VALUES (" +:+
              Join ((λ _, "?") <$> columns) ", " +:+ ")" in
  match dialect with
  | sqlDialectMariaDB =>
    base +:+ " ON DUPLICATE KEY UPDATE " +:+ Join ((λ col, col +:+ " = VALUES(" +:+ col +:+ ")") <$> updates) ", "
  | _ =>
    base +:+ " ON CONFLICT(" +:+ Join conflict ", " +:+ ") DO UPDATE SET " +:+
    Join ((λ col, col +:+ " = excluded." +:+ col) <$> updates) ", "
  end.

Definition putObjectVersionSQL : string :=
  "INSERT INTO object_versions (bucket, object_key, version_id, size, etag, checksum_sha256, checksum_sha1, checksum_crc32, checksum_crc32c, storage_path, metadata_json, delete_marker, created_at) VALUES (?, ?, ?, ?, ?, ?, ?, ?, ?, ?, ?, ?, ?)".

Definition selectObjectVersionSQL (prefix : string) : string :=
  Join (append prefix <$> ["bucket"; "object_key"; "version_id"; "size"; "etag"; "checksum_sha256"; "checksum_sha1";
    "checksum_crc32"; "checksum_crc32c"; "storage_path"; "metadata_json"; "delete_marker"; "created_at"]) ", ".

Definition upsertMultipartPartSQL (dialect : sqlDialect) : string :=
  upsertSQL dialect "multipart_parts" ["upload_id"; "part_number"; "etag"; "size"; "checksum_sha256"; "checksum_sha1";
    "checksum_crc32"; "checksum_crc32c"; "storage_path"; "created_at"] ["upload_id"; "part_number"]
    ["etag"; "size"; "checksum_sha256"; "checksum_sha1"; "checksum_crc32"; "checksum_crc32c"; "storage_path"; "created_at"].

Definition upsertCredentialSQL (dialect : sqlDialect) : string :=
  upsertSQL dialect "credential_records" ["access_key_id"; "secret_hash"; "status"; "created_at"; "rotated_at"]
    ["access_key_id"] ["secret_hash"; "status"; "created_at"; "rotated_at"].

Definition upsertWebsiteSQL (dialect : sqlDialect) : string :=
  upsertSQL dialect "bucket_websites" ["bucket"; "index_document"; "error_document"; "redirect_all_host";
    "redirect_all_protocol"; "routing_rules_json"; "enabled"; "public_read"] ["bucket"]
    ["index_document"; "error_document"; "redirect_all_host"; "redirect_all_protocol"; "routing_rules_json"; "enabled"; "public_read"].

Definition upsertCORSSQL (dialect : sqlDialect) : string :=
  upsertSQL dialect "bucket_cors" ["bucket"; "allowed_origins"; "allowed_methods"; "allowed_headers"; "expose_headers";
    "max_age_seconds"; "enabled"] ["bucket"]
    ["allowed_origins"; "allowed_methods"; "allowed_headers"; "expose_headers"; "max_age_seconds"; "enabled"].

Definition upsertDocumentSQL (table : string) (dialect : sqlDialect) : string :=
  upsertSQL dialect table ["bucket"; "document"; "enabled"] ["bucket"] ["document"; "enabled"].

Definition upsertAccessSQL (dialect : sqlDialect) : string :=
  upsertSQL dialect "bucket_public_access_blocks" ["bucket"; "block_public_acls"; "ignore_public_acls";
    "block_public_policy"; "restrict_public_buckets"] ["bucket"]
    ["block_public_acls"; "ignore_public_acls"; "block_public_policy"; "restrict_public_buckets"].

Definition upsertTaggingSQL (dialect : sqlDialect) : string :=
  upsertSQL dialect "object_taggings" ["bucket"; "object_key"; "version_id"; "document"]
    ["bucket"; "object_key"; "version_id"] ["document"].

(** The query of [ListObjectsV2], with or without an upper bound. *)
Definition listObjectsV2SQL (hasUpper : bool) : string :=
  "SELECT " +:+ selectObjectVersionSQL "ov." +:+ " FROM object_versions ov JOIN (SELECT bucket, object_key, MAX(ordinal) AS ordinal FROM object_versions WHERE bucket = ? AND object_key >= ? AND object_key > ?" +:+
  (if hasUpper then " AND object_key < ?" else "") +:+
  " GROUP BY bucket, object_key) latest ON latest.bucket = ov.bucket AND latest.object_key = ov.object_key AND latest.ordinal = ov.ordinal WHERE ov.delete_marker = 0 ORDER BY ov.object_key".

(** A statement with the number of arguments it is run with and of the variables a row
    of its result is scanned into. *)
Record query := mkQuery {
  q_text : string;
  q_args : nat;
  q_scanned : nat;
}.

Definition q_CreateBucket : query := mkQuery ("INSERT INTO buckets (name, created_at, region, versioning_status) VALUES (?, ?, ?, ?)") 4 0.
Definition q_DeleteBucket : query := mkQuery ("DELETE FROM buckets WHERE name = ?") 1 0.
Definition q_UpdateBucketVersioning : query := mkQuery ("UPDATE buckets SET versioning_status = ? WHERE name = ?") 2 0.
Definition q_GetBucket : query := mkQuery ("SELECT name, created_at, region, versioning_status FROM buckets WHERE name = ?") 1 4.
Definition q_ListBuckets : query := mkQuery ("SELECT name, created_at, region, versioning_status FROM buckets ORDER BY name") 0 4.
Definition q_ListObjects : query := mkQuery ("SELECT " +:+ selectObjectVersionSQL "ov." +:+ " FROM object_versions ov JOIN (SELECT bucket, object_key, MAX(ordinal) AS ordinal FROM object_versions WHERE bucket = ? GROUP BY bucket, object_key) latest ON latest.bucket = ov.bucket AND latest.object_key = ov.object_key AND latest.ordinal = ov.ordinal WHERE ov.delete_marker = 0 ORDER BY ov.object_key") 1 13.
Definition q_ListObjectVersions : query := mkQuery ("SELECT " +:+ selectObjectVersionSQL "" +:+ " FROM object_versions WHERE bucket = ? ORDER BY object_key, ordinal DESC") 1 13.
Definition q_ListObjectsV2 : query := mkQuery (listObjectsV2SQL false) 3 13.
Definition q_ListObjectsV2_upper : query := mkQuery (listObjectsV2SQL true) 4 13.
Definition q_GetLatest : query := mkQuery ("SELECT " +:+ selectObjectVersionSQL "" +:+ " FROM object_versions WHERE bucket = ? AND object_key = ? ORDER BY ordinal DESC LIMIT 1") 2 13.
Definition q_GetVersion : query := mkQuery ("SELECT " +:+ selectObjectVersionSQL "" +:+ " FROM object_versions WHERE bucket = ? AND object_key = ? AND version_id = ?") 3 13.
Definition q_UpdateObjectMetadata : query := mkQuery ("UPDATE object_versions SET metadata_json = ? WHERE bucket = ? AND object_key = ? AND version_id = ?") 4 0.
Definition q_DeleteObjectVersion : query := mkQuery ("DELETE FROM object_versions WHERE bucket = ? AND object_key = ? AND version_id = ?") 3 0.
Definition q_AllVersions : query := mkQuery ("SELECT " +:+ selectObjectVersionSQL "" +:+ " FROM object_versions WHERE bucket = ? AND object_key = ? ORDER BY ordinal") 2 13.
Definition q_DeleteAllObjectVersions : query := mkQuery ("DELETE FROM object_versions WHERE bucket = ? AND object_key = ?") 2 0.
Definition q_PutObjectVersion : query := mkQuery (putObjectVersionSQL) 13 0.
Definition q_CreateMultipartUpload : query := mkQuery ("INSERT INTO multipart_uploads (upload_id, bucket, object_key, sse_algorithm, initiated_at) VALUES (?, ?, ?, ?, ?)") 5 0.
Definition q_DeleteUpload : query := mkQuery ("DELETE FROM multipart_uploads WHERE upload_id = ?") 1 0.
Definition q_DeleteParts : query := mkQuery ("DELETE FROM multipart_parts WHERE upload_id = ?") 1 0.
Definition q_GetUpload : query := mkQuery ("SELECT upload_id, bucket, object_key, sse_algorithm, initiated_at FROM multipart_uploads WHERE upload_id = ?") 1 5.
Definition q_ListMultipartUploads : query := mkQuery ("SELECT upload_id, bucket, object_key, initiated_at FROM multipart_uploads WHERE bucket = ? AND (? = '' OR object_key LIKE ?) ORDER BY object_key, upload_id") 3 5.
Definition q_ListParts : query := mkQuery ("SELECT upload_id, part_number, etag, size, checksum_sha256, checksum_sha1, checksum_crc32, checksum_crc32c, storage_path, created_at FROM multipart_parts WHERE upload_id = ? ORDER BY part_number") 1 10.
Definition q_GetCredential : query := mkQuery ("SELECT access_key_id, secret_hash, status, created_at, rotated_at FROM credential_records WHERE access_key_id = ?") 1 5.
Definition q_ValidateConsistency : query := mkQuery ("SELECT object_versions.bucket, object_versions.object_key FROM object_versions LEFT JOIN buckets ON buckets.name = object_versions.bucket WHERE buckets.name IS NULL LIMIT 100") 0 2.
Definition q_GetWebsite : query := mkQuery ("SELECT bucket, index_document, error_document, redirect_all_host, redirect_all_protocol, routing_rules_json, enabled, public_read FROM bucket_websites WHERE bucket = ?") 1 8.
Definition q_GetCORS : query := mkQuery ("SELECT bucket, allowed_origins, allowed_methods, allowed_headers, expose_headers, max_age_seconds, enabled FROM bucket_cors WHERE bucket = ?") 1 7.
Definition q_GetAccess : query := mkQuery ("SELECT bucket, block_public_acls, ignore_public_acls, block_public_policy, restrict_public_buckets FROM bucket_public_access_blocks WHERE bucket = ?") 1 5.
Definition q_GetTagging : query := mkQuery ("SELECT bucket, object_key, version_id, document FROM object_taggings WHERE bucket = ? AND object_key = ? AND version_id = ?") 3 4.
Definition q_DeleteTagging : query := mkQuery ("DELETE FROM object_taggings WHERE bucket = ? AND object_key = ? AND version_id = ?") 3 0.

(** Configurations: one statement to read a document, one to delete by bucket. *)
Definition q_GetDocument (table : string) : query :=
  mkQuery ("SELECT bucket, document, enabled FROM " +:+ table +:+ " WHERE bucket = ?") 1 3.
Definition q_DeleteConfig (table : string) : query := mkQuery ("DELETE FROM " +:+ table +:+ " WHERE bucket = ?") 1 0.

Definition document_tables : list string := ["bucket_policies"; "bucket_lifecycles"; "bucket_notifications"; "bucket_replications"].

(** Every statement the store runs, before and after the numbering of its parameters. *)
Definition raw_queries (d : sqlDialect) : list query :=
  [q_CreateBucket; q_DeleteBucket; q_UpdateBucketVersioning; q_GetBucket; q_ListBuckets; q_ListObjects; q_ListObjectVersions; q_ListObjectsV2; q_ListObjectsV2_upper; q_GetLatest; q_GetVersion;
   q_UpdateObjectMetadata; q_DeleteObjectVersion; q_AllVersions; q_DeleteAllObjectVersions; q_PutObjectVersion; q_CreateMultipartUpload; q_DeleteUpload; q_DeleteParts; q_GetUpload;
   q_ListMultipartUploads; q_ListParts; q_GetCredential; q_ValidateConsistency; q_GetWebsite; q_GetCORS; q_GetAccess; q_GetTagging; q_DeleteTagging] ++
  [mkQuery (upsertMultipartPartSQL d) 10 0; mkQuery (upsertCredentialSQL d) 5 0; mkQuery (upsertWebsiteSQL d) 8 0;
   mkQuery (upsertCORSSQL d) 7 0; mkQuery (upsertAccessSQL d) 5 0; mkQuery (upsertTaggingSQL d) 4 0] ++
  ((λ table, mkQuery (upsertDocumentSQL table d) 3 0) <$> document_tables) ++ (q_GetDocument <$> document_tables) ++
  (q_DeleteConfig <$> ["bucket_websites"; "bucket_cors"; "bucket_public_access_blocks"] ++ document_tables).

Definition store_queries (d : sqlDialect) : list query :=
  (λ q, mkQuery (sqlQuery d (q_text q)) (q_args q) (q_scanned q)) <$> raw_queries d.

(** ** Databases of older versions *)

(** [ensureSQLiteColumns]: what it sends for the columns PRAGMA table_info lists, in
    the order a range over the map gives. *)
Definition ensureSQLiteColumns (table : string) (existing : list string) (columns : list (string * string)) : list string :=
  (λ c, "ALTER TABLE " +:+ table +:+ " ADD COLUMN " +:+ c.1 +:+ " " +:+ c.2) <$>
  List.filter (λ c, negb (bool_decide (c.1 ∈ existing))) columns.

Definition checksum_columns : list (string * string) :=
  [("checksum_sha1", "TEXT NOT NULL DEFAULT ''"); ("checksum_crc32", "TEXT NOT NULL DEFAULT ''");
   ("checksum_crc32c", "TEXT NOT NULL DEFAULT ''")].

(** The columns [ensureSQLiteSchema] asks for. *)
Definition ensured_columns : list (string * list (string * string)) :=
  [("buckets", [("region", "TEXT NOT NULL DEFAULT ''"); ("versioning_status", "TEXT NOT NULL DEFAULT 'Suspended'")]);
   ("object_versions", checksum_columns);
   ("multipart_uploads", [("sse_algorithm", "TEXT NOT NULL DEFAULT ''")]);
   ("multipart_parts", checksum_columns)].

(** ** Reading the texts *)
Definition word_char (c : ascii) : bool :=
  in_range "a" "z" c || in_range "A" "Z" c || in_range "0" "9" c || Ascii.eqb c "_".

Fixpoint words_of (word s : string) : list string :=
  match s with
  | "" => if String.eqb word "" then [] else [word]
  | String c s =>
    if word_char c then words_of (word +:+ String c "") s
    else (if String.eqb word "" then [] else [word]) ++ words_of "" s
  end.

(** A name: a word in small letters. *)
Definition is_name (w : string) : bool :=
  match w with String c _ => in_range "a" "z" c | "" => false end && str_forall (λ c, negb (in_range "A" "Z" c)) w.

Definition names_of (text : string) : list string := List.filter is_name (words_of "" text).

(** The pieces between commas outside parentheses, up to the closing one. *)
Fixpoint split_columns (depth : nat) (piece s : string) : list string :=
  match s with
  | "" => [piece]
  | String c s =>
    if Ascii.eqb c "(" then split_columns (S depth) (piece +:+ String c "") s
    else if Ascii.eqb c ")" then
      match depth with O => [piece] | S depth => split_columns depth (piece +:+ String c "") s end
    else if Ascii.eqb c "," && (depth =? 0)%nat then piece :: split_columns depth "" s
    else split_columns depth (piece +:+ String c "") s
  end.

Definition column_name (piece : string) : option string :=
  match words_of "" piece with w :: _ => if is_name w then Some w else None | [] => None end.

Definition create_prefix : string := "CREATE TABLE IF NOT EXISTS ".

(** A table and its columns, of a CREATE TABLE statement. *)
Definition parse_table (stmt : string) : option (string * list string) :=
  let stmt := Join (Fields stmt) " " in
  if HasPrefix stmt create_prefix then
    let '(name, body, found) := Cut (TrimPrefix stmt create_prefix) " (" in
    if found then Some (name, omap column_name (split_columns 0 "" body)) else None
  else None.

Definition tables_of (statements : list string) : list (string * list string) := omap parse_table statements.

(** The names a statement uses are those of tables, of their columns, of its aliases
    and the text null. *)
Definition fits (schema : list (string * list string)) (text : string) : bool :=
  let names := names_of text in
  let used := List.filter (λ t, bool_decide (t.1 ∈ names)) schema in
  let known := ["ov"; "latest"; "excluded"; "null"] ++ (used ≫= λ t, t.1 :: t.2) in
  bool_decide (used ≠ []) && forallb (λ n, bool_decide (n ∈ known)) names.

Fixpoint count_char (c : ascii) (s : string) : nat :=
  match s with "" => 0%nat | String d s => ((if Ascii.eqb c d then 1 else 0) + count_char c s)%nat end.

Definition selected (text : string) : nat :=
  if HasPrefix text "SELECT " then length (Split (Cut (str_drop 7 text) " FROM ").1.1 ", ") else 0%nat.

Example text_ex :
  names_of "SELECT ov.bucket FROM object_versions ov WHERE x_1 <> 'null'" = ["ov"; "bucket"; "object_versions"; "ov"; "x_1"; "null"] ∧
  parse_table "CREATE TABLE IF NOT EXISTS t (a VARCHAR(255) PRIMARY KEY, b TEXT, PRIMARY KEY (a, b))" = Some ("t", ["a"; "b"]) ∧
  sqlQuery sqlDialectPostgreSQL "a = ? AND b = ?" = "a = $1 AND b = $2" ∧ selected "SELECT a, b FROM t" = 2%nat.
Proof. vm_compute. split_and!; reflexivity. Qed.

(** ** The texts agree with one another *)

(** A query with its parameters numbered from [n]: the pieces between the question
    marks with the numbers between them. *)
Fixpoint numbered (n : Z) (pieces : list string) : string :=
  match pieces with
  | [] => ""
  | [p] => p
  | p :: pieces => p +:+ "$" +:+ FormatInt n +:+ numbered (n + 1) pieces
  end.

Lemma numbered_cons n p l : l ≠ [] → numbered n (p :: l) = p +:+ "$" +:+ FormatInt n +:+ numbered (n + 1) l.
Proof. by destruct l. Qed.

Lemma Split_nonempty d s : Split s (String d "") ≠ [].
Proof. rewrite Split_unfold. by destruct (Index s (String d "")). Qed.

(** A byte in front of a text goes to its first piece, or separates an empty one. *)
Lemma Split_byte d c s : Split (String c s) (String d "") =
  if Ascii.eqb c d then "" :: Split s (String d "")
  else match Split s (String d "") with p :: l => String c p :: l | [] => [] end.
Proof.
  destruct (Ascii.eqb_spec c d) as [->|Hne].
  - exact (Split_app d "" s eq_refl).
  - rewrite (Split_unfold d (String c s)), (Split_unfold d s), Index_unfold, HasPrefix_cons.
    apply Ascii.eqb_neq in Hne. rewrite Ascii.eqb_sym, Hne. simpl. by destruct (Index s (String d "")) as [i|].
Qed.

Lemma number_parameters_numbered n q : number_parameters n q = numbered n (Split q "?").
Proof.
  revert n. induction q as [|c q IH]; intros n; [done|]. rewrite Split_byte. simpl. destruct (Ascii.eqb c "?").
  - by rewrite numbered_cons, str_app_nil_l, IH by apply Split_nonempty.
  - rewrite IH. pose proof (Split_nonempty "?" q). by destruct (Split q "?") as [|p [|p' l]].
Qed.

(** The columns that [ensureSQLiteColumns] adds are the missing ones, and no others. *)
Lemma ensure_adds_missing table existing columns c : c ∈ columns →
  c.1 ∈ existing ∨ ("ALTER TABLE " +:+ table +:+ " ADD COLUMN " +:+ c.1 +:+ " " +:+ c.2) ∈ ensureSQLiteColumns table existing columns.
Proof.
  intros Hc. destruct (decide (c.1 ∈ existing)) as [|Hn]; [by left|right]. apply list_elem_of_fmap. exists c. split; [done|].
  apply list_elem_of_In, filter_In. split; [by apply list_elem_of_In|]. by rewrite bool_decide_eq_false_2.
Qed.

Lemma ensure_nothing_missing table existing columns : (∀ c, c ∈ columns → c.1 ∈ existing) →
  ensureSQLiteColumns table existing columns = [].
Proof.
  intros Hall. unfold ensureSQLiteColumns. induction columns as [|c l IH]; [done|]. simpl.
  rewrite bool_decide_eq_true_2 by (apply Hall; set_solver). simpl. apply IH. set_solver.
Qed.

Definition q_fits (d : sqlDialect) (q : query) : Prop :=
  fits (tables_of (schemaStatements d)) (sqlQuery d (q_text q)) = true ∧
  sqlQuery d (q_text q) = (if decide (d = sqlDialectPostgreSQL) then numbered 1 (Split (q_text q) "?") else q_text q) ∧
  length (Split (q_text q) "?") = S (q_args q).

Definition q_fitsb (schema : list (string * list string)) (d : sqlDialect) (q : query) : bool :=
  fits schema (sqlQuery d (q_text q)) && (length (Split (q_text q) "?") =? S (q_args q))%nat.

Lemma q_fitsb_sound schema d q : tables_of (schemaStatements d) = schema → q_fitsb schema d q = true → q_fits d q.
Proof.
  intros <- [Hf Hn%Nat.eqb_eq]%andb_prop. split_and!; [done| |done].
  destruct d; simpl; try done. by rewrite number_parameters_numbered.
Qed.

Lemma queries_fit schema d : tables_of (schemaStatements d) = schema →
  forallb (q_fitsb schema d) (raw_queries d) = true → Forall (q_fits d) (raw_queries d).
Proof.
  intros Hs Hall. apply Forall_forall. intros q Hq. apply (q_fitsb_sound schema); [done|].
  rewrite forallb_forall in Hall. by apply Hall, list_elem_of_In.
Qed.

