(* ===== verification/Migrations.v ===== *)
(** * Schema migrations (src/internal/metadata/migrations.go, upgrade.go)

    The plans of migrations by backend, with the SQL they run, and the migrations from
    a version on.  Their tables are compared with the statements of the store. *)
From S2P Require Import Prelude GoStrings StringFacts Model MemoryStore FileSystem Sql Backend SqlText.

(** ** The plans *)
Definition sqlite_init : string := "
CREATE TABLE IF NOT EXISTS buckets (
  name TEXT PRIMARY KEY,
  created_at TEXT NOT NULL
);

CREATE TABLE IF NOT EXISTS object_versions (
  bucket TEXT NOT NULL,
  object_key TEXT NOT NULL,
  version_id TEXT NOT NULL,
  size INTEGER NOT NULL,
  etag TEXT NOT NULL,
  checksum_sha256 TEXT NOT NULL,
  delete_marker INTEGER NOT NULL,
  created_at TEXT NOT NULL,
  PRIMARY KEY (bucket, object_key, version_id)
);

CREATE TABLE IF NOT EXISTS multipart_uploads (
  upload_id TEXT PRIMARY KEY,
  bucket TEXT NOT NULL,
  object_key TEXT NOT NULL,
  sse_algorithm TEXT NOT NULL DEFAULT '',
  initiated_at TEXT NOT NULL
);

CREATE TABLE IF NOT EXISTS multipart_parts (
  upload_id TEXT NOT NULL,
  part_number INTEGER NOT NULL,
  etag TEXT NOT NULL,
  size INTEGER NOT NULL,
  checksum_sha256 TEXT NOT NULL,
  checksum_sha1 TEXT NOT NULL DEFAULT '',
  checksum_crc32 TEXT NOT NULL DEFAULT '',
  checksum_crc32c TEXT NOT NULL DEFAULT '',
  PRIMARY KEY (upload_id, part_number)
);

CREATE TABLE IF NOT EXISTS credential_records (
  access_key_id TEXT PRIMARY KEY,
  secret_hash TEXT NOT NULL,
  status TEXT NOT NULL,
  created_at TEXT NOT NULL,
  rotated_at TEXT
);

CREATE TABLE IF NOT EXISTS bucket_websites (
  bucket TEXT PRIMARY KEY,
  index_document TEXT NOT NULL,
  error_document TEXT NOT NULL,
  redirect_all_host TEXT NOT NULL,
  redirect_all_protocol TEXT NOT NULL,
  enabled INTEGER NOT NULL,
  public_read INTEGER NOT NULL
);

CREATE TABLE IF NOT EXISTS bucket_cors (
  bucket TEXT PRIMARY KEY,
  allowed_origins TEXT NOT NULL,
  allowed_methods TEXT NOT NULL,
  allowed_headers TEXT NOT NULL,
  expose_headers TEXT NOT NULL,
  max_age_seconds INTEGER NOT NULL,
  enabled INTEGER NOT NULL
);

CREATE TABLE IF NOT EXISTS bucket_policies (
  bucket TEXT PRIMARY KEY,
  document TEXT NOT NULL,
  enabled INTEGER NOT NULL
);

CREATE TABLE IF NOT EXISTS bucket_public_access_blocks (
  bucket TEXT PRIMARY KEY,
  block_public_acls INTEGER NOT NULL,
  ignore_public_acls INTEGER NOT NULL,
  block_public_policy INTEGER NOT NULL,
  restrict_public_buckets INTEGER NOT NULL
);

CREATE TABLE IF NOT EXISTS bucket_notifications (
  bucket TEXT PRIMARY KEY,
  document TEXT NOT NULL,
  enabled INTEGER NOT NULL
);

CREATE TABLE IF NOT EXISTS bucket_replications (
  bucket TEXT PRIMARY KEY,
  document TEXT NOT NULL,
  enabled INTEGER NOT NULL
);

CREATE INDEX IF NOT EXISTS idx_object_versions_bucket_key ON object_versions(bucket, object_key);
CREATE INDEX IF NOT EXISTS idx_object_versions_bucket_prefix ON object_versions(bucket, object_key, created_at);
CREATE INDEX IF NOT EXISTS idx_multipart_parts_upload_id ON multipart_parts(upload_id);
".

Definition migrations_sqlite : string := "
CREATE TABLE IF NOT EXISTS schema_migrations (
  version INTEGER PRIMARY KEY,
  name TEXT NOT NULL,
  applied_at TEXT NOT NULL
);
".

Definition postgresql_init : string := "
CREATE TABLE IF NOT EXISTS buckets (
  name TEXT PRIMARY KEY,
  created_at TIMESTAMPTZ NOT NULL
);

CREATE TABLE IF NOT EXISTS object_versions (
  bucket TEXT NOT NULL,
  object_key TEXT NOT NULL,
  version_id TEXT NOT NULL,
  size BIGINT NOT NULL,
  etag TEXT NOT NULL,
  checksum_sha256 TEXT NOT NULL,
  delete_marker BOOLEAN NOT NULL,
  created_at TIMESTAMPTZ NOT NULL,
  PRIMARY KEY (bucket, object_key, version_id)
);

CREATE TABLE IF NOT EXISTS multipart_uploads (
  upload_id TEXT PRIMARY KEY,
  bucket TEXT NOT NULL,
  object_key TEXT NOT NULL,
  sse_algorithm TEXT NOT NULL DEFAULT '',
  initiated_at TIMESTAMPTZ NOT NULL
);

CREATE TABLE IF NOT EXISTS multipart_parts (
  upload_id TEXT NOT NULL,
  part_number INTEGER NOT NULL,
  etag TEXT NOT NULL,
  size BIGINT NOT NULL,
  checksum_sha256 TEXT NOT NULL,
  checksum_sha1 TEXT NOT NULL DEFAULT '',
  checksum_crc32 TEXT NOT NULL DEFAULT '',
  checksum_crc32c TEXT NOT NULL DEFAULT '',
  PRIMARY KEY (upload_id, part_number)
);

CREATE TABLE IF NOT EXISTS credential_records (
  access_key_id TEXT PRIMARY KEY,
  secret_hash TEXT NOT NULL,
  status TEXT NOT NULL,
  created_at TIMESTAMPTZ NOT NULL,
  rotated_at TIMESTAMPTZ
);

CREATE TABLE IF NOT EXISTS bucket_websites (
  bucket TEXT PRIMARY KEY,
  index_document TEXT NOT NULL,
  error_document TEXT NOT NULL,
  redirect_all_host TEXT NOT NULL,
  redirect_all_protocol TEXT NOT NULL,
  enabled BOOLEAN NOT NULL,
  public_read BOOLEAN NOT NULL
);

CREATE TABLE IF NOT EXISTS bucket_cors (
  bucket TEXT PRIMARY KEY,
  allowed_origins TEXT NOT NULL,
  allowed_methods TEXT NOT NULL,
  allowed_headers TEXT NOT NULL,
  expose_headers TEXT NOT NULL,
  max_age_seconds INTEGER NOT NULL,
  enabled BOOLEAN NOT NULL
);

CREATE TABLE IF NOT EXISTS bucket_policies (
  bucket TEXT PRIMARY KEY,
  document TEXT NOT NULL,
  enabled BOOLEAN NOT NULL
);

CREATE TABLE IF NOT EXISTS bucket_public_access_blocks (
  bucket TEXT PRIMARY KEY,
  block_public_acls BOOLEAN NOT NULL,
  ignore_public_acls BOOLEAN NOT NULL,
  block_public_policy BOOLEAN NOT NULL,
  restrict_public_buckets BOOLEAN NOT NULL
);

CREATE TABLE IF NOT EXISTS bucket_notifications (
  bucket TEXT PRIMARY KEY,
  document TEXT NOT NULL,
  enabled BOOLEAN NOT NULL
);

CREATE TABLE IF NOT EXISTS bucket_replications (
  bucket TEXT PRIMARY KEY,
  document TEXT NOT NULL,
  enabled BOOLEAN NOT NULL
);

CREATE INDEX IF NOT EXISTS idx_object_versions_bucket_key ON object_versions(bucket, object_key);
CREATE INDEX IF NOT EXISTS idx_object_versions_bucket_prefix ON object_versions(bucket, object_key, created_at);
CREATE INDEX IF NOT EXISTS idx_multipart_parts_upload_id ON multipart_parts(upload_id);
".

Definition migrations_postgresql : string := "
CREATE TABLE IF NOT EXISTS schema_migrations (
  version INTEGER PRIMARY KEY,
  name TEXT NOT NULL,
  applied_at TIMESTAMPTZ NOT NULL
);
".

Definition mariadb_init : string := "
CREATE TABLE IF NOT EXISTS buckets (
  name VARCHAR(255) PRIMARY KEY,
  created_at DATETIME(6) NOT NULL
);

CREATE TABLE IF NOT EXISTS object_versions (
  bucket VARCHAR(255) NOT NULL,
  object_key VARCHAR(1024) NOT NULL,
  version_id VARCHAR(255) NOT NULL,
  size BIGINT NOT NULL,
  etag VARCHAR(255) NOT NULL,
  checksum_sha256 VARCHAR(128) NOT NULL,
  delete_marker TINYINT(1) NOT NULL,
  created_at DATETIME(6) NOT NULL,
  PRIMARY KEY (bucket, object_key(255), version_id)
);

CREATE TABLE IF NOT EXISTS multipart_uploads (
  upload_id VARCHAR(255) PRIMARY KEY,
  bucket VARCHAR(255) NOT NULL,
  object_key VARCHAR(1024) NOT NULL,
  sse_algorithm VARCHAR(32) NOT NULL DEFAULT '',
  initiated_at DATETIME(6) NOT NULL
);

CREATE TABLE IF NOT EXISTS multipart_parts (
  upload_id VARCHAR(255) NOT NULL,
  part_number INT NOT NULL,
  etag VARCHAR(255) NOT NULL,
  size BIGINT NOT NULL,
  checksum_sha256 VARCHAR(128) NOT NULL,
  checksum_sha1 VARCHAR(128) NOT NULL DEFAULT '',
  checksum_crc32 VARCHAR(128) NOT NULL DEFAULT '',
  checksum_crc32c VARCHAR(128) NOT NULL DEFAULT '',
  PRIMARY KEY (upload_id, part_number)
);

CREATE TABLE IF NOT EXISTS credential_records (
  access_key_id VARCHAR(255) PRIMARY KEY,
  secret_hash VARCHAR(255) NOT NULL,
  status VARCHAR(64) NOT NULL,
  created_at DATETIME(6) NOT NULL,
  rotated_at DATETIME(6) NULL
);

CREATE TABLE IF NOT EXISTS bucket_websites (
  bucket VARCHAR(255) PRIMARY KEY,
  index_document VARCHAR(1024) NOT NULL,
  error_document VARCHAR(1024) NOT NULL,
  redirect_all_host VARCHAR(1024) NOT NULL,
  redirect_all_protocol VARCHAR(32) NOT NULL,
  enabled TINYINT(1) NOT NULL,
  public_read TINYINT(1) NOT NULL
);

CREATE TABLE IF NOT EXISTS bucket_cors (
  bucket VARCHAR(255) PRIMARY KEY,
  allowed_origins TEXT NOT NULL,
  allowed_methods TEXT NOT NULL,
  allowed_headers TEXT NOT NULL,
  expose_headers TEXT NOT NULL,
  max_age_seconds INT NOT NULL,
  enabled TINYINT(1) NOT NULL
);

CREATE TABLE IF NOT EXISTS bucket_policies (
  bucket VARCHAR(255) PRIMARY KEY,
  document LONGTEXT NOT NULL,
  enabled TINYINT(1) NOT NULL
);

CREATE TABLE IF NOT EXISTS bucket_public_access_blocks (
  bucket VARCHAR(255) PRIMARY KEY,
  block_public_acls TINYINT(1) NOT NULL,
  ignore_public_acls TINYINT(1) NOT NULL,
  block_public_policy TINYINT(1) NOT NULL,
  restrict_public_buckets TINYINT(1) NOT NULL
);

CREATE TABLE IF NOT EXISTS bucket_notifications (
  bucket VARCHAR(255) PRIMARY KEY,
  document LONGTEXT NOT NULL,
  enabled TINYINT(1) NOT NULL
);

CREATE TABLE IF NOT EXISTS bucket_replications (
  bucket VARCHAR(255) PRIMARY KEY,
  document LONGTEXT NOT NULL,
  enabled TINYINT(1) NOT NULL
);

CREATE INDEX idx_object_versions_bucket_key ON object_versions(bucket, object_key(255));
CREATE INDEX idx_object_versions_bucket_prefix ON object_versions(bucket, object_key(255), created_at);
CREATE INDEX idx_multipart_parts_upload_id ON multipart_parts(upload_id);
".

Definition migrations_mariadb : string := "
CREATE TABLE IF NOT EXISTS schema_migrations (
  version INT PRIMARY KEY,
  name VARCHAR(255) NOT NULL,
  applied_at DATETIME(6) NOT NULL
);
".

Definition two_migrations (init table : string) : list Migration :=
  [mkMigration 1 "init_schema" init; mkMigration 2 "schema_migrations_table" table].

Definition MigrationPlan (backend : Backend) : result (list Migration) :=
  if String.eqb backend BackendSQLite || String.eqb backend BackendLibSQL then Ok (two_migrations sqlite_init migrations_sqlite)
  else if String.eqb backend BackendPostgreSQL then Ok (two_migrations postgresql_init migrations_postgresql)
  else if String.eqb backend BackendMariaDB then Ok (two_migrations mariadb_init migrations_mariadb)
  else if String.eqb backend BackendValkey then Err (Errorf "backend %q does not support relational migrations" [backend])
  else Err (Errorf "unsupported metadata backend %q" [backend]).

Definition UpgradePath (backend : Backend) (fromVersion : Z) : result (list Migration) :=
  match MigrationPlan backend with
  | Err e => Err e
  | Ok plan =>
    match last plan with
    | None => Err (Errorf "no migration plan for backend %q" [backend])
    | Some latest =>
      if mg_Version latest <? fromVersion
      then Err (Errorf "from version %d is newer than latest %d" [FormatInt fromVersion; FormatInt (mg_Version latest)])
      else Ok (List.filter (λ m, fromVersion <? mg_Version m) plan)
    end
  end.

(** ** What an upgrade runs *)
Lemma plan_has_capability backend :
  is_ok (MigrationPlan backend) = match CapabilityMatrix !! backend with Some c => cap_SupportsMigrations c | None => false end.
Proof.
  destruct (decide (backend ∈ backends)) as [Hb|Hb].
  - unfold backends in Hb. rewrite !elem_of_cons, elem_of_nil in Hb. by destruct_or! Hb; subst; vm_compute.
  - assert (CapabilityMatrix !! backend = None) as ->.
    { apply eq_None_not_Some. by rewrite <- known_backends_have_capabilities. }
    unfold MigrationPlan, backends in *. rewrite !not_elem_of_cons in Hb. destruct Hb as (?&?&?&?&?&_).
    by repeat match goal with |- context [String.eqb ?x ?y] => destruct (String.eqb_spec x y); [done|] end.
Qed.

Lemma plan_of backend plan : MigrationPlan backend = Ok plan →
  ∃ init table, plan = two_migrations init table.
Proof. unfold MigrationPlan. intros E. repeat case_match; simplify_eq; eauto. Qed.

(** An upgrade from a version up to the latest one runs the migrations after that
    version in the order of their numbers; done in two steps it runs the same
    migrations as in one.  A backend has a path exactly when its capabilities say that
    it supports migrations. *)
Theorem upgrade_in_steps backend from mid plan :
  UpgradePath backend from = Ok plan → from ≤ mid ≤ 2 →
  ∃ first rest, UpgradePath backend mid = Ok rest ∧ plan = first ++ rest ∧
    Forall (λ m, from < mg_Version m ≤ mid) first ∧ Forall (λ m, mid < mg_Version m ≤ 2) rest ∧
    StronglySorted (λ m m', mg_Version m < mg_Version m') plan ∧
    ∃ c, CapabilityMatrix !! backend = Some c ∧ cap_SupportsMigrations c = true.
Proof.
  intros Hp Hmid. pose proof (plan_has_capability backend) as Hc. unfold UpgradePath in *.
  destruct (MigrationPlan backend) as [all|e] eqn:Ep; [|discriminate]. destruct (plan_of _ _ Ep) as (init & table & ->).
  assert (Hcap : ∃ c, CapabilityMatrix !! backend = Some c ∧ cap_SupportsMigrations c = true).
  { destruct (CapabilityMatrix !! backend) as [c|]; [by exists c|done]. }
  simpl in Hp |- *. destruct (Z.ltb_spec 2 from), (Z.ltb_spec 2 mid); try lia. injection Hp as <-.
  exists (List.filter (λ m, (from <? mg_Version m) && (mg_Version m <=? mid)) (two_migrations init table)),
    (List.filter (λ m, mid <? mg_Version m) (two_migrations init table)).
  split; [done|]. unfold two_migrations. simpl.
  destruct (Z.ltb_spec from 1), (Z.ltb_spec from 2), (Z.ltb_spec mid 1), (Z.ltb_spec mid 2),
    (Z.leb_spec 1 mid), (Z.leb_spec 2 mid); try lia; simpl; split_and!; try done; repeat constructor; simpl; lia.
Qed.

Lemma upgrade_in_steps_witness :
  let all := two_migrations postgresql_init migrations_postgresql in
  ∃ first rest, UpgradePath BackendPostgreSQL 1 = Ok rest ∧ all = first ++ rest ∧
    Forall (λ m, 0 < mg_Version m ≤ 1) first ∧ Forall (λ m, 1 < mg_Version m ≤ 2) rest ∧
    StronglySorted (λ m m', mg_Version m < mg_Version m') all ∧
    ∃ c, CapabilityMatrix !! BackendPostgreSQL = Some c ∧ cap_SupportsMigrations c = true.
Proof. intros all. apply (upgrade_in_steps BackendPostgreSQL 0 1 all); [reflexivity|lia]. Defined.

(** ** The plans and the store *)
Definition plan_tables (plan : list Migration) : list (string * list string) :=
  tables_of (plan ≫= λ m, Split (mg_UpSQL m) ";").

(** The columns a table of the plan has once the store has asked for the missing ones. *)
Definition with_ensured (t : string * list string) : string * list string :=
  (t.1, t.2 ++ (ensured_columns ≫= λ e, if String.eqb e.1 t.1 then List.filter (λ n, negb (bool_decide (n ∈ t.2))) (fst <$> e.2) else [])).

(** A database made by the plan cannot be written by the store, even after it has asked
    for the columns it knows to be missing: storage_path and metadata_json of the
    versions are in no plan, nor is the table of lifecycles. *)
Example migrated_tables_misfit :
  fits (with_ensured <$> plan_tables (two_migrations sqlite_init migrations_sqlite)) (q_text q_PutObjectVersion) = false ∧
  fits (plan_tables (two_migrations postgresql_init migrations_postgresql)) (q_text q_PutObjectVersion) = false ∧
  fits (plan_tables (two_migrations mariadb_init migrations_mariadb)) (q_text q_PutObjectVersion) = false ∧
  bool_decide ("bucket_lifecycles" ∈ fst <$> plan_tables (two_migrations sqlite_init migrations_sqlite)) = false ∧
  fits (with_ensured <$> plan_tables (two_migrations sqlite_init migrations_sqlite)) (q_text q_GetBucket) = true.
Proof. vm_compute. split_and!; reflexivity. Qed.
