(* ===== verification/Persisters.v ===== *)
(** * Where the memory-backed store keeps its state (src/internal/metadata/persister.go)

    The state as one JSON document: in a file that is replaced by renaming, in a row of
    a table, or under a key of Valkey.  Calls of the system, the database and the
    client may fail by a schedule; the file's may also stop the process.  Each is an
    instance of the interface [StatePersister] of MemoryStore.v with its law. *)
From S2P Require Import Prelude GoStrings Model MemoryStore MemoryStoreFacts MemoryStoreProps FileSystem Blob BlobFacts Listing Backend.

(** What the next start of the program finds: its own calls do not fail. *)
Definition restarted (w : world) : world := mkWorld (fs_files w) (fs_dirs w) (fs_mtimes w) [] false (fs_clock w).

Section persisters.
Context `{!TempNames} `{!JsonCodec persistedState}.

Definition decoded (what bytes : string) : result (option persistedState) :=
  match json_Unmarshal bytes with
  | Some ps => Ok (Some ps)
  | None => Err (Errorf ("decode " +:+ what +:+ ": %w") [])
  end.

(** ** A file *)
Record fileStatePersister := mkFilePersister {
  fp_path : string;
  fp_world : world;
}.

Definition file_Load (path : string) : M world (option persistedState) :=
  res ← try (os_ReadFile (filepath_Clean path));
  match res with
  | Err e => if bool_decide (e = ErrNotExist) then mret None else throw e
  | Ok bytes => lift (decoded "persisted state" bytes)
  end.

Definition file_Save (path : string) (state : persistedState) : M world unit :=
  let dir := filepath_Dir path in
  guard_io (os_MkdirAll dir) no_cleanup "create metadata directory: %w" ;;
  tmpPath ← guard_io (os_CreateTemp dir) no_cleanup "create metadata temp file: %w";
  guard_io (os_WriteFile tmpPath (json_Marshal state)) (ignore os_Close ;; os_Remove tmpPath) "write metadata temp file: %w" ;;
  guard_io os_Close (os_Remove tmpPath) "close metadata temp file: %w" ;;
  guard_io (os_Rename tmpPath (filepath_Clean path)) (os_Remove tmpPath) "commit metadata file: %w".

#[export] Instance file_persister : StatePersister fileStatePersister := {|
  Load p := (file_Load (fp_path p) (restarted (fp_world p))).2;
  Save state p :=
    let '(w, r) := file_Save (fp_path p) state (fp_world p) in
    (mkFilePersister (fp_path p) w, match r with Ok _ => None | Err e => Some e end);
|}.

(** ** A row of a table

    [sp_once] is the outcome of CREATE TABLE, run once by [sync.Once]; a statement
    fails when the schedule has an error for it. *)
Record sqlStatePersister := mkSQLPersister {
  sp_row : option string;
  sp_once : option (option error);
  sp_faults : list (option error);
}.

Definition sp_statement {A} (f : option string → option string * result A) : M sqlStatePersister A := λ p,
  match sp_faults p with
  | Some e :: faults => (mkSQLPersister (sp_row p) (sp_once p) faults, Err e)
  | _ => let '(row, r) := f (sp_row p) in (mkSQLPersister row (sp_once p) (tail (sp_faults p)), r)
  end.

Definition ensureTable : M sqlStatePersister unit := λ p,
  match sp_once p with
  | Some None => (p, Ok tt)
  | Some (Some e) => (p, Err e)
  | None =>
    let '(p, r) := sp_statement (λ row, (row, Ok tt)) p in
    (mkSQLPersister (sp_row p) (Some match r with Ok _ => None | Err e => Some e end) (sp_faults p), r)
  end.

Definition sqlState_Load : M sqlStatePersister (option persistedState) :=
  guard_io ensureTable no_cleanup "ensure metadata state table: %w" ;;
  row ← sp_statement (λ row, (row, Ok row));
  match row with None => mret None | Some payload => lift (decoded "sql metadata state" payload) end.

(** [BeginTx], DELETE, INSERT and [Commit]; without the commit the row stays. *)
Definition sqlState_Save (state : persistedState) : M sqlStatePersister unit :=
  guard_io ensureTable no_cleanup "ensure metadata state table: %w" ;;
  sp_statement (λ row, (row, Ok tt)) ;;
  sp_statement (λ row, (row, Ok tt)) ;;
  sp_statement (λ row, (row, Ok tt)) ;;
  sp_statement (λ _, (Some (json_Marshal state), Ok tt)).

#[export] Instance sql_persister : StatePersister sqlStatePersister := {|
  Load p := (sqlState_Load (mkSQLPersister (sp_row p) None [])).2;
  Save state p :=
    let '(p, r) := sqlState_Save state p in (p, match r with Ok _ => None | Err e => Some e end);
|}.

(** ** A key of Valkey *)
Record valkeyStatePersister := mkValkeyPersister {
  vp_value : option string;
  vp_faults : list (option error);
}.

Definition vp_command {A} (f : option string → option string * result A) : M valkeyStatePersister A := λ p,
  match vp_faults p with
  | Some e :: faults => (mkValkeyPersister (vp_value p) faults, Err e)
  | _ => let '(v, r) := f (vp_value p) in (mkValkeyPersister v (tail (vp_faults p)), r)
  end.

Definition valkey_Load : M valkeyStatePersister (option persistedState) :=
  v ← vp_command (λ v, (v, Ok v));
  match v with None => mret None | Some payload => lift (decoded "valkey metadata state" payload) end.

Definition valkey_Save (state : persistedState) : M valkeyStatePersister unit :=
  vp_command (λ _, (Some (json_Marshal state), Ok tt)).

#[export] Instance valkey_persister : StatePersister valkeyStatePersister := {|
  Load p := (valkey_Load (mkValkeyPersister (vp_value p) [])).2;
  Save state p :=
    let '(p, r) := valkey_Save state p in (p, match r with Ok _ => None | Err e => Some e end);
|}.

(** ** What a save leaves *)
Section file.
Variable path : string.
Let final := filepath_Clean path.
Let dir := filepath_Dir path.

(** No file but the temporary one has changed. *)
Definition only_temp (F0 F : files) : Prop := F = F0 ∨ ∃ x, F = <[temp_name dir (dom F0) := x]> F0.

Lemma temp_absent (F0 : files) : F0 !! temp_name dir (dom F0) = None.
Proof. apply not_elem_of_dom, temp_name_fresh. Qed.

Lemma remove_temp x F0 :
  fhoare (λ F, F = <[temp_name dir (dom F0) := x]> F0) (os_Remove (temp_name dir (dom F0))) (λ _ F, only_temp F0 F).
Proof.
  apply (fhoare_fault (λ F, F = <[temp_name dir (dom F0) := x]> F0) _ (λ _ F, only_temp F0 F)); [|intros e F ->; right; eauto].
  intros w Hw. simpl. unfold mbind, M_bind, get. rewrite Hw, lookup_insert_eq. simpl. left.
  apply delete_insert_id, temp_absent.
Qed.

Section save.
Variable F0 : files.
Let tmp := temp_name dir (dom F0).

Lemma clean_temp x : fhoare (λ F, F = <[tmp := x]> F0) (os_Remove tmp) (λ _ F, ∀ e : error, only_temp F0 F).
Proof. eapply hoare_conseq; [apply (remove_temp x F0)|done|]. intros r w Hw e. exact Hw. Qed.

Lemma mkdir_step : fhoare (λ F, F = F0) (guard_io (os_MkdirAll dir) no_cleanup "create metadata directory: %w") (λ _ F, F = F0).
Proof.
  apply (fhoare_guard_silent (λ F, F = F0) _ _ _ (λ _ F, F = F0)); [apply silent_MkdirAll|done|].
  eapply hoare_conseq; [apply (silent_fhoare _ (λ F, F = F0)), silent_no_cleanup|done|]. by intros r w Hw e.
Qed.

Lemma temp_step : fhoare (λ F, F = F0) (guard_io (os_CreateTemp dir) no_cleanup "create metadata temp file: %w")
  (λ r F, match r with Ok t => t = tmp ∧ F = <[tmp := ""]> F0 | Err _ => F = F0 end).
Proof.
  apply (hoare_guard _ _ _ _ (λ r w, match r with Ok t => t = tmp ∧ fs_files w = <[tmp := ""]> F0 | Err _ => fs_files w = F0 end)); [|done|].
  - apply (hoare_bind _ _ _ (λ _ w, fs_files w = F0)); [apply (silent_fhoare _ (λ F, F = F0)), silent_fault_point| |done].
    intros _ w Hw. simpl. unfold mbind, M_bind, get. case_bool_decide; simpl; [|done]. by rewrite Hw.
  - intros e. eapply hoare_conseq; [apply (silent_fhoare _ (λ F, F = F0)), silent_no_cleanup|done|]. by intros r w Hw e'.
Qed.

Lemma write_step content :
  fhoare (λ F, F = <[tmp := ""]> F0) (guard_io (os_WriteFile tmp content) (ignore os_Close ;; os_Remove tmp) "write metadata temp file: %w")
  (λ r F, match r with Ok _ => F = <[tmp := content]> F0 | Err _ => only_temp F0 F end).
Proof.
  apply (hoare_guard _ _ _ _ (λ r w, match r with Ok _ => fs_files w = <[tmp := content]> F0 | Err _ => fs_files w = <[tmp := ""]> F0 end)); [|done|].
  - apply (fhoare_fault (λ F, F = <[tmp := ""]> F0) _ (λ r F, match r with
      | Ok _ => F = <[tmp := content]> F0 | Err _ => F = <[tmp := ""]> F0 end)); [|done].
    intros w Hw. simpl. by rewrite Hw, insert_insert_eq.
  - intros e. apply (hoare_bind _ _ _ (λ _ w, fs_files w = <[tmp := ""]> F0)); [|intros _; apply clean_temp|].
    + apply (silent_fhoare _ (λ F, F = <[tmp := ""]> F0)). unfold os_Close. auto with silent.
    + intros e' w Hw e2. right. eauto.
Qed.

Lemma close_step content :
  fhoare (λ F, F = <[tmp := content]> F0) (guard_io os_Close (os_Remove tmp) "close metadata temp file: %w")
  (λ r F, match r with Ok _ => F = <[tmp := content]> F0 | Err _ => only_temp F0 F end).
Proof.
  apply (fhoare_guard_silent (λ F, F = <[tmp := content]> F0) _ _ _ (λ r F,
    match r with Ok _ => F = <[tmp := content]> F0 | Err _ => only_temp F0 F end));
    [apply silent_fault_point|done|apply clean_temp].
Qed.

Lemma rename_step content :
  fhoare (λ F, F = <[tmp := content]> F0) (guard_io (os_Rename tmp final) (os_Remove tmp) "commit metadata file: %w")
  (λ r F, match r with Ok _ => F = <[final := content]> F0 | Err _ => only_temp F0 F end).
Proof.
  apply (hoare_guard _ _ _ _ (λ r w, match r with Ok _ => fs_files w = <[final := content]> F0 | Err _ => fs_files w = <[tmp := content]> F0 end));
    [|done|intros e; apply clean_temp].
  apply (fhoare_fault (λ F, F = <[tmp := content]> F0) _ (λ r F, match r with
    | Ok _ => F = <[final := content]> F0 | Err _ => F = <[tmp := content]> F0 end)); [|done].
  intros w Hw. simpl. unfold mbind, M_bind, get. rewrite Hw, lookup_insert_eq. case_bool_decide; simpl; [|done].
  by rewrite delete_insert_id by apply temp_absent.
Qed.

Lemma file_Save_files state : fhoare (λ F, F = F0) (file_Save path state) (λ r F,
  match r with Ok _ => F = <[final := json_Marshal state]> F0 | Err _ => only_temp F0 F end).
Proof.
  eapply fhoare_bind; [exact mkdir_step|intros []|intros e F ->; by left].
  eapply fhoare_bind; [exact temp_step|intros t|intros e F ->; by left]. apply fhoare_pure. intros Ht. rewrite Ht.
  eapply fhoare_bind; [apply write_step|intros []|done].
  eapply fhoare_bind; [apply close_step|intros []; apply rename_step|done].
Qed.
End save.

(** A restart reads the file at the final path and nothing else. *)
Definition read_back (content : option string) : result (option persistedState) :=
  match content with Some bytes => decoded "persisted state" bytes | None => Ok None end.

Lemma file_Load_restarted w : (file_Load path (restarted w)).2 = read_back (fs_files w !! final).
Proof.
  unfold file_Load, os_ReadFile. fold final. simpl. unfold try, mbind, M_bind, gets. simpl.
  destruct (fs_files w !! final) as [bytes|]; simpl; [|done].
  unfold lift, gets. by destruct (decoded _ _).
Qed.

Lemma only_temp_final F0 F : (∀ used, temp_name dir used ≠ final) → only_temp F0 F → F !! final = F0 !! final.
Proof. intros Hne [->|(x & ->)]; [done|]. by rewrite lookup_insert_ne. Qed.
End file.

(** ** What a persister promises about a save, failed or not *)
Class AtomicPersister (P : Type) `{!StatePersister P} := {
  persister_ok : P → Prop;
  Save_kept st p : persister_ok p → persister_ok (Save st p).1;
  Save_failed st p p' e : persister_ok p → Save st p = (p', Some e) → Load p' = Load p;
  Save_succeeded st p p' : persister_ok p → json_representable st → Save st p = (p', None) → Load p' = Ok (Some st);
}.

(** The temporary files of the directory have other names than the state's. *)
Definition path_apart (path : string) : Prop :=
  ∀ used, temp_name (filepath_Dir path) used ≠ filepath_Clean path.

Lemma decoded_marshal what st : json_representable st → decoded what (json_Marshal st) = Ok (Some st).
Proof. intros Hr. unfold decoded. by rewrite json_round_trip. Qed.

Lemma file_Save_outcome path st w :
  match file_Save path st w with
  | (w', Ok _) => fs_files w' !! filepath_Clean path = Some (json_Marshal st)
  | (w', Err _) => path_apart path → fs_files w' !! filepath_Clean path = fs_files w !! filepath_Clean path
  end.
Proof.
  pose proof (file_Save_files path (fs_files w) st w eq_refl) as Hf.
  destruct (file_Save path st w) as [w' [u|e]]; simpl in Hf.
  - rewrite Hf. apply lookup_insert_eq.
  - intros Ha. by apply only_temp_final in Hf.
Qed.

#[export] Instance file_atomic : AtomicPersister fileStatePersister.
Proof.
  refine {| persister_ok p := path_apart (fp_path p) |}.
  - intros st p Hp. simpl. by destruct (file_Save _ _ _).
  - intros st p p' e Hp Hs. simpl in *. pose proof (file_Save_outcome (fp_path p) st (fp_world p)) as Ho.
    destruct (file_Save _ _ _) as [w' [u|e']]; simplify_eq/=. rewrite !file_Load_restarted. by rewrite Ho.
  - intros st p p' Hp Hr Hs. simpl in *. pose proof (file_Save_outcome (fp_path p) st (fp_world p)) as Ho.
    destruct (file_Save _ _ _) as [w' [u|e']]; simplify_eq/=. rewrite file_Load_restarted, Ho. by apply decoded_marshal.
Defined.

Lemma sqlState_Load_row p :
  Load p = match sp_row p with None => Ok None | Some payload => decoded "sql metadata state" payload end.
Proof. simpl. unfold sqlState_Load. destruct (sp_row p); simpl; [|done]. unfold mbind, M_bind; simpl. unfold lift, gets. by destruct (decoded _ _). Qed.

Definition row_outcome (st : persistedState) (p : sqlStatePersister) (r : sqlStatePersister * result unit) : Prop :=
  match r with
  | (p', Ok _) => sp_row p' = Some (json_Marshal st)
  | (p', Err _) => sp_row p' = sp_row p
  end.

Lemma sqlState_Save_outcome st p : row_outcome st p (sqlState_Save st p).
Proof.
  destruct p as [row once faults]. unfold sqlState_Save, guard_io, ensureTable, try, mbind, M_bind.
  destruct once as [[e|]|]; simpl; [done| |];
    repeat (unfold sp_statement; simpl; destruct faults as [|[?|] faults]; simpl; try done).
Qed.

#[export] Instance sql_atomic : AtomicPersister sqlStatePersister.
Proof.
  refine {| persister_ok p := True |}; [done| |].
  - intros st p p' e _ Hs. rewrite !sqlState_Load_row. simpl in Hs. pose proof (sqlState_Save_outcome st p) as Ho.
    destruct (sqlState_Save st p) as [p1 [u|e']]; simplify_eq/=. by rewrite Ho.
  - intros st p p' _ Hr Hs. rewrite sqlState_Load_row. simpl in Hs. pose proof (sqlState_Save_outcome st p) as Ho.
    destruct (sqlState_Save st p) as [p1 [u|e']]; simplify_eq/=. rewrite Ho. by apply decoded_marshal.
Defined.

Lemma valkey_Load_value p :
  Load p = match vp_value p with None => Ok None | Some payload => decoded "valkey metadata state" payload end.
Proof. simpl. unfold valkey_Load. destruct (vp_value p); simpl; [|done]. unfold mbind, M_bind; simpl. unfold lift, gets. by destruct (decoded _ _). Qed.

#[export] Instance valkey_atomic : AtomicPersister valkeyStatePersister.
Proof.
  refine {| persister_ok p := True |}; [done| |]; intros st [v [|[e0|] faults]] p'.
  all: simpl; intros; simplify_eq; rewrite ?valkey_Load_value; simpl; try done; by apply decoded_marshal.
Defined.

(** ** The store over such a persister *)
Section store.
Context `{!GoRuntime} {P : Type} `{!StatePersister P} `{!AtomicPersister P}.
Implicit Types s : memoryBackedStore P.

Lemma reopened_same p p' label st :
  Load p' = Load p → newMemoryBackedStore (Some p) label = Ok (mkStore (Some p) st) →
  newMemoryBackedStore (Some p') label = Ok (mkStore (Some p') st).
Proof. unfold newMemoryBackedStore. intros ->. destruct (Load p) as [[ps|]|e]; intros ?; by simplify_eq/=. Qed.

Lemma persistLocked_saved s p s' :
  wf_store s → ms_persister s = Some p → persister_ok p → json_representable (snapshotState (ms_st s)) →
  persistLocked s = (s', Ok tt) → synced s'.
Proof.
  intros Hwf Hp Hok Hr. unfold persistLocked. rewrite Hp. destruct (Save _ p) as [p' [e|]] eqn:E; [done|].
  intros ?; simplify_eq/=. unfold synced, newMemoryBackedStore. simpl. rewrite (Save_succeeded _ _ _ Hok Hr E).
  by rewrite apply_snapshot_same.
Qed.

Lemma persistLocked_failed s p s' e :
  ms_persister s = Some p → persister_ok p → persistLocked s = (s', Err e) →
  ∃ p', ms_persister s' = Some p' ∧ Load p' = Load p.
Proof.
  intros Hp Hok. unfold persistLocked. rewrite Hp. destruct (Save _ p) as [p' [e'|]] eqn:E; [|done].
  intros ?; simplify_eq/=. eauto using Save_failed.
Qed.

Lemma persistLocked_same_state s s' r : persistLocked s = (s', r) → ms_st s' = ms_st s.
Proof. unfold persistLocked. destruct (ms_persister s) as [p|]; [destruct (Save _ p)|]; intros ?; by simplify_eq/=. Qed.

End store.
End persisters.

(** ** Evaluation on a file *)
Section witnesses.
#[local] Existing Instance go_runtime_ref.
#[local] Existing Instance ex_temp_names.

Definition ex_created : store_op := OpTx (TxCreateBucket ex_bucket).
Definition ex_after : memoryState := (createBucket ex_bucket (emptyState "sqlite")).1.

Definition ex_state_codec : JsonCodec persistedState.
Proof.
  refine {| json_Marshal _ := "{}"; json_Unmarshal _ := Some (snapshotState ex_after);
    json_representable st := st = snapshotState ex_after |}; [done|by intros ? ->].
Defined.
#[local] Existing Instance ex_state_codec.

(** A store on /var/s000/metadata.json, and the faults its first save meets. *)
Definition ex_file_store (faults : list fault) : memoryBackedStore fileStatePersister :=
  mkStore (Some (mkFilePersister "/var/s000/metadata.json" (mkWorld ∅ ∅ ∅ faults false 0))) (emptyState "sqlite").

Definition rename_fails : list fault := [NoFault; NoFault; NoFault; NoFault; Fault (Errorf "input/output error" [])].

Lemma ex_path_apart : path_apart "/var/s000/metadata.json".
Proof.
  intros used. unfold temp_name, ex_temp_names, ex_temp_name.
  change (filepath_Dir "/var/s000/metadata.json") with "/var/s000".
  change (filepath_Clean "/var/s000/metadata.json") with "/var/s000/metadata.json".
  destruct (set_fold _ _ _); discriminate.
Qed.

End witnesses.
