(* ===== verification/S3Props.v ===== *)
(** * What the S3 API promises: objects

    Every request is answered; what is put is what is got, in plain and encrypted
    form, whole and in ranges; a write leaves other versions alone; locked versions
    are kept by the requests that check them; a delete marker hides and reveals. *)
From S2P Require Import Prelude GoStrings StringFacts Base64 Model MemoryStore MemoryStoreFacts.
From S2P Require Import MemoryStoreProps FileSystem Blob BlobFacts Listing Http AwsChunked Sse.
From S2P Require Import S3State S3Object S3Events S3Bucket S3ObjectOps S3Multipart.
From S2P Require Import S3Router S3Facts S3Frames S3Reading S3Examples.

Section s3.
Context `{!GoRuntime} `{!TimeFormats} `{!RequestCodecs} `{!Randomness}.
Context `{!JsonCodec listV2ContinuationToken} `{!Hashes} `{!TempNames} `{!BlockCipher}.
Context {P : Type} `{!StatePersister P}.
Abbreviation HM := (M (s3_state P)).
Variable a : s3API.

(** C8: every request is answered: for every request, state, schedule of faults and
    outcome of the persister, the handler returns and a status has been written. *)
Theorem every_request_answered r (s : s3_state P) :
  (∃ u, eval (ServeHTTP a r) s = Ok u) ∧ is_Some (status (exec (ServeHTTP a r) s)).
Proof.
  assert (answers (ServeHTTP a r : HM unit)) as Ha; [|apply Ha].
  unfold ServeHTTP, handleListBuckets. repeat case_match; try (answer; fail).
  - apply answers_bucket_request.
  - apply answers_object_request.
Qed.

(** C1: what is put is what is got: after a PUT that was answered 200, in a world
    where calls no longer fail, a GET of the key without preconditions is answered
    with the bytes of the PUT's (decoded) body: all of them without a range, the
    section for a range inside the object (206), and 416 for any other range; the
    same for plain and for encrypted objects.  (A GET of an empty object without a
    range delivers nothing.) *)
Theorem put_then_get_object r r2 b k (s : s3_state P) :
  let content := rd_bytes (requestObjectBody r) in
  let s1 := serve (handlePutObject a r b k) s in
  roots_apart (api_blob a) → in_int64 (str_len content) →
  status s1 = Some StatusOK → healthy (s3_world s1) → plain_get r2 →
  get_answers r2 content (serve (handleGetObject a r2 b k false) s1).
Proof.
  intros content s1 Hr Hi Hput Hh Hg.
  destruct (handlePutObject_ok a r b k (fresh s) eq_refl Hput) as (bkt & vid & enc & m & []).
  fold (serve (handlePutObject a r b k) s) in pe_wrote, pe_stored. fold s1 in pe_wrote, pe_stored.
  set (v := object_of_blob b k vid (om_MD5Hex m) _ m) in *.
  destruct (wrote_spec a _ _ _ _ _ _ Hr pe_wrote) as (_ & Hf & at_ & Hm).
  apply (get_held a r2 b k (mkObjectRef b k vid) enc content v); [done..| | | | | |done].
  - pose proof (PutObjectVersion_spec (s3_store (fresh s)) v) as [E _].
    unfold exec in E. by rewrite pe_stored in E.
  - done.
  - by eapply markSSE_uses.
  - unfold v. by rewrite Hm.
  - unfold v. by rewrite Hm.
Qed.

(** C7: a write touches one version: whatever calls fail, wherever the process
    stops and whatever is answered, PUT, copy and multipart completion leave the
    file of every other object version and the metadata of every other version as
    they were.  The version written is the null version unless the bucket has
    versioning enabled, and then one whose id starts with the current time. *)
Theorem writes_touch_one_version r b k u (s : s3_state P) h :
  roots_apart (api_blob a) → staging_apart (api_blob a) →
  h ∈ [handlePutObject a r b k; handleCopyObject a r b k; handleCompleteMultipartUpload a r b k u] →
  ∃ vid, write_id_ok b s vid ∧ others_kept a (mkObjectRef b k vid) s (exec h s).
Proof.
  intros Hr Hs Hh. rewrite !elem_of_cons, elem_of_nil in Hh. destruct Hh as [->|[->|[->|[]]]].
  - by apply put_frames.
  - by apply copy_frames.
  - by apply complete_frames.
Qed.

(** The null version of the key is under retention or legal hold. *)
Definition null_locked (b k : string) (s : s3_state P) : Prop :=
  (∃ bkt, GetBucket b (s3_store s) = Ok bkt ∧ b_VersioningStatus bkt ≠ "Enabled") ∧
  ∃ obj, GetObjectVersion b k "null" (s3_store s) = Ok obj ∧
    objectLocked obj (fs_clock (s3_world s)) = true.

Definition null_lockedb (b k : string) (s : s3_state P) : bool :=
  match GetBucket b (s3_store s), GetObjectVersion b k "null" (s3_store s) with
  | Ok bkt, Ok obj => negb (String.eqb (b_VersioningStatus bkt) "Enabled") &&
                      objectLocked obj (fs_clock (s3_world s))
  | _, _ => false
  end.

Lemma null_lockedb_sound b k s : null_lockedb b k s = true → null_locked b k s.
Proof.
  unfold null_lockedb, null_locked. destruct (GetBucket _ _) as [bkt|]; [|done].
  destruct (GetObjectVersion _ _ _ _) as [obj|]; [|done].
  intros [Hb%negb_true_iff%String.eqb_neq Ho]%andb_true_iff. eauto 7.
Qed.

Lemma locked_data b k (s s' : s3_state P) : same_data s s' → null_locked b k s → null_locked b k s'.
Proof. unfold null_locked. intros [-> ->]. done. Qed.

(** The common part of the writes, from the bucket on. *)
Lemma locked_refused r b k (f : Bucket → string → HM unit) (s : s3_state P) :
  null_locked b k s →
  let s' := exec (with_bucket r b (λ bkt, vid ← write_versionID bkt;
    locked ← overwrite_locked b k vid;
    if (locked : bool) then writeObjectLockedError r else f bkt vid)) s in
  same_data s s' ∧ (status s = None → status s' = Some StatusForbidden).
Proof.
  intros [(bkt & Hb & Hv) (obj & Ho & Hl)]. unfold with_bucket. cbv zeta. rewrite exec_query, Hb.
  apply String.eqb_neq in Hv. unfold write_versionID. rewrite Hv.
  rewrite (exec_bind_eq (mret "null") _ s s "null") by done.
  rewrite (exec_bind_eq (overwrite_locked b k "null") _ s s true).
  - split; [done|]. intros Hs. unfold writeObjectLockedError.
    by rewrite (proj1 (status_writeS3Error r _ s Hs)).
  - unfold overwrite_locked, mbind, M_bind, query_store, s3_now, mret, M_ret. simpl. by rewrite Ho, Hl.
Qed.


Lemma remove_first_find (p : ObjectVersion → bool) l x :
  List.find p l = Some x → ∃ l', remove_first p l = Some (x, l').
Proof.
  induction l as [|y l IH]; simpl; [done|]. destruct (p y); [intros [= ->]; eauto|].
  intros Hx. destruct (IH Hx) as [l' ->]. by eexists.
Qed.

Lemma DeleteObjectVersion_removed b k id obj (st : memoryBackedStore P) v :
  id ≠ "" → GetObjectVersion b k id st = Ok obj → eval (DeleteObjectVersion b k id) st = Ok v → v = obj.
Proof.
  intros Hid Ho. unfold GetObjectVersion in Ho. apply String.eqb_neq in Hid. rewrite Hid in Ho.
  destruct (List.find _ _) as [x|] eqn:E; [|done]. injection Ho as ->.
  apply remove_first_find in E as [l' E].
  unfold DeleteObjectVersion, eval, mbind, M_bind, on_st, locked_DeleteObjectVersion. rewrite E.
  destruct l'; simpl; unfold persistLocked; simpl; destruct (ms_persister st) as [p|];
    try (destruct (Save _ p) as [? []]); unfold mret, M_ret; simpl; congruence.
Qed.

(** The blob of a removed version goes unless it is a delete marker. *)
Lemma removed_blob_run obj (s : s3_state P) :
  ∃ s1, (if ov_DeleteMarker obj then mret tt else delete_blob a (version_ref obj)) s = (s1, Ok tt) ∧
    s3_store s1 = s3_store s ∧ s3_resp s1 = s3_resp s ∧ others_kept a (version_ref obj) s s1.
Proof.
  destruct (ov_DeleteMarker obj); [by eexists|].
  pose proof (frames_delete_blob (P:=P) a (version_ref obj) s) as Hf.
  unfold delete_blob, mbind, M_bind, on_blob in *.
  destruct (blob_DeleteObject _ _ _ _) as [w' res]. eexists. split; [reflexivity|]. done.
Qed.

(** C14: a locked version is not deleted by its id: DELETE with the id of a version
    under retention or legal hold is answered 403 and changes neither the metadata
    store nor any file; without a lock the metadata store is that after
    [DeleteObjectVersion], no other object's file is touched, and the answer is 204
    unless the persister fails. *)
Theorem delete_version_respects_lock r b k id obj (s : s3_state P) :
  query_get (rq_Query r) "versionId" = id → id ≠ "" →
  is_ok (GetBucket b (s3_store s)) = true →
  GetObjectVersion b k id (s3_store s) = Ok obj →
  let s' := serve (handleDeleteObject a r b k) s in
  if objectLocked obj (fs_clock (s3_world s))
  then status s' = Some StatusForbidden ∧ same_data s s'
  else s3_store s' = exec (DeleteObjectVersion b k id) (s3_store s) ∧
       (∀ ref', ObjectPath (api_blob a) ref' ≠ ObjectPath (api_blob a) (version_ref obj) →
          fs_files (s3_world s') !! ObjectPath (api_blob a) ref' =
          fs_files (s3_world s) !! ObjectPath (api_blob a) ref') ∧
       (is_ok (eval (DeleteObjectVersion b k id) (s3_store s)) = true →
        status s' = Some StatusNoContent).
Proof.
  intros Hq Hid Hb Ho s'. subst s'. unfold serve, handleDeleteObject. rewrite exec_query.
  change (s3_store (fresh s)) with (s3_store s). destruct (GetBucket b (s3_store s)) as [bkt|]; [|done].
  cbv zeta. rewrite Hq. apply String.eqb_neq in Hid as Hid'. rewrite Hid'. cbn [negb].
  unfold delete_one_version. rewrite exec_query. change (s3_store (fresh s)) with (s3_store s). rewrite Ho.
  rewrite (exec_bind_eq s3_now _ (fresh s) (fresh s) (fs_clock (s3_world s))) by done.
  destruct (objectLocked obj (fs_clock (s3_world s))).
  - match goal with |- context [exec (mbind ?f (emitAudit a r ?x ?y ?z ?w ?v)) ?s0] =>
      destruct (exec_bind_quiet (emitAudit a r x y z w v) f s0 (quiet_emitAudit a r x y z w v))
        as (s1 & [] & _ & [C1 C2 C3] & ->) end.
    unfold writeObjectLockedError.
    destruct (status_writeS3Error r (mkS3Error StatusForbidden "AccessDenied"
      "Object is protected by object lock retention or legal hold." (rq_Path r)) s1) as (E1 & E2 & E3).
    { unfold status. by rewrite C3. }
    rewrite E1. split; [done|]. split; [rewrite E2, C1|rewrite E3, C2]; done.
  - rewrite exec_on_store. change (s3_store (fresh s)) with (s3_store s).
    pose proof (DeleteObjectVersion_removed b k id obj (s3_store s)) as Hrem.
    unfold eval in Hrem |- *. change (exec (DeleteObjectVersion b k id) (s3_store s))
      with (fst (DeleteObjectVersion b k id (s3_store s))).
    destruct (DeleteObjectVersion b k id (s3_store s)) as [st' [v|err]]; cbn [fst snd] in Hrem |- *.
    + specialize (Hrem v Hid Ho eq_refl) as ->.
      match goal with |- context [exec (mbind ?f (if ov_DeleteMarker obj then _ else _)) ?s0] =>
        destruct (removed_blob_run obj s0) as (s1 & E1 & Est & Es & Hk) end.
      rewrite (exec_bind_eq _ _ _ _ _ E1).
      match goal with |- context [exec (mbind ?f (emitAudit a r ?x ?y ?z ?w ?v)) ?s0] =>
        destruct (exec_bind_quiet (emitAudit a r x y z w v) f s0 (quiet_emitAudit a r x y z w v))
          as (s2 & [] & _ & [C1 C2 C3] & ->) end.
      unfold WriteHeader. rewrite exec_on_resp.
      match goal with |- context [exec (emitObjectNotification ?e ?o) ?s0] =>
        destruct (quiet_exec (emitObjectNotification e o) s0 (quiet_emitObjectNotification e o)) as [D1 D2 D3] end.
      rewrite D1, D2. unfold status. rewrite D3. simpl. rewrite C1, C2, C3. split; [done|].
      split; [apply (proj1 Hk)|]. intros _. rewrite Es. done.
    + split; [|split; [|done]].
      * destruct (errors_Is err ErrNotFound);
          match goal with |- context [exec (mbind ?f (emitAudit a r ?x ?y ?z ?w ?v)) ?s0] =>
            destruct (exec_bind_quiet (emitAudit a r x y z w v) f s0 (quiet_emitAudit a r x y z w v))
              as (s2 & [] & _ & [C1 C2 C3] & ->) end; simpl; by rewrite C1.
      * intros ref' _. destruct (errors_Is err ErrNotFound);
          match goal with |- context [exec (mbind ?f (emitAudit a r ?x ?y ?z ?w ?v)) ?s0] =>
            destruct (exec_bind_quiet (emitAudit a r x y z w v) f s0 (quiet_emitAudit a r x y z w v))
              as (s2 & [] & _ & [C1 C2 C3] & ->) end; simpl; by rewrite C2.
Qed.
End s3.

(** ** Evaluation on a concrete server *)
Section witnesses.
#[local] Existing Instance go_runtime_ref.
#[local] Existing Instance ex_times.
#[local] Existing Instance ex_random.
#[local] Existing Instance ex_codecs.
#[local] Existing Instance ex_tokens.
#[local] Existing Instance ex_hashes.
#[local] Existing Instance ex_temp_names.
#[local] Existing Instance ex_cipher.

Definition ex_content : string := str_repeat 20 "a" +:+ "hello" +:+ str_repeat 20 "b".
Definition ex_put : request :=
  ex_request "PUT" "/plain/k" [] [("x-amz-server-side-encryption", "AES256")] ex_content.
Definition ex_get : request := ex_request "GET" "/plain/k" [] [("Range", "bytes=18-26")] "".
Definition ex_put_done : s3_state scripted_persister :=
  serve (handlePutObject ex_api ex_put "plain" "k") ex_buckets.

Lemma ex_put_status : status ex_put_done = Some StatusOK.
Proof. vm_compute. reflexivity. Qed.
Lemma ex_put_healthy : healthy (s3_world ex_put_done).
Proof. split; by vm_compute. Qed.
Lemma ex_get_range : asked_range ex_get (str_len (rd_bytes (requestObjectBody ex_put))) =
  Some (Some (mkByteRange 18 26)).
Proof. vm_compute. reflexivity. Qed.
Lemma ex_get_section :
  section_of (rd_bytes (requestObjectBody ex_put)) 18 26 = "aahellobb".
Proof. vm_compute. reflexivity. Qed.

Lemma ex_put_size : in_int64 (str_len (rd_bytes (requestObjectBody ex_put))).
Proof. split; vm_compute; discriminate. Qed.
Lemma ex_get_plain : plain_get ex_get.
Proof. split; vm_compute; reflexivity. Qed.

(** An encrypted object, read in a range. *)
Lemma put_then_get_object_witness :
  body (serve (handleGetObject ex_api ex_get "plain" "k" false) ex_put_done) = [PBytes "aahellobb"].
Proof.
  pose proof (put_then_get_object ex_api ex_put ex_get "plain" "k" ex_buckets) as Hp.
  cbv zeta in Hp. fold ex_put_done in Hp. unfold get_answers in Hp. rewrite ex_get_range in Hp. cbn iota beta in Hp.
  cbn [br_Start br_End] in Hp. rewrite ex_get_section in Hp.
  specialize (Hp ex_roots_apart).
  specialize (Hp ex_put_size).
  specialize (Hp ex_put_status ex_put_healthy ex_get_plain).
  apply Hp.
Defined.

Lemma writes_touch_one_version_witness :
  ∃ vid, write_id_ok "plain" ex_buckets vid ∧
    others_kept ex_api (mkObjectRef "plain" "k" vid) ex_buckets
      (exec (handlePutObject ex_api ex_put "plain" "k") ex_buckets).
Proof.
  apply (writes_touch_one_version ex_api ex_put "plain" "k" "u"); [exact ex_roots_apart|exact ex_staging_apart|].
  apply list_elem_of_here.
Defined.

(** The object of [ex_put_done] under legal hold. *)
Definition ex_hold : s3_state scripted_persister :=
  ex_serve ex_put_done (ex_request "PUT" "/plain/k" [("legal-hold", "")] [] "ON").

Lemma ex_hold_locked : null_locked "plain" "k" ex_hold.
Proof. apply null_lockedb_sound. vm_compute. reflexivity. Qed.


Definition ex_delete : request := ex_request "DELETE" "/plain/k" [("versionId", "null")] [] "".

Lemma ex_held_ok : ∃ obj, GetObjectVersion "plain" "k" "null" (s3_store ex_hold) = Ok obj ∧
  objectLocked obj (fs_clock (s3_world ex_hold)) = true.
Proof. apply ex_hold_locked. Qed.
Lemma ex_hold_bucket : is_ok (GetBucket "plain" (s3_store ex_hold)) = true.
Proof. vm_compute. reflexivity. Qed.

Lemma delete_version_respects_lock_witness :
  status (serve (handleDeleteObject ex_api ex_delete "plain" "k") ex_hold) = Some StatusForbidden.
Proof.
  destruct ex_held_ok as (obj & Ho & Hl).
  pose proof (delete_version_respects_lock ex_api ex_delete "plain" "k" "null" obj ex_hold) as Hp.
  cbv zeta in Hp. rewrite Hl in Hp.
  apply Hp; [vm_compute; reflexivity|discriminate|exact ex_hold_bucket|exact Ho].
Defined.
End witnesses.
