(* ===== verification/S3Versions.v ===== *)
(** * What the S3 API promises: versions

    A delete marker hides the key and gives it back when it is removed. *)
From S2P Require Import Prelude GoStrings StringFacts Base64 Model MemoryStore.
From S2P Require Import MemoryStoreFacts MemoryStoreProps FileSystem Blob BlobFacts Listing Http.
From S2P Require Import AwsChunked Sse S3State S3Object S3Events S3Bucket S3ObjectOps.
From S2P Require Import S3Multipart S3Router S3Facts S3Frames S3Examples.

Section versions.
Context `{!GoRuntime} `{!TimeFormats} `{!RequestCodecs} `{!Randomness}.
Context `{!JsonCodec listV2ContinuationToken} `{!Hashes} `{!TempNames} `{!BlockCipher}.
Context {P : Type} `{!StatePersister P}.
Abbreviation HM := (M (s3_state P)).
Variable a : s3API.

(** Removing what was just put, under a new id, gives the versions back. *)
Lemma delete_undoes_put (st : memoryBackedStore P) v :
  let b := ov_Bucket v in let k := ov_Key v in let id := ov_VersionID v in
  id ≠ "" → id ≠ "null" → GetObjectVersion b k id st = Err ErrNotFound →
  ∀ key, versions_of (ms_st (exec (DeleteObjectVersion b k id) (exec (PutObjectVersion v) st))) key =
         versions_of (ms_st st) key.
Proof.
  intros b k id Hid Hnull Hn key.
  assert (Forall (λ x, is_version id x = false) (versions_of (ms_st st) (mkObjectKey b k))) as Hno.
  { apply Forall_not_version. unfold GetObjectVersion in Hn. apply String.eqb_neq in Hid. rewrite Hid in Hn.
    by destruct (List.find _ _). }
  assert (∀ key, versions_of (ms_st (exec (PutObjectVersion v) st)) key =
    if decide (key = mkObjectKey b k) then versions_of (ms_st st) key ++ [v]
    else versions_of (ms_st st) key) as Hput.
  { intros key'. unfold PutObjectVersion. rewrite ms_st_change'. unfold tx_PutObjectVersion, exec. simpl.
    rewrite versions_of_put. unfold kept_versions, is_null_version.
    by rewrite (proj2 (String.eqb_neq (ov_VersionID v) _) Hnull). }
  pose proof (DeleteObjectVersion_spec (exec (PutObjectVersion v) st) b k id) as Hd. cbv zeta in Hd.
  rewrite (Hput (mkObjectKey b k)), decide_True in Hd by done.
  assert (List.find (is_version id) (versions_of (ms_st st) (mkObjectKey b k) ++ [v]) = Some v) as Hf.
  { rewrite find_first_app by done. simpl. unfold is_version. by rewrite String.eqb_refl. }
  rewrite Hf in Hd. destruct Hd as ((l1 & l2 & E & E' & Hl1 & _) & Hother & _).
  destruct (decide (key = mkObjectKey b k)) as [->|Hne].
  - rewrite E'. apply app_eq_app in E as (l & [[E1 E2]|[E1 E2]]).
    + destruct l as [|x l]; simpl in E2.
      { rewrite app_nil_r in E1. injection E2 as ->. by rewrite E1, app_nil_r. }
      injection E2 as <- _. rewrite E1, Forall_app, Forall_cons in Hno. destruct Hno as (_ & Hv & _).
      unfold is_version in Hv. by rewrite String.eqb_refl in Hv.
    + destruct l as [|x l]; simpl in E2; injection E2; [intros <-; by rewrite E1, !app_nil_r|].
      by destruct l.
  - by rewrite Hother, Hput, decide_False by done.
Qed.

Lemma GetObjectVersion_versions b k id (st st' : memoryBackedStore P) :
  versions_of (ms_st st') (mkObjectKey b k) = versions_of (ms_st st) (mkObjectKey b k) →
  GetObjectVersion b k id st' = GetObjectVersion b k id st.
Proof. intros E. unfold GetObjectVersion, GetLatestObjectVersion, latest_of. by rewrite E. Qed.

(** Drawn ids start with a number. *)
Lemma drawn_id_not_null t draws : FormatInt t +:+ "-" +:+ draws ≠ "null" ∧ FormatInt t +:+ "-" +:+ draws ≠ "".
Proof.
  unfold FormatInt. destruct (Z.ltb_spec t 0) as [Ht|Ht]; [by split|].
  destruct (format_uint_spec t Ht) as (c & s & E & _ & Hc & _). rewrite E.
  split; [|done]. intros [= -> _]. by destruct Hc.
Qed.

(** C11: a delete marker hides a key and nothing else: in a bucket with versioning
    enabled, DELETE without a version id is answered 204 and touches no file;
    afterwards GET and HEAD of the key are answered 404, every version of every key
    reads as before by its id, and removing the marker by its id (when the id is
    new) gives back what every read returned before, the latest version included. *)
Theorem delete_marker_hides_and_reveals r b k (s : s3_state P) :
  query_get (rq_Query r) "versionId" = "" →
  (∃ bkt, GetBucket b (s3_store s) = Ok bkt ∧ b_VersioningStatus bkt = "Enabled") →
  let s' := serve (handleDeleteObject a r b k) s in
  status s' = Some StatusNoContent ∧ s3_world s' = s3_world s ∧
  ∃ vid, write_id_ok b s vid ∧
    (∀ r2 headOnly, query_get (rq_Query r2) "versionId" = "" →
       status (serve (handleGetObject a r2 b k headOnly) s') = Some StatusNotFound) ∧
    (∀ b' k' id, id ≠ "" → (b', k', id) ≠ (b, k, vid) →
       GetObjectVersion b' k' id (s3_store s') = GetObjectVersion b' k' id (s3_store s)) ∧
    (GetObjectVersion b k vid (s3_store s) = Err ErrNotFound → ∀ b' k' id,
       GetObjectVersion b' k' id (exec (DeleteObjectVersion b k vid) (s3_store s')) =
       GetObjectVersion b' k' id (s3_store s)).
Proof.
  intros Hq (bkt & Hb & He) s'. subst s'. unfold serve, handleDeleteObject. rewrite exec_query.
  change (s3_store (fresh s)) with (s3_store s). rewrite Hb. cbv zeta. rewrite Hq, He. cbn [negb].
  rewrite !String.eqb_refl. cbn [negb].
  match goal with |- context [exec (mbind ?f newVersionID) ?s0] =>
    destruct (exec_bind_quiet newVersionID f s0 quiet_newVersionID) as (s1 & vid & Ev & [C1 C2 C3] & ->) end.
  assert (∃ draws, vid = FormatInt (fs_clock (s3_world s)) +:+ "-" +:+ draws) as Hvid.
  { unfold newVersionID, mbind, M_bind, rand_bytes, s3_now, mret, M_ret in Ev. simpl in Ev.
    injection Ev as _ <-. eauto. }
  assert (vid ≠ "null" ∧ vid ≠ "") as [Hnull Hne] by (destruct Hvid as [d ->]; apply drawn_id_not_null).
  rewrite (exec_bind_eq s3_now _ s1 s1 (fs_clock (s3_world s1))) by done. rewrite exec_on_store.
  set (v := delete_marker b k vid _).
  pose proof (PutObjectVersion_spec (s3_store s1) v) as (Hlatest & _ & Hother & Hkeys).
  change (ov_Bucket v) with b in *. change (ov_Key v) with k in *. change (ov_VersionID v) with vid in *.
  rewrite C1 in *. change (s3_store (fresh s)) with (s3_store s) in *.
  match goal with |- context [exec (mbind ?f (emitAudit a r ?x ?y ?z ?w ?u)) ?s0] =>
    destruct (exec_bind_quiet (emitAudit a r x y z w u) f s0 (quiet_emitAudit a r x y z w u))
      as (s2 & [] & _ & [D1 D2 D3] & ->) end.
  unfold WriteHeader. rewrite exec_on_resp.
  match goal with |- context [exec (emitObjectNotification ?e ?o) ?s0] =>
    destruct (quiet_exec (emitObjectNotification e o) s0 (quiet_emitObjectNotification e o)) as [E1 E2 E3];
    set (s' := exec (emitObjectNotification e o) s0) in * end.
  simpl in D1, D2, D3, E1, E2, E3. change (DeleteObject b k vid (fs_clock (s3_world s1))) with (PutObjectVersion v) in D1.
  change ((PutObjectVersion v (s3_store s)).1) with (exec (PutObjectVersion v) (s3_store s)) in D1.
  split; [unfold status; rewrite E3, D3, C3; done|]. split; [by rewrite E2, D2, C2|].
  exists vid. rewrite E1, D1. split_and!.
  - intros bkt' Hb'. rewrite Hb in Hb'. injection Hb' as <-. rewrite He. exact Hvid.
  - intros r2 headOnly Hq2. unfold serve, handleGetObject. rewrite exec_query.
    change (s3_store (fresh s')) with (s3_store s'). rewrite E1, D1, Hq2.
    unfold GetObjectVersion. simpl. rewrite Hlatest. simpl. done.
  - intros b' k' id Hid Hneq. destruct (decide ((b', k') = (b, k))) as [[= -> ->]|Hne'].
    + apply Hother; [done|congruence].
    + by apply Hkeys.
  - intros Hnew b' k' id. apply GetObjectVersion_versions. by apply (delete_undoes_put (s3_store s) v).
Qed.
End versions.

Section witnesses.
#[local] Existing Instance go_runtime_ref.
#[local] Existing Instance ex_times.
#[local] Existing Instance ex_random.
#[local] Existing Instance ex_codecs.
#[local] Existing Instance ex_tokens.
#[local] Existing Instance ex_hashes.
#[local] Existing Instance ex_temp_names.
#[local] Existing Instance ex_cipher.

(** One object in the bucket with versioning. *)
Definition ex_versioned : s3_state scripted_persister :=
  ex_serve ex_buckets (ex_request "PUT" "/kept/k" [] [] "one").
Definition ex_marker_delete : request := ex_request "DELETE" "/kept/k" [] [] "".

Lemma ex_versioned_bucket : ∃ bkt, GetBucket "kept" (s3_store ex_versioned) = Ok bkt ∧
  b_VersioningStatus bkt = "Enabled".
Proof.
  assert (b_VersioningStatus <$> st_buckets (ms_st (s3_store ex_versioned)) !! "kept" = Some "Enabled") as E
    by (vm_compute; reflexivity).
  revert E. unfold GetBucket. generalize (s3_store ex_versioned). intros st.
  destruct (st_buckets (ms_st st) !! "kept") as [bkt|]; [|discriminate].
  intros [= E]. exists bkt. by split.
Qed.

Lemma delete_marker_hides_and_reveals_witness :
  status (serve (handleGetObject ex_api (ex_request "GET" "/kept/k" [] [] "") "kept" "k" false)
    (serve (handleDeleteObject ex_api ex_marker_delete "kept" "k") ex_versioned)) = Some StatusNotFound.
Proof.
  destruct (delete_marker_hides_and_reveals ex_api ex_marker_delete "kept" "k" ex_versioned eq_refl
    ex_versioned_bucket) as (_ & _ & vid & _ & Hget & _).
  apply Hget. reflexivity.
Defined.
End witnesses.
