(* ===== verification/S3MultipartProps.v ===== *)
(** * What the S3 API promises: multipart uploads

    The list of parts is accepted exactly when it is in order, known, unchanged and
    large enough; a completed upload reads back as the concatenation of its parts. *)
From S2P Require Import Prelude GoStrings StringFacts Base64 Model MemoryStore.
From S2P Require Import MemoryStoreFacts MemoryStoreProps FileSystem Blob BlobFacts Listing Http.
From S2P Require Import AwsChunked Sse S3State S3Object S3Events S3Bucket S3ObjectOps.
From S2P Require Import S3Multipart S3Router S3Facts S3Frames S3Reading S3Examples.

(** ** The list of parts *)

(** Each number is larger than the one before. *)
Fixpoint ascending (prev : option Z) (ns : list Z) : Prop :=
  match ns with
  | [] => True
  | n :: ns => match prev with Some p => p < n | None => True end ∧ ascending (Some n) ns
  end.

(** A listed part is stored and its ETag is the stored one. *)
Definition part_known (stored : gmap Z MultipartPart) (p : completePartXML) : Prop :=
  ∃ sp, stored !! px_PartNumber p = Some sp ∧ trim_quotes (px_ETag p) = mp_ETag sp.

Definition part_large (stored : gmap Z MultipartPart) (p : completePartXML) : Prop :=
  ∀ sp, stored !! px_PartNumber p = Some sp → minMultipartPartSize ≤ mp_Size sp.

Lemma check_parts_None b k stored prev parts :
  check_parts b k stored prev parts = None ↔
  ascending prev (px_PartNumber <$> parts) ∧ Forall (part_known stored) parts ∧
  Forall (part_large stored) (removelast parts).
Proof.
  revert prev. induction parts as [|p parts IH]; intros prev; simpl.
  { split; [|done]. intros _. by rewrite !Forall_nil. }
  rewrite Forall_cons. unfold part_known at 1.
  destruct (match prev with Some p0 => px_PartNumber p <=? p0 | None => false end) eqn:Eo.
  { split; [done|]. intros ([Ho _] & _). destruct prev; [lia|done]. }
  assert (match prev with Some p0 => p0 < px_PartNumber p | None => True end) as Hprev by (destruct prev; [lia|done]).
  destruct (stored !! px_PartNumber p) as [sp|] eqn:Es; [|naive_solver].
  destruct (String.eqb_spec (trim_quotes (px_ETag p)) (mp_ETag sp)) as [Et|Et]; simpl; [|naive_solver].
  assert (Forall (part_large stored) (match parts with [] => [] | _ => p :: removelast parts end) ↔
    (parts ≠ [] → minMultipartPartSize ≤ mp_Size sp) ∧ Forall (part_large stored) (removelast parts)) as ->.
  { destruct parts; [naive_solver|]. rewrite Forall_cons. unfold part_large at 1. naive_solver. }
  destruct (bool_decide (parts ≠ []) && (mp_Size sp <? minMultipartPartSize)) eqn:Esm.
  - apply andb_true_iff in Esm as [Hne%bool_decide_eq_true Hlt]. split; [done|].
    intros (_ & _ & Hl & _). specialize (Hl Hne). lia.
  - rewrite IH. apply andb_false_iff in Esm. split.
    + intros (? & ? & ?). split_and!; eauto. intros Hne. destruct Esm as [Esm|]; [|lia].
      by apply bool_decide_eq_false in Esm.
    + naive_solver.
Qed.

(** A list of parts is accepted exactly when its numbers ascend strictly, every
    part is stored under its number with the listed ETag (quotes apart), and every
    part but the last has at least 5 MiB. *)
Theorem check_parts_spec b k stored parts :
  check_parts b k stored None parts = None ↔
  ascending None (px_PartNumber <$> parts) ∧ Forall (part_known stored) parts ∧
  Forall (part_large stored) (removelast parts).
Proof. apply check_parts_None. Qed.

Lemma check_parts_code b k stored prev parts spec :
  check_parts b k stored prev parts = Some spec → se_StatusCode spec = StatusBadRequest.
Proof.
  revert prev. induction parts as [|p parts IH]; intros prev; simpl; [done|].
  destruct (match prev with Some _ => _ | None => _ end); [by intros [= <-]|].
  destruct (stored !! _) as [sp|]; [|by intros [= <-]].
  destruct (negb _); [by intros [= <-]|]. destruct (_ && _); [by intros [= <-]|]. apply IH.
Qed.

Lemma stored_by_number_lookup parts n sp :
  stored_by_number parts !! n = Some sp → sp ∈ parts ∧ mp_PartNumber sp = n.
Proof.
  unfold stored_by_number. rewrite <-(app_nil_l parts) at 2.
  assert (∀ (m : gmap Z MultipartPart) done,
    (∀ n sp, m !! n = Some sp → sp ∈ done ∧ mp_PartNumber sp = n) →
    fold_left (λ m p, <[mp_PartNumber p := p]> m) parts m !! n = Some sp →
    sp ∈ done ++ parts ∧ mp_PartNumber sp = n) as Hgen.
  { induction parts as [|p parts IH]; simpl; intros m dn Hm; [rewrite app_nil_r; apply Hm|].
    intros E. assert (∀ n sp, <[mp_PartNumber p:=p]> m !! n = Some sp → sp ∈ dn ++ [p] ∧ mp_PartNumber sp = n) as Hm'.
    { intros n' sp' Hl. rewrite elem_of_app, list_elem_of_singleton.
      destruct (decide (mp_PartNumber p = n')) as [<-|Hne].
      + rewrite lookup_insert_eq in Hl. injection Hl as ->. auto.
      + rewrite lookup_insert_ne in Hl by done. destruct (Hm _ _ Hl); auto. }
    destruct (IH _ _ Hm' E) as [Hin Hn]. by rewrite <-app_assoc in Hin. }
  apply Hgen. intros n' sp' Hl. by rewrite lookup_empty in Hl.
Qed.

Section multipart.
Context `{!GoRuntime} `{!TimeFormats} `{!RequestCodecs} `{!Randomness}.
Context `{!JsonCodec listV2ContinuationToken} `{!Hashes} `{!TempNames} `{!BlockCipher}.
Context {P : Type} `{!StatePersister P}.
Abbreviation HM := (M (s3_state P)).
Variable a : s3API.

(** The file of a staged part. *)
Definition staged (u : string) (w : world) (n : Z) (content : string) : Prop :=
  fs_files w !! multipartPartPath (api_blob a) u n = Some content.

(** ** Assembling *)
Lemma assemble_ok upload stored u ns ref (s s' : s3_state P) m :
  roots_apart (api_blob a) → staging_apart (api_blob a) →
  let enc := String.eqb (mu_SSEAlgorithm upload) sseAlgorithmAES256 in
  (enc = true → String.length (api_sseKey a) = 32%nat) →
  (∀ n, n ∈ ns → ∃ sp, stored !! n = Some sp ∧ mp_PartNumber sp = n ∧
     ∀ c, staged u (s3_world s) n c → mp_Size sp = str_len c) →
  assemble a upload stored u ns ref s = (s', Ok (Ok m)) →
  s3_store s' = s3_store s ∧ s3_resp s' = s3_resp s ∧
  ∃ contents, Forall2 (staged u (s3_world s)) ns contents ∧
    holds a ref enc (Join contents "") (s3_world s') ∧
    om_Path m = ObjectPath (api_blob a) ref ∧ om_Size m = str_len (Join contents "").
Proof.
  intros Hr Hs enc Hkey Hst. unfold assemble. fold enc. unfold staged in *.
  assert (∀ ns', ns' = ns → on_blob (CompleteMultipartUpload (api_blob a) u ns' ref) s = (s', Ok (Ok m)) →
    enc = false → s3_store s' = s3_store s ∧ s3_resp s' = s3_resp s ∧
    ∃ contents, Forall2 (staged u (s3_world s)) ns contents ∧ holds a ref enc (Join contents "") (s3_world s') ∧
      om_Path m = ObjectPath (api_blob a) ref ∧ om_Size m = str_len (Join contents "")) as Hplain.
  { intros ns' -> E Henc. unfold on_blob in E.
    destruct (CompleteMultipartUpload _ _ _ _ _) as [w' res] eqn:Ec. injection E as <- ->.
    apply CompleteMultipartUpload_spec in Ec as (contents & at_ & Hc & -> & Hf & _); [|done..].
    split; [done|]. split; [done|]. exists contents. split_and!; [done| |done..].
    rewrite Henc. by eexists. }
  destruct enc eqn:Henc.
  - unfold mbind, M_bind, rand_bytes. destruct (rand_Read (s3_draws s) sseIVSize) as [iv|err] eqn:Er.
    2:{ unfold on_blob. cbn [s3_world]. destruct (CompleteMultipartUploadWithWriter _ _ _ _ _) as [w' res] eqn:Ec.
        intros [= <- ->]. apply complete_with_writer_inv in Ec as (? & ? & ? & _ & _ & Ew & _). done. }
    unfold on_blob. cbn [s3_world]. destruct (CompleteMultipartUploadWithWriter _ _ _ _ _) as [w' res] eqn:Ec.
    intros [= <- ->]. split; [done|]. split; [done|].
    apply complete_with_writer_inv in Ec as (contents & w1 & w2 & Hc & Hw1 & Ew & Hw').
    apply write_encrypted_spec in Ew as (HF & _ & at_ & ->); [|done].
    exists contents. split_and!; [done| |done..]. exists (iv +:+ ctr_xor (api_sseKey a) iv 0 (Join contents "")).
    cbn [s3_world]. rewrite Hw', ObjectPath_not_staged, HF, lookup_insert_eq by done.
    split; [done|]. split; [by apply Hkey|]. exists iv. split; [|done]. by eapply rand_Read_length.
  - destruct ns as [|n [|n2 ns]]; [by intros E; apply (Hplain []) | |by intros E; apply (Hplain (n :: n2 :: ns))].
    destruct (Hst n) as (sp & -> & Hn & Hz); [by left|].
    match goal with |- context [default ?d (Some sp)] => change (default d (Some sp)) with sp end. rewrite Hn.
    unfold on_blob. destruct (PromoteMultipartPart _ _ _ _ _ _) as [w' res] eqn:Ec.
    intros [= <- ->]. split; [done|]. split; [done|].
    apply promote_inv in Ec as (c & Hc & Hf & Hp & Hsz); [|done].
    exists [c]. split_and!; [constructor; [done|constructor]|by eexists|done|]. rewrite Hsz. by apply Hz.
Qed.

Lemma assemble_total upload stored u ns ref (s : s3_state P) :
  ∃ s' res, assemble a upload stored u ns ref s = (s', Ok res) ∧ s3_resp s' = s3_resp s.
Proof.
  unfold assemble, mbind, M_bind, rand_bytes, on_blob. cbn [s3_world].
  destruct (String.eqb _ _); [|destruct ns as [|n [|n2 ns]]];
    match goal with |- context [let '(_, _) := ?x in _] => destruct x end; by eexists _, _.
Qed.

(** What a completion that is answered 200 has done. *)
Lemma handleComplete_ok r b k u (s : s3_state P) :
  status s = None → status (exec (handleCompleteMultipartUpload a r b k u) s) = Some StatusOK →
  ∃ upload ps parts vid m s1 s2,
    GetMultipartUpload u (s3_store s) = Ok (upload, ps) ∧
    xml_Unmarshal_complete (rd_bytes (rq_Body r)) = Some parts ∧
    check_parts b k (stored_by_number ps) None parts = None ∧ same_data s s1 ∧
    assemble a upload (stored_by_number ps) u (px_PartNumber <$> parts) (mkObjectRef b k vid) s1 = (s2, Ok (Ok m)) ∧
    GetLatestObjectVersion b k (s3_store (exec (handleCompleteMultipartUpload a r b k u) s)) =
      Ok (object_of_blob b k vid (calculateMultipartETag ((λ p, trim_quotes (px_ETag p)) <$> parts))
        (markSSEMetadata ∅ (String.eqb (mu_SSEAlgorithm upload) sseAlgorithmAES256)) m) ∧
    s3_world (exec (handleCompleteMultipartUpload a r b k u) s) = s3_world s2.
Proof.
  intros Hs. unfold handleCompleteMultipartUpload, runHeavy.
  destruct (rq_Acquire r); [|intros H'; refused H'; discriminate H'].
  unfold find_upload. rewrite (exec_bind_eq _ _ s s (match GetMultipartUpload u (s3_store s) with
    | Ok (upload, parts) => if String.eqb (mu_Bucket upload) b && String.eqb (mu_Key upload) k
        then Some (upload, parts) else None | Err _ => None end)) by done.
  destruct (GetMultipartUpload u (s3_store s)) as [[upload ps]|err] eqn:Eu;
    [|intros H'; refused H'; discriminate H'].
  destruct (_ && _); [|intros H'; refused H'; discriminate H'].
  unfold io_ReadAll. destruct (rd_error (rq_Body r)); [intros H'; refused H'; discriminate H'|].
  destruct (xml_Unmarshal_complete _) as [[|p0 parts0]|] eqn:Ex; [intros H'; refused H'; discriminate H'| |
    intros H'; refused H'; discriminate H'].
  set (parts := p0 :: parts0) in *.
  destruct (maxMultipartParts <? _); [intros H'; refused H'; discriminate H'|]. cbv zeta.
  destruct (check_parts b k (stored_by_number ps) None parts) as [spec|] eqn:Ec.
  { intros H'. refused H'. by rewrite (check_parts_code _ _ _ _ _ _ Ec) in H'. }
  unfold with_bucket. rewrite exec_query.
  destruct (GetBucket b (s3_store s)) as [bkt|err]; [|intros H'; refused H'; discriminate H'].
  match goal with |- context [exec (mbind ?f (write_versionID bkt)) s] =>
    destruct (exec_bind_quiet (write_versionID bkt) f s (quiet_write_versionID bkt))
      as (s1 & vid & _ & [C1 C2 C3] & ->) end.
  match goal with |- context [exec (mbind ?f (overwrite_locked b k vid)) s1] =>
    destruct (exec_bind_quiet (overwrite_locked b k vid) f s1 (quiet_overwrite_locked b k vid))
      as (s2 & l & _ & [D1 D2 D3] & ->) end.
  assert (status s2 = None) as Hs2 by (unfold status in *; congruence).
  destruct l; [unfold writeObjectLockedError; intros H'; refused H'; discriminate H'|].
  destruct (assemble_total upload (stored_by_number ps) u (px_PartNumber <$> parts) (mkObjectRef b k vid) s2)
    as (s3 & res & Ea & Hresp). rewrite (exec_bind_eq _ _ _ _ _ Ea).
  assert (status s3 = None) as Hs3 by (unfold status in *; congruence).
  destruct res as [m|err]; [|intros H'; refused H'; discriminate H'].
  rewrite exec_on_store. set (v := object_of_blob _ _ _ _ _ _).
  pose proof (PutObjectVersion_spec (s3_store s3) v) as [Hlatest _]. unfold exec in Hlatest at 1.
  destruct (PutObjectVersion v (s3_store s3)) as [st' res]. cbn [fst snd] in *.
  destruct res as [[]|err]; [|rewrite exec_delete_blob; intros H'; refused H'; discriminate H'].
  intros _. exists upload, ps, parts, vid, m, s2, s3. split_and!; try done.
  { split; congruence. }
  all: rewrite exec_on_store; unfold updHeader; rewrite !exec_on_resp;
    match goal with |- context [exec (mbind ?f (writeXML ?c ?d)) ?s0] =>
      rewrite (exec_bind_eq (writeXML c d) f s0 (exec (writeXML c d) s0) tt) by done end;
    match goal with |- context [exec (mbind ?f (emitObjectNotification ?e ?o)) ?s0] =>
      destruct (exec_bind_quiet (emitObjectNotification e o) f s0 (quiet_emitObjectNotification e o))
        as (s5 & [] & _ & [F1 F2 F3] & ->);
      destruct (quiet_exec (emitReplication o) s5 (quiet_emitReplication o)) as [G1 G2 G3] end.
  - rewrite G1, F1. simpl. revert Hlatest. unfold GetLatestObjectVersion, versions_of.
    by rewrite DeleteMultipartUpload_objects.
  - by rewrite G2, F2.
Qed.

End multipart.

(** ** Evaluation: an encrypted upload of one part *)
Section witnesses.
#[local] Existing Instance go_runtime_ref.
#[local] Existing Instance ex_times.
#[local] Existing Instance ex_random.
#[local] Existing Instance ex_codecs.
#[local] Existing Instance ex_tokens.
#[local] Existing Instance ex_hashes.
#[local] Existing Instance ex_temp_names.
#[local] Existing Instance ex_cipher.

Definition ex_upload_started : s3_state scripted_persister :=
  ex_serve ex_buckets (ex_request "POST" "/plain/big" [("uploads", "")]
    [("x-amz-server-side-encryption", "AES256")] "").
Definition ex_upload_id : string :=
  match map_to_list (st_multipart (ms_st (s3_store ex_upload_started))) with
  | (id, _) :: _ => id
  | [] => ""
  end.
Definition ex_part_staged : s3_state scripted_persister :=
  ex_serve ex_upload_started
    (ex_request "PUT" "/plain/big" [("uploadId", ex_upload_id); ("partNumber", "1")] [] "hello").
Definition ex_part_etag : string :=
  match GetMultipartUpload ex_upload_id (s3_store ex_part_staged) with
  | Ok (_, p :: _) => mp_ETag p
  | _ => ""
  end.
Definition ex_complete : request :=
  ex_request "POST" "/plain/big" [("uploadId", ex_upload_id)] [] ("1:" +:+ ex_part_etag).
Abbreviation ex_completed_state :=
  (serve (handleCompleteMultipartUpload ex_api ex_complete "plain" "big" ex_upload_id) ex_part_staged).

(** The condition on stored sizes, decided. *)
Definition sizes_agreeb (u : string) (s : s3_state scripted_persister) : bool :=
  match GetMultipartUpload u (s3_store s) with
  | Ok (_, ps) => forallb (λ p,
      match fs_files (s3_world s) !! multipartPartPath ex_bs u (mp_PartNumber p) with
      | Some c => mp_Size p =? str_len c
      | None => true
      end) ps
  | Err _ => true
  end.

Lemma sizes_agreeb_sound u s : sizes_agreeb u s = true →
  ∀ upload ps, GetMultipartUpload u (s3_store s) = Ok (upload, ps) →
  (mu_SSEAlgorithm upload = sseAlgorithmAES256 → String.length (api_sseKey ex_api) = 32%nat) ∧
  ∀ p c, p ∈ ps → staged ex_api u (s3_world s) (mp_PartNumber p) c → mp_Size p = str_len c.
Proof.
  unfold sizes_agreeb, staged. intros Hb upload ps E. rewrite E in Hb. split; [done|].
  intros p c Hp Hc. rewrite forallb_forall in Hb. apply list_elem_of_In in Hp.
  specialize (Hb p Hp). change (api_blob ex_api) with ex_bs in Hc. rewrite Hc in Hb. by apply Z.eqb_eq.
Qed.

Lemma ex_sizes_agree : sizes_agreeb ex_upload_id ex_part_staged = true.
Proof. vm_compute. reflexivity. Qed.
Lemma ex_completed_ok : status ex_completed_state = Some StatusOK.
Proof. vm_compute. reflexivity. Qed.

End witnesses.
