(* ===== verification/S3Scenarios.v ===== *)
(** * Scenarios: requests after which the server is not in the state one expects

    Each theorem runs a short sequence of requests on the concrete server of
    S3Examples.v and states what is observed at the end. *)
From S2P Require Import Prelude GoStrings StringFacts Base64 Model MemoryStore.
From S2P Require Import MemoryStoreProps FileSystem Blob BlobFacts Listing Http Sse S3State.
From S2P Require Import S3Object S3Events S3Bucket S3ObjectOps S3Multipart S3Router.
From S2P Require Import S3Facts S3Frames S3Reading S3Examples.

#[local] Existing Instance go_runtime_ref.
#[local] Existing Instance ex_times.
#[local] Existing Instance ex_random.
#[local] Existing Instance ex_codecs.
#[local] Existing Instance ex_tokens.
#[local] Existing Instance ex_hashes.
#[local] Existing Instance ex_temp_names.
#[local] Existing Instance ex_cipher.

Definition ex_run (rs : list request) : s3_state scripted_persister := fold_left ex_serve rs ex_buckets.

Definition ex_plain (method path content : string) : request := ex_request method path [] [] content.

(** The ids of the versions of a key, oldest first. *)
Definition version_ids (b k : string) (s : s3_state scripted_persister) : list string :=
  ov_VersionID <$> versions_of (ms_st (s3_store s)) (mkObjectKey b k).

(** A PUT refused for its digest has destroyed the object it was to replace: the
    metadata stays, the bytes are gone (a bucket without versioning). *)
Theorem refused_put_destroys_object :
  let s1 := ex_run [ex_plain "PUT" "/plain/k" "old"] in
  let s2 := ex_serve s1 (ex_request "PUT" "/plain/k" [] [("Content-MD5", "AAAAAAAAAAAAAAAAAAAAAA==")] "new") in
  let s3 := ex_serve s2 (ex_plain "GET" "/plain/k" "") in
  body (ex_serve s1 (ex_plain "GET" "/plain/k" "")) = [PBytes "old"] ∧
  status s2 = Some StatusBadRequest ∧ version_ids "plain" "k" s2 = ["null"] ∧
  status s3 = Some StatusOK ∧ body s3 = [PBytes ""].
Proof. vm_compute. done. Qed.

(** Two versions, the older under legal hold. *)
Definition ex_two_versions : s3_state scripted_persister :=
  ex_run [ex_plain "PUT" "/kept/k" "one"; ex_request "PUT" "/kept/k" [("legal-hold", "")] [] "ON";
          ex_plain "PUT" "/kept/k" "two"].
Definition ex_newest : string := default "" (last (version_ids "kept" "k" ex_two_versions)).

(** A batch deletion that names one version removes every version of the key, the
    one under legal hold with them. *)
Theorem batch_deletion_removes_all_versions :
  let s := ex_serve ex_two_versions
    (ex_request "POST" "/kept" [("delete", "")] [] ("k:" +:+ ex_newest)) in
  length (version_ids "kept" "k" ex_two_versions) = 2%nat ∧
  existsb (λ v, objectLocked v ex_clock)
    (versions_of (ms_st (s3_store ex_two_versions)) (mkObjectKey "kept" "k")) = true ∧
  body s = [PDoc (DocDelete [mkDeleteObjectXML "k" ex_newest] [])] ∧
  version_ids "kept" "k" s = [] ∧ size (fs_files (s3_world s)) = 0%nat.
Proof. vm_compute. done. Qed.

(** A bucket whose objects are hidden by delete markers is deleted as empty; created
    again it has their versions, and they read as before. *)
Theorem deleted_bucket_keeps_versions :
  let s1 := ex_run [ex_plain "PUT" "/kept/k" "one"; ex_plain "DELETE" "/kept/k" ""] in
  let old := default "" (head (version_ids "kept" "k" s1)) in
  let s2 := ex_serve s1 (ex_plain "DELETE" "/kept" "") in
  let s3 := ex_serve s2 (ex_plain "PUT" "/kept" "") in
  let s4 := ex_serve s3 (ex_request "GET" "/kept/k" [("versionId", old)] [] "") in
  status s2 = Some StatusNoContent ∧ status s3 = Some StatusOK ∧
  status s4 = Some StatusOK ∧ body s4 = [PBytes "one"].
Proof. vm_compute. done. Qed.

(** A retention in COMPLIANCE mode is replaced by a shorter one, and the version is
    deleted once that is over. *)
Theorem compliance_retention_shortened :
  let later := ex_format (ex_clock + 1000 * second) in
  let sooner := ex_format (ex_clock + 1 * second) in
  let retain value := ex_request "PUT" "/kept/k" [("retention", "")] [] value in
  let s1 := ex_run [ex_plain "PUT" "/kept/k" "one"; retain ("COMPLIANCE:" +:+ later)] in
  let id := default "" (head (version_ids "kept" "k" s1)) in
  let del := ex_request "DELETE" "/kept/k" [("versionId", id)] [] "" in
  let tick s := mkS3State (s3_store s) (let w := s3_world s in mkWorld (fs_files w) (fs_dirs w)
    (fs_mtimes w) (fs_faults w) (fs_crashed w) (fs_clock w + 2 * second)) (s3_draws s) (s3_events s) (s3_resp s) in
  let s2 := ex_serve s1 (retain ("GOVERNANCE:" +:+ sooner)) in
  status (ex_serve (tick s1) del) = Some StatusForbidden ∧
  status s2 = Some StatusOK ∧ status (ex_serve (tick s2) del) = Some StatusNoContent.
Proof. vm_compute. done. Qed.

(** The name of a user metadata header is the name of an internal entry: a PUT puts
    its own object under legal hold without the legal-hold request. *)
Theorem user_metadata_sets_legal_hold :
  let s := ex_run [ex_request "PUT" "/plain/k" [] [("x-amz-meta-__s000_legal_hold", "ON")] "x"] in
  status (ex_serve s (ex_plain "DELETE" "/plain/k" "")) = Some StatusForbidden.
Proof. vm_compute. done. Qed.

(** An empty object cannot be copied, and the attempt removes the destination's
    bytes. *)
Theorem copy_of_empty_object_destroys_target :
  let s1 := ex_run [ex_plain "PUT" "/plain/empty" ""; ex_plain "PUT" "/plain/k" "old"] in
  let s2 := ex_serve s1 (ex_request "PUT" "/plain/k" [] [("X-Amz-Copy-Source", "/plain/empty")] "") in
  status s2 = Some StatusInternalServerError ∧ version_ids "plain" "k" s2 = ["null"] ∧
  body (ex_serve s2 (ex_plain "GET" "/plain/k" "")) = [PBytes ""].
Proof. vm_compute. done. Qed.

(** On the host of a bucket, GET / lists all buckets instead of the bucket. *)
Theorem virtual_host_root_lists_buckets :
  let r := mkRequest "GET" "kept.s3.local" "/" (<["list-type" := ["2"]]> ∅) ∅ (bytes_reader "") "" ""
             (Ok tt) "/" "list-type=2" "" "127.0.0.1:4000" false in
  bucketAndKey r "s3.local" = Some ("kept", "") ∧
  ∃ items, body (ex_serve ex_buckets r) = [PDoc (DocListBuckets items)] ∧ items.*1 = ["kept"; "plain"].
Proof. split; [done|]. eexists. vm_compute. done. Qed.

(** A part refused for its checksum takes the staged bytes of all parts with it,
    while their metadata stays: the upload can no longer be completed. *)
Theorem refused_part_loses_staged_parts :
  let start := ex_run [ex_request "POST" "/plain/big" [("uploads", "")] [] ""] in
  let id := default "" (head (map_to_list (st_multipart (ms_st (s3_store start)))).*1) in
  let part n headers content :=
    ex_request "PUT" "/plain/big" [("uploadId", id); ("partNumber", n)] headers content in
  let s1 := ex_serve start (part "1" [] "hello") in
  let etag := match GetMultipartUpload id (s3_store s1) with Ok (_, p :: _) => mp_ETag p | _ => "" end in
  let complete := ex_request "POST" "/plain/big" [("uploadId", id)] [] ("1:" +:+ etag) in
  let s2 := ex_serve s1 (part "2" [("x-amz-checksum-sha256", "wrong")] "world") in
  status (ex_serve s1 complete) = Some StatusOK ∧
  status s2 = Some StatusBadRequest ∧
  status (ex_serve s2 complete) = Some StatusInternalServerError.
Proof. vm_compute. done. Qed.
